(* ===== verification/_CoqProject ===== *)
-Q . S2P
Prelude.v
Bits64.v
MerkleTree.v
MerkleProof.v
MerkleProofCorrect.v
DposErrors.v
DposApi.v
LuckyWheel.v
ObligationLock.v
Upload.v
UploadHandler.v
HostStore.v
HostContract.v
HostDebug.v
HostTree.v
StorageConst.v
HostEval.v
DposTx.v
StorageClient.v
FileDownload.v
ClientLifecycle.v
