(* ===== verification/Prelude.v ===== *)
(** * A verification development of godx's storage negotiation, host selection and DPoS helpers

    The repository holds pieces of the godx node (Go). On the DPoS side:
    the Merkle diff-proof engine and the RPC API of
    [src/consensus/dpos/api.go], the error values and the lucky-wheel
    random selection of [src/consensus/dpos/errors.go], and
    the RPC API that builds and checks precompiled-contract transactions
    ([src/unnamed/part_005]). On the storage host: the per-contract locks
    ([src/storage/storagehost/storageobligationslock.go]), the upload
    negotiation
    ([src/storage/storagehost/hostnegotiation/contractuploadhandler.go])
    with the [Protocol] it is written against, and the host's
    implementation of it ([src/storage/storagehost/negotiationproto.go]).
    On the storage client: the host tree
    ([src/storage/storageclient/storagehosttree/node.go]), from which
    hosts are drawn in proportion to their evaluation; the evaluation
    itself ([storagehosttree/evaluation.go] and the adjustments of the
    host manager in [src/unnamed/part_000]); the client's
    [ContractCreate], [Write] and [Read] ([src/unnamed/part_000]); its
    file download, from a request to the queued segments, and its
    lifecycle ([New], [Start], [Close], [DownloadSync], [DownloadAsync]). The message
    codes and constants of the protocol are in [src/unnamed/part_003] and
    [contractcreatenegotiation/const.go].

    How the parts interact. A client evaluates hosts (HostEval), keeps
    them in the host tree weighted by their evaluation (HostTree), and
    negotiates with the chosen host: [ContractCreate] to form a contract,
    [Write] to upload and [Read] to download (StorageClient), with
    messages named by the codes of StorageConst. A file download
    (FileDownload) splits a byte range of a file into segments queued for
    the download loop that [Start] launches (ClientLifecycle). On the host, an upload arrives at
    [ContractUploadHandler]. It computes the new sector roots and the new
    revision, proves the old roots with the diff-proof engine
    ([calcOldHashSet] calls the engine over a cached source), and commits
    through the [Protocol] ([ModifyStorageResponsibility], with a rollback
    when the client does not acknowledge). The host serialises work on a
    contract with the obligation locks. Contracts and DPoS operations
    reach the chain as transactions to precompiled contracts (DposTx).

    Files, in dependency order:
    - [Prelude]: the [result] type for Go's [(value, error)] with its bind
      notation and lemmas, 64-bit integer helpers ([u64], [s64] with
      [s64_id] and [s64_add_mul]), list slicing ([sub] for [l[i:i+n]],
      [zsub] for [l[s:e]] with [zsub_merge]), the hint databases [godx]
      and [godx_rw] and the tactics [invc], [case_bool], [bool_to_prop]
      and [simpl_result].
    - [Bits64]: [bits.TrailingZeros64], [bits.Len64] and [1 << k] on [int],
      with wrap-around.
    - [MerkleTree]: the [crypto/merkle] tree the engine uses (not under
      [src/]; from the spec): a stack of subtrees joined at equal
      heights, with digests abstract in the class [MerkleHash].
    - [MerkleProof]: every function of the engine in [api.go] (lines
      87-399). The two leaf sources are instances of the class
      [SubtreeRoot] and the two leaf-root sources instances of [LeafRoot].
      Proof construction ([getLimitStorageProof]) and verification
      ([checkLimitStorageProof]) are Fixpoints over explicit records for
      the closures' state. Also the theorem that [adjacentSubtreeSize] is
      the largest aligned power of two (C2).
    - [MerkleProofCorrect]: a simulation between construction and
      verification, and the round trip (C1): the proof of a cached tree,
      checked with the leaves of the ranges, is accepted exactly for the
      tree's root. The verifier's loops, with the code's guards, end (C29).
    - [DposErrors]: the error values of [errors.go] with their messages;
      no two share a message ([Error_injective]).
    - [DposApi]: the RPC methods of [api.go] ([GetValidators],
      [GetConfirmedBlockNumber], [GetVotedCandidatesByAddress]) over a
      class [DposChain] for the chain reader and the DPoS tries; the
      pending block number is looked up as block [2^64 - 2].
    - [LuckyWheel]: [newLuckyWheel], [RandomSelect], [selectSingleEntry]
      and their helpers. The random source is a stream of draws. C3 and
      C4 prove the selection's defects.
    - [ObligationLock]: the three lock functions as an interleaving step
      relation over [h.lock], the map of [TryMutex] flags and the threads.
      Mutual exclusion (C5) and progress for timed locks (C6) are proved
      by induction on executions, and a reachable deadlock for blocking
      locks (C7) by computation.
    - [Upload]: the pure part of the upload handler (actions, revision,
      upload proof, responsibility update). C8 and C9 give the behaviour
      of append-only uploads.
    - [UploadHandler]: the handler in a state and error monad over the host
      and the session, against the class [HostProtocol] (Go's
      [Protocol]). The class [UploadStore] states the rollback laws, and
      C10 is the all-or-nothing theorem of the spec's Scenario D.
    - [HostStore]: the [StorageHost] methods as an instance of both
      classes (database as a [gmap], sectors as a [gmultiset]), and a run
      of Scenario D on a concrete host.
    - [HostContract]: the creation-negotiation methods of the host
      ([FinalizeStorageResponsibility], [RollBackCreateStorageResponsibility],
      [InsertContract], [RollBackConnectionType], [SetStatic], ...) as the
      class [CreateProtocol] and its instance, over the host, its table of
      per-contract mutexes and its client-to-contract map. Finalizing a
      new responsibility and rolling it back restores the database and
      drops the contract's mutex (C24); a refused insert persists nothing
      and drops the mutex (C33); no sequence of calls from a state
      without a held mutex leaves one held (C23, by induction on the
      calls); [ReadSector] calls itself and never returns.
    - [HostDebug]: the functions of [debug.go] and the [HostDeBugAPI]
      methods of [api_storagehost.go] in an option-state monad over the
      host's fields and its read-write lock ([None] is a call that blocks
      on the lock). Every call started on a free lock returns with the
      lock free (C27); [setDefault] changes the configuration even while
      another goroutine holds the lock; [setRevisionNumber] stores
      [uint64] of its argument.
    - [HostTree]: the nodes of the host tree as an inductive tree with
      paths for Go's node pointers. Insertion keeps the evaluation sums
      well formed (C11). Selection returns an occupied node (C12) and
      each node for exactly as many values as its evaluation (C13).
      Removal leaves the node's own evaluation stale (C14), so once a
      leaf child of the root is removed the values below its evaluation
      select the removed node and fail (C15).
      Selection equals a reference prefix-sum choice, and insertion
      and removal refine a multiset of hosts (C28).
    - [StorageConst]: the message codes as an enumeration, with two pairs
      of colliding codes; the block-time constants and
      [DefaultRentPayment].
    - [HostEval]: the adjustment factors of a host with Rocq's binary64
      floats. The age factor grows with age, and a host from the future
      gets 1 (C25). The remaining-storage factor is [1/2^k] and grows with
      the storage left (C26).
    - [DposTx]: [CheckDposOperationTx] with [int64] truncation, and the
      sending path against the class [DposBackend]. The check is exact in
      range (C16), accepts a deposit of [2^64] plus the minimum (C17),
      never returns [ErrEmptyInput] (C18), and the transaction sent
      carries amount zero (C19).
    - [StorageClient]: the client's [Write], two versions of
      [ContractCreate] and two versions of [Read] and [Downlaod]/[Download]
      ([part_000] holds three versions of the [storageclient] package; a
      function whose later copy has the same code is that copy too, as
      [Write_v2], [setBandwidthLimits_v3], [New_v3] or [Close_v2]),
      in a state and error monad over the session, the written buffer, the
      submitted transactions, the disconnections and the interaction
      counts. [Write] always panics on a nil [*big.Int] (C20).
      [ContractCreate] returns early after a successful read (C21) and
      never submits the contract (C22). [Read] returns its sanity-check
      error or panics on the empty [lastRevision] it prices against, before
      anything is sent (C30); its sanity check accepts exactly the sections
      within the sector and, with a Merkle proof, on segment boundaries
      (C31); its response loop writes the sections' data in order (C32);
      and [Downlaod]/[Download] return an empty buffer with the error that
      the section's offset and length determine.
    - [FileDownload]: [newDownload] and [managedDownload] as functions
      from the request to the download and the segments queued, over a
      [DxFile] snapshot modelled from its use. The queued segments fetch
      exactly the requested bytes, each written at its offset in the
      destination (C34, a refinement of the byte range by the segment
      plan, through the slices [zsub] of the prelude); [newDownload] fails
      only when the range passes the end of the file (C35); a request
      [managedDownload] accepts passes [newDownload] (C36); and every
      offset inside the file with a length whose sum with it wraps past
      [2^64] to an end inside the file passes both range checks: the
      download ends past the file, or [make] panics (C37).
    - [ClientLifecycle]: the client's fields and a thread manager in a
      state and error monad; [New], [Start] of the versions, [Close],
      [DownloadSync] and [DownloadAsync]. On a running client the
      downloads do what [managedDownload] decides, queue its segments
      exactly when it succeeds, and leave the thread manager as they
      found it (C38); they are refused after [Close] (C39), and the
      second [Start] launches the download loop exactly when it succeeds
      (C40).

    Bounds and fuel. Go's [uint64] and [int] are [Z] with the wrap-around
    written out ([u64], [s64], [shl1_int]); [float64] is the primitive
    [float], so the factors of HostEval are computed with Go's rounding.
    The loops of the engine run on fuel: [consumeUntil] is given the
    number of leaves left plus two (each iteration consumes at least one
    leaf, and the last one stops), the verifier's [consumeUntil] the
    length of the proof plus one (each round pops a hash), and its leaf
    loop [for i := r.Left; i < r.Right; i++], written with its guard and
    its [uint64] increment, [r.Right - r.Left] rounds plus the final
    test. C1 proves that this fuel is enough for every tree of fewer
    than [2^63] leaves, the largest span [adjacentSubtreeSize] handles
    without overflow, and C29 that the verifier's loops end within it
    for every range of [uint64] bounds, so an [ErrFuel] would be a loop
    of the code that does not end. The download theorems
    C34-C36 hold for requests that end below [2^63] (the [int64] write
    offsets then do not wrap) and segments smaller than [2^63]; C37 covers
    the sums that pass [2^64]. The lock model is bounded
    by the sessions given to the threads. Every other loop is structural
    recursion on a list or a tree.

    Not modelled. The objects the client's
    [New] creates (memory manager, host manager), the download loop and
    the workers, whose code is not under [src/]. The completion callbacks
    of a download (timing, closing the destination) are left out. The
    cancellation goroutine of [Read] has no effect on the call and is
    left out. [GetStateDB] of the host only reads the chain through the
    backend. The [HostDeBugAPI] struct only holds the host that its
    methods are given. Test or example code: the trie examples of
    [storageobligationslock.go], [part_001], [part_002], [part_004] and the
    memory test. Library code that the sources only call is abstract:
    hashes, signatures, RLP, [calcHostRevenue], [uploadRevisionValidation],
    [math.Pow] and the host manager's constants are section variables or
    class methods, so every theorem holds whatever they are. The slice
    aliasing in the lucky wheel (its [append] writes into the caller's
    array) is reported as a finding rather than modelled. *)

From Stdlib Require Import ZArith List Lia Bool.
From stdpp Require Import base decidable list.
Import ListNotations.

(** ** Scope of the development *)

Declare Scope godx_scope.
Delimit Scope godx_scope with godx.
Open Scope godx_scope.

(** ** Results: Go's [(value, error)] pairs

    A Go function returning [(T, error)] is modelled as a value of
    [result E T]: [Ok v] when the error is [nil], [Err e] otherwise. *)

Inductive result (E A : Type) : Type :=
| Ok (a : A)
| Err (e : E).
Arguments Ok {E A} a.
Arguments Err {E A} e.

Definition bind_result {E A B} (c : result E A) (k : A -> result E B) : result E B :=
  match c with
  | Ok a => k a
  | Err e => Err e
  end.

Notation "x <- c ;; k" := (bind_result c (fun x => k))
  (at level 60, c at next level, right associativity) : godx_scope.

Definition is_ok {E A} (r : result E A) : bool :=
  match r with Ok _ => true | Err _ => false end.

Lemma bind_result_ok {E A B} (c : result E A) (k : A -> result E B) (b : B) :
  bind_result c k = Ok b -> exists a, c = Ok a /\ k a = Ok b.
Proof. destruct c; simpl; [eauto | discriminate]. Qed.

Lemma bind_result_err {E A B} (c : result E A) (k : A -> result E B) (e : E) :
  bind_result c k = Err e -> c = Err e \/ exists a, c = Ok a /\ k a = Err e.
Proof. destruct c; simpl; [right; eauto | left; congruence]. Qed.

Lemma bind_result_Ok {E A B} (a : A) (k : A -> result E B) :
  bind_result (Ok a) k = k a.
Proof. reflexivity. Qed.

Lemma bind_result_Err {E A B} (e : E) (k : A -> result E B) :
  bind_result (Err e) k = Err e.
Proof. reflexivity. Qed.

Lemma bind_result_not_err {E A B} (c : result E A) (k : A -> result E B) (e : E) :
  c <> Err e -> (forall a, k a <> Err e) -> bind_result c k <> Err e.
Proof. destruct c; cbn; [auto | congruence]. Qed.

Lemma bind_result_map_ok {E A B} (c : result E A) (f : A -> B) (b : B) :
  bind_result c (fun a => Ok (f a)) = Ok b <-> exists a, c = Ok a /\ f a = b.
Proof. destruct c; cbn; split; [intros [= <-] | intros (? & [= <-] & <-) | discriminate | intros (? & ? & _)]; eauto; discriminate. Qed.

(** ** Machine integers

    Go's [uint64] and [int] (64 bits on the targets of the code) are kept
    as [Z] values in range; every arithmetic operation whose wrap-around
    matters is reduced explicitly with [u64] or [s64]. *)

Open Scope Z_scope.

Definition two64 : Z := 2 ^ 64.

(** [uint64(z)]: reduction modulo [2^64]. *)
Definition u64 (z : Z) : Z := z mod two64.

(** [int64(z)]: two's-complement reinterpretation of the low 64 bits. *)
Definition s64 (z : Z) : Z :=
  let u := u64 z in if u <? 2 ^ 63 then u else u - two64.

Definition MaxUint64 : Z := two64 - 1.

Definition is_u64 (z : Z) : Prop := (0 <= z < two64)%Z.

Lemma u64_small z : (0 <= z < two64)%Z -> u64 z = z.
Proof. intros H. unfold u64. apply Z.mod_small. exact H. Qed.

(** A sum of two [uint64]s that passes [2^64] wraps once. *)
Lemma u64_wrap z : (two64 <= z < 2 * two64)%Z -> u64 z = (z - two64)%Z.
Proof.
  intros Hz. unfold u64. replace z with (z - two64 + 1 * two64) at 1 by lia.
  rewrite Z.mod_add by (unfold two64; lia). apply Z.mod_small. lia.
Qed.

Lemma u64_range z : (0 <= u64 z < two64)%Z.
Proof. unfold u64, two64. apply Z.mod_pos_bound. lia. Qed.

Lemma s64_small z : (0 <= z < 2 ^ 63)%Z -> s64 z = z.
Proof.
  intros H. unfold s64. rewrite u64_small by (unfold two64; lia).
  destruct (Z.ltb_spec z (2 ^ 63)); lia.
Qed.

(** [int64] reinterpretation is the identity on the [int64] range. *)
Lemma s64_id z : (- 2 ^ 63 <= z < 2 ^ 63)%Z -> s64 z = z.
Proof.
  intros H. unfold s64, u64, two64. destruct (Z_lt_le_dec z 0).
  - assert (E : z mod 2 ^ 64 = z + 2 ^ 64) by (symmetry; apply (Z.mod_unique z (2 ^ 64) (-1)); lia).
    rewrite E.
    destruct (Z.ltb_spec (z + 2 ^ 64) (2 ^ 63)); lia.
  - rewrite Z.mod_small by lia. destruct (Z.ltb_spec z (2 ^ 63)); lia.
Qed.

(** Multiples of [2^64] vanish in [int64]. *)
Lemma s64_add_mul z k : s64 (z + k * two64) = s64 z.
Proof. unfold s64, u64. rewrite Z.mod_add by (unfold two64; lia). reflexivity. Qed.

Close Scope Z_scope.

(** ** Lists: slices as [take]/[drop] *)

(** [sub l i n] is the Go slice [l[i:i+n]] clamped to the list. *)
Definition sub {A} (l : list A) (i n : nat) : list A := take n (drop i l).

Lemma take_add {A} (l : list A) (a b : nat) :
  take (a + b) l = take a l ++ sub l a b.
Proof. unfold sub. symmetry. apply take_take_drop. Qed.

Lemma length_sub_le {A} (l : list A) i n :
  i + n <= length l -> length (sub l i n) = n.
Proof. intros H. unfold sub. rewrite length_take, length_drop. lia. Qed.

Lemma length_sub_ge {A} (l : list A) i n :
  length l <= i + n -> length (sub l i n) = length l - i.
Proof. intros H. unfold sub. rewrite length_take, length_drop. lia. Qed.

Lemma sub_app_split {A} (l : list A) i a b :
  sub l i (a + b) = sub l i a ++ sub l (i + a) b.
Proof. unfold sub. rewrite take_add. unfold sub. rewrite drop_drop. reflexivity. Qed.

Lemma take_full {A} (l : list A) n : length l <= n -> take n l = l.
Proof. intros H. apply take_ge. exact H. Qed.

(** [zsub l s e] is the Go slice [l[s:e]] for [Z] bounds. *)
Definition zsub {A} (l : list A) (s e : Z) : list A := sub l (Z.to_nat s) (Z.to_nat (e - s)).

(** Adjacent slices merge. *)
Lemma zsub_merge {A} (l : list A) (a b c : Z) :
  (0 <= a <= b)%Z -> (b <= c)%Z -> zsub l a b ++ zsub l b c = zsub l a c.
Proof.
  intros Hab Hbc. unfold zsub.
  replace (Z.to_nat (c - a)) with (Z.to_nat (b - a) + Z.to_nat (c - b))%nat by lia.
  rewrite sub_app_split. do 2 f_equal. lia.
Qed.

(** ** Proof automation *)

Create HintDb godx discriminated.
Create Rewrite HintDb godx_rw.

#[export] Hint Resolve u64_range : godx.
#[export] Hint Rewrite @bind_result_Ok @bind_result_Err : godx_rw.

(** [invc H]: invert [H], substitute and clear it. *)
Ltac invc H := inversion H; subst; clear H.

(** [case_bool]: case on the first boolean test of the goal, turning it
    into the proposition it decides. *)
Ltac case_bool :=
  match goal with
  | |- context [Z.eqb ?a ?b] => destruct (Z.eqb_spec a b)
  | |- context [Z.ltb ?a ?b] => destruct (Z.ltb_spec a b)
  | |- context [Z.leb ?a ?b] => destruct (Z.leb_spec a b)
  | |- context [Nat.eqb ?a ?b] => destruct (Nat.eqb_spec a b)
  | |- context [Nat.ltb ?a ?b] => destruct (Nat.ltb_spec a b)
  | |- context [Nat.leb ?a ?b] => destruct (Nat.leb_spec a b)
  end.

(** [bool_to_prop]: turn the boolean tests among the hypotheses into the
    propositions they decide. *)
Ltac bool_to_prop :=
  repeat match goal with
  | H : (_ || _) = false |- _ => apply orb_false_iff in H as [? ?]
  | H : (_ && _) = true |- _ => apply andb_true_iff in H as [? ?]
  | H : (_ <? _)%Z = true |- _ => apply Z.ltb_lt in H
  | H : (_ <? _)%Z = false |- _ => apply Z.ltb_ge in H
  | H : (_ =? _)%Z = true |- _ => apply Z.eqb_eq in H
  | H : (_ =? _)%Z = false |- _ => apply Z.eqb_neq in H
  end.

(** [simpl_result]: simplify binds on known results. *)
Ltac simpl_result := autorewrite with godx_rw in *.
