(* ===== verification/Bits64.v ===== *)
(** * Go's [math/bits] on 64-bit words

    [bits.TrailingZeros64], [bits.Len64] and the shift [int(1) << uint(k)]
    used by the Merkle engine ([adjacentSubtreeSize]), on [Z] values with
    Go's wrap-around written out, and the arithmetic facts the proofs of
    the engine need: alignment to powers of two and the logarithm bound. *)

From Stdlib Require Import ZArith List Lia.
From S2P Require Import Prelude.

Open Scope Z_scope.

(** Trailing zeros of a positive number. *)
Fixpoint pos_tz (p : positive) : Z :=
  match p with
  | xO q => Z.succ (pos_tz q)
  | _ => 0
  end.

(** [bits.TrailingZeros64(x)]: 64 for 0. *)
Definition TrailingZeros64 (x : Z) : Z :=
  match u64 x with
  | Zpos p => pos_tz p
  | _ => 64
  end.

(** [bits.Len64(x)]: the number of bits needed to write [x]; 0 for 0. *)
Definition Len64 (x : Z) : Z :=
  if u64 x =? 0 then 0 else Z.log2 (u64 x) + 1.

(** [int(1) << uint(s)] for an [int] shift count [s]: Go converts the
    count to [uint] (so a negative count becomes huge), a count of 64 or
    more shifts every bit out, and the result is a signed 64-bit [int]. *)
Definition shl1_int (s : Z) : Z :=
  let u := u64 s in if u <? 64 then s64 (2 ^ u) else 0.

(** ** Facts *)

Lemma pos_tz_nonneg p : 0 <= pos_tz p.
Proof. induction p; simpl; lia. Qed.

Lemma pos_tz_spec p : exists q, 0 <= q /\ Zpos p = 2 ^ pos_tz p * (2 * q + 1).
Proof.
  induction p as [p _ | p [q [Hq Hp]] |]; simpl.
  - exists (Zpos p). rewrite Pos2Z.inj_xI. lia.
  - exists q. split; [exact Hq|]. rewrite Pos2Z.inj_xO, Hp, Z.pow_succ_r by apply pos_tz_nonneg.
    lia.
  - exists 0. lia.
Qed.

Lemma pos_tz_pow_le p : 2 ^ pos_tz p <= Zpos p.
Proof.
  destruct (pos_tz_spec p) as [q [Hq Hp]]. rewrite Hp.
  pose proof (Z.pow_pos_nonneg 2 (pos_tz p) ltac:(lia) (pos_tz_nonneg p)). nia.
Qed.

Lemma TrailingZeros64_pos x :
  0 < x < two64 -> exists q, 0 <= q /\ x = 2 ^ TrailingZeros64 x * (2 * q + 1).
Proof.
  intros Hx. unfold TrailingZeros64. rewrite u64_small by lia.
  destruct x as [|p|p]; try lia. apply pos_tz_spec.
Qed.

Lemma TrailingZeros64_range x : 0 <= TrailingZeros64 x <= 64.
Proof.
  unfold TrailingZeros64. pose proof (u64_range x) as Hr.
  destruct (u64 x) as [|p|p] eqn:E; try lia.
  split; [apply pos_tz_nonneg|].
  pose proof (pos_tz_pow_le p).
  destruct (Z.le_gt_cases (pos_tz p) 64) as [|Hlt]; [lia|].
  assert (2 ^ 64 < 2 ^ pos_tz p) by (apply Z.pow_lt_mono_r; lia).
  unfold two64 in Hr. lia.
Qed.

Lemma TrailingZeros64_zero : TrailingZeros64 0 = 64.
Proof. reflexivity. Qed.

(** A number is a multiple of every power of two up to its trailing zeros. *)
Lemma TrailingZeros64_aligned x k :
  0 <= x < two64 -> 0 <= k <= TrailingZeros64 x -> x mod 2 ^ k = 0.
Proof.
  intros Hx Hk. destruct (Z.eq_dec x 0) as [->|Hnz]; [apply Z.mod_0_l; lia|].
  destruct (TrailingZeros64_pos x ltac:(lia)) as [q [Hq Heq]].
  rewrite Heq. replace (TrailingZeros64 x) with (k + (TrailingZeros64 x - k)) by lia.
  rewrite Z.pow_add_r by lia. rewrite <- !Z.mul_assoc, Z.mul_comm, Z.mod_mul; [lia|].
  apply Z.pow_nonzero; lia.
Qed.

(** ... and of no larger one. *)
Lemma TrailingZeros64_exact x :
  0 < x < two64 -> x mod 2 ^ (TrailingZeros64 x + 1) <> 0.
Proof.
  intros Hx. destruct (TrailingZeros64_pos x Hx) as [q [Hq Heq]].
  pose proof (TrailingZeros64_range x).
  set (t := TrailingZeros64 x) in *.
  rewrite Heq, Z.pow_add_r, Z.pow_1_r by lia.
  assert (Ht : 0 < 2 ^ t) by (apply Z.pow_pos_nonneg; lia).
  rewrite Z.mul_comm with (n := 2 ^ t) (m := 2).
  rewrite Z.mul_comm with (n := 2 ^ t). rewrite Zmult_mod_distr_r.
  replace ((2 * q + 1) mod 2) with 1.
  - lia.
  - rewrite Z.add_comm, Z.mul_comm, Z.mod_add by lia. reflexivity.
Qed.

Lemma TrailingZeros64_le x : 0 < x < two64 -> 2 ^ TrailingZeros64 x <= x.
Proof.
  intros Hx. destruct (TrailingZeros64_pos x Hx) as [q [Hq Heq]].
  pose proof (TrailingZeros64_range x).
  assert (0 < 2 ^ TrailingZeros64 x) by (apply Z.pow_pos_nonneg; lia). nia.
Qed.

(** The trailing zeros of a power of two are its exponent. *)
Lemma TrailingZeros64_pow2 k : 0 <= k <= 63 -> TrailingZeros64 (2 ^ k) = k.
Proof.
  intros Hk. assert (Hp : 0 < 2 ^ k < two64) by
    (split; [apply Z.pow_pos_nonneg; lia | unfold two64; apply Z.pow_lt_mono_r; lia]).
  pose proof (TrailingZeros64_range (2 ^ k)) as Hr.
  set (t := TrailingZeros64 (2 ^ k)) in *.
  destruct (Z.lt_total t k) as [Hlt|[Heq|Hgt]]; [exfalso| exact Heq | exfalso].
  - apply (TrailingZeros64_exact (2 ^ k) Hp). fold t.
    replace k with ((k - (t + 1)) + (t + 1)) at 1 by lia.
    rewrite Z.pow_add_r by lia. apply Z.mod_mul. apply Z.pow_nonzero; lia.
  - pose proof (TrailingZeros64_aligned (2 ^ k) t ltac:(lia) ltac:(lia)) as Hm.
    rewrite Z.mod_small in Hm; [lia|]. split; [lia|]. apply Z.pow_lt_mono_r; lia.
Qed.

Lemma Len64_pos x : 0 < x < two64 -> Len64 x = Z.log2 x + 1.
Proof.
  intros Hx. unfold Len64. rewrite u64_small by lia.
  destruct (Z.eqb_spec x 0); lia.
Qed.

Lemma Len64_zero : Len64 0 = 0.
Proof. reflexivity. Qed.

(** [1 << k] for an exponent in [0..62] is the power of two. *)
Lemma shl1_int_small k : 0 <= k <= 62 -> shl1_int k = 2 ^ k.
Proof.
  intros Hk. unfold shl1_int. rewrite u64_small by (unfold two64; lia).
  destruct (Z.ltb_spec k 64); [|lia].
  apply s64_small. split; [apply Z.pow_nonneg; lia|].
  apply Z.pow_lt_mono_r; lia.
Qed.

(** [1 << 63] overflows [int] to its most negative value. *)
Lemma shl1_int_63 : shl1_int 63 = - 2 ^ 63.
Proof. reflexivity. Qed.

(** [1 << uint(-1)] is 0: the count wraps to [2^64 - 1]. *)
Lemma shl1_int_neg1 : shl1_int (-1) = 0.
Proof. reflexivity. Qed.

#[export] Hint Resolve TrailingZeros64_range : godx.
