(* ===== verification/MerkleTree.v ===== *)
(** * The Merkle tree of [crypto/merkle] (model of the library)

    The diff-proof engine of [src/consensus/dpos/api.go] builds its trees
    with [NewTree], [Tree.PushSubTree], [Tree.PushLeaf] and [Tree.Root] of
    the package [crypto/merkle], whose source is not under [src/]: they
    are modelled here from the spec (section 4.1) and from the stack
    algorithm the engine relies on. A tree is the linked list of its
    pending subtrees, the newest (smallest) first; pushing a subtree joins
    it with the previous one while their heights are equal, and the root
    folds the remaining subtrees from the newest to the oldest.

    Digests are kept abstract: a type [H] with the empty slice [hnil]
    (what [Root] returns for an empty tree), the leaf hash [leafSum] and
    the interior hash [nodeSum].

    The lemmas relate pushing a whole aligned subtree to pushing its
    leaves one by one ([pushes_full_subtree]), and pushing the short last
    subtree of a sequence to pushing its leaves ([root_short_subtree]):
    the two facts on which the correctness of diff proofs rests. *)

From Stdlib Require Import List Lia Arith.
From stdpp Require Import base list.
From S2P Require Import Prelude.
Import ListNotations.

(** ** Digests *)

Class MerkleHash (H : Type) := {
  hnil : H;
  leafSum : list Byte.byte -> H;
  nodeSum : H -> H -> H;
}.

Section Tree.
Context {H : Type} `{MerkleHash H}.

(** A pending subtree: its height and its root. *)
Definition subTree : Type := (nat * H)%type.

(** [Tree.head]: the pending subtrees, newest first. *)
Definition Tree : Type := list subTree.

Definition NewTree : Tree := [].

Inductive tree_err := ErrSubtreeTooLarge.

(** [joinAllSubTrees] after a push of [(h, x)] onto [s]. *)
Fixpoint joinAllSubTrees (h : nat) (x : H) (s : Tree) : Tree :=
  match s with
  | (h2, x2) :: s' =>
      if Nat.eqb h h2 then joinAllSubTrees (S h2) (nodeSum x2 x) s'
      else (h, x) :: s
  | [] => [(h, x)]
  end.

(** [Tree.PushSubTree(height, sum)]: refuses a subtree higher than the
    newest pending one. *)
Definition PushSubTree (height : nat) (sum : H) (t : Tree) : result tree_err Tree :=
  match t with
  | (h0, _) :: _ => if Nat.ltb h0 height then Err ErrSubtreeTooLarge
                    else Ok (joinAllSubTrees height sum t)
  | [] => Ok (joinAllSubTrees height sum t)
  end.

(** [Tree.PushLeaf(data)]: a leaf is a subtree of height 0. *)
Definition PushLeaf (data : list Byte.byte) (t : Tree) : Tree :=
  joinAllSubTrees 0 (leafSum data) t.

(** [Tree.Root()]: [nil] for an empty tree. *)
Definition Root (t : Tree) : H :=
  match t with
  | [] => hnil
  | (_, x) :: rest => fold_left (fun cur (st : subTree) => nodeSum (snd st) cur) rest x
  end.

(** Pushing precomputed leaf roots, each at height 0 (as
    [CachedSubtreeRoot.GetSubtreeRoot] and [Sha256CachedTreeRoot2] do). *)
Fixpoint pushes (l : list H) (t : Tree) : Tree :=
  match l with
  | [] => t
  | x :: l' => pushes l' (joinAllSubTrees 0 x t)
  end.

(** [Sha256CachedTreeRoot2(roots)]: the root of a tree of leaf roots. *)
Definition CachedTreeRoot (l : list H) : H := Root (pushes l NewTree).

(** ** Invariants of the stack *)

(** The number of leaves under the pending subtrees. *)
Fixpoint weight (t : Tree) : nat :=
  match t with
  | [] => 0
  | (h, _) :: t' => 2 ^ h + weight t'
  end.

(** The newest pending subtree has height at least [k]. *)
Definition head_ge (k : nat) (t : Tree) : Prop :=
  match t with
  | [] => True
  | (h, _) :: _ => k <= h
  end.

(** ** Lemmas *)

Lemma pushes_app l1 l2 t : pushes (l1 ++ l2) t = pushes l2 (pushes l1 t).
Proof. revert t. induction l1; simpl; auto. Qed.

Lemma joinAll_weight h x t : weight (joinAllSubTrees h x t) = 2 ^ h + weight t.
Proof.
  revert h x. induction t as [|[h2 x2] t IH]; intros h x; simpl; [lia|].
  destruct (Nat.eqb_spec h h2) as [->|]; simpl; [rewrite IH; simpl; lia | lia].
Qed.

Lemma pushes_weight l t : weight (pushes l t) = length l + weight t.
Proof.
  revert t. induction l as [|x l IH]; intros t; simpl; [lia|].
  rewrite IH, joinAll_weight. simpl. lia.
Qed.

Lemma In_weight h x t : In (h, x) t -> 2 ^ h <= weight t.
Proof.
  induction t as [|[h2 x2] t IH]; simpl; [tauto|].
  intros [E|HIn]; [invc E; lia | specialize (IH HIn); lia].
Qed.

Lemma joinAll_head_ge k h x t : k <= h -> head_ge k (joinAllSubTrees h x t).
Proof.
  revert h x. induction t as [|[h2 x2] t IH]; intros h x Hk; simpl; [exact Hk|].
  destruct (Nat.eqb_spec h h2); [apply IH; lia | exact Hk].
Qed.

(** No join happens under a strictly higher subtree. *)
Lemma joinAll_no_join h x t :
  match t with (h2, _) :: _ => h < h2 | [] => True end ->
  joinAllSubTrees h x t = (h, x) :: t.
Proof.
  destruct t as [|[h2 x2] t]; simpl; [reflexivity|].
  intros Hlt. destruct (Nat.eqb_spec h h2); [lia | reflexivity].
Qed.

Lemma PushSubTree_ok k x t : head_ge k t -> PushSubTree k x t = Ok (joinAllSubTrees k x t).
Proof.
  destruct t as [|[h0 x0] t]; simpl; [reflexivity|].
  intros Hk. destruct (Nat.ltb_spec h0 k); [lia | reflexivity].
Qed.

(** Joining never changes the root: [Root] folds exactly as the joins do. *)
Lemma Root_joinAll h x t : Root (joinAllSubTrees h x t) = Root ((h, x) :: t).
Proof.
  revert h x. induction t as [|[h2 x2] t IH]; intros h x; simpl; [reflexivity|].
  destruct (Nat.eqb_spec h h2); [rewrite IH; reflexivity | reflexivity].
Qed.

Lemma Root_app t s : t <> [] -> Root (t ++ s) = fold_left (fun cur (st : subTree) => nodeSum (snd st) cur) s (Root t).
Proof.
  destruct t as [|[h x] t]; [congruence|]. intros _. simpl. apply fold_left_app.
Qed.

(** Pushing onto a stack whose newest subtree is higher than anything the
    push can build leaves the older part untouched. *)
Lemma joinAll_app h x t s hs :
  (forall h' x', In (h', x') (joinAllSubTrees h x t) -> h' < hs) ->
  head_ge hs s ->
  joinAllSubTrees h x (t ++ s) = joinAllSubTrees h x t ++ s.
Proof.
  revert h x. induction t as [|[h2 x2] t IH]; intros h x Hin Hs; simpl in *.
  - apply joinAll_no_join. destruct s as [|[h3 x3] s]; [exact I|].
    specialize (Hin h x (or_introl eq_refl)). simpl in Hs. lia.
  - destruct (Nat.eqb_spec h h2); [apply IH; assumption | reflexivity].
Qed.

Lemma pushes_app_stack c t s hs :
  weight t + length c < 2 ^ hs -> head_ge hs s ->
  pushes c (t ++ s) = pushes c t ++ s.
Proof.
  revert t. induction c as [|x c IH]; intros t Hw Hs; simpl; [reflexivity|].
  simpl in Hw. rewrite (joinAll_app 0 x t s hs); [| |exact Hs].
  - apply IH; [rewrite joinAll_weight; simpl; lia | exact Hs].
  - intros h' x' HIn. apply In_weight in HIn. rewrite joinAll_weight in HIn.
    simpl in HIn. apply (Nat.pow_lt_mono_r_iff 2); lia.
Qed.

(** *** Full aligned subtrees

    Pushing the [2^k] leaves of a subtree one by one is the same as
    pushing the subtree's root at height [k], provided the newest pending
    subtree is at least that high. *)
Lemma pushes_full_subtree k l :
  length l = 2 ^ k ->
  exists r, pushes l NewTree = [(k, r)] /\
    forall t, head_ge k t -> pushes l t = joinAllSubTrees k r t.
Proof.
  revert l. induction k as [|k IH]; intros l Hl.
  - destruct l as [|x [|y l]]; simpl in Hl; try lia.
    exists x. split; reflexivity.
  - rewrite <- (take_drop (2 ^ k) l). rewrite Nat.pow_succ_r' in Hl.
    destruct (IH (take (2 ^ k) l)) as [r1 [E1 F1]]; [rewrite length_take; lia|].
    destruct (IH (drop (2 ^ k) l)) as [r2 [E2 F2]]; [rewrite length_drop; lia|].
    exists (nodeSum r1 r2). split.
    + rewrite pushes_app, E1, F2 by (simpl; lia). simpl. rewrite Nat.eqb_refl. reflexivity.
    + intros t Ht. rewrite pushes_app, F1 by (destruct t as [|[]]; simpl in *; lia).
      rewrite (joinAll_no_join k r1 t) by (destruct t as [|[]]; simpl in *; lia).
      rewrite F2 by (simpl; lia). simpl. rewrite Nat.eqb_refl. reflexivity.
Qed.

Lemma pushes_full_subtree_root k l t :
  length l = 2 ^ k -> head_ge k t ->
  pushes l t = joinAllSubTrees k (CachedTreeRoot l) t.
Proof.
  intros Hl Ht. destruct (pushes_full_subtree k l Hl) as [r [E F]].
  unfold CachedTreeRoot. rewrite E. simpl. apply F, Ht.
Qed.

(** After pushing a whole number of aligned subtrees of height [k], the
    newest pending subtree is at least that high. *)
Lemma pushes_aligned_head_ge k m l :
  m * 2 ^ k <= length l -> head_ge k (pushes (take (m * 2 ^ k) l) NewTree).
Proof.
  induction m as [|m IH]; intros Hm; [rewrite take_0; exact I|].
  replace (S m * 2 ^ k) with (m * 2 ^ k + 2 ^ k) by lia.
  rewrite take_add, pushes_app.
  rewrite (pushes_full_subtree_root k) by (rewrite ?length_sub_le; lia || apply IH; lia).
  apply joinAll_head_ge. lia.
Qed.

(** *** The short last subtree

    A final subtree with fewer than [2^k] leaves, pushed whole at height
    [k], gives the same root as its leaves pushed one by one. *)
Lemma root_short_subtree k c t :
  c <> [] -> length c < 2 ^ k -> head_ge k t ->
  Root (joinAllSubTrees k (CachedTreeRoot c) t) = Root (pushes c t).
Proof.
  intros Hc Hlen Ht. rewrite Root_joinAll.
  rewrite <- (app_nil_l t) at 2.
  rewrite (pushes_app_stack c [] t k) by (simpl; lia || exact Ht).
  rewrite Root_app.
  - reflexivity.
  - intros E. apply (f_equal weight) in E. rewrite pushes_weight in E.
    destruct c; simpl in *; [congruence | lia].
Qed.

End Tree.

Arguments Tree H : clear implicits.
Arguments subTree H : clear implicits.
