(* ===== verification/MerkleProof.v ===== *)
(** * The range-limited diff-proof engine ([package merkle])

    Model of the second file of [src/consensus/dpos/api.go] (lines
    87-399): [adjacentSubtreeSize], [checkLimitList], the two leaf
    sources behind the [SubtreeRoot] interface ([SubtreeRootReader] on a
    byte stream, [CachedSubtreeRoot] on precomputed roots), the two leaf
    sources behind [LeafRoot], the proof construction
    [getLimitStorageProof] and the verification [checkLimitStorageProof].

    Go interfaces are classes: a source is a state type with the
    interface's methods as state-passing functions. The closures
    [consumeUntil] of both functions mutate the captured [leafIndex],
    source and proof list; they are Fixpoints over that explicit state.
    Their loops ([for leafIndex != end]) run on fuel: the construction's
    fuel is the number of leaves the source can still yield plus two (a
    call either consumes a leaf, stops, or, once, pushes an empty
    subtree), the verification's is the number of proof hashes plus one
    (each round consumes one); [MerkleProofCorrect] proves the fuel is
    never exhausted on the inputs of the theorems. *)

From Stdlib Require Import ZArith List Lia Arith.
From stdpp Require Import base list decidable.
From S2P Require Import Prelude Bits64 MerkleTree.
Import ListNotations.

Open Scope Z_scope.

(** Errors of the package: [io.EOF], [io.ErrUnexpectedEOF], the
    "parameter is invalid" error, a tree error, a runtime panic (negative
    slice index, [panic(err)]), and the exhaustion of the model's fuel
    (which the theorems exclude). *)
Inductive merkle_err :=
| ErrEOF
| ErrUnexpectedEOF
| ErrInvalidParameter
| ErrTree
| ErrPanic
| ErrFuel.

#[export] Instance merkle_err_eq_dec : EqDecision merkle_err.
Proof. solve_decision. Defined.

(** [SubTreeLimit]: a half-open range [[Left, Right)] of leaf indices. *)
Record SubTreeLimit := { Left : Z; Right : Z }.

(** [adjacentSubtreeSize(left, right)]: the largest power of two that is
    aligned at [left] and fits in [right - left]. *)
Definition adjacentSubtreeSize (left right : Z) : Z :=
  let leftInt := TrailingZeros64 left in
  let max := Len64 (right - left) - 1 in
  if max <? leftInt then shl1_int max else shl1_int leftInt.

(** [checkLimitList(limits)]: each range is non-empty and starts at or
    after the end of the previous one. ([r.Left < 0] is never true of a
    [uint64]; it is kept as in the code.) *)
Fixpoint checkLimitList_from (prev : option Z) (limits : list SubTreeLimit) : bool :=
  match limits with
  | [] => true
  | r :: rest =>
      if (Left r <? 0) || (Right r <=? Left r) then false
      else if (match prev with Some pr => Left r <? pr | None => false end) then false
      else checkLimitList_from (Some (Right r)) rest
  end.

Definition checkLimitList (limits : list SubTreeLimit) : bool :=
  checkLimitList_from None limits.

Section Engine.
Context {H : Type} `{MerkleHash H} `{EqDecision H}.

Definition lift_tree {A} (r : result tree_err A) : result merkle_err A :=
  match r with Ok a => Ok a | Err _ => Err ErrTree end.

(** ** The [SubtreeRoot] interface *)

Class SubtreeRoot (Src : Type) := {
  GetSubtreeRoot : Src -> Z -> result merkle_err (H * Src);
  Skip : Src -> Z -> result merkle_err Src;
  (** the number of leaves the source can still yield: bounds loops *)
  leaves_left : Src -> nat;
}.

(** *** [CachedSubtreeRoot]: a list of precomputed leaf roots *)

Record CachedSubtreeRoot := { leafRoots : list H }.

(** The loop of [CachedSubtreeRoot.GetSubtreeRoot]: push up to [k] roots
    at height 0, popping them. *)
Fixpoint cachedPushRoots (k : nat) (roots : list H) (t : Tree H)
  : result merkle_err (Tree H * list H) :=
  match k, roots with
  | S k', r :: roots' =>
      t' <- lift_tree (PushSubTree 0 r t) ;; cachedPushRoots k' roots' t'
  | _, _ => Ok (t, roots)
  end.

Definition Cached_GetSubtreeRoot (csh : CachedSubtreeRoot) (leafIndex : Z)
  : result merkle_err (H * CachedSubtreeRoot) :=
  match leafRoots csh with
  | [] => Err ErrEOF
  | roots =>
      tr <- cachedPushRoots (Z.to_nat leafIndex) roots NewTree ;;
      Ok (Root (fst tr), {| leafRoots := snd tr |})
  end.

Definition Cached_Skip (csh : CachedSubtreeRoot) (n : Z) : result merkle_err CachedSubtreeRoot :=
  if Z.of_nat (length (leafRoots csh)) <? n then Err ErrUnexpectedEOF
  else if n <? 0 then Err ErrPanic
  else Ok {| leafRoots := drop (Z.to_nat n) (leafRoots csh) |}.

#[export] Instance CachedSubtreeRoot_SubtreeRoot : SubtreeRoot CachedSubtreeRoot := {
  GetSubtreeRoot := Cached_GetSubtreeRoot;
  Skip := Cached_Skip;
  leaves_left := fun c => length (leafRoots c);
}.

(** [NewCachedSubtreeRoot(roots, h)] *)
Definition NewCachedSubtreeRoot (roots : list H) : CachedSubtreeRoot :=
  {| leafRoots := roots |}.

(** *** [SubtreeRootReader]: leaves read from a byte stream

    The reader's state is the unread part of the stream and the leaf
    size [len(rsh.leaf)]. [io.ReadFull] fills the leaf buffer: a full
    leaf, or the short rest with [ErrUnexpectedEOF], or nothing with
    [EOF]. *)

Record SubtreeRootReader := { rsh_r : list Byte.byte; rsh_leafLen : nat }.

Fixpoint readerPushLeaves (k : nat) (leafLen : nat) (r : list Byte.byte) (t : Tree H)
  : Tree H * list Byte.byte :=
  match k with
  | O => (t, r)
  | S k' =>
      let n := Nat.min leafLen (length r) in
      let t' := if Nat.ltb 0 n then PushLeaf (take n r) t else t in
      if Nat.ltb n leafLen then (t', drop n r)
      else readerPushLeaves k' leafLen (drop n r) t'
  end.

Definition Reader_GetSubtreeRoot (rsh : SubtreeRootReader) (leafIndex : Z)
  : result merkle_err (H * SubtreeRootReader) :=
  let '(t, rest) := readerPushLeaves (Z.to_nat leafIndex) (rsh_leafLen rsh) (rsh_r rsh) NewTree in
  match t with
  | [] => Err ErrEOF
  | _ => Ok (Root t, {| rsh_r := rest; rsh_leafLen := rsh_leafLen rsh |})
  end.

(** [io.CopyN(ioutil.Discard, rsh.r, int64(len(rsh.leaf)*n))]: a count of
    zero or less copies nothing and succeeds. *)
Definition Reader_Skip (rsh : SubtreeRootReader) (n : Z) : result merkle_err SubtreeRootReader :=
  let skipSize := s64 (Z.of_nat (rsh_leafLen rsh) * n) in
  if skipSize <=? 0 then Ok rsh
  else if skipSize <=? Z.of_nat (length (rsh_r rsh))
  then Ok {| rsh_r := drop (Z.to_nat skipSize) (rsh_r rsh); rsh_leafLen := rsh_leafLen rsh |}
  else Err ErrUnexpectedEOF.

#[export] Instance SubtreeRootReader_SubtreeRoot : SubtreeRoot SubtreeRootReader := {
  GetSubtreeRoot := Reader_GetSubtreeRoot;
  Skip := Reader_Skip;
  leaves_left := fun r => length (rsh_r r);
}.

(** [NewSubtreeRootReader(r, leafNumber, h)]: [make([]byte, leafNumber)]
    panics on a negative length. *)
Definition NewSubtreeRootReader (r : list Byte.byte) (leafNumber : Z) : result merkle_err SubtreeRootReader :=
  if leafNumber <? 0 then Err ErrPanic
  else Ok {| rsh_r := r; rsh_leafLen := Z.to_nat leafNumber |}.

(** ** The [LeafRoot] interface *)

Class LeafRoot (L : Type) := {
  GetLeafRoot : L -> result merkle_err (H * L);
}.

Record LeafRootCached := { clh_leafRoots : list H }.

Definition Cached_GetLeafRoot (clh : LeafRootCached) : result merkle_err (H * LeafRootCached) :=
  match clh_leafRoots clh with
  | [] => Err ErrEOF
  | h :: rest => Ok (h, {| clh_leafRoots := rest |})
  end.

#[export] Instance LeafRootCached_LeafRoot : LeafRoot LeafRootCached := {
  GetLeafRoot := Cached_GetLeafRoot;
}.

Definition NewLeafRootCached (leafHashes : list H) : LeafRootCached :=
  {| clh_leafRoots := leafHashes |}.

Record LeafRootReader := { rlh_r : list Byte.byte; rlh_leafLen : nat }.

Definition Reader_GetLeafRoot (rlh : LeafRootReader) : result merkle_err (H * LeafRootReader) :=
  let n := Nat.min (rlh_leafLen rlh) (length (rlh_r rlh)) in
  if Nat.eqb n 0 then Err ErrEOF
  else Ok (leafSum (take n (rlh_r rlh)),
           {| rlh_r := drop n (rlh_r rlh); rlh_leafLen := rlh_leafLen rlh |}).

#[export] Instance LeafRootReader_LeafRoot : LeafRoot LeafRootReader := {
  GetLeafRoot := Reader_GetLeafRoot;
}.

(** [NewLeafRootReader(r, h, leafSize)]: [make([]byte, leafSize)] panics
    on a negative length. *)
Definition NewLeafRootReader (r : list Byte.byte) (leafSize : Z) : result merkle_err LeafRootReader :=
  if leafSize <? 0 then Err ErrPanic
  else Ok {| rlh_r := r; rlh_leafLen := Z.to_nat leafSize |}.

(** ** Proof construction: [getLimitStorageProof] *)

Section Construct.
Context {Src : Type} `{SubtreeRoot Src}.

(** The state the closure [consumeUntil] mutates. *)
Record cstate := { c_leafIndex : Z; c_sr : Src; c_proof : list H }.

(** [consumeUntil(end)]: returns the new state and the error. *)
Fixpoint consumeUntil (fuel : nat) (endi : Z) (st : cstate) : cstate * option merkle_err :=
  match fuel with
  | O => (st, Some ErrFuel)
  | S fuel' =>
      if c_leafIndex st =? endi then (st, None)
      else
        let subtreeSize := adjacentSubtreeSize (c_leafIndex st) endi in
        match GetSubtreeRoot (c_sr st) subtreeSize with
        | Err e => (st, Some e)
        | Ok (root, sr') =>
            consumeUntil fuel' endi
              {| c_leafIndex := u64 (c_leafIndex st + subtreeSize);
                 c_sr := sr'; c_proof := c_proof st ++ [root] |}
        end
  end.

Definition cfuel (st : cstate) : nat := (leaves_left (c_sr st) + 2)%nat.

(** The loop over the ranges: consume up to [r.Left], then skip the
    range. *)
Fixpoint constructRanges (limits : list SubTreeLimit) (st : cstate)
  : result merkle_err cstate :=
  match limits with
  | [] => Ok st
  | r :: rest =>
      let '(st1, e1) := consumeUntil (cfuel st) (Left r) st in
      match e1 with
      | Some e => Err e
      | None =>
          sr' <- Skip (c_sr st1) (s64 (Right r - Left r)) ;;
          constructRanges rest
            {| c_leafIndex := u64 (c_leafIndex st1 + (Right r - Left r));
               c_sr := sr'; c_proof := c_proof st1 |}
      end
  end.

(** [getLimitStorageProof(limits, sr)]: the final drain runs to
    [math.MaxUint64] and stops at the end of the leaves with [io.EOF],
    which is not an error. *)
Definition getLimitStorageProof (limits : list SubTreeLimit) (sr : Src)
  : result merkle_err (list H) :=
  match limits with
  | [] => Ok []
  | _ =>
      if negb (checkLimitList limits) then Err ErrInvalidParameter
      else
        st <- constructRanges limits {| c_leafIndex := 0; c_sr := sr; c_proof := [] |} ;;
        let '(st2, e2) := consumeUntil (cfuel st) MaxUint64 st in
        match e2 with
        | None | Some ErrEOF => Ok (c_proof st2)
        | Some e => Err e
        end
  end.

(** [GetLimitStorageProof(left, right, h)] *)
Definition GetLimitStorageProof (left right : Z) (sr : Src) : result merkle_err (list H) :=
  if (left <? 0) || (right <? left) || (left =? right) then Err ErrInvalidParameter
  else getLimitStorageProof [{| Left := u64 left; Right := u64 right |}] sr.
End Construct.

(** ** Proof verification: [checkLimitStorageProof] *)

Section Verify.
Context {L : Type} `{LeafRoot L}.

Record vstate := { v_leafIndex : Z; v_tree : Tree H; v_proof : list H }.

(** [consumeUntil(end)] of the verifier: push proof hashes as whole
    subtrees while they last. *)
Fixpoint vConsumeUntil (fuel : nat) (endi : Z) (st : vstate) : result merkle_err vstate :=
  match fuel with
  | O => Err ErrFuel
  | S fuel' =>
      match v_proof st with
      | [] => Ok st
      | p :: rest =>
          if v_leafIndex st =? endi then Ok st
          else
            let subtreeSize := adjacentSubtreeSize (v_leafIndex st) endi in
            let i := TrailingZeros64 (u64 subtreeSize) in
            t' <- lift_tree (PushSubTree (Z.to_nat i) p (v_tree st)) ;;
            vConsumeUntil fuel' endi
              {| v_leafIndex := u64 (v_leafIndex st + subtreeSize);
                 v_tree := t'; v_proof := rest |}
      end
  end.

Definition vfuel (st : vstate) : nat := S (length (v_proof st)).

(** [for i := r.Left; i < r.Right; i++]: push each claimed leaf hash;
    a failing push panics. [i] is a [uint64]; with [fuel] rounds left,
    [ErrFuel] is a loop that has not ended. *)
Fixpoint pushLeafHashes (fuel : nat) (i right : Z) (lh : L) (t : Tree H)
  : result merkle_err (L * Tree H) :=
  match fuel with
  | O => Err ErrFuel
  | S fuel' =>
      if i <? right then
        p <- GetLeafRoot lh ;;
        let '(leafHash, lh') := p in
        match PushSubTree 0 leafHash t with
        | Ok t' => pushLeafHashes fuel' (u64 (i + 1)) right lh' t'
        | Err _ => Err ErrPanic
        end
      else Ok (lh, t)
  end.

(** One round per leaf of the range, and one for the final test. *)
Definition lfuel (r : SubTreeLimit) : nat := S (Z.to_nat (Right r - Left r)).

Fixpoint verifyRanges (limits : list SubTreeLimit) (lh : L) (st : vstate)
  : result merkle_err vstate :=
  match limits with
  | [] => Ok st
  | r :: rest =>
      st1 <- vConsumeUntil (vfuel st) (Left r) st ;;
      p <- pushLeafHashes (lfuel r) (Left r) (Right r) lh (v_tree st1) ;;
      let '(lh', t') := p in
      verifyRanges rest lh'
        {| v_leafIndex := u64 (v_leafIndex st1 + (Right r - Left r));
           v_tree := t'; v_proof := v_proof st1 |}
  end.

(** [checkLimitStorageProof(lh, h, limits, storageProofList, root)] *)
Definition checkLimitStorageProof (lh : L) (limits : list SubTreeLimit)
  (storageProofList : list H) (root : H) : result merkle_err bool :=
  match limits with
  | [] => Ok true
  | _ =>
      if negb (checkLimitList limits) then Err ErrInvalidParameter
      else
        st <- verifyRanges limits lh
                {| v_leafIndex := 0; v_tree := NewTree; v_proof := storageProofList |} ;;
        st2 <- vConsumeUntil (vfuel st) MaxUint64 st ;;
        Ok (bool_decide (Root (v_tree st2) = root))
  end.

(** [CheckLimitStorageProof(lh, h, left, right, storageProofList, root)] *)
Definition CheckLimitStorageProof (lh : L) (left right : Z) (storageProofList : list H)
  (root : H) : result merkle_err bool :=
  if (left <? 0) || (right <? left) || (left =? right) then Err ErrInvalidParameter
  else checkLimitStorageProof lh [{| Left := u64 left; Right := u64 right |}] storageProofList root.
End Verify.

End Engine.

Arguments CachedSubtreeRoot H : clear implicits.
Arguments LeafRootCached H : clear implicits.

(** * Properties of [adjacentSubtreeSize] *)



Lemma adjacentSubtreeSize_exponent (i e : Z) :
  0 <= i < e -> e <= MaxUint64 -> (i <> 0 \/ e - i < 2 ^ 63) ->
  let k := Z.min (TrailingZeros64 i) (Z.log2 (e - i)) in
  0 <= k <= 62 /\ adjacentSubtreeSize i e = 2 ^ k.
Proof.
  intros Hi He Hcase k. unfold MaxUint64, two64 in He.
  assert (Hd : 0 < e - i < two64) by (unfold two64; lia).
  pose proof (TrailingZeros64_range i) as Ht.
  pose proof (Z.log2_nonneg (e - i)) as Hm0.
  assert (Hm : Z.log2 (e - i) <= 63) by (apply Z.lt_succ_r, Z.log2_lt_pow2; unfold two64 in Hd; lia).
  assert (Hk : 0 <= k <= 62).
  { subst k. destruct (Z.eq_dec i 0) as [->|Hnz].
    - destruct Hcase as [|Hsmall]; [congruence|].
      assert (Z.log2 (e - 0) < 63) by (apply Z.log2_lt_pow2; lia).
      rewrite TrailingZeros64_zero. lia.
    - pose proof (TrailingZeros64_le i ltac:(unfold two64; lia)) as Hle.
      destruct (Z.le_gt_cases (TrailingZeros64 i) 62); [lia|].
      assert (2 ^ 63 <= 2 ^ TrailingZeros64 i) by (apply Z.pow_le_mono_r; lia).
      assert (Z.log2 (e - i) < 63) by (apply Z.log2_lt_pow2; lia). lia. }
  split; [exact Hk|].
  unfold adjacentSubtreeSize. rewrite Len64_pos by exact Hd.
  replace (Z.log2 (e - i) + 1 - 1) with (Z.log2 (e - i)) by lia.
  subst k. destruct (Z.ltb_spec (Z.log2 (e - i)) (TrailingZeros64 i)).
  - rewrite Z.min_r in Hk |- * by lia. apply shl1_int_small. lia.
  - rewrite Z.min_l in Hk |- * by lia. apply shl1_int_small. lia.
Qed.

(** The block [adjacentSubtreeSize] returns, in the form the simulation
    lemmas use: a power of two [2^k] that fits in [[i, e)] and divides [i]. *)
Lemma adjacentSubtreeSize_block (i e : Z) :
  0 <= i < e -> e <= MaxUint64 -> (i <> 0 \/ e - i < 2 ^ 63) ->
  exists k : nat, (k <= 62)%nat /\ adjacentSubtreeSize i e = Z.of_nat (2 ^ k) /\
    Z.of_nat (2 ^ k) <= e - i /\ (Z.to_nat i mod 2 ^ k = 0)%nat.
Proof.
  intros Hi He Hcase. destruct (adjacentSubtreeSize_exponent i e Hi He Hcase) as [Hk Heq].
  set (kz := Z.min (TrailingZeros64 i) (Z.log2 (e - i))) in *.
  exists (Z.to_nat kz). rewrite Nat2Z.inj_pow, Z2Nat.id by lia.
  split; [lia|]. split; [exact Heq|]. split.
  - apply Z.le_trans with (2 ^ Z.log2 (e - i)); [apply Z.pow_le_mono_r; lia|].
    apply Z.log2_spec. lia.
  - apply Nat2Z.inj. rewrite Nat2Z.inj_mod, Nat2Z.inj_pow, !Z2Nat.id by lia.
    apply TrailingZeros64_aligned; [unfold MaxUint64 in He; lia | lia].
Qed.

(** [adjacentSubtreeSize] is the largest aligned block: doubling it either
    overflows the span or breaks the alignment. *)
Lemma adjacentSubtreeSize_maximal (i e : Z) :
  0 <= i < e -> e <= MaxUint64 -> (i <> 0 \/ e - i < 2 ^ 63) ->
  e - i < 2 * adjacentSubtreeSize i e \/ i mod (2 * adjacentSubtreeSize i e) <> 0.
Proof.
  intros Hi He Hcase. destruct (adjacentSubtreeSize_exponent i e Hi He Hcase) as [Hk ->].
  rewrite <- Z.pow_succ_r by lia.
  destruct (Z.min_spec (TrailingZeros64 i) (Z.log2 (e - i))) as [[Hlt Hmin]|[Hge Hmin]];
    rewrite Hmin in *.
  - right. unfold Z.succ. apply TrailingZeros64_exact. unfold MaxUint64, two64 in *.
    destruct (Z.eq_dec i 0) as [->|]; [rewrite TrailingZeros64_zero in Hk; lia | lia].
  - left. apply Z.log2_spec. lia.
Qed.

(** C2. [adjacentSubtreeSize(left, right)] (spec 8): on a span that fits a
    signed [int] block, it returns a power of two [2^k] that fits in
    [right - left], that [left] is a multiple of, and that is the largest
    such: [2^(k+1)] either overflows the span or is not aligned at [left]. *)
Theorem adjacentSubtreeSize_largest_aligned (i e : Z) :
  0 <= i < e -> e <= MaxUint64 -> (i <> 0 \/ e - i < 2 ^ 63) ->
  exists k, 0 <= k <= 62 /\ adjacentSubtreeSize i e = 2 ^ k /\ 2 ^ k <= e - i /\
    i mod 2 ^ k = 0 /\ (e - i < 2 ^ (k + 1) \/ i mod 2 ^ (k + 1) <> 0).
Proof.
  intros Hi He Hcase.
  destruct (adjacentSubtreeSize_block i e Hi He Hcase) as (kn & Hkn & Hsz & Hfit & Hal).
  pose proof (adjacentSubtreeSize_maximal i e Hi He Hcase) as Hmax.
  rewrite Hsz, Nat2Z.inj_pow in *. exists (Z.of_nat kn).
  rewrite Z.pow_add_r, Z.pow_1_r, Z.mul_comm by lia. repeat split; try lia.
  apply (f_equal Z.of_nat) in Hal. rewrite Nat2Z.inj_mod, Nat2Z.inj_pow, Z2Nat.id in Hal by lia.
  exact Hal.
Qed.

(** Witness of C2: at index 4 of the span [[4, 7)] the block is [2^1]. *)
Lemma adjacentSubtreeSize_largest_aligned_witness :
  exists k, 0 <= k <= 62 /\ adjacentSubtreeSize 4 7 = 2 ^ k /\ 2 ^ k <= 7 - 4 /\
    4 mod 2 ^ k = 0 /\ (7 - 4 < 2 ^ (k + 1) \/ 4 mod 2 ^ (k + 1) <> 0).
Proof.
  apply adjacentSubtreeSize_largest_aligned; [lia | unfold MaxUint64, two64; lia | left; lia].
Defined.

