(* ===== verification/MerkleProofCorrect.v ===== *)
(** * Correctness of the diff-proof engine

    The properties of [MerkleProof]: [adjacentSubtreeSize] returns the
    largest aligned power of two that fits; the proof that
    [getLimitStorageProof] builds over a cached leaf list is accepted by
    [checkLimitStorageProof] with the leaves of the ranges and the root of
    the whole list (the round trip of spec section 8), and refused for any
    other root. The proofs go through two simulation lemmas, one per loop
    of the code: [until_roundtrip] for [consumeUntil(r.Left)] and
    [drain_roundtrip] for the final [consumeUntil(math.MaxUint64)]; both
    relate the state of the prover (an index and the rest of the leaves)
    to the state of the verifier (the same index and the tree of the
    leaves before it). Finally, the verifier's loops end, for any leaf
    source and any ranges of [uint64] bounds: [consumeUntil] pops a hash
    per round and the leaf loop, with the code's guard [i < r.Right] and
    its [uint64] increment, runs [r.Right - r.Left] rounds (C29). *)

From Stdlib Require Import ZArith List Lia Arith.
From Stdlib Require Strings.Byte.
From stdpp Require Import base list decidable.
From S2P Require Import Prelude Bits64 MerkleTree MerkleProof.
Import ListNotations.

Open Scope Z_scope.

Section Correctness.
Context {H : Type} `{MerkleHash H} `{EqDecision H}.

(** ** The cached leaf source *)

Lemma head_ge_0 (t : Tree H) : head_ge 0 t.
Proof. destruct t as [|[]]; simpl; lia. Qed.

Lemma cachedPushRoots_spec k (roots : list H) t :
  cachedPushRoots k roots t = Ok (pushes (take k roots) t, drop k roots).
Proof.
  revert roots t. induction k as [|k IH]; intros [|r roots] t; try reflexivity.
  simpl. rewrite PushSubTree_ok by apply head_ge_0. simpl. apply IH.
Qed.

Lemma Cached_GetSubtreeRoot_drop (leaves : list H) (i n : nat) :
  (i < length leaves)%nat ->
  Cached_GetSubtreeRoot (NewCachedSubtreeRoot (drop i leaves)) (Z.of_nat n) =
  Ok (CachedTreeRoot (sub leaves i n), NewCachedSubtreeRoot (drop (i + n) leaves)).
Proof.
  intros Hi. unfold Cached_GetSubtreeRoot. simpl.
  destruct (drop i leaves) as [|x l] eqn:E.
  { apply (f_equal length) in E. rewrite length_drop in E. simpl in E. lia. }
  rewrite <- E, cachedPushRoots_spec, Nat2Z.id. simpl.
  rewrite drop_drop. reflexivity.
Qed.

Lemma Cached_GetSubtreeRoot_nil n :
  Cached_GetSubtreeRoot (NewCachedSubtreeRoot ([] : list H)) n = Err ErrEOF.
Proof. reflexivity. Qed.

Lemma Cached_Skip_drop (leaves : list H) (i n : nat) :
  (i + n <= length leaves)%nat ->
  Cached_Skip (NewCachedSubtreeRoot (drop i leaves)) (Z.of_nat n) =
  Ok (NewCachedSubtreeRoot (drop (i + n) leaves)).
Proof.
  intros Hn. unfold Cached_Skip. simpl. rewrite length_drop.
  destruct (Z.ltb_spec (Z.of_nat (length leaves - i)) (Z.of_nat n)); [lia|].
  destruct (Z.ltb_spec (Z.of_nat n) 0); [lia|].
  rewrite Nat2Z.id, drop_drop. reflexivity.
Qed.

(** The leaf loop from [i] to [i + length c] over the cached leaves
    [c ++ more] pushes [c]. *)
Lemma pushLeafHashes_cached (c more : list H) t fuel i :
  (length c < fuel)%nat -> (0 <= i)%Z -> (i + Z.of_nat (length c) < two64)%Z ->
  pushLeafHashes fuel i (i + Z.of_nat (length c)) (NewLeafRootCached (c ++ more)) t =
  Ok (NewLeafRootCached more, pushes c t).
Proof.
  revert t fuel i. induction c as [|x c IH]; intros t [|fuel] i Hf Hi Hr; cbn [length] in *; try lia.
  - cbn. rewrite Z.add_0_r, Z.ltb_irrefl. reflexivity.
  - cbn [pushLeafHashes]. rewrite (proj2 (Z.ltb_lt _ _)) by lia.
    cbn. rewrite PushSubTree_ok by apply head_ge_0.
    rewrite u64_small by lia.
    replace (i + Z.of_nat (S (length c)))%Z with (i + 1 + Z.of_nat (length c))%Z by lia.
    apply IH; lia.
Qed.

(** ** One block of the verifier

    Pushing the root of the aligned block [[i, i + 2^k)] at height [k] onto
    the tree of the first [i] leaves gives the tree of the first
    [i + 2^k] leaves; pushing the root of a short last block gives a tree
    with the root of all the leaves. *)

Local Open Scope nat_scope.

Lemma aligned_head_ge (leaves : list H) (i k : nat) :
  (i mod 2 ^ k = 0)%nat -> (i <= length leaves)%nat -> head_ge k (pushes (take i leaves) NewTree).
Proof.
  intros Hal Hi. assert (E : i = (i / 2 ^ k) * 2 ^ k).
  { rewrite (Nat.div_mod_eq i (2 ^ k)) at 1. rewrite Hal. lia. }
  rewrite E. apply pushes_aligned_head_ge. lia.
Qed.

Lemma verify_block_step (leaves : list H) (i k : nat) :
  (i mod 2 ^ k = 0)%nat -> (i + 2 ^ k <= length leaves)%nat ->
  PushSubTree k (CachedTreeRoot (sub leaves i (2 ^ k)%nat)) (pushes (take i leaves) NewTree) =
  Ok (pushes (take (i + 2 ^ k)%nat leaves) NewTree).
Proof.
  intros Hal Hi. pose proof (aligned_head_ge leaves i k Hal ltac:(lia)) as Hh.
  rewrite PushSubTree_ok by exact Hh.
  rewrite take_add, pushes_app, (pushes_full_subtree_root k (sub leaves i (2 ^ k)));
    [reflexivity | rewrite length_sub_le; lia | exact Hh].
Qed.

Lemma verify_short_step (leaves : list H) (i k : nat) :
  (i mod 2 ^ k = 0)%nat -> (i < length leaves < i + 2 ^ k)%nat ->
  exists t', PushSubTree k (CachedTreeRoot (drop i leaves)) (pushes (take i leaves) NewTree) = Ok t'
    /\ Root t' = CachedTreeRoot leaves.
Proof.
  intros Hal Hi. pose proof (aligned_head_ge leaves i k Hal ltac:(lia)) as Hh.
  eexists. rewrite PushSubTree_ok by exact Hh. split; [reflexivity|].
  rewrite root_short_subtree; [| |rewrite length_drop; lia|exact Hh].
  - unfold CachedTreeRoot. rewrite <- pushes_app, take_drop. reflexivity.
  - intros E. apply (f_equal length) in E. rewrite length_drop in E. simpl in E. lia.
Qed.

End Correctness.

(** ** The round trip

    [cst i acc] is the prover's state at leaf index [i] (the source holds
    the leaves from [i] on, [acc] the proof so far); [vst i ps] is the
    verifier's (the tree of the leaves before [i], the proof hashes [ps]
    still to read). *)

Section Simulation.
Context {H : Type} `{MerkleHash H} `{EqDecision H}.
Variable leaves : list H.
Hypothesis leaves_small : (Z.of_nat (length leaves) < 2 ^ 63)%Z.
Local Open Scope nat_scope.
Definition cst (i : nat) (acc : list H) : cstate :=
  {| c_leafIndex := Z.of_nat i; c_sr := NewCachedSubtreeRoot (drop i leaves); c_proof := acc |}.
Definition vst (i : nat) (ps : list H) : vstate :=
  {| v_leafIndex := Z.of_nat i; v_tree := pushes (take i leaves) NewTree; v_proof := ps |}.
Lemma until_roundtrip (fuel i e : nat) (acc : list H) :
  i <= e <= length leaves -> (Z.of_nat e < 2 ^ 63)%Z -> e - i < fuel ->
  exists P,
    consumeUntil fuel (Z.of_nat e) (cst i acc) = (cst e (acc ++ P), None) /\
    forall rest, vConsumeUntil (S (length (P ++ rest))) (Z.of_nat e) (vst i (P ++ rest)) = Ok (vst e rest).
Proof.
  revert i acc. induction fuel as [|fuel IH]; intros i acc Hie He Hf; [lia|].
  destruct (Nat.eq_dec i e) as [->|Hne].
  - exists []. split.
    + simpl. rewrite Z.eqb_refl, app_nil_r. reflexivity.
    + intros rest. simpl. destruct rest; [reflexivity|]. rewrite Z.eqb_refl. reflexivity.
  - destruct (adjacentSubtreeSize_block (Z.of_nat i) (Z.of_nat e)) as (k & Hk & Hsz & Hfit & Hal);
      [lia | unfold MaxUint64, two64; lia | right; lia |].
    rewrite Nat2Z.id in Hal.
    assert (Hpos : 1 <= 2 ^ k) by (pose proof (Nat.pow_nonzero 2 k); lia).
    set (b := 2 ^ k) in *.
    destruct (IH (i + 2 ^ k) (acc ++ [CachedTreeRoot (sub leaves i (2 ^ k))])) as (P & HC & HV);
      [lia|lia|lia|].
    subst b.
    exists (CachedTreeRoot (sub leaves i (2 ^ k)) :: P). split.
    + cbn [consumeUntil cst c_leafIndex c_sr c_proof].
      destruct (Z.eqb_spec (Z.of_nat i) (Z.of_nat e)); [lia|].
      rewrite Hsz. change (GetSubtreeRoot ?x ?n) with (Cached_GetSubtreeRoot x n).
      rewrite Cached_GetSubtreeRoot_drop by lia.
      rewrite <- Nat2Z.inj_add, u64_small by (unfold two64; lia).
      unfold cst in HC |- *. rewrite HC, <- app_assoc. reflexivity.
    + intros rest. cbn [vConsumeUntil vst v_proof v_leafIndex v_tree app].
      destruct (Z.eqb_spec (Z.of_nat i) (Z.of_nat e)); [lia|].
      rewrite Hsz. rewrite (u64_small (Z.of_nat (2 ^ k))) by
        (unfold two64; pose proof (Nat.pow_le_mono_r 2 k 62 ltac:(lia) Hk); lia).
      rewrite Nat2Z.inj_pow, TrailingZeros64_pow2, Nat2Z.id by lia.
      rewrite verify_block_step by lia. cbn [lift_tree bind_result].
      rewrite <- Nat2Z.inj_pow, <- Nat2Z.inj_add, u64_small by (unfold two64; lia).
      apply HV.
Qed.

Lemma drain_roundtrip (fuel i : nat) (acc : list H) :
  1 <= i <= length leaves -> length leaves - i + 1 < fuel ->
  exists P st,
    consumeUntil fuel MaxUint64 (cst i acc) = (st, Some ErrEOF) /\ c_proof st = acc ++ P /\
    exists vs, vConsumeUntil (S (length P)) MaxUint64 (vst i P) = Ok vs /\
               Root (v_tree vs) = CachedTreeRoot leaves.
Proof.
  revert i acc. induction fuel as [|fuel IH]; intros i acc Hi Hf; [lia|].
  assert (Hb : (0 <= Z.of_nat i < MaxUint64)%Z) by (unfold MaxUint64, two64; lia).
  destruct (adjacentSubtreeSize_block (Z.of_nat i) MaxUint64 Hb ltac:(lia) ltac:(left; lia))
    as (k & Hk & Hsz & Hfit & Hal).
  rewrite Nat2Z.id in Hal.
  assert (Hpos : 1 <= 2 ^ k) by (pose proof (Nat.pow_nonzero 2 k); lia).
  assert (Hbig : (Z.of_nat (2 ^ k) <= 2 ^ 62)%Z) by
    (rewrite Nat2Z.inj_pow; apply Z.pow_le_mono_r; lia).
  assert (Hne : Z.eqb (Z.of_nat i) MaxUint64 = false) by (apply Z.eqb_neq; unfold MaxUint64, two64; lia).
  assert (Htz : Z.to_nat (TrailingZeros64 (u64 (Z.of_nat (2 ^ k)))) = k).
  { rewrite u64_small by (unfold two64; lia).
    rewrite Nat2Z.inj_pow, TrailingZeros64_pow2, Nat2Z.id by lia. reflexivity. }
  destruct (Nat.eq_dec i (length leaves)) as [Heq|Hlt].
  - exists [], (cst i acc). split; [|split; [symmetry; apply app_nil_r|]].
    + cbn [consumeUntil cst c_leafIndex c_sr]. rewrite Hne, Hsz.
      change (GetSubtreeRoot ?x ?n) with (Cached_GetSubtreeRoot x n).
      rewrite Heq, drop_all. reflexivity.
    + exists (vst i []). split; [reflexivity|]. cbn [vst v_tree].
      rewrite take_full by lia. reflexivity.
  - set (root := CachedTreeRoot (sub leaves i (2 ^ k))).
    assert (HG : Cached_GetSubtreeRoot (NewCachedSubtreeRoot (drop i leaves)) (Z.of_nat (2 ^ k)) =
                 Ok (root, NewCachedSubtreeRoot (drop (i + 2 ^ k) leaves)))
      by (apply Cached_GetSubtreeRoot_drop; lia).
    assert (Hidx : u64 (Z.of_nat i + Z.of_nat (2 ^ k)) = Z.of_nat (i + 2 ^ k))
      by (rewrite <- Nat2Z.inj_add; apply u64_small; unfold two64; lia).
    destruct (Nat.le_gt_cases (i + 2 ^ k) (length leaves)) as [Hfull|Hshort].
    + destruct (IH (i + 2 ^ k) (acc ++ [root])) as (P & st & HC & Hst & vs & HV & Hroot); [lia|lia|].
      exists (root :: P), st. split; [|split].
      * cbn [consumeUntil cst c_leafIndex c_sr c_proof]. rewrite Hne, Hsz.
        change (GetSubtreeRoot ?x ?n) with (Cached_GetSubtreeRoot x n).
        rewrite HG, Hidx. exact HC.
      * rewrite Hst, <- app_assoc. reflexivity.
      * exists vs. split; [|exact Hroot].
        cbn [vConsumeUntil vst v_proof v_leafIndex v_tree]. rewrite Hne, Hsz, Htz.
        subst root. rewrite verify_block_step by lia. cbn [lift_tree bind_result].
        rewrite Hidx. exact HV.
    + assert (Hsub : sub leaves i (2 ^ k) = drop i leaves)
        by (unfold sub; apply take_full; rewrite length_drop; lia).
      destruct fuel as [|fuel]; [lia|].
      exists [root], {| c_leafIndex := Z.of_nat (i + 2 ^ k);
                        c_sr := NewCachedSubtreeRoot (drop (i + 2 ^ k) leaves);
                        c_proof := acc ++ [root] |}.
      split; [|split; [reflexivity|]].
      * cbn [consumeUntil cst c_leafIndex c_sr c_proof]. rewrite Hne, Hsz.
        change (GetSubtreeRoot ?x ?n) with (Cached_GetSubtreeRoot x n).
        rewrite HG, Hidx. cbn [consumeUntil c_leafIndex c_sr].
        rewrite (proj2 (Z.eqb_neq _ _)) by (unfold MaxUint64, two64; lia).
        change (GetSubtreeRoot ?x ?n) with (Cached_GetSubtreeRoot x n).
        rewrite drop_ge by lia. reflexivity.
      * destruct (verify_short_step leaves i k Hal ltac:(lia)) as (t' & Ht' & Hroot).
        exists {| v_leafIndex := u64 (Z.of_nat i + Z.of_nat (2 ^ k)); v_tree := t'; v_proof := [] |}.
        split; [|exact Hroot].
        cbn [vConsumeUntil vst v_proof v_leafIndex v_tree length]. rewrite Hne, Hsz, Htz.
        subst root. rewrite Hsub, Ht'. reflexivity.
Qed.

(** The claimed leaves: those of the ranges, in order (the
    [OldLeafHashes] an honest peer sends). *)
Definition claimedLeaves (limits : list SubTreeLimit) : list H :=
  concat (map (fun r => sub leaves (Z.to_nat (Left r)) (Z.to_nat (Right r - Left r))) limits).

Lemma ranges_roundtrip limits (i : nat) (acc : list H) :
  checkLimitList_from (Some (Z.of_nat i)) limits = true ->
  Forall (fun r => (Right r <= Z.of_nat (length leaves))%Z) limits ->
  i <= length leaves ->
  exists P j,
    constructRanges limits (cst i acc) = Ok (cst j (acc ++ P)) /\ i <= j <= length leaves /\
    (limits <> [] -> 1 <= j) /\
    forall rest, verifyRanges limits (NewLeafRootCached (claimedLeaves limits)) (vst i (P ++ rest))
                 = Ok (vst j rest).
Proof.
  revert i acc. induction limits as [|r limits IH]; intros i acc Hchk Hin Hi.
  - exists [], i. rewrite app_nil_r. repeat split; [lia|lia|congruence].
  - cbn [checkLimitList_from] in Hchk.
    destruct (Z.ltb_spec (Left r) 0); [discriminate|].
    destruct (Z.leb_spec (Right r) (Left r)); [discriminate|].
    destruct (Z.ltb_spec (Left r) (Z.of_nat i)); [discriminate|]. cbn in Hchk.
    inversion_clear Hin as [|? ? HR Hin1]. rename Hin1 into Hin.
    set (L := Z.to_nat (Left r)). set (R := Z.to_nat (Right r)).
    assert (HL : Left r = Z.of_nat L) by (subst L; lia).
    assert (HRr : Right r = Z.of_nat R) by (subst R; lia).
    assert (HRL : Z.to_nat (Right r - Left r) = R - L) by lia.
    destruct (until_roundtrip (cfuel (cst i acc)) i L acc) as (P1 & HC1 & HV1);
      [lia | lia | cbn; rewrite length_drop; lia |].
    rewrite HRr in Hchk.
    destruct (IH R (acc ++ P1) Hchk Hin ltac:(lia)) as (P2 & j & HC2 & Hj & Hj1 & HV2).
    exists (P1 ++ P2), j. split; [|split; [lia|split; [intros _; lia|]]].
    + cbn [constructRanges]. rewrite HL, HC1.
      change (Skip ?x ?n) with (Cached_Skip x n). cbn [cst c_sr c_leafIndex c_proof].
      rewrite HRr, <- Nat2Z.inj_sub, s64_small by lia.
      rewrite Cached_Skip_drop by lia. cbn [bind_result].
      rewrite <- Nat2Z.inj_add, u64_small by (unfold two64; lia).
      replace (L + (R - L)) with R by lia. rewrite <- app_assoc in HC2. exact HC2.
    + intros rest. cbn [verifyRanges claimedLeaves concat map]. fold (claimedLeaves limits).
      rewrite HL, HRr, <- Nat2Z.inj_sub, !Nat2Z.id by lia.
      rewrite <- app_assoc. change (vfuel (vst i ?X)) with (S (length X)).
      rewrite HV1. cbn [bind_result vst v_tree v_leafIndex v_proof].
      unfold lfuel. cbn [Left Right].
      replace (Z.of_nat R) with (Z.of_nat L + Z.of_nat (length (sub leaves L (R - L))))%Z
        by (rewrite length_sub_le by lia; lia).
      rewrite pushLeafHashes_cached
        by (rewrite ?length_sub_le by lia; unfold two64; lia).
      cbn [bind_result].
      rewrite <- pushes_app, <- take_add, <- Nat2Z.inj_add, u64_small by (unfold two64; lia).
      replace (L + (R - L)) with R by lia. apply HV2.
Qed.

Lemma checkLimitList_from_start limits :
  checkLimitList limits = checkLimitList_from (Some 0%Z) limits.
Proof.
  destruct limits as [|r rest]; [reflexivity|]. unfold checkLimitList. cbn.
  destruct (Z.ltb_spec (Left r) 0); [reflexivity|]. cbn.
  destruct (Z.leb_spec (Right r) (Left r)); reflexivity.
Qed.

(** C1. Round trip of diff proofs (spec 4.1 and 8): for a list of fewer
    than [2^63] leaf roots and valid ranges inside it, [getLimitStorageProof]
    over the cached roots succeeds, and [checkLimitStorageProof] with the
    leaves of the ranges accepts the proof exactly for the root of the whole
    list ([Sha256CachedTreeRoot2]): [true] for that root, [false] for any
    other. *)
Theorem diff_proof_roundtrip limits :
  limits <> [] -> checkLimitList limits = true ->
  Forall (fun r => (Right r <= Z.of_nat (length leaves))%Z) limits ->
  exists proof,
    getLimitStorageProof limits (NewCachedSubtreeRoot leaves) = Ok proof /\
    forall root,
      checkLimitStorageProof (NewLeafRootCached (claimedLeaves limits)) limits proof root
      = Ok (bool_decide (CachedTreeRoot leaves = root)).
Proof.
  intros Hne Hchk Hin. destruct limits as [|r0 rest0]; [congruence|].
  pose proof Hchk as Hchk0. rewrite checkLimitList_from_start in Hchk0.
  destruct (ranges_roundtrip (r0 :: rest0) 0 [] Hchk0 Hin ltac:(lia))
    as (P1 & j & HC1 & Hj & Hj1 & HV1).
  specialize (Hj1 ltac:(discriminate)).
  destruct (drain_roundtrip (cfuel (cst j P1)) j P1) as (P2 & st & HC2 & Hst & vs & HV2 & Hroot);
    [lia | unfold cfuel; cbn; rewrite length_drop; lia |].
  exists (P1 ++ P2). split.
  - unfold getLimitStorageProof. rewrite Hchk.
    change {| c_leafIndex := 0%Z; c_sr := NewCachedSubtreeRoot leaves; c_proof := [] |}
      with (cst 0 []).
    rewrite app_nil_l in HC1. rewrite HC1. cbn [bind_result]. rewrite HC2, Hst. reflexivity.
  - intros root. unfold checkLimitStorageProof. rewrite Hchk.
    change {| v_leafIndex := 0%Z; v_tree := NewTree; v_proof := P1 ++ P2 |} with (vst 0 (P1 ++ P2)).
    rewrite HV1. cbn [bind_result]. change (vfuel (vst j P2)) with (S (length P2)).
    rewrite HV2. cbn [bind_result]. rewrite Hroot. reflexivity.
Qed.

End Simulation.

(** ** A concrete digest for the witnesses

    Symbolic hashes: a digest is the term that computes it, so two digests
    are equal exactly when they are built the same way (an ideal,
    collision-free hash). *)

Inductive digest :=
| DNil
| DLeaf (n : nat)
| DBytes (b : list Byte.byte)
| DNode (a b : digest).

#[export] Instance digest_eq_dec : EqDecision digest.
Proof.
  intros x y. unfold Decision. decide equality;
    [apply Nat.eq_dec | apply (list_eq_dec Strings.Byte.byte_eq_dec)].
Defined.

#[export] Instance digest_MerkleHash : MerkleHash digest := {
  hnil := DNil; leafSum := DBytes; nodeSum := DNode }.

Definition leaves5 : list digest := map DLeaf [0; 1; 2; 3; 4]%nat.
Definition ranges_1_3_5 : list SubTreeLimit :=
  [{| Left := 1; Right := 2 |}; {| Left := 3; Right := 5 |}].

(** Witness of C1: five leaves, the ranges [[1,2)] and [[3,5)]. *)
Lemma diff_proof_roundtrip_witness :
  exists proof,
    getLimitStorageProof ranges_1_3_5 (NewCachedSubtreeRoot leaves5) = Ok proof /\
    forall root,
      checkLimitStorageProof (NewLeafRootCached (claimedLeaves leaves5 ranges_1_3_5))
        ranges_1_3_5 proof root = Ok (bool_decide (CachedTreeRoot leaves5 = root)).
Proof.
  apply (diff_proof_roundtrip leaves5 ltac:(cbn; lia) ranges_1_3_5);
    [discriminate | reflexivity | repeat constructor; cbn; lia].
Defined.

(** ** Termination of the verifier *)

Section VerifyTermination.
Context {H : Type} `{MerkleHash H} `{EqDecision H}.
Context {L : Type} `{LR : LeafRoot (H := H) L}.

(** Each round of the verifier's [consumeUntil] takes one proof hash, so
    a fuel above the number of hashes never runs out. *)
Lemma vConsumeUntil_no_fuel_err fuel endi (st : vstate (H := H)) :
  (length (v_proof st) < fuel)%nat -> vConsumeUntil fuel endi st <> Err ErrFuel.
Proof.
  revert st. induction fuel as [|fuel IH]; intros st Hf; [lia|]. cbn.
  destruct (v_proof st) as [|p rest] eqn:Ep; [discriminate|].
  case_bool; [discriminate|].
  apply bind_result_not_err.
  - unfold lift_tree. destruct (PushSubTree _ _ _); discriminate.
  - intros t'. apply IH. cbn. cbn in Hf. lia.
Qed.

(** The leaf loop [for i := r.Left; i < r.Right; i++] on [uint64]s ends
    within [r.Right - i] rounds and the final test: [i] stays below
    [r.Right < 2^64], so [i++] does not wrap. *)
Lemma pushLeafHashes_no_fuel_err (Hlr : forall lh : L, GetLeafRoot lh <> Err ErrFuel) fuel i right lh t :
  (0 <= i)%Z -> (right < two64)%Z -> (Z.to_nat (right - i) < fuel)%nat ->
  pushLeafHashes fuel i right lh t <> Err ErrFuel.
Proof.
  revert i lh t. induction fuel as [|fuel IH]; intros i lh t Hi Hr Hf; [lia|]. cbn [pushLeafHashes].
  destruct (Z.ltb_spec i right); [|discriminate].
  apply bind_result_not_err; [apply Hlr|]. intros [leafHash lh'].
  destruct (PushSubTree 0 leafHash t); [|discriminate].
  rewrite u64_small by lia. apply IH; lia.
Qed.

Lemma verifyRanges_no_fuel_err (Hlr : forall lh : L, GetLeafRoot lh <> Err ErrFuel) limits lh st :
  Forall (fun r => is_u64 (Left r) /\ is_u64 (Right r)) limits ->
  verifyRanges limits lh st <> Err ErrFuel.
Proof.
  revert lh st. induction limits as [|r rest IH]; intros lh st Hu; cbn [verifyRanges]; [discriminate|].
  inversion_clear Hu as [|? ? [HL HR] Hu'].
  apply bind_result_not_err; [apply vConsumeUntil_no_fuel_err; unfold vfuel; lia|]. intros st1.
  apply bind_result_not_err.
  - apply pushLeafHashes_no_fuel_err; [exact Hlr | apply HL | apply HR | unfold lfuel; lia].
  - intros [lh' t']. apply IH, Hu'.
Qed.

(** C29: the verification loops terminate. For ranges of [uint64]
    bounds and any leaf source that never reports [ErrFuel] itself,
    [checkLimitStorageProof] never fails with [ErrFuel]: each round of
    [consumeUntil] takes a proof hash, and the leaf loop, with the
    code's guard [i < r.Right] and its [uint64] increment, ends after
    [r.Right - r.Left] leaves. *)
Theorem checkLimitStorageProof_terminates (Hlr : forall lh : L, GetLeafRoot lh <> Err ErrFuel)
  lh limits proof root :
  Forall (fun r => is_u64 (Left r) /\ is_u64 (Right r)) limits ->
  checkLimitStorageProof lh limits proof root <> Err ErrFuel.
Proof.
  intros Hu. unfold checkLimitStorageProof. destruct limits as [|r rest]; [discriminate|].
  destruct (negb (checkLimitList (r :: rest))); [discriminate|].
  apply bind_result_not_err; [apply verifyRanges_no_fuel_err; [exact Hlr | exact Hu]|]. intros st.
  apply bind_result_not_err; [apply vConsumeUntil_no_fuel_err; unfold vfuel; lia|]. discriminate.
Qed.
End VerifyTermination.

Lemma checkLimitStorageProof_terminates_witness :
  (forall lh : LeafRootCached digest, GetLeafRoot lh <> Err ErrFuel) /\
  Forall (fun r => is_u64 (Left r) /\ is_u64 (Right r)) ranges_1_3_5 /\
  checkLimitStorageProof (NewLeafRootCached (take 2 leaves5)) ranges_1_3_5 [] (DLeaf 0) <> Err ErrFuel.
Proof.
  assert (Hlr : forall lh : LeafRootCached digest, GetLeafRoot lh <> Err ErrFuel).
  { intros lh. cbn. unfold Cached_GetLeafRoot. destruct (clh_leafRoots lh); discriminate. }
  assert (Hu : Forall (fun r => is_u64 (Left r) /\ is_u64 (Right r)) ranges_1_3_5).
  { repeat constructor; cbn; unfold two64; lia. }
  split; [exact Hlr|]. split; [exact Hu|]. exact (checkLimitStorageProof_terminates Hlr _ _ _ _ Hu).
Defined.
