(* ===== verification/DposErrors.v ===== *)
(** * The error values of the DPoS engine

    Model of the two [var] blocks of [src/consensus/dpos/errors.go]
    (lines 12-72): each error value is a constructor of [dpos_error] and
    [Error] is the message [errors.New] or [fmt.Errorf] gives it. Three
    messages format a constant of the [dpos] package that is not under
    [src/] ([MaxVoteCount], [minDeposit], [RewardRatioDenominator]); the
    constants and the [%v] formatting are section variables.

    Every error has its own message, whatever the constants and their
    formatting: a caller that compares messages tells the errors apart
    ([Error_injective]). *)

From Stdlib Require Import ZArith String List Lia.
Import ListNotations.
From S2P Require Import Prelude.

Open Scope string_scope.

Inductive dpos_error :=
| errUnknownBlock
| errMissingVanity
| errMissingSignature
| errInvalidMixDigest
| errInvalidUncleHash
| errInvalidDifficulty
| ErrInvalidTimestamp
| ErrWaitForPrevBlock
| ErrMinedFutureBlock
| ErrMismatchSignerAndValidator
| ErrInvalidBlockValidator
| ErrNilBlockHeader
| errVoteZeroOrNegativeDeposit
| errVoteZeroCandidates
| errVoteTooManyCandidates
| errCandidateInsufficientDeposit
| errCandidateInvalidRewardRatio
| errCandidateDecreasingDeposit
| errInsufficientFrozenAssets
| errRandomSelectNotEnoughEntries
| errInvalidMinedBlockTime.

(** The errors in the order of the [var] blocks. *)
Definition all_dpos_errors : list dpos_error :=
  [errUnknownBlock; errMissingVanity; errMissingSignature; errInvalidMixDigest;
   errInvalidUncleHash; errInvalidDifficulty; ErrInvalidTimestamp; ErrWaitForPrevBlock;
   ErrMinedFutureBlock; ErrMismatchSignerAndValidator; ErrInvalidBlockValidator; ErrNilBlockHeader;
   errVoteZeroOrNegativeDeposit; errVoteZeroCandidates; errVoteTooManyCandidates;
   errCandidateInsufficientDeposit; errCandidateInvalidRewardRatio; errCandidateDecreasingDeposit;
   errInsufficientFrozenAssets; errRandomSelectNotEnoughEntries; errInvalidMinedBlockTime].

Section Messages.

(** [%v] of a number, and the constants the messages format. *)
Variable formatV : Z -> string.
Variable MaxVoteCount minDeposit RewardRatioDenominator : Z.

(** [err.Error()] *)
Definition Error (e : dpos_error) : string :=
  match e with
  | errUnknownBlock => "unknown block"
  | errMissingVanity => "extra-data 32 byte vanity prefix missing"
  | errMissingSignature => "extra-data 65 byte suffix signature missing"
  | errInvalidMixDigest => "non-zero mix digest"
  | errInvalidUncleHash => "non empty uncle hash"
  | errInvalidDifficulty => "invalid difficulty"
  | ErrInvalidTimestamp => "invalid timestamp"
  | ErrWaitForPrevBlock => "wait for last block arrived"
  | ErrMinedFutureBlock => "mined the future block"
  | ErrMismatchSignerAndValidator => "mismatch block signer and validator"
  | ErrInvalidBlockValidator => "invalid block validator"
  | ErrNilBlockHeader => "nil block header returned"
  | errVoteZeroOrNegativeDeposit => "cannot vote with zero or negative deposit"
  | errVoteZeroCandidates => "cannot vote with zero candidates"
  | errVoteTooManyCandidates =>
      "cannot vote more than " ++ formatV MaxVoteCount ++ " candidates"
  | errCandidateInsufficientDeposit =>
      "candidate argument not qualified - minimum deposit: " ++ formatV minDeposit
  | errCandidateInvalidRewardRatio =>
      "candidate argument not qualified - invalid reward ratio: must between 0 to "
        ++ formatV RewardRatioDenominator
  | errCandidateDecreasingDeposit =>
      "candidate argument not qualified - candidate deposit shall not be decreased"
  | errInsufficientFrozenAssets => "not enough frozen assets to subtract"
  | errRandomSelectNotEnoughEntries => "not enough entries for selection"
  | errInvalidMinedBlockTime => "invalid time to mined the block"
  end.

End Messages.

(** The literal text each message starts with, before any formatted
    constant. *)
Definition msgPrefix (e : dpos_error) : string :=
  match e with
  | errVoteTooManyCandidates => "cannot vote more than "
  | errCandidateInsufficientDeposit => "candidate argument not qualified - minimum deposit: "
  | errCandidateInvalidRewardRatio =>
      "candidate argument not qualified - invalid reward ratio: must between 0 to "
  | _ => Error (fun _ => "") 0 0 0 e
  end.

(** No prefix is a prefix of another's. *)
Definition prefixes_apart : bool :=
  forallb (fun '(i, e1) =>
             forallb (fun '(j, e2) => (Nat.eqb i j || negb (String.prefix (msgPrefix e1) (msgPrefix e2)))%bool)
                     (combine (seq 0 21) all_dpos_errors))
          (combine (seq 0 21) all_dpos_errors).

(** ** Lemmas *)

Lemma append_prefix p1 p2 r1 r2 :
  (p1 ++ r1 = p2 ++ r2)%string -> String.prefix p1 p2 = true \/ String.prefix p2 p1 = true.
Proof.
  revert p2. induction p1 as [|a p1 IH]; intros [|b p2] H; cbn in *; auto.
  injection H as -> H. destruct (Ascii.ascii_dec b b); [|congruence]. auto.
Qed.

Lemma Error_prefix formatV m d r e : exists rest, Error formatV m d r e = (msgPrefix e ++ rest)%string.
Proof. destruct e; cbn; eexists; first [reflexivity | symmetry; apply append_empty_r]. Qed.

Lemma prefixes_apart_ok : prefixes_apart = true.
Proof. vm_compute. reflexivity. Qed.

Lemma error_position e : exists i, nth_error (combine (seq 0 21) all_dpos_errors) i = Some (i, e).
Proof. destruct e; [exists 0%nat|exists 1%nat|exists 2%nat|exists 3%nat|exists 4%nat|exists 5%nat|exists 6%nat
  |exists 7%nat|exists 8%nat|exists 9%nat|exists 10%nat|exists 11%nat|exists 12%nat|exists 13%nat|exists 14%nat
  |exists 15%nat|exists 16%nat|exists 17%nat|exists 18%nat|exists 19%nat|exists 20%nat]; reflexivity. Qed.

(** Every error has its own message, whatever the formatting and the
    constants. *)
Lemma Error_injective formatV m d r e1 e2 :
  Error formatV m d r e1 = Error formatV m d r e2 -> e1 = e2.
Proof.
  intros H.
  destruct (Error_prefix formatV m d r e1) as [r1 E1], (Error_prefix formatV m d r e2) as [r2 E2].
  rewrite E1, E2 in H. apply append_prefix in H.
  destruct (error_position e1) as [i Hi], (error_position e2) as [j Hj].
  pose proof prefixes_apart_ok as P. unfold prefixes_apart in P.
  rewrite forallb_forall in P. specialize (P _ (nth_error_In _ _ Hi)). cbv beta iota in P.
  rewrite forallb_forall in P. specialize (P _ (nth_error_In _ _ Hj)). cbv beta iota in P.
  pose proof prefixes_apart_ok as Q. unfold prefixes_apart in Q.
  rewrite forallb_forall in Q. specialize (Q _ (nth_error_In _ _ Hj)). cbv beta iota in Q.
  rewrite forallb_forall in Q. specialize (Q _ (nth_error_In _ _ Hi)). cbv beta iota in Q.
  destruct (Nat.eqb_spec i j) as [<-|Hne].
  - rewrite Hi in Hj. congruence.
  - rewrite ?(proj2 (Nat.eqb_neq i j) Hne) in P.
    rewrite ?(proj2 (Nat.eqb_neq j i) (fun E => Hne (eq_sym E))) in Q.
    destruct H as [H|H]; [rewrite H in P | rewrite H in Q]; discriminate.
Qed.
