(* ===== verification/DposApi.v ===== *)
(** * The user-facing RPC API of the DPoS engine

    Model of [GetValidators], [GetConfirmedBlockNumber] and
    [GetVotedCandidatesByAddress] of [src/consensus/dpos/api.go] (lines
    18-82). The API reads the chain through [consensus.ChainReader] and
    the DPoS tries through [types.DposContext], neither under [src/]: the
    class [DposChain] states what the API uses of them, and the theorems
    hold for every instance. [rpc.BlockNumber] is an [int64] with
    [LatestBlockNumber = -1] and [PendingBlockNumber = -2]; [uint64] of it
    wraps.

    Theorems: a block number that is not the latest is looked up at
    [uint64(number)], so the pending block number asks for block
    [2^64 - 2] ([GetValidators_pending]); with no header the call fails
    with [errUnknownBlock] before it opens a trie
    ([GetValidators_unknown]). [GetConfirmedBlockNumber] returns 0 when
    the confirmed header is neither cached nor stored
    ([GetConfirmedBlockNumber_not_found]). *)

From Stdlib Require Import ZArith List.
From S2P Require Import Prelude DposErrors.
Import ListNotations.

Open Scope Z_scope.

(** [types.Header]: its number and the roots of the DPoS tries. *)
Record Header := { hd_Number : Z; hd_EpochRoot : Z; hd_VoteRoot : Z }.

(** The errors of the API: a DPoS error value, [leveldb.ErrNotFound], or
    an error of the trie or the database. *)
Inductive api_err :=
| ErrDpos (e : dpos_error)
| ErrLevelDBNotFound
| ErrTrie (code : Z).

(** [rpc.LatestBlockNumber] and [rpc.PendingBlockNumber]. *)
Definition LatestBlockNumber : Z := -1.
Definition PendingBlockNumber : Z := -2.

(** What the API uses of the chain and of the DPoS tries: the headers,
    opening the epoch and vote tries at a root, reading them, and loading
    the confirmed header from the database. *)
Class DposChain := {
  EpochTrie : Type;
  VoteTrie : Type;
  CurrentHeader : option Header;
  GetHeaderByNumber : Z -> option Header;
  NewEpochTrie : Z -> result api_err EpochTrie;
  NewVoteTrie : Z -> result api_err VoteTrie;
  GetValidatorsOf : EpochTrie -> result api_err (list Z);
  GetVotedCandidatesOf : VoteTrie -> Z -> result api_err (list Z);
  loadConfirmedBlockHeader : result api_err Header;
}.

(** [Dpos]: the field the API reads. *)
Record Dpos := { confirmedBlockHeader : option Header }.

Section Api.
Context `{DposChain}.

(** [api.GetValidators(number)]: [number] is [None] when nil. *)
Definition GetValidators (number : option Z) : result api_err (list Z) :=
  let header :=
    match number with
    | None => CurrentHeader
    | Some n => if n =? LatestBlockNumber then CurrentHeader else GetHeaderByNumber (u64 n)
    end in
  match header with
  | None => Err (ErrDpos errUnknownBlock)
  | Some h =>
      epochTrie <- NewEpochTrie (hd_EpochRoot h) ;;
      GetValidatorsOf epochTrie
  end.

(** [api.GetConfirmedBlockNumber()]: a header that is not cached is
    loaded, and not cached; [leveldb.ErrNotFound] means only the genesis
    block is known. *)
Definition GetConfirmedBlockNumber (dpos : Dpos) : result api_err Z :=
  match confirmedBlockHeader dpos with
  | Some h => Ok (hd_Number h)
  | None =>
      match loadConfirmedBlockHeader with
      | Ok h => Ok (hd_Number h)
      | Err ErrLevelDBNotFound => Ok 0
      | Err e => Err e
      end
  end.

(** [api.GetVotedCandidatesByAddress(delegator)]: the current header is
    dereferenced without a test ([None] panics). *)
Definition GetVotedCandidatesByAddress (delegator : Z) : result api_err (option (list Z)) :=
  match CurrentHeader with
  | None => Ok None
  | Some h =>
      voteTrie <- NewVoteTrie (hd_VoteRoot h) ;;
      cands <- GetVotedCandidatesOf voteTrie delegator ;;
      Ok (Some cands)
  end.

(** ** Lemmas *)

(** The pending block number is looked up as block [2^64 - 2]; when the
    chain has no such block the call fails with [errUnknownBlock]. *)
Lemma GetValidators_pending :
  GetHeaderByNumber (2 ^ 64 - 2) = None ->
  GetValidators (Some PendingBlockNumber) = Err (ErrDpos errUnknownBlock).
Proof.
  intros Hn. unfold GetValidators.
  replace (PendingBlockNumber =? LatestBlockNumber) with false by reflexivity.
  replace (u64 PendingBlockNumber) with (2 ^ 64 - 2) by reflexivity.
  rewrite Hn. reflexivity.
Qed.

(** Without a header, no trie is opened: the result is [errUnknownBlock]
    whatever the tries do. *)
Lemma GetValidators_unknown number :
  match number with
  | None => CurrentHeader = None
  | Some n => (if n =? LatestBlockNumber then CurrentHeader else GetHeaderByNumber (u64 n)) = None
  end ->
  GetValidators number = Err (ErrDpos errUnknownBlock).
Proof. intros Hh. unfold GetValidators. destruct number as [n|]; rewrite Hh; reflexivity. Qed.

Lemma GetConfirmedBlockNumber_not_found dpos :
  confirmedBlockHeader dpos = None -> loadConfirmedBlockHeader = Err ErrLevelDBNotFound ->
  GetConfirmedBlockNumber dpos = Ok 0.
Proof. intros H1 H2. unfold GetConfirmedBlockNumber. rewrite H1, H2. reflexivity. Qed.
End Api.
