(* ===== verification/LuckyWheel.v ===== *)
(** * The lucky-wheel random selection of the DPoS engine

    Model of the second file of [src/consensus/dpos/errors.go] (lines
    87-206): [newRandomAddressSelector], [newLuckyWheel],
    [luckyWheel.RandomSelect], [randomSelect], [selectSingleEntry],
    [listAddresses] and [randomBigInt].

    [common.BigInt] is a value type whose methods return a new value (the
    code relies on it: [sumVotes = sumVotes.Add(entry.vote)],
    [selected = selected.Sub(vote)]); votes are [Z]. Addresses are [Z]
    (the zero address is 0). The pseudo-random source [rand.New(seed)] is
    the stream of its raw outputs: [randomBigInt(r, max)] takes the next
    one and reduces it into [[0, max)], which every value of that range
    can be, and returns 0 when [max <= 0] as [big.Int.Rand] does. A
    [sync.Once] is the flag [lw_done].

    The theorems show what the code does, which is not a weighted
    selection: [selectSingleEntry] compares the wrong way round and picks
    the first entry or falls back to the last one, [RandomSelect] returns
    [target] zero addresses before the selected ones, and [sumVotes] is
    never decreased. *)

From Stdlib Require Import ZArith List Lia.
From stdpp Require Import base list.
From S2P Require Import Prelude.
Import ListNotations.

Open Scope Z_scope.

Definition Address : Type := Z.
Definition zeroAddress : Address := 0.

(** [randomSelectorEntry] *)
Record randomSelectorEntry := { addr : Address; vote : Z }.

Inductive dpos_err :=
| errRandomSelectNotEnoughEntries
| errUnknownSelectorType
| ErrPanic.

(** [luckyWheel]: the random source, the remaining entries, the target,
    the results, the vote total and the [sync.Once] flag. *)
Record luckyWheel := {
  lw_rand : list Z;
  lw_entries : list randomSelectorEntry;
  lw_target : Z;
  lw_results : list Address;
  lw_sumVotes : Z;
  lw_done : bool;
}.

Definition typeLuckyWheel : Z := 0.

(** [randomBigInt(r, max)] *)
Definition randomBigInt (r : list Z) (max : Z) : Z * list Z :=
  match r with
  | [] => (0, [])
  | x :: r' => (if max <=? 0 then 0 else x mod max, r')
  end.

Definition sumOfVotes (entries : list randomSelectorEntry) : Z :=
  fold_left (fun s e => s + vote e) entries 0.

(** [newLuckyWheel(entries, seed, target)]: [make([]common.Address, target)]
    allocates [target] zero addresses (and panics on a negative length). *)
Definition newLuckyWheel (entries : list randomSelectorEntry) (rnd : list Z) (target : Z)
  : result dpos_err luckyWheel :=
  if Z.of_nat (length entries) <? target then Err errRandomSelectNotEnoughEntries
  else if target <? 0 then Err ErrPanic
  else Ok {| lw_rand := rnd; lw_entries := entries; lw_target := target;
             lw_results := repeat zeroAddress (Z.to_nat target);
             lw_sumVotes := sumOfVotes entries; lw_done := false |}.

(** [newRandomAddressSelector(typeCode, entries, seed, target)] *)
Definition newRandomAddressSelector (typeCode : Z) (entries : list randomSelectorEntry)
  (rnd : list Z) (target : Z) : result dpos_err luckyWheel :=
  if typeCode =? typeLuckyWheel then newLuckyWheel entries rnd target
  else Err errUnknownSelectorType.

(** The loop of [selectSingleEntry]: the first entry whose vote is at most
    what is left of the draw. *)
Fixpoint selectIndex (entries : list randomSelectorEntry) (selected : Z) (i : Z) : option Z :=
  match entries with
  | [] => None
  | e :: rest =>
      if vote e <=? selected then Some i
      else selectIndex rest (selected - vote e) (i + 1)
  end.

(** [selectSingleEntry()]: returns the index and the advanced source; the
    fallback is [len(lw.entries) - 1]. *)
Definition selectSingleEntry (lw : luckyWheel) : Z * list Z :=
  let '(selected, r') := randomBigInt (lw_rand lw) (lw_sumVotes lw) in
  (match selectIndex (lw_entries lw) selected 0 with
   | Some i => i
   | None => Z.of_nat (length (lw_entries lw)) - 1
   end, r').

(** Removing entry [idx]: [lw.entries[:len-1]] for the last one,
    [append(lw.entries[:idx], lw.entries[idx+1:]...)] otherwise. *)
Definition removeEntry (entries : list randomSelectorEntry) (idx : nat) : list randomSelectorEntry :=
  if Nat.eqb idx (length entries - 1) then take (length entries - 1) entries
  else take idx entries ++ drop (S idx) entries.

(** [randomSelect()]: [target] rounds; [lw.sumVotes.Sub(...)]'s result is
    discarded, so the total is left as it is. Indexing out of range
    panics. *)
Fixpoint randomSelectLoop (n : nat) (lw : luckyWheel) : result dpos_err luckyWheel :=
  match n with
  | O => Ok lw
  | S n' =>
      let '(idx, r') := selectSingleEntry lw in
      if idx <? 0 then Err ErrPanic else
      match nth_error (lw_entries lw) (Z.to_nat idx) with
      | None => Err ErrPanic
      | Some e =>
          randomSelectLoop n'
            {| lw_rand := r';
               lw_entries := removeEntry (lw_entries lw) (Z.to_nat idx);
               lw_target := lw_target lw;
               lw_results := lw_results lw ++ [addr e];
               lw_sumVotes := lw_sumVotes lw;
               lw_done := lw_done lw |}
      end
  end.

Definition randomSelect (lw : luckyWheel) : result dpos_err luckyWheel :=
  randomSelectLoop (Z.to_nat (lw_target lw)) lw.

(** [RandomSelect()]: [lw.once.Do(lw.randomSelect)]; returns the results
    and the wheel after the call. *)
Definition RandomSelect (lw : luckyWheel) : result dpos_err (list Address * luckyWheel) :=
  if lw_done lw then Ok (lw_results lw, lw)
  else
    lw' <- randomSelect lw ;;
    let lw'' := {| lw_rand := lw_rand lw'; lw_entries := lw_entries lw'; lw_target := lw_target lw';
                   lw_results := lw_results lw'; lw_sumVotes := lw_sumVotes lw'; lw_done := true |} in
    Ok (lw_results lw'', lw'').

(** [entries.listAddresses()] *)
Definition listAddresses (entries : list randomSelectorEntry) : list Address :=
  map addr entries.

(** ** Lemmas *)

Lemma selectIndex_negative entries selected i :
  selected < 0 -> Forall (fun e => 0 <= vote e) entries -> selectIndex entries selected i = None.
Proof.
  revert selected i. induction entries as [|e rest IH]; intros selected i Hs Hv; [reflexivity|].
  inversion Hv as [|? ? He Hrest]; subst. cbn.
  destruct (Z.leb_spec (vote e) selected); [lia|]. apply IH; [lia | exact Hrest].
Qed.

(** The draw either reaches the first vote, or goes negative and nothing
    after the first entry can be selected. *)
Lemma selectIndex_first_or_none entries selected :
  Forall (fun e => 0 <= vote e) entries ->
  selectIndex entries selected 0 = Some 0 \/ selectIndex entries selected 0 = None.
Proof.
  destruct entries as [|e rest]; intros Hv; [right; reflexivity|].
  inversion Hv as [|? ? He Hrest]; subst. cbn.
  destruct (Z.leb_spec (vote e) selected); [left; reflexivity|].
  right. apply selectIndex_negative; [lia | exact Hrest].
Qed.

Lemma selectSingleEntry_range lw :
  lw_entries lw <> [] -> Forall (fun e => 0 <= vote e) (lw_entries lw) ->
  0 <= fst (selectSingleEntry lw) < Z.of_nat (length (lw_entries lw)).
Proof.
  intros Hne Hv. unfold selectSingleEntry.
  destruct (randomBigInt (lw_rand lw) (lw_sumVotes lw)) as [selected r'].
  destruct (selectIndex_first_or_none (lw_entries lw) selected Hv) as [->| ->]; cbn;
    destruct (lw_entries lw); cbn in *; [congruence|lia|congruence|lia].
Qed.

Lemma length_removeEntry entries idx :
  (idx < length entries)%nat -> length (removeEntry entries idx) = (length entries - 1)%nat.
Proof.
  intros H. unfold removeEntry. destruct (Nat.eqb_spec idx (length entries - 1)).
  - rewrite length_take. lia.
  - rewrite length_app, length_take, length_drop. lia.
Qed.

Lemma Forall_removeEntry P entries idx :
  Forall P entries -> Forall P (removeEntry entries idx).
Proof.
  intros H. unfold removeEntry. destruct (Nat.eqb _ _).
  - apply Forall_take, H.
  - apply Forall_app; split; [apply Forall_take, H | apply Forall_drop, H].
Qed.

Lemma removeEntry_incl entries idx x : In x (removeEntry entries idx) -> In x entries.
Proof.
  unfold removeEntry. rewrite <- !list_elem_of_In.
  destruct (Nat.eqb _ _); intros H.
  - exact (subseteq_take _ _ _ H).
  - apply elem_of_app in H as [H|H]; [apply (subseteq_take idx) | apply (subseteq_drop (S idx))]; exact H.
Qed.

(** The whole selection loop: with non-negative votes and at least [n]
    entries left, [n] rounds succeed, append [n] addresses drawn from the
    entries to the results, remove [n] entries and leave [sumVotes] as it
    was. *)
Lemma randomSelectLoop_spec n lw :
  (n <= length (lw_entries lw))%nat -> Forall (fun e => 0 <= vote e) (lw_entries lw) ->
  exists lw' sel, randomSelectLoop n lw = Ok lw' /\
    lw_results lw' = lw_results lw ++ sel /\ length sel = n /\
    Forall (fun a => In a (listAddresses (lw_entries lw))) sel /\
    length (lw_entries lw') = (length (lw_entries lw) - n)%nat /\
    lw_sumVotes lw' = lw_sumVotes lw /\ lw_target lw' = lw_target lw /\ lw_done lw' = lw_done lw.
Proof.
  revert lw. induction n as [|n IH]; intros lw Hn Hv.
  - exists lw, []. rewrite app_nil_r. repeat split; auto. lia.
  - assert (Hne : lw_entries lw <> []) by (intros E; rewrite E in Hn; cbn in Hn; lia).
    pose proof (selectSingleEntry_range lw Hne Hv) as Hr. cbn [randomSelectLoop].
    destruct (selectSingleEntry lw) as [idx r'] eqn:Es. cbn in Hr.
    destruct (Z.ltb_spec idx 0); [lia|].
    destruct (nth_error (lw_entries lw) (Z.to_nat idx)) as [e|] eqn:En;
      [|apply nth_error_None in En; lia].
    set (lw1 := {| lw_rand := r'; lw_entries := removeEntry (lw_entries lw) (Z.to_nat idx);
                   lw_target := lw_target lw; lw_results := lw_results lw ++ [addr e];
                   lw_sumVotes := lw_sumVotes lw; lw_done := lw_done lw |}).
    assert (Hl1 : length (lw_entries lw1) = (length (lw_entries lw) - 1)%nat)
      by (apply length_removeEntry; lia).
    destruct (IH lw1) as (lw' & sel & Hrun & Hres & Hlen & Hin & Hent & Hsum & Ht & Hd);
      [lia | apply Forall_removeEntry, Hv |].
    rewrite Hl1 in Hent. cbn in *. exists lw', (addr e :: sel). rewrite Hrun, Hres, <- app_assoc.
    repeat split; auto; cbn; try lia.
    constructor.
    + apply in_map, (nth_error_In _ _ En).
    + eapply Forall_impl; [exact Hin|]. intros a Ha. unfold listAddresses in *.
      apply in_map_iff in Ha as (x & <- & Hx). apply in_map, (removeEntry_incl _ _ _ Hx).
Qed.

(** C3: [selectSingleEntry] is not a weighted selection. With non-negative
    votes and a non-empty entry list, it returns index 0 when the draw is
    at least the first entry's vote and the last index otherwise (the
    comparison [vote.Cmp(selected) <= 0] is the wrong way round, and the
    "never reached" fallback is taken whenever the draw is below the
    first vote); no entry in between is ever selected. *)
Theorem selectSingleEntry_first_or_last lw e0 rest :
  lw_entries lw = e0 :: rest -> Forall (fun e => 0 <= vote e) (lw_entries lw) ->
  fst (selectSingleEntry lw) =
    if vote e0 <=? fst (randomBigInt (lw_rand lw) (lw_sumVotes lw)) then 0
    else Z.of_nat (length rest).
Proof.
  intros He Hv. rewrite He in Hv. inversion Hv as [|? ? H0 Hrest]; subst.
  unfold selectSingleEntry. destruct (randomBigInt _ _) as [selected r']. cbn.
  rewrite He. cbn. destruct (Z.leb_spec (vote e0) selected); [reflexivity|].
  rewrite selectIndex_negative by (lia || exact Hrest). lia.
Qed.

(** C4: [RandomSelect] on a fresh wheel of [newLuckyWheel entries seed
    target] succeeds (no out-of-range index) when the votes are
    non-negative, and returns [2 * target] addresses: the [target] zero
    addresses allocated by [make([]common.Address, target)], then the
    [target] selected addresses, each an entry's address. [sumVotes] is
    never decreased: [lw.sumVotes.Sub(...)] discards its result. *)
Theorem RandomSelect_zero_prefix entries rnd target lw :
  newLuckyWheel entries rnd target = Ok lw -> Forall (fun e => 0 <= vote e) entries ->
  exists sel lw', RandomSelect lw = Ok (repeat zeroAddress (Z.to_nat target) ++ sel, lw') /\
    length sel = Z.to_nat target /\ Forall (fun a => In a (listAddresses entries)) sel /\
    lw_sumVotes lw' = sumOfVotes entries.
Proof.
  unfold newLuckyWheel. intros Hnew Hv.
  destruct (Z.ltb_spec (Z.of_nat (length entries)) target); [discriminate|].
  destruct (Z.ltb_spec target 0); [discriminate|]. invc Hnew.
  set (lw0 := {| lw_rand := rnd; lw_entries := entries; lw_target := target;
                 lw_results := repeat zeroAddress (Z.to_nat target);
                 lw_sumVotes := sumOfVotes entries; lw_done := false |}).
  destruct (randomSelectLoop_spec (Z.to_nat target) lw0)
    as (lw' & sel & Hrun & Hres & Hlen & Hin & _ & Hsum & _); [cbn; lia | exact Hv |].
  exists sel. eexists. unfold RandomSelect, randomSelect. cbn in *. rewrite Hrun. cbn.
  rewrite Hres. repeat split; auto.
Qed.

(** The witnesses draw from three entries of 5 votes each. *)
Definition entries3 : list randomSelectorEntry :=
  [ {| addr := 1; vote := 5 |}; {| addr := 2; vote := 5 |}; {| addr := 3; vote := 5 |} ].

Definition wheel3 (rnd : list Z) : luckyWheel :=
  {| lw_rand := rnd; lw_entries := entries3; lw_target := 2; lw_results := [0; 0];
     lw_sumVotes := 15; lw_done := false |}.

Lemma selectSingleEntry_first_or_last_witness :
  fst (selectSingleEntry (wheel3 [7])) = 0 /\ fst (selectSingleEntry (wheel3 [3])) = 2.
Proof.
  split.
  - rewrite (selectSingleEntry_first_or_last (wheel3 [7]) (hd {| addr := 0; vote := 0 |} entries3) (tl entries3));
      [reflexivity | reflexivity | repeat constructor; cbn; lia].
  - rewrite (selectSingleEntry_first_or_last (wheel3 [3]) (hd {| addr := 0; vote := 0 |} entries3) (tl entries3));
      [reflexivity | reflexivity | repeat constructor; cbn; lia].
Defined.

Lemma RandomSelect_zero_prefix_witness :
  exists sel lw', RandomSelect (wheel3 [3; 9]) = Ok ([0; 0] ++ sel, lw') /\
    length sel = 2%nat /\ Forall (fun a => In a (listAddresses entries3)) sel /\
    lw_sumVotes lw' = sumOfVotes entries3.
Proof.
  apply (RandomSelect_zero_prefix entries3 [3; 9] 2 (wheel3 [3; 9]));
    [reflexivity | repeat constructor; cbn; lia].
Defined.
