(* ===== verification/ObligationLock.v ===== *)
(** * Per-contract locks of the storage host, as interleaved threads

    Model of [src/storage/storagehost/storageobligationslock.go] (lines
    14-58): [checkAndLockStorageObligation],
    [checkAndTryLockStorageObligation] and
    [checkAndUnlockStorageObligation]. Each takes the host's global mutex
    [h.lock], finds or creates the [TryMutex] of the contract in
    [h.lockedStorageObligations], locks, try-locks or unlocks it, and
    releases [h.lock] in a [defer]: the per-contract mutex is locked while
    [h.lock] is held.

    The state is the owner of [h.lock], the map of per-contract mutexes
    (a [gmap] from contract id to its locked flag; absent when never
    created) and the threads. A thread runs sessions, each the way the
    host uses these functions (e.g. [FinalizeStorageResponsibility] of
    [negotiationproto.go]): acquire (blocking or with a timeout), then, if
    acquired, release. Every Go statement that waits or changes shared
    state is one step: [tstep i] runs one step of thread [i], or is [None]
    when that thread is blocked or finished. [TryMutex.TryLockTimed]
    (not under [src/]) acquires a free mutex at once and times out when
    the mutex is held.

    Theorems: mutual exclusion per contract and the invariant of [h.lock]
    (by induction on executions); progress for try-lock sessions (no
    deadlock); and a reachable deadlock as soon as two blocking sessions
    target the same contract, because the second one waits on the
    contract's mutex while holding [h.lock], which the first needs to
    unlock it. *)

From Stdlib Require Import ZArith List Lia.
From stdpp Require Import base gmap list.
From S2P Require Import Prelude.
Import ListNotations.

(** ** Data *)

Definition soid := Z.

(** A session: [checkAndLockStorageObligation] or
    [checkAndTryLockStorageObligation], then
    [checkAndUnlockStorageObligation] when the lock was obtained. *)
Inductive lock_kind := Blocking | Timed.

Record session := { s_id : soid; s_kind : lock_kind }.

(** Where a thread is. The phases between [AcqHeld] and [AcqDone], and
    [RelHeld] and [RelDone], hold [h.lock]. *)
Inductive phase :=
| Start                          (* before [h.lock.Lock()] of the next session *)
| AcqHeld (s : session)          (* [h.lock] held, at [tl.Lock()] / [tl.TryLockTimed] *)
| AcqDone (s : session) (ok : bool)  (* [h.lock] held, at the deferred unlock *)
| Critical (s : session)         (* the contract is locked, [h.lock] free *)
| RelHeld (s : session)          (* [checkAndUnlock]: [h.lock] held, at [tl.Unlock()] *)
| RelDone (s : session).         (* [h.lock] held, at the deferred unlock *)

Record thread := { t_phase : phase; t_todo : list session }.

(** [StorageHost.lock] and [StorageHost.lockedStorageObligations]. *)
Record lstate := {
  hlock : option nat;
  tls : gmap soid bool;
  threads : list thread;
}.

(** ** Steps *)

Definition set_thread (st : lstate) (i : nat) (t : thread) : list thread :=
  <[i := t]> (threads st).

(** [tl, exists := ...; if !exists { tl = new(TryMutex); ... }] *)
Definition ensure (m : gmap soid bool) (s : soid) : gmap soid bool :=
  match m !! s with Some _ => m | None => <[s := false]> m end.

(** One step of thread [i]. *)
Definition tstep (i : nat) (st : lstate) : option lstate :=
  match threads st !! i with
  | None => None
  | Some t =>
      let upd ph todo := set_thread st i {| t_phase := ph; t_todo := todo |} in
      match t_phase t, t_todo t with
      | Start, [] => None
      | Start, s :: rest =>
          (* h.lock.Lock(); find or create the TryMutex *)
          match hlock st with
          | Some _ => None
          | None => Some {| hlock := Some i; tls := ensure (tls st) (s_id s); threads := upd (AcqHeld s) rest |}
          end
      | AcqHeld s, todo =>
          match tls st !! s_id s, s_kind s with
          | Some false, _ =>
              Some {| hlock := hlock st; tls := <[s_id s := true]> (tls st); threads := upd (AcqDone s true) todo |}
          | Some true, Blocking => None    (* tl.Lock() waits *)
          | Some true, Timed =>
              Some {| hlock := hlock st; tls := tls st; threads := upd (AcqDone s false) todo |}
          | None, _ => None
          end
      | AcqDone s ok, todo =>
          Some {| hlock := None; tls := tls st; threads := upd (if ok then Critical s else Start) todo |}
      | Critical s, todo =>
          match hlock st with
          | Some _ => None
          | None => Some {| hlock := Some i; tls := tls st; threads := upd (RelHeld s) todo |}
          end
      | RelHeld s, todo =>
          (* if exists { tl.Unlock() } *)
          let m := match tls st !! s_id s with Some _ => <[s_id s := false]> (tls st) | None => tls st end in
          Some {| hlock := hlock st; tls := m; threads := upd (RelDone s) todo |}
      | RelDone s, todo =>
          Some {| hlock := None; tls := tls st; threads := upd Start todo |}
      end
  end.

Definition step (st st' : lstate) : Prop := exists i, tstep i st = Some st'.

(** Reachability: the reflexive-transitive closure of [step]. *)
Inductive reachable (st0 : lstate) : lstate -> Prop :=
| reach_refl : reachable st0 st0
| reach_step st st' : reachable st0 st -> step st st' -> reachable st0 st'.

(** Running a schedule of thread ids; a blocked pick stops the run. *)
Fixpoint run (sched : list nat) (st : lstate) : option lstate :=
  match sched with
  | [] => Some st
  | i :: sched' => st' ← tstep i st; run sched' st'
  end.

Definition init (progs : list (list session)) : lstate :=
  {| hlock := None; tls := ∅; threads := map (fun p => {| t_phase := Start; t_todo := p |}) progs |}.

Definition finished (t : thread) : bool :=
  match t_phase t, t_todo t with Start, [] => true | _, _ => false end.

(** No thread can move although some has not finished. *)
Definition deadlocked (st : lstate) : Prop :=
  (forall i, tstep i st = None) /\ Exists (fun t => finished t = false) (threads st).

(** ** Phase predicates *)

Definition holds_hlock (ph : phase) : bool :=
  match ph with AcqHeld _ | AcqDone _ _ | RelHeld _ | RelDone _ => true | _ => false end.

(** The thread owns the contract [s]. *)
Definition owns (s : soid) (ph : phase) : bool :=
  match ph with
  | AcqDone x true | Critical x | RelHeld x => bool_decide (s_id x = s)
  | _ => false
  end.

(** The step of one thread, as a relation on its phase, its sessions, the
    owner of [h.lock] and the mutex map. *)
Inductive local_step (i : nat) :
  phase -> list session -> option nat -> gmap soid bool ->
  phase -> list session -> option nat -> gmap soid bool -> Prop :=
| ls_start s rest m :
    local_step i Start (s :: rest) None m (AcqHeld s) rest (Some i) (ensure m (s_id s))
| ls_acquire s todo h m :
    m !! s_id s = Some false ->
    local_step i (AcqHeld s) todo h m (AcqDone s true) todo h (<[s_id s := true]> m)
| ls_timeout s todo h m :
    m !! s_id s = Some true -> s_kind s = Timed ->
    local_step i (AcqHeld s) todo h m (AcqDone s false) todo h m
| ls_acq_unlock s ok todo h m :
    local_step i (AcqDone s ok) todo h m (if ok then Critical s else Start) todo None m
| ls_rel_lock s todo m :
    local_step i (Critical s) todo None m (RelHeld s) todo (Some i) m
| ls_release s todo h m :
    local_step i (RelHeld s) todo h m (RelDone s) todo h
      (match m !! s_id s with Some _ => <[s_id s := false]> m | None => m end)
| ls_rel_unlock s todo h m :
    local_step i (RelDone s) todo h m Start todo None m.

(** ** Invariant *)

(** [h.lock] is owned by exactly the thread in a phase that holds it. *)
Definition hl_inv (st : lstate) : Prop :=
  (forall j tj, threads st !! j = Some tj -> holds_hlock (t_phase tj) = true -> hlock st = Some j) /\
  (forall j, hlock st = Some j -> exists tj, threads st !! j = Some tj /\ holds_hlock (t_phase tj) = true).

(** A contract's mutex is locked while it has an owner, and it has at most
    one. *)
Definition own_inv (st : lstate) : Prop :=
  forall s j tj, threads st !! j = Some tj -> owns s (t_phase tj) = true ->
    tls st !! s = Some true /\
    forall k tk, threads st !! k = Some tk -> owns s (t_phase tk) = true -> k = j.

(** A thread waiting on a mutex waits on one that exists. *)
Definition acq_inv (st : lstate) : Prop :=
  forall j tj s, threads st !! j = Some tj -> t_phase tj = AcqHeld s -> is_Some (tls st !! s_id s).

Definition lock_inv (st : lstate) : Prop := hl_inv st /\ own_inv st /\ acq_inv st.

(** ** Lemmas *)

Lemma tstep_inv i st st' :
  tstep i st = Some st' ->
  exists t ph' todo', threads st !! i = Some t /\
    local_step i (t_phase t) (t_todo t) (hlock st) (tls st) ph' todo' (hlock st') (tls st') /\
    threads st' = <[i := {| t_phase := ph'; t_todo := todo' |}]> (threads st).
Proof.
  unfold tstep. destruct (threads st !! i) as [[ph todo]|] eqn:Ei; [|discriminate]. cbn.
  intros Hs.
  destruct ph as [| s | s ok | s | s | s]; cbn in Hs;
    [destruct todo as [|s todo]; [discriminate|]; destruct (hlock st) eqn:Eh; [discriminate|]
    |destruct (tls st !! s_id s) as [[|]|] eqn:Em, (s_kind s) eqn:Ek; try discriminate
    | | destruct (hlock st) eqn:Eh; [discriminate|] | | ];
    injection Hs as <-; do 3 eexists; (split; [reflexivity|]); cbn; (split; [|reflexivity]);
    rewrite ?Eh; econstructor; eauto.
Qed.

Lemma lookup_upd_same (l : list thread) i x t : l !! i = Some t -> <[i := x]> l !! i = Some x.
Proof.
  intros H. apply list_lookup_insert_Some. left. split; [reflexivity|]. split; [reflexivity|].
  eapply lookup_lt_Some, H.
Qed.

Lemma ensure_Some m s k b : m !! k = Some b -> ensure m s !! k = Some b.
Proof.
  unfold ensure. destruct (m !! s) eqn:E; [auto|]. intros H.
  rewrite lookup_insert_ne; [exact H|]. intros ->. congruence.
Qed.

Lemma ensure_is_Some m s : is_Some (ensure m s !! s).
Proof.
  unfold ensure. destruct (m !! s) eqn:E; [rewrite E; eauto|]. rewrite lookup_insert.
  case_decide; [eauto | congruence].
Qed.

(** Splits a lookup in the updated thread list into the stepping thread
    and the others. *)
Ltac thread_cases H :=
  apply list_lookup_insert_Some in H as [(<- & <- & _) | (? & H)].

Ltac step_inv Hs :=
  let t := fresh "t" in let ph' := fresh "ph'" in let todo' := fresh "todo'" in
  let Ht := fresh "Ht" in let Hls := fresh "Hls" in let Eth := fresh "Eth" in
  destruct (tstep_inv _ _ _ Hs) as (t & ph' & todo' & Ht & Hls & Eth);
  destruct t as [ph todo]; cbn in Hls.

Lemma hl_inv_step i st st' : hl_inv st -> tstep i st = Some st' -> hl_inv st'.
Proof.
  destruct st as [h m th], st' as [h' m' th']. intros [H1 H2] Hs. step_inv Hs. cbn in *. subst th'.
  split.
  - intros j tj Hj Hh. thread_cases Hj.
    + inversion Hls; subst; cbn in *; try discriminate; try (destruct ok; discriminate); eauto.
    + pose proof (H1 j tj Hj Hh) as Ej. pose proof (H1 i _ Ht) as Ei.
      inversion Hls; subst; cbn in *; try congruence; specialize (Ei eq_refl); congruence.
  - intros j Hj. cbn in Hj. inversion Hls; subst; try discriminate;
      (destruct (decide (i = j)) as [<-|Hne];
        [eexists; cbn; split; [eapply lookup_upd_same, Ht | reflexivity]
        |first [congruence | destruct (H2 j ltac:(congruence)) as (tj & Htj & Hh); exists tj; cbn;
                             rewrite list_lookup_insert_ne by exact Hne; split; assumption]]).
Qed.

(** An owner after a step of thread [i] that keeps [i]'s ownership was an
    owner before. *)
Lemma owns_frame (th : list thread) (i : nat) t x s (j : nat) tj :
  th !! i = Some t -> (forall s, owns s (t_phase x) = owns s (t_phase t)) ->
  <[i := x]> th !! j = Some tj -> owns s (t_phase tj) = true ->
  exists tj0, th !! j = Some tj0 /\ owns s (t_phase tj0) = true.
Proof.
  intros Ht Hx Hj Ho. thread_cases Hj; [exists t; rewrite <- Hx; auto | eauto].
Qed.

Lemma own_inv_frame h h' m m' (th : list thread) (i : nat) t x :
  th !! i = Some t -> (forall s, owns s (t_phase x) = owns s (t_phase t)) ->
  (forall s, m !! s = Some true -> m' !! s = Some true) ->
  own_inv {| hlock := h; tls := m; threads := th |} ->
  own_inv {| hlock := h'; tls := m'; threads := <[i := x]> th |}.
Proof.
  intros Ht Hx Hm Hinv s j tj Hj Ho. cbn in *.
  destruct (owns_frame _ _ _ _ _ _ _ Ht Hx Hj Ho) as (tj0 & Hj0 & Ho0).
  destruct (Hinv s j tj0 Hj0 Ho0) as [Hs Hu]. split; [auto|].
  intros k tk Hk Hok. destruct (owns_frame _ _ _ _ _ _ _ Ht Hx Hk Hok) as (tk0 & Hk0 & Hok0). eauto.
Qed.

Lemma owns_true s x : owns s (AcqDone x true) = true <-> s_id x = s.
Proof. cbn. apply bool_decide_eq_true. Qed.

Lemma own_inv_step i st st' : own_inv st -> tstep i st = Some st' -> own_inv st'.
Proof.
  destruct st as [h m th], st' as [h' m' th']. intros Hinv Hs. step_inv Hs. cbn in *. subst th'.
  inversion Hls; subst;
    try (eapply own_inv_frame; [exact Ht | intros ?; try destruct ok; reflexivity | | exact Hinv];
         intros ?; try apply ensure_Some; auto; fail).
  - (* tl.Lock() / TryLockTimed acquires: the mutex was free, so no one owned it *)
    assert (Hfree : forall k tk, th !! k = Some tk -> owns (s_id s) (t_phase tk) = false).
    { intros k tk Hk. destruct (owns (s_id s) (t_phase tk)) eqn:E; [|reflexivity].
      destruct (Hinv _ _ _ Hk E) as [Hl _]. cbn in Hl. congruence. }
    intros s' j tj Hj Ho. cbn in *.
    assert (Hold : forall k tk, <[i := {| t_phase := AcqDone s true; t_todo := todo' |}]> th !! k = Some tk ->
                     owns s' (t_phase tk) = true ->
                     (k = i /\ s' = s_id s) \/ (k <> i /\ th !! k = Some tk)).
    { intros k tk Hk Hok. thread_cases Hk; [left; split; [reflexivity|]; apply owns_true in Hok; auto | auto]. }
    destruct (Hold j tj Hj Ho) as [[-> ->] | [Hne Hj0]].
    + split; [apply lookup_insert_Some; left; split; reflexivity|].
      intros k tk Hk Hok. destruct (Hold k tk Hk Hok) as [[-> _] | [_ Hk0]]; [reflexivity|].
      rewrite (Hfree _ _ Hk0) in Hok. discriminate.
    + destruct (Hinv s' j tj Hj0 Ho) as [Hl Hu]. split.
      * rewrite lookup_insert_ne; [exact Hl|]. intros <-. rewrite (Hfree _ _ Hj0) in Ho. discriminate.
      * intros k tk Hk Hok. destruct (Hold k tk Hk Hok) as [[-> ->] | [_ Hk0]]; [|eauto].
        rewrite (Hfree _ _ Hj0) in Ho. discriminate.
  - (* tl.Unlock(): only the releasing thread owned the contract *)
    intros s' j tj Hj Ho. cbn in *. thread_cases Hj; [discriminate|].
    destruct (Hinv s' j tj Hj Ho) as [Hl Hu]. split.
    + destruct (decide (s_id s = s')) as [<-|Hne'].
      * assert (j = i) by (eapply (proj2 (Hinv (s_id s) i _ Ht ltac:(cbn; apply bool_decide_eq_true; reflexivity))); eauto). congruence.
      * destruct (m !! s_id s); [rewrite lookup_insert_ne by exact Hne'|]; exact Hl.
    + intros k tk Hk Hok. thread_cases Hk; [discriminate | eauto].
Qed.

Lemma local_step_tls_grow i ph todo h m ph' todo' h' m' k :
  local_step i ph todo h m ph' todo' h' m' -> is_Some (m !! k) -> is_Some (m' !! k).
Proof.
  intros Hls Hk. inversion Hls; subst; auto.
  - destruct Hk as [b Hb]. eexists. apply ensure_Some, Hb.
  - rewrite lookup_insert. case_decide; eauto.
  - destruct (m !! s_id s); [rewrite lookup_insert; case_decide|]; eauto.
Qed.

Lemma acq_inv_step i st st' : acq_inv st -> tstep i st = Some st' -> acq_inv st'.
Proof.
  destruct st as [h m th], st' as [h' m' th']. intros Hinv Hs. step_inv Hs. cbn in *. subst th'.
  intros j tj s' Hj Hp. cbn. thread_cases Hj.
  - inversion Hls; subst; cbn in Hp; try discriminate; try (destruct ok; discriminate).
    injection Hp as <-. apply ensure_is_Some.
  - eapply local_step_tls_grow; [exact Hls|]. exact (Hinv j tj s' Hj Hp).
Qed.

Lemma lock_inv_step st st' : lock_inv st -> step st st' -> lock_inv st'.
Proof.
  intros (H1 & H2 & H3) [i Hs].
  split; [|split]; [eapply hl_inv_step | eapply own_inv_step | eapply acq_inv_step]; eauto.
Qed.

Lemma lock_inv_init progs : lock_inv (init progs).
Proof.
  unfold init. split; [split|split]; cbn.
  - intros j tj Hj. apply list_lookup_fmap_Some in Hj as (p & -> & _). discriminate.
  - discriminate.
  - intros s j tj Hj. apply list_lookup_fmap_Some in Hj as (p & -> & _). discriminate.
  - intros j tj s Hj. apply list_lookup_fmap_Some in Hj as (p & -> & _). discriminate.
Qed.

Lemma lock_inv_reachable progs st : reachable (init progs) st -> lock_inv st.
Proof. induction 1; [apply lock_inv_init | eapply lock_inv_step; eauto]. Qed.

Lemma run_reachable st0 sched st : run sched st0 = Some st -> reachable st0 st.
Proof.
  enough (forall st1, reachable st0 st1 -> run sched st1 = Some st -> reachable st0 st) by
    (intros; eapply H; [constructor | eauto]).
  induction sched as [|i sched IH]; intros st1 Hr Hrun; cbn in Hrun; [congruence|].
  destruct (tstep i st1) as [st2|] eqn:E; [|discriminate].
  eapply IH; [econstructor; [exact Hr | exists i; exact E] | exact Hrun].
Qed.

(** The sessions a thread has still to run, the current one first. *)
Definition phase_sessions (ph : phase) : list session :=
  match ph with
  | Start => []
  | AcqHeld s | AcqDone s _ | Critical s | RelHeld s | RelDone s => [s]
  end.

Definition pending (t : thread) : list session := phase_sessions (t_phase t) ++ t_todo t.

Definition all_timed (st : lstate) : Prop :=
  forall j tj, threads st !! j = Some tj -> Forall (fun s => s_kind s = Timed) (pending tj).

Lemma local_step_pending i ph todo h m ph' todo' h' m' :
  local_step i ph todo h m ph' todo' h' m' ->
  forall x, In x (phase_sessions ph' ++ todo') -> In x (phase_sessions ph ++ todo).
Proof. intros Hls x. inversion Hls; subst; try destruct ok; cbn; tauto. Qed.

Lemma all_timed_step st st' : all_timed st -> step st st' -> all_timed st'.
Proof.
  destruct st as [h m th], st' as [h' m' th']. intros Hinv [i Hs]. step_inv Hs. cbn in *. subst th'.
  intros j tj Hj. thread_cases Hj; [|eauto].
  specialize (Hinv i _ Ht). unfold pending in *. rewrite List.Forall_forall in *.
  intros x Hx. apply Hinv. eapply local_step_pending; eauto.
Qed.

Lemma all_timed_reachable progs st :
  Forall (Forall (fun s => s_kind s = Timed)) progs -> reachable (init progs) st -> all_timed st.
Proof.
  intros Hp. induction 1 as [|st st' _ IH Hs]; [|eapply all_timed_step; eauto].
  intros j tj Hj. cbn in Hj. apply list_lookup_fmap_Some in Hj as (p & -> & Hj).
  exact (Forall_lookup_1 _ _ _ _ Hp Hj).
Qed.

(** A thread that holds [h.lock] can always take its next step when its
    sessions are timed. *)
Lemma holder_can_step st j tj :
  acq_inv st -> own_inv st -> all_timed st -> threads st !! j = Some tj ->
  holds_hlock (t_phase tj) = true -> is_Some (tstep j st).
Proof.
  intros Hacq Hown Htm Hj Hh. unfold tstep. rewrite Hj. destruct tj as [ph todo].
  destruct ph as [| s | s ok | s | s | s]; cbn in *; try discriminate; eauto.
  destruct (Hacq j _ s Hj eq_refl) as [b Hb]. rewrite Hb.
  specialize (Htm j _ Hj). inversion Htm as [|? ? Hk _]; subst. rewrite Hk.
  destruct b; eauto.
Qed.

(** ** Theorems *)

(** C5: Mutual exclusion per contract. In every state reachable from the
    initial state of any sessions, two threads that own the same contract
    (between a successful [checkAndLockStorageObligation] or
    [checkAndTryLockStorageObligation] and the [tl.Unlock()] of the
    matching [checkAndUnlockStorageObligation]) are the same thread, and
    the contract's [TryMutex] is locked. *)
Theorem obligation_mutual_exclusion progs st s j k tj tk :
  reachable (init progs) st ->
  threads st !! j = Some tj -> threads st !! k = Some tk ->
  owns s (t_phase tj) = true -> owns s (t_phase tk) = true ->
  j = k /\ tls st !! s = Some true.
Proof.
  intros Hr Hj Hk Hoj Hok. destruct (lock_inv_reachable _ _ Hr) as (_ & Hown & _).
  destruct (Hown s j tj Hj Hoj) as [Hl Hu]. split; [symmetry; eauto | exact Hl].
Qed.

(** C6: No deadlock with timed sessions. When every session uses
    [checkAndTryLockStorageObligation], every reachable state in which a
    thread has not finished has a next step: a waiting [TryLockTimed]
    times out although it holds [h.lock]. *)
Theorem timed_sessions_progress progs st :
  Forall (Forall (fun s => s_kind s = Timed)) progs -> reachable (init progs) st ->
  Exists (fun t => finished t = false) (threads st) -> exists st', step st st'.
Proof.
  intros Hp Hr Hex. destruct (lock_inv_reachable _ _ Hr) as ([HL1 HL2] & Hown & Hacq).
  pose proof (all_timed_reachable _ _ Hp Hr) as Htm.
  destruct (hlock st) as [j|] eqn:Eh.
  - destruct (HL2 j eq_refl) as (tj & Hj & Hh).
    destruct (holder_can_step st j tj Hacq Hown Htm Hj Hh) as [st' E]. exists st', j. exact E.
  - apply List.Exists_exists in Hex as (t & Hin & Hf). apply list_elem_of_In, list_elem_of_lookup in Hin as [i Hi].
    exists (match tstep i st with Some st' => st' | None => st end), i.
    unfold tstep. rewrite Hi. destruct t as [[| s | s ok | s | s | s] todo]; cbn in *;
      try (specialize (HL1 i _ Hi eq_refl); congruence).
    + destruct todo; [discriminate|]. rewrite Eh. reflexivity.
    + rewrite Eh. reflexivity.
Qed.

(** C7: Deadlock. Two threads whose first sessions lock the same contract
    with [checkAndLockStorageObligation] reach a state where neither can
    move: the first owns the contract and needs [h.lock] to unlock it,
    while the second holds [h.lock] inside [tl.Lock()]. *)
Theorem blocking_sessions_deadlock s rest1 rest2 :
  let progs := [ {| s_id := s; s_kind := Blocking |} :: rest1;
                 {| s_id := s; s_kind := Blocking |} :: rest2 ] in
  exists st, run [0; 0; 0; 1]%nat (init progs) = Some st /\
    reachable (init progs) st /\ deadlocked st.
Proof.
  intros progs.
  set (b := {| s_id := s; s_kind := Blocking |}).
  set (st := {| hlock := Some 1%nat; tls := <[s := true]> (<[s := false]> ∅);
                threads := [ {| t_phase := Critical b; t_todo := rest1 |};
                             {| t_phase := AcqHeld b; t_todo := rest2 |} ] |}).
  assert (E : run [0; 0; 0; 1]%nat (init progs) = Some st).
  { cbn. unfold ensure. rewrite lookup_empty. cbn. simpl_map. cbn. simpl_map. cbn. unfold ensure. simpl_map. reflexivity. }
  exists st. split; [exact E|]. split; [exact (run_reachable _ _ _ E)|]. split.
  - intros [|[|i]]; cbn; [reflexivity| |reflexivity]. simpl_map. reflexivity.
  - constructor. reflexivity.
Qed.

(** Two threads try-locking contract 1, after the first has acquired it. *)
Definition ex_progs : list (list session) :=
  [ [ {| s_id := 1%Z; s_kind := Timed |} ]; [ {| s_id := 1%Z; s_kind := Timed |} ] ].

Definition ex_state : lstate := default (init ex_progs) (run [0; 0]%nat (init ex_progs)).

Lemma ex_state_reachable : reachable (init ex_progs) ex_state.
Proof. apply (run_reachable _ [0; 0]%nat). vm_compute. reflexivity. Qed.

Lemma obligation_mutual_exclusion_witness :
  0%nat = 0%nat /\ tls ex_state !! 1%Z = Some true.
Proof.
  apply (obligation_mutual_exclusion ex_progs ex_state 1%Z 0 0
           {| t_phase := AcqDone {| s_id := 1%Z; s_kind := Timed |} true; t_todo := [] |}
           {| t_phase := AcqDone {| s_id := 1%Z; s_kind := Timed |} true; t_todo := [] |});
    [exact ex_state_reachable | reflexivity | reflexivity | reflexivity | reflexivity].
Defined.

Lemma timed_sessions_progress_witness : exists st', step ex_state st'.
Proof.
  apply (timed_sessions_progress ex_progs ex_state);
    [repeat constructor | exact ex_state_reachable | repeat constructor].
Defined.
