(* ===== verification/Upload.v ===== *)
(** * The computations of the host's upload negotiation

    Model of the pure part of
    [src/storage/storagehost/hostnegotiation/contractuploadhandler.go]:
    the negotiation data [uploadNegotiationData], the handling of the
    upload actions ([parseAndHandleUploadActions],
    [handleUploadAppendType]), the construction of the new revision
    ([constructAndVerifyNewRevision] with [updateRevisionFileSize],
    [calcAndUpdateRevisionMerkleRoot] and
    [updateRevisionMissedAndValidPayback]), the upload Merkle proof
    ([calcAndSortProofRanges], [calcLeafHashes], [calcOldHashSet],
    [constructUploadMerkleProof]) and [updateStorageResponsibilityUpload].

    [uploadNegotiationData] is passed by pointer through the Go calls;
    here each function takes it and returns the updated value. Records of
    packages outside [src/] ([types.StorageContractRevision],
    [storagehost.StorageResponsibility], [storage.UploadRequest]) hold the
    fields the handler reads and writes. The helpers the handler calls
    that are not under [src/] are the section's variables: the sector
    root of a sector's data ([merkle.Sha256MerkleTreeRoot]),
    [storage.SectorSize], [calcHostRevenue] (which also records the
    storage revenue and the new deposit in the negotiation data, the only
    place they can be set), [uploadRevisionValidation] and
    [calcBandwidthRevenueForProof]. [merkle.Sha256DiffProof] is the diff
    proof of [api.go] over a cached source ([getLimitStorageProof]).

    The theorems give the functional behaviour of an append-only upload
    (new roots, file size, Merkle root, changed sectors, revenue), that
    such an upload needs no proof ranges, and what
    [updateRevisionMissedAndValidPayback] does to the payouts: it appends
    the new outputs after the old ones. *)

From Stdlib Require Import ZArith List Lia String.
From Stdlib Require Strings.Byte.
From stdpp Require Import base list gmap sets sorting.
From S2P Require Import Prelude MerkleTree MerkleProof.
Import ListNotations.

Open Scope Z_scope.

(** ** Data *)

Definition bytes := list Byte.byte.

(** [types.DxcoinCharge] *)
Record DxcoinCharge := { Value : Z; Address : Z }.

(** [storage.UploadActionAppend] *)
Definition UploadActionAppend : string := "Append".

(** [storage.UploadAction] ([Type] is a keyword of Rocq: [ActionType]) *)
Record UploadAction := { ActionType : string; Data : bytes }.

(** [storage.UploadRequest] *)
Record UploadRequest := {
  StorageContractID : Z;
  Actions : list UploadAction;
  ReqNewRevisionNumber : Z;
  NewValidProofValues : list Z;
  NewMissedProofValues : list Z;
}.

(** [storage.HostIntConfig]: the prices the handler reads, and whether
    the host accepts new contracts ([IsAcceptingContract]). *)
Record HostIntConfig := {
  UploadBandwidthPrice : Z;
  DownloadBandwidthPrice : Z;
  AcceptingContracts : bool;
}.

Section Upload.
Context {H : Type} `{MerkleHash H} `{EqDecision H}.

(** [types.StorageContractRevision] *)
Record StorageContractRevision := {
  ParentID : Z;
  NewRevisionNumber : Z;
  NewFileSize : Z;
  NewFileMerkleRoot : H;
  NewWindowStart : Z;
  NewWindowEnd : Z;
  NewValidProofOutputs : list DxcoinCharge;
  NewMissedProofOutputs : list DxcoinCharge;
  Signatures : list bytes;
}.

(** [storagehost.StorageResponsibility] *)
Record StorageResponsibility := {
  sr_id : Z;
  SectorRoots : list H;
  StorageContractRevisions : list StorageContractRevision;
  PotentialStorageRevenue : Z;
  RiskedStorageDeposit : Z;
  PotentialUploadRevenue : Z;
}.

(** [storage.UploadMerkleProof] *)
Record UploadMerkleProof := {
  OldSubtreeHashes : list H;
  OldLeafHashes : list H;
  NewMerkleRoot : H;
}.

(** [uploadNegotiationData] *)
Record uploadNegotiationData := {
  srSnapshot : option StorageResponsibility;
  newRoots : list H;
  sectorsChanged : gset Z;
  bandwidthRevenue : Z;
  sectorGained : list H;
  gainedSectorData : list bytes;
  storageRevenue : Z;
  newDeposit : Z;
  newMerkleRoot : H;
  merkleProof : UploadMerkleProof;
}.

Inductive upload_err :=
| ErrUnknownAction (t : string)
| ErrValidation (code : Z)
| ErrProof (e : merkle_err)
| ErrPanic.

Variable sectorRootOf : bytes -> H.
Variable SectorSize : Z.
Variable calcHostRevenue :
  uploadNegotiationData -> StorageResponsibility -> Z -> HostIntConfig -> Z * Z * Z.
Variable uploadRevisionValidation :
  StorageResponsibility -> StorageContractRevision -> Z -> Z -> option Z.
Variable calcBandwidthRevenueForProof : uploadNegotiationData -> nat -> nat -> Z -> Z.

(** The zero value of [uploadNegotiationData] ([var nd ...]); the zero
    [common.Hash] is [hnil]. *)
Definition nd0 : uploadNegotiationData :=
  {| srSnapshot := None; newRoots := []; sectorsChanged := ∅; bandwidthRevenue := 0;
     sectorGained := []; gainedSectorData := []; storageRevenue := 0; newDeposit := 0;
     newMerkleRoot := hnil;
     merkleProof := {| OldSubtreeHashes := []; OldLeafHashes := []; NewMerkleRoot := hnil |} |}.

(** ** Upload actions *)

(** [handleUploadAppendType(action, nd, uploadBandwidthPrice)] *)
Definition handleUploadAppendType (action : UploadAction) (nd : uploadNegotiationData)
  (price : Z) : uploadNegotiationData :=
  let newRoot := sectorRootOf (Data action) in
  let roots := newRoots nd ++ [newRoot] in
  {| srSnapshot := srSnapshot nd; newRoots := roots;
     sectorsChanged := {[ Z.of_nat (length roots) - 1 ]} ∪ sectorsChanged nd;
     bandwidthRevenue := bandwidthRevenue nd + price * SectorSize;
     sectorGained := sectorGained nd ++ [newRoot];
     gainedSectorData := gainedSectorData nd ++ [Data action];
     storageRevenue := storageRevenue nd; newDeposit := newDeposit nd;
     newMerkleRoot := newMerkleRoot nd; merkleProof := merkleProof nd |}.

(** The loop over [uploadReq.Actions]: an unknown type stops it with an
    error. *)
Fixpoint handleActions (actions : list UploadAction) (nd : uploadNegotiationData) (price : Z)
  : result upload_err uploadNegotiationData :=
  match actions with
  | [] => Ok nd
  | a :: rest =>
      if String.eqb (ActionType a) UploadActionAppend
      then handleActions rest (handleUploadAppendType a nd price) price
      else Err (ErrUnknownAction (ActionType a))
  end.

(** [parseAndHandleUploadActions(uploadReq, nd, sr, uploadBandwidthPrice)] *)
Definition parseAndHandleUploadActions (req : UploadRequest) (nd : uploadNegotiationData)
  (sr : StorageResponsibility) (price : Z) : result upload_err uploadNegotiationData :=
  let nd1 := {| srSnapshot := srSnapshot nd; newRoots := newRoots nd ++ SectorRoots sr;
                sectorsChanged := ∅; bandwidthRevenue := bandwidthRevenue nd;
                sectorGained := sectorGained nd; gainedSectorData := gainedSectorData nd;
                storageRevenue := storageRevenue nd; newDeposit := newDeposit nd;
                newMerkleRoot := newMerkleRoot nd; merkleProof := merkleProof nd |} in
  handleActions (Actions req) nd1 price.

(** ** The new revision *)

Definition set_rev_number (rev : StorageContractRevision) (n : Z) : StorageContractRevision :=
  {| ParentID := ParentID rev; NewRevisionNumber := n; NewFileSize := NewFileSize rev;
     NewFileMerkleRoot := NewFileMerkleRoot rev; NewWindowStart := NewWindowStart rev;
     NewWindowEnd := NewWindowEnd rev; NewValidProofOutputs := NewValidProofOutputs rev;
     NewMissedProofOutputs := NewMissedProofOutputs rev; Signatures := Signatures rev |}.

Definition add_file_size (rev : StorageContractRevision) (d : Z) : StorageContractRevision :=
  {| ParentID := ParentID rev; NewRevisionNumber := NewRevisionNumber rev;
     NewFileSize := NewFileSize rev + d;
     NewFileMerkleRoot := NewFileMerkleRoot rev; NewWindowStart := NewWindowStart rev;
     NewWindowEnd := NewWindowEnd rev; NewValidProofOutputs := NewValidProofOutputs rev;
     NewMissedProofOutputs := NewMissedProofOutputs rev; Signatures := Signatures rev |}.

(** The loop of [updateRevisionFileSize]: [SectorSize] more per append
    action, other types are ignored. *)
Fixpoint fileSizeLoop (actions : list UploadAction) (rev : StorageContractRevision)
  : StorageContractRevision :=
  match actions with
  | [] => rev
  | a :: rest =>
      fileSizeLoop rest (if String.eqb (ActionType a) UploadActionAppend then add_file_size rev SectorSize else rev)
  end.

(** [updateRevisionFileSize(newRev, uploadReq)] *)
Definition updateRevisionFileSize (rev : StorageContractRevision) (req : UploadRequest)
  : StorageContractRevision := fileSizeLoop (Actions req) rev.

(** [calcAndUpdateRevisionMerkleRoot(nd, newRev)] *)
Definition calcAndUpdateRevisionMerkleRoot (nd : uploadNegotiationData) (rev : StorageContractRevision)
  : uploadNegotiationData * StorageContractRevision :=
  let root := CachedTreeRoot (newRoots nd) in
  ({| srSnapshot := srSnapshot nd; newRoots := newRoots nd; sectorsChanged := sectorsChanged nd;
      bandwidthRevenue := bandwidthRevenue nd; sectorGained := sectorGained nd;
      gainedSectorData := gainedSectorData nd; storageRevenue := storageRevenue nd;
      newDeposit := newDeposit nd; newMerkleRoot := root; merkleProof := merkleProof nd |},
   {| ParentID := ParentID rev; NewRevisionNumber := NewRevisionNumber rev;
      NewFileSize := NewFileSize rev; NewFileMerkleRoot := root;
      NewWindowStart := NewWindowStart rev; NewWindowEnd := NewWindowEnd rev;
      NewValidProofOutputs := NewValidProofOutputs rev;
      NewMissedProofOutputs := NewMissedProofOutputs rev; Signatures := Signatures rev |}).

(** One loop of [updateRevisionMissedAndValidPayback]: for each index [i]
    of [currentRev.NewValidProofOutputs], the charge of [values[i]] to
    [outputs[i].Address]; indexing out of range panics. *)
Fixpoint paybackCharges (idx : list nat) (values : list Z) (outputs : list DxcoinCharge)
  : result upload_err (list DxcoinCharge) :=
  match idx with
  | [] => Ok []
  | i :: rest =>
      match values !! i, outputs !! i with
      | Some v, Some o =>
          cs <- paybackCharges rest values outputs ;;
          Ok ({| Value := v; Address := Address o |} :: cs)
      | _, _ => Err ErrPanic
      end
  end.

(** [updateRevisionMissedAndValidPayback(nd, newRev, currentRev, uploadReq)]:
    both loops range over [currentRev.NewValidProofOutputs] and append to
    the outputs [newRev] copied from [currentRev]. *)
Definition updateRevisionMissedAndValidPayback (rev cur : StorageContractRevision) (req : UploadRequest)
  : result upload_err StorageContractRevision :=
  let idx := seq 0 (length (NewValidProofOutputs cur)) in
  valid <- paybackCharges idx (NewValidProofValues req) (NewValidProofOutputs cur) ;;
  missed <- paybackCharges idx (NewMissedProofValues req) (NewMissedProofOutputs cur) ;;
  Ok {| ParentID := ParentID rev; NewRevisionNumber := NewRevisionNumber rev;
        NewFileSize := NewFileSize rev; NewFileMerkleRoot := NewFileMerkleRoot rev;
        NewWindowStart := NewWindowStart rev; NewWindowEnd := NewWindowEnd rev;
        NewValidProofOutputs := NewValidProofOutputs rev ++ valid;
        NewMissedProofOutputs := NewMissedProofOutputs rev ++ missed;
        Signatures := Signatures rev |}.

Definition with_sector_roots (sr : StorageResponsibility) (roots : list H) : StorageResponsibility :=
  {| sr_id := sr_id sr; SectorRoots := roots; StorageContractRevisions := StorageContractRevisions sr;
     PotentialStorageRevenue := PotentialStorageRevenue sr; RiskedStorageDeposit := RiskedStorageDeposit sr;
     PotentialUploadRevenue := PotentialUploadRevenue sr |}.

Definition set_revenue (nd : uploadNegotiationData) (storage deposit : Z) : uploadNegotiationData :=
  {| srSnapshot := srSnapshot nd; newRoots := newRoots nd; sectorsChanged := sectorsChanged nd;
     bandwidthRevenue := bandwidthRevenue nd; sectorGained := sectorGained nd;
     gainedSectorData := gainedSectorData nd; storageRevenue := storage; newDeposit := deposit;
     newMerkleRoot := newMerkleRoot nd; merkleProof := merkleProof nd |}.

(** [constructAndVerifyNewRevision(np, nd, sr, uploadReq, hostConfig)]:
    [sr.StorageContractRevisions[len-1]] panics on an empty list; the
    validation sees [sr] with the new sector roots swapped in. *)
Definition constructAndVerifyNewRevision (blockHeight : Z) (nd : uploadNegotiationData)
  (sr : StorageResponsibility) (req : UploadRequest) (cfg : HostIntConfig)
  : result upload_err (uploadNegotiationData * StorageContractRevision) :=
  match last (StorageContractRevisions sr) with
  | None => Err ErrPanic
  | Some cur =>
      let rev1 := updateRevisionFileSize (set_rev_number cur (ReqNewRevisionNumber req)) req in
      let '(nd2, rev2) := calcAndUpdateRevisionMerkleRoot nd rev1 in
      rev3 <- updateRevisionMissedAndValidPayback rev2 cur req ;;
      let '(hostRevenue, sRev, dep) := calcHostRevenue nd2 sr blockHeight cfg in
      let nd3 := set_revenue nd2 sRev dep in
      match uploadRevisionValidation (with_sector_roots sr (newRoots nd3)) rev3 blockHeight hostRevenue with
      | Some code => Err (ErrValidation code)
      | None => Ok (nd3, rev3)
      end
  end.

(** ** The upload Merkle proof *)

(** [calcAndSortProofRanges(sr, nd)]: the changed indices below the old
    number of sectors, as one-leaf ranges sorted by [Left]. *)
Definition calcAndSortProofRanges (sr : StorageResponsibility) (nd : uploadNegotiationData)
  : list SubTreeLimit :=
  let old := Z.of_nat (length (SectorRoots sr)) in
  map (fun i => {| Left := i; Right := i + 1 |})
    (merge_sort Z.le (filter (fun i => i < old) (elements (sectorsChanged nd)))).

(** [calcLeafHashes(proofRanges, sr)]: [sr.SectorRoots[proofRange.Left]]
    panics out of range. *)
Fixpoint calcLeafHashes (ranges : list SubTreeLimit) (sr : StorageResponsibility)
  : result upload_err (list H) :=
  match ranges with
  | [] => Ok []
  | r :: rest =>
      match (if Left r <? 0 then None else SectorRoots sr !! Z.to_nat (Left r)) with
      | None => Err ErrPanic
      | Some h => hs <- calcLeafHashes rest sr ;; Ok (h :: hs)
      end
  end.

(** [calcOldHashSet(sr, proofRanges)] *)
Definition calcOldHashSet (sr : StorageResponsibility) (ranges : list SubTreeLimit)
  : result upload_err (list H) :=
  match getLimitStorageProof ranges (NewCachedSubtreeRoot (SectorRoots sr)) with
  | Ok p => Ok p
  | Err e => Err (ErrProof e)
  end.

Definition set_merkle_proof (nd : uploadNegotiationData) (p : UploadMerkleProof) : uploadNegotiationData :=
  {| srSnapshot := srSnapshot nd; newRoots := newRoots nd; sectorsChanged := sectorsChanged nd;
     bandwidthRevenue := bandwidthRevenue nd; sectorGained := sectorGained nd;
     gainedSectorData := gainedSectorData nd; storageRevenue := storageRevenue nd;
     newDeposit := newDeposit nd; newMerkleRoot := newMerkleRoot nd; merkleProof := p |}.

(** [constructUploadMerkleProof(nd, sr)] *)
Definition constructUploadMerkleProof (nd : uploadNegotiationData) (sr : StorageResponsibility)
  : result upload_err (uploadNegotiationData * UploadMerkleProof) :=
  let ranges := calcAndSortProofRanges sr nd in
  leafHashes <- calcLeafHashes ranges sr ;;
  oldHashSet <- calcOldHashSet sr ranges ;;
  let p := {| OldSubtreeHashes := oldHashSet; OldLeafHashes := leafHashes;
              NewMerkleRoot := newMerkleRoot nd |} in
  Ok (set_merkle_proof nd p, p).

(** [updateStorageResponsibilityUpload(nd, sr, hostConfig, newRev)] *)
Definition updateStorageResponsibilityUpload (nd : uploadNegotiationData) (sr : StorageResponsibility)
  (cfg : HostIntConfig) (rev : StorageContractRevision) : StorageResponsibility :=
  let bw := calcBandwidthRevenueForProof nd (length (OldSubtreeHashes (merkleProof nd)))
              (length (OldLeafHashes (merkleProof nd))) (DownloadBandwidthPrice cfg) in
  {| sr_id := sr_id sr; SectorRoots := newRoots nd;
     StorageContractRevisions := StorageContractRevisions sr ++ [rev];
     PotentialStorageRevenue := PotentialStorageRevenue sr + storageRevenue nd;
     RiskedStorageDeposit := RiskedStorageDeposit sr + newDeposit nd;
     PotentialUploadRevenue := PotentialUploadRevenue sr + bw |}.

(** ** Lemmas *)

Definition is_append (a : UploadAction) : Prop := String.eqb (ActionType a) UploadActionAppend = true.

(** The indices [from, from + n). *)
Definition index_range (from : Z) (n : nat) : gset Z :=
  list_to_set (map (fun k => from + Z.of_nat k) (seq 0 n)).

Lemma index_range_S from n : index_range from (S n) = {[ from ]} ∪ index_range (from + 1) n.
Proof.
  unfold index_range. cbn. rewrite Z.add_0_r. f_equal.
  rewrite <- seq_shift, map_map. f_equal. apply map_ext. intros k. lia.
Qed.

Lemma handleActions_append actions nd price :
  Forall is_append actions ->
  exists nd', handleActions actions nd price = Ok nd' /\
    srSnapshot nd' = srSnapshot nd /\
    newRoots nd' = newRoots nd ++ map (fun a => sectorRootOf (Data a)) actions /\
    sectorsChanged nd' = index_range (Z.of_nat (length (newRoots nd))) (length actions) ∪ sectorsChanged nd /\
    bandwidthRevenue nd' = bandwidthRevenue nd + Z.of_nat (length actions) * (price * SectorSize) /\
    sectorGained nd' = sectorGained nd ++ map (fun a => sectorRootOf (Data a)) actions /\
    gainedSectorData nd' = gainedSectorData nd ++ map Data actions.
Proof.
  revert nd. induction actions as [|a rest IH]; intros nd Ha.
  - exists nd. cbn. rewrite !app_nil_r. repeat split; try reflexivity; [|lia].
    unfold index_range. cbn. apply leibniz_equiv. set_solver.
  - inversion Ha as [|? ? Hx Hrest]; subst. cbn [handleActions]. unfold is_append in Hx. rewrite Hx.
    destruct (IH (handleUploadAppendType a nd price) Hrest) as (nd' & E & H1 & H2 & H3 & H4 & H5 & H6).
    exists nd'. change (length (a :: rest)) with (S (length rest)). rewrite index_range_S.
    cbn in H1, H2, H3, H4, H5, H6. cbn [map]. rewrite E, H1, H2, H3, H4, H5, H6, <- !app_assoc.
    repeat split; try reflexivity; [|lia].
    rewrite length_app, Nat2Z.inj_add. cbn.
    replace (Z.of_nat (length (newRoots nd)) + Z.of_nat 1) with (Z.of_nat (length (newRoots nd)) + 1) by lia.
    replace (Z.of_nat (length (newRoots nd)) + 1 - 1) with (Z.of_nat (length (newRoots nd))) by lia.
    generalize (index_range (Z.of_nat (length (newRoots nd)) + 1) (length rest)). intros A.
    apply leibniz_equiv. set_solver.
Qed.

Lemma paybackCharges_seq k m values outputs :
  (k + m <= length values)%nat -> (k + m <= length outputs)%nat ->
  exists cs, paybackCharges (seq k m) values outputs = Ok cs /\
    map Value cs = take m (drop k values) /\ map Address cs = map Address (take m (drop k outputs)).
Proof.
  revert k. induction m as [|m IH]; intros k Hv Ho; [exists []; rewrite !take_0; auto|].
  destruct (lookup_lt_is_Some_2 values k ltac:(lia)) as [v Ev].
  destruct (lookup_lt_is_Some_2 outputs k ltac:(lia)) as [o Eo].
  destruct (IH (S k)) as (cs & E & H1 & H2); [lia | lia |].
  exists ({| Value := v; Address := Address o |} :: cs). cbn. rewrite Ev, Eo, E. cbn.
  rewrite (drop_S values v k Ev), (drop_S outputs o k Eo). cbn. rewrite H1, H2. auto.
Qed.

Lemma paybackCharges_short k m values outputs :
  (0 < m)%nat -> (length values < k + m)%nat -> paybackCharges (seq k m) values outputs = Err ErrPanic.
Proof.
  revert k. induction m as [|m IH]; intros k Hm Hv; [lia|]. cbn.
  destruct (values !! k) as [v|] eqn:Ev; [|reflexivity].
  apply lookup_lt_Some in Ev. destruct (outputs !! k); [|reflexivity].
  rewrite IH by lia. reflexivity.
Qed.

Lemma fileSizeLoop_append actions rev :
  Forall is_append actions ->
  fileSizeLoop actions rev = add_file_size rev (Z.of_nat (length actions) * SectorSize).
Proof.
  revert rev. induction actions as [|a rest IH]; intros rev Ha.
  - destruct rev; cbn. unfold add_file_size. cbn. f_equal. lia.
  - inversion Ha as [|? ? Hx Hrest]; subst. cbn. unfold is_append in Hx. rewrite Hx, IH by exact Hrest.
    destruct rev; unfold add_file_size; cbn. f_equal. lia.
Qed.

Lemma elem_of_index_range from n x : x ∈ index_range from n <-> from <= x < from + Z.of_nat n.
Proof.
  unfold index_range. rewrite elem_of_list_to_set, list_elem_of_fmap. split.
  - intros (k & -> & Hk). apply elem_of_seq in Hk. lia.
  - intros Hx. exists (Z.to_nat (x - from)). split; [lia|]. apply elem_of_seq. lia.
Qed.

Lemma filter_all_false (P : Z -> Prop) `{forall x, Decision (P x)} (l : list Z) :
  (forall x, x ∈ l -> ~ P x) -> filter P l = [].
Proof.
  induction l as [|x l IH]; intros Hl; [reflexivity|].
  rewrite filter_cons_False by (apply Hl; left). apply IH. intros y Hy. apply Hl. right. exact Hy.
Qed.

Lemma updatePayback_spec rev cur req :
  let n := length (NewValidProofOutputs cur) in
  (n <= length (NewValidProofValues req))%nat -> (n <= length (NewMissedProofValues req))%nat ->
  (n <= length (NewMissedProofOutputs cur))%nat ->
  exists valid missed, updateRevisionMissedAndValidPayback rev cur req = Ok
    {| ParentID := ParentID rev; NewRevisionNumber := NewRevisionNumber rev;
       NewFileSize := NewFileSize rev; NewFileMerkleRoot := NewFileMerkleRoot rev;
       NewWindowStart := NewWindowStart rev; NewWindowEnd := NewWindowEnd rev;
       NewValidProofOutputs := NewValidProofOutputs rev ++ valid;
       NewMissedProofOutputs := NewMissedProofOutputs rev ++ missed;
       Signatures := Signatures rev |} /\
    map Value valid = take n (NewValidProofValues req) /\
    map Address valid = map Address (NewValidProofOutputs cur) /\
    map Value missed = take n (NewMissedProofValues req) /\
    map Address missed = map Address (take n (NewMissedProofOutputs cur)).
Proof.
  intros n Hv Hm Ho. unfold updateRevisionMissedAndValidPayback. fold n.
  destruct (paybackCharges_seq 0 n (NewValidProofValues req) (NewValidProofOutputs cur))
    as (valid & E1 & V1 & A1); [lia | lia |].
  destruct (paybackCharges_seq 0 n (NewMissedProofValues req) (NewMissedProofOutputs cur))
    as (missed & E2 & V2 & A2); [lia | lia |].
  exists valid, missed. rewrite E1, E2. cbn. rewrite !drop_0 in *.
  rewrite take_ge in A1 by (unfold n; lia). repeat split; auto.
Qed.

(** The negotiation data keep the snapshot through every step. *)
Lemma handleActions_srSnapshot actions nd price nd' :
  handleActions actions nd price = Ok nd' -> srSnapshot nd' = srSnapshot nd.
Proof.
  revert nd. induction actions as [|a rest IH]; intros nd E; cbn in E; [congruence|].
  destruct (String.eqb _ _); [apply IH in E; exact E | discriminate].
Qed.

Lemma parseAndHandleUploadActions_srSnapshot req nd sr price nd' :
  parseAndHandleUploadActions req nd sr price = Ok nd' -> srSnapshot nd' = srSnapshot nd.
Proof. intros E. exact (handleActions_srSnapshot _ _ _ _ E). Qed.

Lemma constructAndVerifyNewRevision_srSnapshot bh nd sr req cfg nd' rev :
  constructAndVerifyNewRevision bh nd sr req cfg = Ok (nd', rev) -> srSnapshot nd' = srSnapshot nd.
Proof.
  unfold constructAndVerifyNewRevision. destruct (last _); [|discriminate]. cbn.
  destruct (updateRevisionMissedAndValidPayback _ _ _); [|discriminate]. cbn.
  destruct (calcHostRevenue _ _ _ _) as [[? ?] ?]. destruct (uploadRevisionValidation _ _ _ _); [discriminate|].
  intros E. injection E as <- _. reflexivity.
Qed.

Lemma constructUploadMerkleProof_srSnapshot nd sr nd' p :
  constructUploadMerkleProof nd sr = Ok (nd', p) -> srSnapshot nd' = srSnapshot nd.
Proof.
  unfold constructUploadMerkleProof. destruct (calcLeafHashes _ _); [|discriminate]. cbn.
  destruct (calcOldHashSet _ _); [|discriminate]. cbn. intros E. injection E as <- _. reflexivity.
Qed.

(** ** Theorems *)

(** C8: An upload whose actions are all appends is handled without error:
    the tentative sector roots are the old roots followed by the root of
    each appended sector, the changed sector indices are exactly the new
    ones [len(old) ..], each sector is recorded as gained with its data,
    the bandwidth revenue grows by [UploadBandwidthPrice * SectorSize]
    per sector, and no old sector is changed, so the upload proof has no
    ranges. *)
Theorem parseAndHandleUploadActions_append req nd sr price :
  Forall is_append (Actions req) -> newRoots nd = [] ->
  exists nd', parseAndHandleUploadActions req nd sr price = Ok nd' /\
    newRoots nd' = SectorRoots sr ++ map (fun a => sectorRootOf (Data a)) (Actions req) /\
    sectorsChanged nd' = index_range (Z.of_nat (length (SectorRoots sr))) (length (Actions req)) /\
    sectorGained nd' = sectorGained nd ++ map (fun a => sectorRootOf (Data a)) (Actions req) /\
    gainedSectorData nd' = gainedSectorData nd ++ map Data (Actions req) /\
    bandwidthRevenue nd' = bandwidthRevenue nd + Z.of_nat (length (Actions req)) * (price * SectorSize) /\
    calcAndSortProofRanges sr nd' = [].
Proof.
  intros Ha Hn. unfold parseAndHandleUploadActions.
  edestruct handleActions_append as (nd' & E & _ & H2 & H3 & H4 & H5 & H6); [exact Ha|].
  exists nd'. rewrite E. cbn in *. rewrite Hn in *. cbn in *.
  rewrite H2, H3, H4, H5, H6, union_empty_r_L. repeat split; try reflexivity.
  unfold calcAndSortProofRanges. rewrite H3, union_empty_r_L, filter_all_false; [reflexivity|].
  intros x Hx. apply elem_of_elements, elem_of_index_range in Hx. lia.
Qed.

(** C9: The revision built for an append-only upload. When the latest
    revision is [cur] and the request carries enough payout values,
    [constructAndVerifyNewRevision] either fails with the validation's
    error, or returns the revision with the requested number, the file
    size grown by one [SectorSize] per sector, the Merkle root of the new
    sector roots, and the window and parent of [cur]. Its payouts are
    [cur]'s followed by the requested ones: [newRev := currentRev] shares
    the output slices and both loops append to them, so the first
    [len(cur.NewValidProofOutputs)] outputs keep the old values and the
    list has twice that length. *)
Theorem constructAndVerifyNewRevision_append bh nd sr req cfg cur :
  last (StorageContractRevisions sr) = Some cur -> Forall is_append (Actions req) ->
  let n := length (NewValidProofOutputs cur) in
  (n <= length (NewValidProofValues req))%nat -> (n <= length (NewMissedProofValues req))%nat ->
  (n <= length (NewMissedProofOutputs cur))%nat ->
  match constructAndVerifyNewRevision bh nd sr req cfg with
  | Ok (nd', rev) =>
      NewRevisionNumber rev = ReqNewRevisionNumber req /\
      NewFileSize rev = NewFileSize cur + Z.of_nat (length (Actions req)) * SectorSize /\
      NewFileMerkleRoot rev = CachedTreeRoot (newRoots nd) /\
      newMerkleRoot nd' = CachedTreeRoot (newRoots nd) /\ newRoots nd' = newRoots nd /\
      ParentID rev = ParentID cur /\ NewWindowStart rev = NewWindowStart cur /\
      NewWindowEnd rev = NewWindowEnd cur /\
      take n (NewValidProofOutputs rev) = NewValidProofOutputs cur /\
      map Value (drop n (NewValidProofOutputs rev)) = take n (NewValidProofValues req) /\
      length (NewValidProofOutputs rev) = (2 * n)%nat /\
      take (length (NewMissedProofOutputs cur)) (NewMissedProofOutputs rev) = NewMissedProofOutputs cur /\
      map Value (drop (length (NewMissedProofOutputs cur)) (NewMissedProofOutputs rev)) =
        take n (NewMissedProofValues req)
  | Err e => exists code, e = ErrValidation code
  end.
Proof.
  intros Hl Ha n Hv Hm Ho. unfold constructAndVerifyNewRevision. rewrite Hl.
  unfold updateRevisionFileSize. rewrite fileSizeLoop_append by exact Ha. cbn.
  edestruct updatePayback_spec as (valid & missed & E & V1 & A1 & V2 & A2); [exact Hv | exact Hm | exact Ho |].
  rewrite E. cbn. destruct (calcHostRevenue _ _ _ _) as [[hr sRev] dep].
  destruct (uploadRevisionValidation _ _ _ _) as [code|]; [eauto|]. cbn.
  assert (Lv : length valid = n) by (rewrite <- (length_map Address), A1, length_map; reflexivity).
  repeat split; try reflexivity.
  - rewrite take_app_length'; [reflexivity | lia].
  - rewrite drop_app_length'; [exact V1 | lia].
  - rewrite length_app. lia.
  - rewrite take_app_length'; reflexivity.
  - rewrite drop_app_length'; [exact V2 | reflexivity].
Qed.
End Upload.

(** ** Scenario: one sector appended to an empty file

    Digests are numbers here: a leaf is its length, a node [2a + b + 1];
    a sector's root is the length of its data, and a sector is 4 MiB. *)
#[export] Instance Z_MerkleHash : MerkleHash Z :=
  {| hnil := 0; leafSum d := Z.of_nat (length d); nodeSum a b := 2 * a + b + 1 |}.

Definition ex_sectorRoot (d : bytes) : Z := Z.of_nat (length d) + 100.
Definition ex_SectorSize : Z := 4194304.

Definition ex_rev0 : StorageContractRevision (H := Z) :=
  {| ParentID := 7; NewRevisionNumber := 1; NewFileSize := 0; NewFileMerkleRoot := 0;
     NewWindowStart := 100; NewWindowEnd := 200;
     NewValidProofOutputs := [ {| Value := 10; Address := 1 |}; {| Value := 20; Address := 2 |} ];
     NewMissedProofOutputs := [ {| Value := 10; Address := 1 |}; {| Value := 20; Address := 2 |} ];
     Signatures := [] |}.

Definition ex_sr : StorageResponsibility (H := Z) :=
  {| sr_id := 7; SectorRoots := []; StorageContractRevisions := [ex_rev0];
     PotentialStorageRevenue := 0; RiskedStorageDeposit := 0; PotentialUploadRevenue := 0 |}.

Definition ex_req : UploadRequest :=
  {| StorageContractID := 7;
     Actions := [ {| ActionType := "Append"%string; Data := [Byte.x01; Byte.x02] |} ];
     ReqNewRevisionNumber := 2; NewValidProofValues := [9; 21]; NewMissedProofValues := [9; 20] |}.

Lemma parseAndHandleUploadActions_append_witness :
  exists nd', parseAndHandleUploadActions ex_sectorRoot ex_SectorSize ex_req nd0 ex_sr 3 = Ok nd' /\
    newRoots nd' = [102] /\ sectorsChanged nd' = index_range 0 1 /\
    sectorGained nd' = [102] /\ gainedSectorData nd' = [[Byte.x01; Byte.x02]] /\
    bandwidthRevenue nd' = 3 * ex_SectorSize /\ calcAndSortProofRanges ex_sr nd' = [].
Proof.
  apply (parseAndHandleUploadActions_append ex_sectorRoot ex_SectorSize
           (fun _ _ _ _ => (0, 0, 0)) (fun _ _ _ _ => 0) ex_req nd0 ex_sr 3);
    [repeat constructor | reflexivity].
Defined.

Definition ex_nd1 : uploadNegotiationData (H := Z) :=
  match parseAndHandleUploadActions ex_sectorRoot ex_SectorSize ex_req nd0 ex_sr 3 with
  | Ok nd => nd
  | Err _ => nd0
  end.

Definition ex_cfg : HostIntConfig :=
  {| UploadBandwidthPrice := 3; DownloadBandwidthPrice := 1; AcceptingContracts := true |}.

(** The revision of the scenario when the host accepts it: one sector of
    file size, the single root as the Merkle root, and four valid
    payouts of which the first two are the old ones. *)
Lemma constructAndVerifyNewRevision_append_witness :
  match constructAndVerifyNewRevision ex_SectorSize (fun _ _ _ _ => (0, 0, 0)) (fun _ _ _ _ => None)
          0 ex_nd1 ex_sr ex_req ex_cfg with
  | Ok (nd', rev) =>
      NewFileSize rev = ex_SectorSize /\ NewFileMerkleRoot rev = 102 /\
      take 2 (NewValidProofOutputs rev) = NewValidProofOutputs ex_rev0 /\
      length (NewValidProofOutputs rev) = 4%nat
  | Err _ => False
  end.
Proof.
  pose proof (constructAndVerifyNewRevision_append ex_SectorSize (fun _ _ _ _ => (0, 0, 0))
                (fun _ _ _ _ => None) 0 ex_nd1 ex_sr ex_req ex_cfg ex_rev0
                eq_refl ltac:(repeat constructor) ltac:(cbn; lia) ltac:(cbn; lia) ltac:(cbn; lia)) as Hc.
  revert Hc. vm_compute. intuition.
Defined.
