(* ===== verification/UploadHandler.v ===== *)
(** * The host's upload negotiation: [ContractUploadHandler]

    Model of the effectful part of
    [src/storage/storagehost/hostnegotiation/contractuploadhandler.go]
    (lines 22-257): [ContractUploadHandler], [decodeUploadReqAndGetSr],
    [merkleProofNegotiation], [hostSignAndUpdateRevision],
    [hostRevisionSignNegotiation], [waitAndHandleClientCommitRespUpload],
    [handleClientUploadCommitResp] and [handleClientUploadSuccessCommit],
    over the [Protocol] interface of the same package (lines 384-402) and
    the session [storage.Peer].

    The [Protocol] interface is the class [HostProtocol] with the methods
    the handler calls. The handler runs in a state and error monad [M]
    over the host and the peer. The peer holds the client's messages still
    to be read and the host's messages sent so far, and can refuse
    further sends (a disconnect). [handleNegotiationErr] and
    [waitAndHandleClientRevSignResp] are not under [src/]. They are
    modelled from the spec (section 7): the first sends a negotiation
    error to the client, the second reads the client's revision signature.

    The rollback contract of the spec (section 4.5, step 7, and Scenario
    D) is stated against the class [UploadStore]. It gives what the
    handler needs of a host: a durable part that the static-connection
    flag does not touch, and a rollback that undoes a modification. The
    theorem [ContractUploadHandler_atomic] shows that the handler ends
    with the durable state either unchanged (when it fails) or that of
    one [ModifyStorageResponsibility] (when it succeeds). *)

From Stdlib Require Import ZArith List Lia String.
From Stdlib Require Strings.Byte.
From stdpp Require Import base list gmap sets.
From S2P Require Import Prelude MerkleTree MerkleProof Upload.
Import ListNotations.

Open Scope Z_scope.

(** ** The session *)

(** The client's messages the host reads. *)
Inductive client_msg :=
| ClientRevisionSign (sig : bytes)
| ClientCommitSuccess
| ClientCommitFailed
| ClientNegotiateError
| ClientOther.

Inductive handler_err :=
| EUpload (e : upload_err)
| EDecode
| ENotFound
| ESend
| ERead
| EWallet
| ESign
| ErrClientCommit
| ErrClientNegotiate
| EUnknownCode
| ErrHostCommit
| EAck.

Section Handler.
Context {H : Type} `{MerkleHash H} `{EqDecision H}.

(** The host's messages. *)
Inductive host_msg :=
| HostUploadMerkleProof (p : UploadMerkleProof (H := H))
| HostRevisionSign (sig : bytes)
| HostAck
| HostNegotiateError.

(** [storage.Peer]: the messages still to read, the messages sent, how
    many more sends succeed, whether the connection is static, and the
    peer's node. *)
Record Peer := {
  p_in : list client_msg;
  p_out : list host_msg;
  p_sends : nat;
  p_static : bool;
  p_node : option Z;
}.

(** The methods of [Protocol] the handler calls. *)
Class HostProtocol (P : Type) := {
  GetHostConfig : P -> HostIntConfig;
  GetBlockHeight : P -> Z;
  GetStorageResponsibility : P -> Z -> option (StorageResponsibility (H := H));
  FindWallet : P -> Z -> option Z;
  SignHash : P -> Z -> Z -> StorageContractRevision (H := H) -> option bytes;
  ModifyStorageResponsibility :
    P -> StorageResponsibility (H := H) -> list H -> list H -> list bytes -> option P;
  CheckAndSetStaticConnection : P -> Peer -> P;
  RollbackUploadStorageResponsibility :
    P -> StorageResponsibility (H := H) -> list H -> list H -> list bytes -> option P;
}.

Context {P : Type} `{HostProtocol P}.

(** ** The monad *)

Definition M (A : Type) : Type := P * Peer -> result handler_err A * (P * Peer).

Definition retM {A} (a : A) : M A := fun s => (Ok a, s).
Definition failM {A} (e : handler_err) : M A := fun s => (Err e, s).
Definition bindM {A B} (m : M A) (k : A -> M B) : M B :=
  fun s => match m s with
           | (Ok a, s') => k a s'
           | (Err e, s') => (Err e, s')
           end.
Definition getsM {A} (f : P -> A) : M A := fun s => (Ok (f (fst s)), s).
Definition liftU {A} (r : result upload_err A) : M A :=
  match r with Ok a => retM a | Err e => failM (EUpload e) end.

End Handler.

Arguments host_msg H : clear implicits.
Arguments Peer H : clear implicits.
Arguments M : clear implicits.

Declare Scope handler_scope.
Notation "'let!' x := m 'in' k" := (bindM m (fun x => k))
  (at level 200, x ident, m at level 100, k at level 200) : handler_scope.
Open Scope handler_scope.

Section Negotiation.
Context {H : Type} `{MerkleHash H} `{EqDecision H}.
Context {P : Type} `{HostProtocol H P}.

Local Notation MM := (M H P).
Local Notation SR := (StorageResponsibility (H := H)).
Local Notation Rev := (StorageContractRevision (H := H)).
Local Notation ND := (uploadNegotiationData (H := H)).

Variable sectorRootOf : bytes -> H.
Variable SectorSize : Z.
Variable calcHostRevenue : ND -> SR -> Z -> HostIntConfig -> Z * Z * Z.
Variable uploadRevisionValidation : SR -> Rev -> Z -> Z -> option Z.
Variable calcBandwidthRevenueForProof : ND -> nat -> nat -> Z -> Z.

(** ** Session and host operations *)

(** [sp.Send...]: fails once the peer has gone. *)
Definition sendM (m : host_msg H) : MM unit :=
  fun '(p, sp) =>
    match p_sends sp with
    | O => (Err ESend, (p, sp))
    | S k => (Ok tt, (p, {| p_in := p_in sp; p_out := p_out sp ++ [m]; p_sends := k;
                           p_static := p_static sp; p_node := p_node sp |}))
    end.

(** [sp.HostWaitContractResp()] *)
Definition recvM : MM client_msg :=
  fun '(p, sp) =>
    match p_in sp with
    | [] => (Err ERead, (p, sp))
    | m :: rest => (Ok m, (p, {| p_in := rest; p_out := p_out sp; p_sends := p_sends sp;
                                p_static := p_static sp; p_node := p_node sp |}))
    end.

Definition modifyM (sr : SR) (gained : list H) (data : list bytes) : MM unit :=
  fun '(p, sp) =>
    match ModifyStorageResponsibility p sr [] gained data with
    | Some p' => (Ok tt, (p', sp))
    | None => (Err ErrHostCommit, (p, sp))
    end.

(** [np.CheckAndSetStaticConnection(sp)] *)
Definition setStaticM : MM unit :=
  fun '(p, sp) => (Ok tt, (CheckAndSetStaticConnection p sp, sp)).

(** [_ = np.RollbackUploadStorageResponsibility(...)]: the error is
    dropped. *)
Definition rollbackM (old : SR) (gained : list H) : MM unit :=
  fun '(p, sp) =>
    match RollbackUploadStorageResponsibility p old gained [] [] with
    | Some p' => (Ok tt, (p', sp))
    | None => (Ok tt, (p, sp))
    end.

(** ** The handler *)

(** [decodeUploadReqAndGetSr(np, nd, uploadReqMsg)]: the request is
    [None] when it does not decode. *)
Definition decodeUploadReqAndGetSr (msg : option UploadRequest)
  : MM (UploadRequest * SR * ND) :=
  match msg with
  | None => failM EDecode
  | Some req =>
      let! sr0 := getsM (fun p => GetStorageResponsibility p (StorageContractID req)) in
      match sr0 with
      | None => failM ENotFound
      | Some sr =>
          retM (req, sr, {| srSnapshot := Some sr; newRoots := newRoots nd0;
                            sectorsChanged := sectorsChanged nd0; bandwidthRevenue := 0;
                            sectorGained := []; gainedSectorData := []; storageRevenue := 0;
                            newDeposit := 0; newMerkleRoot := newMerkleRoot nd0;
                            merkleProof := merkleProof nd0 |})
      end
  end.

(** [waitAndHandleClientRevSignResp(sp)] (not under [src/]). *)
Definition waitAndHandleClientRevSignResp : MM bytes :=
  let! m := recvM in
  match m with
  | ClientRevisionSign sig => retM sig
  | ClientNegotiateError => failM ErrClientNegotiate
  | _ => failM EDecode
  end.

(** [merkleProofNegotiation(sp, nd, sr)] *)
Definition merkleProofNegotiation (nd : ND) (sr : SR) : MM (ND * bytes) :=
  let! r := liftU (constructUploadMerkleProof nd sr) in
  let '(nd', proof) := r in
  let! _u := sendM (HostUploadMerkleProof proof) in
  let! sig := waitAndHandleClientRevSignResp in
  retM (nd', sig).

(** [hostSignAndUpdateRevision(np, newRev, clientRevisionSign)]: the
    host's account is [NewValidProofOutputs[validProofPaybackHostAddressIndex]]. *)
Definition hostSignAndUpdateRevision (rev : Rev) (clientSign : bytes) : MM Rev :=
  match NewValidProofOutputs rev !! 1%nat with
  | None => failM (EUpload ErrPanic)
  | Some o =>
      let! w := getsM (fun p => FindWallet p (Address o)) in
      match w with
      | None => failM EWallet
      | Some wallet =>
          let! s := getsM (fun p => SignHash p wallet (Address o) rev) in
          match s with
          | None => failM ESign
          | Some hostSign =>
              retM {| ParentID := ParentID rev; NewRevisionNumber := NewRevisionNumber rev;
                      NewFileSize := NewFileSize rev; NewFileMerkleRoot := NewFileMerkleRoot rev;
                      NewWindowStart := NewWindowStart rev; NewWindowEnd := NewWindowEnd rev;
                      NewValidProofOutputs := NewValidProofOutputs rev;
                      NewMissedProofOutputs := NewMissedProofOutputs rev;
                      Signatures := [clientSign; hostSign] |}
          end
      end
  end.

(** [handleClientUploadSuccessCommit(sp, np, nd, sr, hostConfig, newRev)] *)
Definition handleClientUploadSuccessCommit (nd : ND) (sr : SR) (cfg : HostIntConfig) (rev : Rev)
  : MM unit :=
  let sr' := updateStorageResponsibilityUpload calcBandwidthRevenueForProof nd sr cfg rev in
  let! _m := modifyM sr' (sectorGained nd) (gainedSectorData nd) in
  let! _s := setStaticM in
  fun s =>
    match sendM HostAck s with
    | (Ok tt, s') => (Ok tt, s')
    | (Err _, s') =>
        let s'' := match srSnapshot nd with
                   | Some old => snd (rollbackM old (sectorGained nd) s')
                   | None => s'
                   end in
        (Err EAck, s'')
    end.

(** [handleClientUploadCommitResp(msg, ...)] *)
Definition handleClientUploadCommitResp (msg : client_msg) (nd : ND) (sr : SR)
  (cfg : HostIntConfig) (rev : Rev) : MM unit :=
  match msg with
  | ClientCommitSuccess => handleClientUploadSuccessCommit nd sr cfg rev
  | ClientCommitFailed => failM ErrClientCommit
  | ClientNegotiateError => failM ErrClientNegotiate
  | _ => failM EUnknownCode
  end.

(** [waitAndHandleClientCommitRespUpload(sp, np, nd, sr, hostConfig, newRev)] *)
Definition waitAndHandleClientCommitRespUpload (nd : ND) (sr : SR) (cfg : HostIntConfig) (rev : Rev)
  : MM unit :=
  let! m := recvM in handleClientUploadCommitResp m nd sr cfg rev.

(** [hostRevisionSignNegotiation(sp, np, hostConfig, nd, sr, newRev)]:
    [newRev.Signatures[hostSignIndex]]. *)
Definition hostRevisionSignNegotiation (cfg : HostIntConfig) (nd : ND) (sr : SR) (rev : Rev)
  : MM unit :=
  match Signatures rev !! 1%nat with
  | None => failM (EUpload ErrPanic)
  | Some hostRevSign =>
      let! _u := sendM (HostRevisionSign hostRevSign) in
      waitAndHandleClientCommitRespUpload nd sr cfg rev
  end.

(** [handleNegotiationErr(&negotiateErr, sp, np)] (not under [src/]): a
    negotiation error message to the client, whose own failure is
    ignored. *)
Definition handleNegotiationErr (e : handler_err) : MM unit :=
  fun s => (Err e, snd (sendM HostNegotiateError s)).

(** The body of [ContractUploadHandler], up to the deferred error
    handling. *)
Definition uploadBody (msg : option UploadRequest) : MM unit :=
  let! x := decodeUploadReqAndGetSr msg in
  let '(req, sr, nd) := x in
  let! cfg := getsM GetHostConfig in
  let! nd1 := liftU (parseAndHandleUploadActions sectorRootOf SectorSize req nd sr (UploadBandwidthPrice cfg)) in
  let! bh := getsM GetBlockHeight in
  let! y := liftU (constructAndVerifyNewRevision SectorSize calcHostRevenue uploadRevisionValidation
                     bh nd1 sr req cfg) in
  let '(nd2, newRev) := y in
  let! z := merkleProofNegotiation nd2 sr in
  let '(nd3, clientSign) := z in
  let! signedRev := hostSignAndUpdateRevision newRev clientSign in
  hostRevisionSignNegotiation cfg nd3 sr signedRev.

(** [ContractUploadHandler(np, sp, uploadReqMsg)] *)
Definition ContractUploadHandler (msg : option UploadRequest) : MM unit :=
  fun s =>
    match uploadBody msg s with
    | (Ok tt, s') => (Ok tt, s')
    | (Err e, s') => handleNegotiationErr e s'
    end.
End Negotiation.

(** ** What the handler needs of the host *)

(** The durable part of the host ([durable]), a well-formedness of the
    host ([store_wf]) and the laws the handler's rollback relies on: a
    responsibility is stored under its id, setting a connection static
    leaves the durable state alone, and rolling back to the stored
    responsibility with the gained sectors undoes a modification of that
    responsibility that removed no sector. *)
Class UploadStore {H : Type} (P D : Type) `{HostProtocol H P} := {
  durable : P -> D;
  store_wf : P -> Prop;
  get_sr_id : forall p id sr, store_wf p ->
    GetStorageResponsibility p id = Some sr -> sr_id sr = id;
  static_durable : forall p sp, durable (CheckAndSetStaticConnection p sp) = durable p;
  rollback_modify : forall p p1 p2 sr0 sr g d, store_wf p ->
    GetStorageResponsibility p (sr_id sr) = Some sr0 ->
    ModifyStorageResponsibility p sr [] g d = Some p1 -> durable p2 = durable p1 ->
    exists p3, RollbackUploadStorageResponsibility p2 sr0 g [] [] = Some p3 /\ durable p3 = durable p;
}.

Section Atomic.
Context {H : Type} `{MerkleHash H} `{EqDecision H}.
Context {P D : Type} `{UploadStore H P D}.

Local Notation MM := (M H P).
Local Notation SR := (StorageResponsibility (H := H)).
Local Notation ND := (uploadNegotiationData (H := H)).

Variable sectorRootOf : bytes -> H.
Variable SectorSize : Z.
Variable calcHostRevenue : ND -> SR -> Z -> HostIntConfig -> Z * Z * Z.
Variable uploadRevisionValidation : SR -> StorageContractRevision (H := H) -> Z -> Z -> option Z.
Variable calcBandwidthRevenueForProof : ND -> nat -> nat -> Z -> Z.

(** From host [p], a step that leaves the host as it is and whose
    results satisfy [Q]. *)
Definition PureAt {A} (p : P) (m : MM A) (Q : A -> Prop) : Prop :=
  forall sp, p = fst (snd (m (p, sp))) /\ forall a, fst (m (p, sp)) = Ok a -> Q a.

(** The outcome the spec asks of an upload negotiation from host [p]:
    a failure leaves the durable state as it was, a success leaves it as
    one modification of the requested contract's responsibility made
    it. *)
Definition Outcome (msg : option UploadRequest) (p : P)
  (res : result handler_err unit * (P * Peer H)) : Prop :=
  let '(r, (p', _)) := res in
  (exists e, r = Err e /\ durable p' = durable p) \/
  (r = Ok tt /\ exists req sr g d p1, msg = Some req /\ sr_id sr = StorageContractID req /\
     ModifyStorageResponsibility p sr [] g d = Some p1 /\ durable p' = durable p1).

Definition Good (msg : option UploadRequest) (p : P) (m : MM unit) : Prop :=
  forall sp, Outcome msg p (m (p, sp)).

(** ** Lemmas *)

Lemma good_bind {A} msg p (m : MM A) Q k :
  PureAt p m Q -> (forall a, Q a -> Good msg p (k a)) -> Good msg p (bindM m k).
Proof.
  intros Hm Hk sp. unfold bindM. destruct (Hm sp) as [Hp HQ].
  destruct (m (p, sp)) as [[a|e] [p' sp']]; cbn in *; subst p'.
  - apply Hk, HQ. reflexivity.
  - left. eauto.
Qed.

Lemma good_fail msg p e : Good msg p (failM e).
Proof. intros sp. left. eauto. Qed.

Lemma pure_bind {A B} p (m : MM A) (k : A -> MM B) Q R :
  PureAt p m Q -> (forall a, Q a -> PureAt p (k a) R) -> PureAt p (bindM m k) R.
Proof.
  intros Hm Hk sp. unfold bindM. destruct (Hm sp) as [Hp HQ].
  destruct (m (p, sp)) as [[a|e] [p' sp']]; cbn in *; subst p'.
  - apply Hk, HQ. reflexivity.
  - split; [reflexivity | discriminate].
Qed.

Lemma pure_ret {A} p (a : A) : PureAt p (retM a) (fun x => x = a).
Proof. intros sp. cbn. split; [reflexivity | congruence]. Qed.

Lemma pure_fail {A} p e Q : PureAt (A := A) p (failM e) Q.
Proof. intros sp. cbn. split; [reflexivity | discriminate]. Qed.

Lemma pure_gets {A} p (f : P -> A) : PureAt p (getsM f) (fun x => x = f p).
Proof. intros sp. cbn. split; [reflexivity | congruence]. Qed.

Lemma pure_liftU {A} p (r : result upload_err A) : PureAt p (liftU r) (fun x => r = Ok x).
Proof. intros sp. destruct r; cbn; split; congruence. Qed.

Lemma pure_send p m : PureAt p (sendM m) (fun _ => True).
Proof. intros sp. cbn. destruct (p_sends sp); cbn; auto. Qed.

Lemma pure_recv p : PureAt p recvM (fun _ => True).
Proof. intros sp. cbn. destruct (p_in sp); cbn; auto. Qed.

(** Runs [pure_bind] through a chain of pure steps. *)
Ltac pure_chain :=
  repeat first
    [ eapply pure_bind; [first [apply pure_recv | apply pure_send | apply pure_gets | apply pure_liftU] |];
      intros ?a ?Ha
    | apply pure_ret | apply pure_fail
    | match goal with |- PureAt _ (match ?x with _ => _ end) _ => destruct x end ].

Lemma pure_waitRevSign p : PureAt p waitAndHandleClientRevSignResp (fun _ => True).
Proof.
  unfold waitAndHandleClientRevSignResp. pure_chain. intros sp. cbn. auto.
Qed.

Lemma pure_merkleProofNegotiation p nd sr :
  PureAt p (merkleProofNegotiation nd sr) (fun r => srSnapshot (fst r) = srSnapshot nd).
Proof.
  unfold merkleProofNegotiation. pure_chain. destruct a as [nd' pr].
  apply constructUploadMerkleProof_srSnapshot in Ha. pure_chain.
  eapply pure_bind; [apply pure_waitRevSign|]. intros sig _.
  intros sp. cbn. split; [reflexivity|]. intros ? E. injection E as <-. exact Ha.
Qed.

Lemma pure_hostSign p rev sig : PureAt p (hostSignAndUpdateRevision rev sig) (fun _ => True).
Proof.
  unfold hostSignAndUpdateRevision. pure_chain. intros sp. cbn. auto.
Qed.

Lemma pure_decode p msg :
  PureAt p (decodeUploadReqAndGetSr msg)
    (fun x => let '(req, sr, nd) := x in
       msg = Some req /\ GetStorageResponsibility p (StorageContractID req) = Some sr /\
       srSnapshot nd = Some sr).
Proof.
  unfold decodeUploadReqAndGetSr. destruct msg as [req|]; [|apply pure_fail].
  pure_chain. subst. intros sp. cbn. split; [reflexivity|]. intros x E. injection E as <-. auto.
Qed.

(** The commit: a failed [ModifyStorageResponsibility] changes nothing, a
    failed acknowledgement is rolled back to the snapshot. *)
Lemma good_successCommit msg req p nd sr cfg rev :
  store_wf p -> msg = Some req -> GetStorageResponsibility p (StorageContractID req) = Some sr ->
  srSnapshot nd = Some sr ->
  Good msg p (handleClientUploadSuccessCommit calcBandwidthRevenueForProof nd sr cfg rev).
Proof.
  intros Hw -> Hg Hs sp. pose proof (get_sr_id _ _ _ Hw Hg) as Hid.
  unfold handleClientUploadSuccessCommit, bindM, modifyM.
  set (sr' := updateStorageResponsibilityUpload calcBandwidthRevenueForProof nd sr cfg rev).
  assert (Hid' : sr_id sr' = StorageContractID req) by exact Hid.
  destruct (ModifyStorageResponsibility p sr' [] (sectorGained nd) (gainedSectorData nd)) as [p1|] eqn:Em;
    cbn; [|left; eauto].
  pose proof (static_durable p1 sp) as Hst.
  destruct (p_sends sp); cbn.
  - rewrite Hs. unfold rollbackM.
    destruct (rollback_modify p p1 (CheckAndSetStaticConnection p1 sp) sr sr' _ _ Hw
                ltac:(rewrite Hid'; exact Hg) Em Hst) as (p3 & Er & Hd).
    rewrite Er. cbn. left. eauto.
  - right. split; [reflexivity|]. exists req, sr', (sectorGained nd), (gainedSectorData nd), p1. auto.
Qed.

Lemma good_hostRevisionSignNegotiation msg req p cfg nd sr rev :
  store_wf p -> msg = Some req -> GetStorageResponsibility p (StorageContractID req) = Some sr ->
  srSnapshot nd = Some sr ->
  Good msg p (hostRevisionSignNegotiation calcBandwidthRevenueForProof cfg nd sr rev).
Proof.
  intros Hw Hm Hg Hs. unfold hostRevisionSignNegotiation.
  destruct (Signatures rev !! 1%nat); [|apply good_fail].
  eapply good_bind; [apply pure_send|]. intros _ _.
  unfold waitAndHandleClientCommitRespUpload. eapply good_bind; [apply pure_recv|]. intros m _.
  destruct m; try apply good_fail. eapply good_successCommit; eauto.
Qed.

Lemma good_uploadBody msg p :
  store_wf p -> Good msg p (uploadBody sectorRootOf SectorSize calcHostRevenue uploadRevisionValidation
                calcBandwidthRevenueForProof msg).
Proof.
  intros Hw. unfold uploadBody. eapply good_bind; [apply pure_decode|]. intros [[req sr] nd] (Hm & Hg & Hs).
  eapply good_bind; [apply pure_gets|]. intros cfg _.
  eapply good_bind; [apply pure_liftU|]. intros nd1 E1.
  apply parseAndHandleUploadActions_srSnapshot in E1.
  eapply good_bind; [apply pure_gets|]. intros bh _.
  eapply good_bind; [apply pure_liftU|]. intros [nd2 newRev] E2.
  apply constructAndVerifyNewRevision_srSnapshot in E2.
  eapply good_bind; [apply pure_merkleProofNegotiation|]. intros [nd3 sig] E3. cbn in E3.
  eapply good_bind; [apply pure_hostSign|]. intros signed _.
  eapply good_hostRevisionSignNegotiation; [exact Hw | exact Hm | exact Hg | congruence].
Qed.

(** ** Theorem *)

(** C10: All or nothing (spec section 4.5, step 7, and Scenario D). For
    every request, every well-formed host and every behaviour of the
    client (messages, refusals, a disconnect at any send),
    [ContractUploadHandler] either fails and
    leaves the host's durable state as it found it (a failed
    acknowledgement after the commit is rolled back to the snapshot), or
    succeeds after exactly one [ModifyStorageResponsibility] of the
    requested contract's responsibility, whose result is the durable
    state. *)
Theorem ContractUploadHandler_atomic msg p sp :
  store_wf p ->
  Outcome msg p (ContractUploadHandler sectorRootOf SectorSize calcHostRevenue uploadRevisionValidation
                   calcBandwidthRevenueForProof msg (p, sp)).
Proof.
  intros Hw. pose proof (good_uploadBody msg p Hw sp) as Hb. unfold ContractUploadHandler.
  destruct (uploadBody _ _ _ _ _ msg (p, sp)) as [[[]|e] [p' sp']]; [exact Hb|].
  unfold handleNegotiationErr. destruct (pure_send p' HostNegotiateError sp') as [Hp _].
  destruct (sendM _ (p', sp')) as [r [p'' sp'']]. cbn in *. subst p''.
  destruct Hb as [(e' & _ & Hd) | [Hr _]]; [left; eauto | discriminate].
Qed.
End Atomic.
