(* ===== verification/HostStore.v ===== *)
(** * The storage host behind the negotiation [Protocol]

    Model of the [Protocol] methods of [StorageHost] in
    [src/storage/storagehost/negotiationproto.go] that the upload handler
    calls: [GetHostConfig], [GetBlockHeight], [GetStorageResponsibility],
    [FindWallet], [ModifyStorageResponsibility],
    [CheckAndSetStaticConnection] and
    [RollbackUploadStorageResponsibility]. The last three are one-line
    wrappers around [h.modifyStorageResponsibility],
    [h.ethBackend.SetStatic] and [h.rollbackStorageResponsibility]. Their
    bodies are not under [src/] and are modelled from the spec's
    persistence collaborator (section 6). The responsibility database is
    a [gmap] from contract id to responsibility. The stored sectors are a
    multiset of roots ([gmultiset]): a modification adds the gained
    sectors and removes the removed ones, and a rollback restores the old
    responsibility, removes the gained sectors and re-adds the removed
    ones. The static nodes of the backend are a set of node ids.

    The instance [StorageHost_UploadStore] discharges the laws the upload
    handler's theorem needs, so [ContractUploadHandler_atomic] holds for
    this host. The witness replays Scenario D of the spec: the client
    disconnects after the host committed the new sector roots, and the
    host's database and sectors are those it started with. *)

From Stdlib Require Import ZArith List Lia String.
From Stdlib Require Strings.Byte.
From stdpp Require Import base list gmap gmultiset sets.
From S2P Require Import Prelude MerkleTree MerkleProof Upload UploadHandler.
Import ListNotations.

Open Scope Z_scope.

Section Host.
Context {H : Type} `{MerkleHash H} `{Countable H}.

Local Notation SR := (StorageResponsibility (H := H)).
Local Notation Rev := (StorageContractRevision (H := H)).

(** [StorageHost]: its configuration, block height, database of
    responsibilities, stored sectors, wallets (account to wallet) and the
    backend's static nodes. *)
Record StorageHost := {
  h_config : HostIntConfig;
  h_blockHeight : Z;
  h_db : gmap Z SR;
  h_sectors : gmultiset H;
  h_wallets : gmap Z Z;
  h_static : gset Z;
}.

(** [wallet.SignHash(account, newRev.RLPHash())]: the signature scheme. *)
Variable signRevision : Z -> Z -> Rev -> bytes.

Definition set_db_sectors (h : StorageHost) (db : gmap Z SR) (sec : gmultiset H) : StorageHost :=
  {| h_config := h_config h; h_blockHeight := h_blockHeight h; h_db := db; h_sectors := sec;
     h_wallets := h_wallets h; h_static := h_static h |}.

(** [h.modifyStorageResponsibility(sr, sectorsRemoved, sectorsGained,
    gainedSectorData)]: only a stored responsibility can be modified. *)
Definition modifyStorageResponsibility (h : StorageHost) (sr : SR) (removed gained : list H)
  (data : list bytes) : option StorageHost :=
  match h_db h !! sr_id sr with
  | None => None
  | Some _ =>
      Some (set_db_sectors h (<[sr_id sr := sr]> (h_db h))
              ((h_sectors h ∖ list_to_set_disj removed) ⊎ list_to_set_disj gained))
  end.

(** [h.rollbackStorageResponsibility(oldSr, sectorsGained, sectorsRemoved,
    removedSectorData)] *)
Definition rollbackStorageResponsibility (h : StorageHost) (old : SR) (gained removed : list H)
  (data : list bytes) : option StorageHost :=
  Some (set_db_sectors h (<[sr_id old := old]> (h_db h))
          ((h_sectors h ∖ list_to_set_disj gained) ⊎ list_to_set_disj removed)).

(** [CheckAndSetStaticConnection(sp)]: a connection that is not static
    and has a node makes that node static. *)
Definition CheckAndSetStaticConnection_host (h : StorageHost) (sp : Peer H) : StorageHost :=
  if p_static sp then h
  else match p_node sp with
       | None => h
       | Some n => {| h_config := h_config h; h_blockHeight := h_blockHeight h; h_db := h_db h;
                      h_sectors := h_sectors h; h_wallets := h_wallets h;
                      h_static := {[ n ]} ∪ h_static h |}
       end.

#[export] Instance StorageHost_HostProtocol : HostProtocol (H := H) StorageHost := {
  GetHostConfig := h_config;
  GetBlockHeight := h_blockHeight;
  GetStorageResponsibility h id := h_db h !! id;
  FindWallet h a := h_wallets h !! a;
  SignHash h w a rev := Some (signRevision w a rev);
  ModifyStorageResponsibility := modifyStorageResponsibility;
  CheckAndSetStaticConnection := CheckAndSetStaticConnection_host;
  RollbackUploadStorageResponsibility := rollbackStorageResponsibility;
}.

(** Every responsibility is stored under its own id. *)
Definition host_wf (h : StorageHost) : Prop := map_Forall (fun id sr => sr_id sr = id) (h_db h).

Lemma rollback_modify_host h h1 h2 sr0 sr g d :
  host_wf h -> h_db h !! sr_id sr = Some sr0 ->
  modifyStorageResponsibility h sr [] g d = Some h1 ->
  (h_db h2, h_sectors h2) = (h_db h1, h_sectors h1) ->
  exists h3, rollbackStorageResponsibility h2 sr0 g [] [] = Some h3 /\
    (h_db h3, h_sectors h3) = (h_db h, h_sectors h).
Proof.
  intros Hw Hg Hm Hd. unfold modifyStorageResponsibility in Hm. rewrite Hg in Hm.
  injection Hm as <-. injection Hd as Hdb Hs. cbn in *.
  eexists. split; [reflexivity|]. cbn. rewrite Hdb, Hs.
  assert (Hid : sr_id sr0 = sr_id sr) by exact (Hw _ _ Hg).
  rewrite Hid, insert_insert_eq, insert_id by exact Hg. f_equal.
  cbn. multiset_solver.
Qed.

#[export, refine] Instance StorageHost_UploadStore :
  UploadStore (H := H) StorageHost (gmap Z SR * gmultiset H) := {
  durable h := (h_db h, h_sectors h);
  store_wf := host_wf;
}.
Proof.
  - intros p id sr Hw Hg. exact (Hw _ _ Hg).
  - intros p sp. cbn. unfold CheckAndSetStaticConnection_host.
    destruct (p_static sp); [reflexivity|]. destruct (p_node sp); reflexivity.
  - intros p p1 p2 sr0 sr g d. apply rollback_modify_host.
Defined.
End Host.

(** ** Scenario D: a disconnect after the commit

    The host stores the responsibility of contract 7 ([ex_sr], no
    sectors) and the wallet of the host's payout address 2. The client
    signs the revision and acknowledges the commit, but the session takes
    only two sends (the proof and the host's signature): the host's
    acknowledgement fails after [ModifyStorageResponsibility]. *)
Definition ex_host : StorageHost (H := Z) :=
  {| h_config := ex_cfg; h_blockHeight := 0; h_db := {[ 7 := ex_sr ]}; h_sectors := ∅;
     h_wallets := {[ 2 := 99 ]}; h_static := ∅ |}.

Definition ex_peer : Peer Z :=
  {| p_in := [ClientRevisionSign [Byte.x01]; ClientCommitSuccess]; p_out := []; p_sends := 2;
     p_static := false; p_node := Some 5 |}.

Definition ex_sign (w a : Z) (rev : StorageContractRevision (H := Z)) : bytes := [Byte.x05].

#[local] Instance ex_protocol : HostProtocol (H := Z) (StorageHost (H := Z)) :=
  StorageHost_HostProtocol ex_sign.
#[local] Instance ex_store : UploadStore (H := Z) (StorageHost (H := Z)) _ :=
  StorageHost_UploadStore ex_sign.

Definition ex_run : result handler_err unit * (StorageHost * Peer Z) :=
  ContractUploadHandler (P := StorageHost (H := Z)) ex_sectorRoot ex_SectorSize
    (fun _ _ _ _ => (0, 0, 0)) (fun _ _ _ _ => None) (fun _ _ _ _ => 0)
    (Some ex_req) (ex_host, ex_peer).

Lemma ContractUploadHandler_atomic_witness :
  fst ex_run = Err EAck /\
  (h_db (fst (snd ex_run)), h_sectors (fst (snd ex_run))) = (h_db ex_host, h_sectors ex_host).
Proof.
  assert (Hw : host_wf ex_host) by (apply map_Forall_singleton; reflexivity).
  pose proof (ContractUploadHandler_atomic (P := StorageHost (H := Z)) (D := gmap Z _ * gmultiset Z)
                ex_sectorRoot ex_SectorSize (fun _ _ _ _ => (0, 0, 0)) (fun _ _ _ _ => None)
                (fun _ _ _ _ => 0) (Some ex_req) ex_host ex_peer
                Hw) as Hc.
  fold ex_run in Hc. unfold Outcome in Hc.
  destruct ex_run as [r [h' sp']] eqn:E. vm_compute in E. injection E as <- <- <-.
  destruct Hc as [(e & _ & Hd) | [Hr _]]; [split; [reflexivity | exact Hd] | discriminate].
Defined.
