(* ===== verification/HostContract.v ===== *)
(** * The storage host's contract-creation methods of [Protocol]

    Model of the methods of [StorageHost] in
    [src/storage/storagehost/negotiationproto.go] that HostStore does not
    model: [GetFinancialMetrics], [CheckAndUpdateConnection],
    [InsertContract], [IsAcceptingContract], [SetStatic],
    [FinalizeStorageResponsibility], [RollBackCreateStorageResponsibility],
    [RollBackConnectionType] and [ReadSector]. The class [CreateProtocol]
    holds these methods of the [Protocol] interface
    ([contractuploadhandler.go], lines 384-402), and [ProtoHost] is an
    instance.

    The state [ProtoHost] is the host of HostStore together with three
    more fields: the table of per-contract mutexes
    ([lockedStorageResponsibility], contract id to "held"), the map from a
    client's node to its contract ([clientToContract]), and the financial
    metrics. A call runs in a state and error monad [PM] over this state,
    with [deferP] for Go's [defer].

    The lock helpers [checkAndTryLockStorageResponsibility] and
    [checkAndUnlockStorageResponsibility] are not under [src/]. The file
    gives them the code of [checkAndTryLockStorageObligation] and
    [checkAndUnlockStorageObligation] ([storageobligationslock.go], lines
    31-58), which implement the spec's per-contract try-lock. A call runs
    alone in this model, so a mutex that is already held stays held
    through the timeout and the try-lock fails. The database calls
    [insertStorageResponsibility] and [deleteStorageResponsibilities] are
    the spec's persistence collaborator (section 6). When they fail is
    left open (section variables); when they succeed, they insert or
    delete the responsibility.

    Theorems: finalizing a new responsibility and rolling it back leaves
    the database as it was and the contract's mutex gone
    ([FinalizeStorageResponsibility_rollback]). A held mutex refuses
    finalization and changes nothing
    ([FinalizeStorageResponsibility_locked]). A failed insert persists
    nothing and drops the mutex
    ([FinalizeStorageResponsibility_insert_fails]). No sequence of calls
    from a state without a held mutex leaves one held, so none of them is
    refused with [errObligationLocked] ([reachable_no_held], by induction
    on the calls). [RollBackConnectionType] undoes [InsertContract]
    ([RollBackConnectionType_InsertContract]). [ReadSector] calls itself
    and never returns ([ReadSector_never_returns]). *)

From Stdlib Require Import ZArith List Lia String.
From stdpp Require Import base list gmap sets strings.
From S2P Require Import Prelude MerkleTree MerkleProof Upload UploadHandler HostStore.
Import ListNotations.

Open Scope Z_scope.

(** The errors of the creation methods. [ErrNilNode] is the panic of
    [sp.PeerNode().String()] on a nil node. *)
Inductive proto_err :=
| errObligationLocked
| ErrInsertResponsibility (code : Z)
| ErrDeleteResponsibility (code : Z)
| ErrNilNode.

(** [hostnegotiation.contractNegotiationData]: the parties' keys, the
    host's account and wallet (as ids). *)
Record contractNegotiationData := {
  clientPubKey : Z;
  hostPubKey : Z;
  account : Z;
  wallet : Z;
}.

Section Create.
Context {H : Type} `{MerkleHash H} `{Countable H}.

Local Notation SR := (StorageResponsibility (H := H)).

(** [hostnegotiation.DownloadSession]: the responsibility snapshot and the
    new revision of a download. *)
Record DownloadSession := {
  SrSnapshot : SR;
  NewRev : StorageContractRevision (H := H);
}.

(** The host with its mutex table, its client-to-contract map and its
    financial metrics. *)
Record ProtoHost := {
  ph_host : StorageHost (H := H);
  ph_locked : gmap Z bool;
  ph_clientToContract : gmap string Z;
  ph_financialMetrics : Z;
}.

(** When the database refuses an insert or a delete, with its error code;
    what the backend's [CheckAndUpdateConnection] does to the static
    nodes; and [enode.Node.String]. *)
Variable insertFails : StorageHost (H := H) -> SR -> option Z.
Variable deleteFails : StorageHost (H := H) -> list Z -> option Z.
Variable checkAndUpdateConnection : gset Z -> option Z -> gset Z.
Variable enodeString : Z -> string.

(** ** The monad *)

Definition PM (A : Type) : Type := ProtoHost -> result proto_err A * ProtoHost.

Definition retP {A} (a : A) : PM A := fun p => (Ok a, p).
Definition failP {A} (e : proto_err) : PM A := fun p => (Err e, p).
Definition bindP {A B} (m : PM A) (k : A -> PM B) : PM B :=
  fun p => match m p with
           | (Ok a, p') => k a p'
           | (Err e, p') => (Err e, p')
           end.
Definition modifyP (f : ProtoHost -> ProtoHost) : PM unit := fun p => (Ok tt, f p).
(** [defer f()]: [f] runs after the body, whatever its outcome. *)
Definition deferP {A} (m : PM A) (f : ProtoHost -> ProtoHost) : PM A :=
  fun p => let '(r, p') := m p in (r, f p').
(** [if err := m; err != nil { handler }]. *)
Definition onErrP {A} (m : PM A) (k : proto_err -> PM A) : PM A :=
  fun p => match m p with
           | (Err e, p') => k e p'
           | r => r
           end.

Local Notation "'do' x <- m ; k" := (bindP m (fun x => k))
  (at level 200, x name, m at level 100, k at level 200).

Definition set_locked (p : ProtoHost) (m : gmap Z bool) : ProtoHost :=
  {| ph_host := ph_host p; ph_locked := m; ph_clientToContract := ph_clientToContract p;
     ph_financialMetrics := ph_financialMetrics p |}.
Definition set_host (p : ProtoHost) (h : StorageHost (H := H)) : ProtoHost :=
  {| ph_host := h; ph_locked := ph_locked p; ph_clientToContract := ph_clientToContract p;
     ph_financialMetrics := ph_financialMetrics p |}.
Definition set_clientToContract (p : ProtoHost) (m : gmap string Z) : ProtoHost :=
  {| ph_host := ph_host p; ph_locked := ph_locked p; ph_clientToContract := m;
     ph_financialMetrics := ph_financialMetrics p |}.
Definition set_static (h : StorageHost (H := H)) (s : gset Z) : StorageHost (H := H) :=
  {| h_config := h_config h; h_blockHeight := h_blockHeight h; h_db := h_db h;
     h_sectors := h_sectors h; h_wallets := h_wallets h; h_static := s |}.

(** ** The per-contract mutexes *)

(** [checkAndTryLockStorageResponsibility(id, timeout)]: find or create
    the contract's [TryMutex] under [h.lock], then [TryLockTimed]. *)
Definition checkAndTryLockStorageResponsibility (id : Z) : PM unit :=
  fun p =>
    let m := match ph_locked p !! id with
             | Some _ => ph_locked p
             | None => <[id := false]> (ph_locked p)
             end in
    match m !! id with
    | Some false => (Ok tt, set_locked p (<[id := true]> m))
    | _ => (Err errObligationLocked, set_locked p m)
    end.

(** [checkAndUnlockStorageResponsibility(id)]: unlock the mutex if the
    table still has one. *)
Definition checkAndUnlockStorageResponsibility (id : Z) (p : ProtoHost) : ProtoHost :=
  match ph_locked p !! id with
  | Some _ => set_locked p (<[id := false]> (ph_locked p))
  | None => p
  end.

(** [deleteLockedStorageResponsibility(id)]: the mutex leaves the table. *)
Definition deleteLockedStorageResponsibility (id : Z) : PM unit :=
  modifyP (fun p => set_locked p (delete id (ph_locked p))).

(** ** The database *)

Definition insert_db (h : StorageHost (H := H)) (sr : SR) : StorageHost (H := H) :=
  set_db_sectors h (<[sr_id sr := sr]> (h_db h)) (h_sectors h).

(** [h.insertStorageResponsibility(sr)] *)
Definition insertStorageResponsibility (sr : SR) : PM unit :=
  fun p => match insertFails (ph_host p) sr with
           | Some c => (Err (ErrInsertResponsibility c), p)
           | None => (Ok tt, set_host p (insert_db (ph_host p) sr))
           end.

(** [h.deleteStorageResponsibilities(ids)] *)
Definition deleteStorageResponsibilities (ids : list Z) : PM unit :=
  fun p => match deleteFails (ph_host p) ids with
           | Some c => (Err (ErrDeleteResponsibility c), p)
           | None => (Ok tt, set_host p (set_db_sectors (ph_host p)
                                          (foldr delete (h_db (ph_host p)) ids)
                                          (h_sectors (ph_host p))))
           end.

(** ** The methods *)

(** [GetFinancialMetrics()] *)
Definition GetFinancialMetrics_host (p : ProtoHost) : Z := ph_financialMetrics p.

(** [CheckAndUpdateConnection(peerNode)] *)
Definition CheckAndUpdateConnection_host (node : option Z) : PM unit :=
  modifyP (fun p => set_host p (set_static (ph_host p)
                                  (checkAndUpdateConnection (h_static (ph_host p)) node))).

(** [InsertContract(peerNode, contractID)] *)
Definition InsertContract_host (peerNode : string) (contractID : Z) : PM unit :=
  modifyP (fun p => set_clientToContract p (<[peerNode := contractID]> (ph_clientToContract p))).

(** [IsAcceptingContract()] *)
Definition IsAcceptingContract_host (p : ProtoHost) : bool :=
  AcceptingContracts (h_config (ph_host p)).

(** [SetStatic(node)] *)
Definition SetStatic_host (node : Z) : PM unit :=
  modifyP (fun p => set_host p (set_static (ph_host p) ({[ node ]} ∪ h_static (ph_host p)))).

(** [FinalizeStorageResponsibility(sr)]: a failed insert drops the
    contract's mutex before the deferred unlock, which then finds none. *)
Definition FinalizeStorageResponsibility_host (sr : SR) : PM unit :=
  do _ <- checkAndTryLockStorageResponsibility (sr_id sr) ;
  deferP
    (onErrP (insertStorageResponsibility sr)
       (fun e => do _ <- deleteLockedStorageResponsibility (sr_id sr) ; failP e))
    (checkAndUnlockStorageResponsibility (sr_id sr)).

(** [RollBackCreateStorageResponsibility(sr)] *)
Definition RollBackCreateStorageResponsibility_host (sr : SR) : PM unit :=
  do _ <- checkAndTryLockStorageResponsibility (sr_id sr) ;
  deferP
    (do _ <- deleteStorageResponsibilities [sr_id sr] ;
     deleteLockedStorageResponsibility (sr_id sr))
    (checkAndUnlockStorageResponsibility (sr_id sr)).

(** [RollBackConnectionType(sp)] *)
Definition RollBackConnectionType_host (sp : Peer H) : PM unit :=
  do _ <- CheckAndUpdateConnection_host (p_node sp) ;
  match p_node sp with
  | None => failP ErrNilNode
  | Some n => modifyP (fun p => set_clientToContract p (delete (enodeString n) (ph_clientToContract p)))
  end.

(** [ReadSector(sectorRoot)] returns [h.ReadSector(sectorRoot)]: the
    method calls itself. With [fuel] calls left, [None] is a call that
    has not returned. *)
Fixpoint ReadSector_host (fuel : nat) (p : ProtoHost) (sectorRoot : H)
  : option (result proto_err bytes) :=
  match fuel with
  | O => None
  | S fuel' => ReadSector_host fuel' p sectorRoot
  end.

(** The [Protocol] methods of contract creation, for a host state [P]. *)
Class CreateProtocol (P : Type) := {
  GetFinancialMetrics : P -> Z;
  CheckAndUpdateConnection : option Z -> P -> result proto_err unit * P;
  InsertContract : string -> Z -> P -> result proto_err unit * P;
  IsAcceptingContract : P -> bool;
  SetStatic : Z -> P -> result proto_err unit * P;
  FinalizeStorageResponsibility : SR -> P -> result proto_err unit * P;
  RollBackCreateStorageResponsibility : SR -> P -> result proto_err unit * P;
  RollBackConnectionType : Peer H -> P -> result proto_err unit * P;
  ReadSector : nat -> P -> H -> option (result proto_err bytes);
}.

#[export] Instance ProtoHost_CreateProtocol : CreateProtocol ProtoHost := {
  GetFinancialMetrics := GetFinancialMetrics_host;
  CheckAndUpdateConnection := CheckAndUpdateConnection_host;
  InsertContract := InsertContract_host;
  IsAcceptingContract := IsAcceptingContract_host;
  SetStatic := SetStatic_host;
  FinalizeStorageResponsibility := FinalizeStorageResponsibility_host;
  RollBackCreateStorageResponsibility := RollBackCreateStorageResponsibility_host;
  RollBackConnectionType := RollBackConnectionType_host;
  ReadSector := ReadSector_host;
}.

(** No mutex of the table is held. *)
Definition no_held (p : ProtoHost) : Prop := map_Forall (fun _ b => b = false) (ph_locked p).

(** A call that keeps every mutex released. *)
Definition keeps_free {A} (m : PM A) : Prop := forall p, no_held p -> no_held (snd (m p)).

(** ** Lemmas *)

Lemma set_locked_id p : set_locked p (ph_locked p) = p.
Proof. destruct p; reflexivity. Qed.

(** A mutex that is not held is taken. *)
Lemma tryLock_free id p :
  ph_locked p !! id <> Some true ->
  checkAndTryLockStorageResponsibility id p = (Ok tt, set_locked p (<[id := true]> (ph_locked p))).
Proof.
  intros Hn. unfold checkAndTryLockStorageResponsibility.
  destruct (ph_locked p !! id) as [[|]|] eqn:E; [congruence| |].
  - rewrite E. reflexivity.
  - rewrite lookup_insert_eq, insert_insert_eq. reflexivity.
Qed.

(** A held mutex refuses, and nothing changes. *)
Lemma tryLock_held id p :
  ph_locked p !! id = Some true ->
  checkAndTryLockStorageResponsibility id p = (Err errObligationLocked, p).
Proof.
  intros E. unfold checkAndTryLockStorageResponsibility. rewrite E, E, set_locked_id. reflexivity.
Qed.

Lemma no_held_not_true id p : no_held p -> ph_locked p !! id <> Some true.
Proof. intros Hf E. specialize (Hf _ _ E). discriminate. Qed.

Lemma no_held_insert_false id p : no_held p -> no_held (set_locked p (<[id := false]> (ph_locked p))).
Proof. intros Hf. apply map_Forall_insert_2; [reflexivity | exact Hf]. Qed.

Lemma no_held_delete id p : no_held p -> no_held (set_locked p (delete id (ph_locked p))).
Proof. intros Hf. apply map_Forall_delete, Hf. Qed.

Lemma no_held_unlock id p : no_held p -> no_held (checkAndUnlockStorageResponsibility id p).
Proof.
  intros Hf. unfold checkAndUnlockStorageResponsibility.
  destruct (ph_locked p !! id); [apply no_held_insert_false|]; exact Hf.
Qed.

(** The unlock after the lock: the mutex is released. *)
Lemma unlock_after_lock id p m :
  checkAndUnlockStorageResponsibility id (set_locked p (<[id := true]> m)) = set_locked p (<[id := false]> m).
Proof.
  unfold checkAndUnlockStorageResponsibility. cbn. rewrite lookup_insert_eq, insert_insert_eq. reflexivity.
Qed.

(** The unlock after the mutex left the table does nothing. *)
Lemma unlock_after_delete id p m :
  checkAndUnlockStorageResponsibility id (set_locked p (delete id m)) = set_locked p (delete id m).
Proof. unfold checkAndUnlockStorageResponsibility. cbn. rewrite lookup_delete_eq. reflexivity. Qed.

Lemma keeps_free_modify (f : ProtoHost -> ProtoHost) :
  (forall p, ph_locked (f p) = ph_locked p) -> keeps_free (modifyP f).
Proof. intros Hf p Hp. unfold no_held. cbn. rewrite Hf. exact Hp. Qed.

Lemma keeps_free_bind {A B} (m : PM A) (k : A -> PM B) :
  keeps_free m -> (forall a, keeps_free (k a)) -> keeps_free (bindP m k).
Proof.
  intros Hm Hk p Hp. unfold bindP. specialize (Hm p Hp).
  destruct (m p) as [[a|e] p']; [apply Hk|]; exact Hm.
Qed.

Lemma keeps_free_fail {A} e : keeps_free (failP (A := A) e).
Proof. intros p Hp. exact Hp. Qed.

#[local] Hint Resolve keeps_free_bind keeps_free_fail : godx.

Lemma keeps_free_CheckAndUpdateConnection node : keeps_free (CheckAndUpdateConnection_host node).
Proof. apply keeps_free_modify. reflexivity. Qed.

Lemma keeps_free_InsertContract peerNode id : keeps_free (InsertContract_host peerNode id).
Proof. apply keeps_free_modify. reflexivity. Qed.

Lemma keeps_free_SetStatic node : keeps_free (SetStatic_host node).
Proof. apply keeps_free_modify. reflexivity. Qed.

Lemma keeps_free_RollBackConnectionType sp : keeps_free (RollBackConnectionType_host sp).
Proof.
  apply keeps_free_bind; [apply keeps_free_CheckAndUpdateConnection|]. intros _.
  destruct (p_node sp); [apply keeps_free_modify; reflexivity | apply keeps_free_fail].
Qed.

Lemma unlock_locked id q :
  ph_locked (checkAndUnlockStorageResponsibility id q) =
  match ph_locked q !! id with Some _ => <[id := false]> (ph_locked q) | None => ph_locked q end.
Proof. unfold checkAndUnlockStorageResponsibility. destruct (ph_locked q !! id); reflexivity. Qed.

(** The table after a lock and its deferred unlock: the mutex is released,
    or gone when the body dropped it. *)
Lemma no_held_relock id p :
  no_held p -> map_Forall (fun _ b => b = false) (<[id := false]> (<[id := true]> (ph_locked p))).
Proof. intros Hp. rewrite insert_insert_eq. apply map_Forall_insert_2; [reflexivity | exact Hp]. Qed.

Lemma no_held_dropped id p :
  no_held p -> map_Forall (fun _ b => b = false) (delete id (<[id := true]> (ph_locked p))).
Proof. intros Hp. rewrite delete_insert_eq. apply map_Forall_delete, Hp. Qed.

Lemma keeps_free_Finalize sr : keeps_free (FinalizeStorageResponsibility_host sr).
Proof.
  intros p Hp. unfold FinalizeStorageResponsibility_host, bindP.
  rewrite (tryLock_free _ _ (no_held_not_true _ _ Hp)).
  unfold deferP, onErrP, insertStorageResponsibility. cbn.
  destruct (insertFails (ph_host p) sr); cbn -[checkAndUnlockStorageResponsibility];
    unfold no_held; rewrite unlock_locked; cbn.
  - rewrite lookup_delete_eq. apply no_held_dropped, Hp.
  - rewrite lookup_insert_eq. apply no_held_relock, Hp.
Qed.

Lemma keeps_free_RollBackCreate sr : keeps_free (RollBackCreateStorageResponsibility_host sr).
Proof.
  intros p Hp. unfold RollBackCreateStorageResponsibility_host, bindP.
  rewrite (tryLock_free _ _ (no_held_not_true _ _ Hp)).
  unfold deferP, deleteStorageResponsibilities. cbn.
  destruct (deleteFails (ph_host p) [sr_id sr]); cbn -[checkAndUnlockStorageResponsibility];
    unfold no_held; rewrite unlock_locked; cbn.
  - rewrite lookup_insert_eq. apply no_held_relock, Hp.
  - rewrite lookup_delete_eq. apply no_held_dropped, Hp.
Qed.

(** [FinalizeStorageResponsibility] on a free mutex with a successful
    insert: the responsibility is stored and the mutex released. *)
Lemma Finalize_ok p sr :
  ph_locked p !! sr_id sr <> Some true -> insertFails (ph_host p) sr = None ->
  FinalizeStorageResponsibility_host sr p =
    (Ok tt, set_locked (set_host p (insert_db (ph_host p) sr)) (<[sr_id sr := false]> (ph_locked p))).
Proof.
  intros Hl Hi. unfold FinalizeStorageResponsibility_host, bindP. rewrite (tryLock_free _ _ Hl).
  unfold deferP, onErrP, insertStorageResponsibility. cbn. rewrite Hi.
  unfold checkAndUnlockStorageResponsibility. cbn. rewrite lookup_insert_eq, insert_insert_eq.
  reflexivity.
Qed.

(** [RollBackCreateStorageResponsibility] on a free mutex with a
    successful delete: the responsibility and the mutex are gone. *)
Lemma RollBackCreate_ok p sr :
  ph_locked p !! sr_id sr <> Some true -> deleteFails (ph_host p) [sr_id sr] = None ->
  RollBackCreateStorageResponsibility_host sr p =
    (Ok tt, set_locked (set_host p (set_db_sectors (ph_host p) (delete (sr_id sr) (h_db (ph_host p)))
                                                      (h_sectors (ph_host p))))
                       (delete (sr_id sr) (ph_locked p))).
Proof.
  intros Hl Hd. unfold RollBackCreateStorageResponsibility_host, bindP. rewrite (tryLock_free _ _ Hl).
  unfold deferP, deleteStorageResponsibilities. cbn. rewrite Hd.
  unfold checkAndUnlockStorageResponsibility. cbn. rewrite lookup_delete_eq, delete_insert_eq.
  reflexivity.
Qed.

(** ** Theorems *)

(** C24: finalizing a responsibility the database does not hold stores
    it and releases the contract's mutex; rolling the creation back then
    succeeds, and leaves the database and the sectors as they were before
    the finalization and the contract's mutex out of the table. *)
Theorem FinalizeStorageResponsibility_rollback p sr :
  ph_locked p !! sr_id sr <> Some true ->
  h_db (ph_host p) !! sr_id sr = None ->
  insertFails (ph_host p) sr = None ->
  deleteFails (insert_db (ph_host p) sr) [sr_id sr] = None ->
  exists p1 p2,
    FinalizeStorageResponsibility_host sr p = (Ok tt, p1) /\
    h_db (ph_host p1) = <[sr_id sr := sr]> (h_db (ph_host p)) /\
    RollBackCreateStorageResponsibility_host sr p1 = (Ok tt, p2) /\
    h_db (ph_host p2) = h_db (ph_host p) /\
    h_sectors (ph_host p2) = h_sectors (ph_host p) /\
    ph_locked p2 = delete (sr_id sr) (ph_locked p).
Proof.
  intros Hl Hn Hi Hd. rewrite (Finalize_ok _ _ Hl Hi).
  eexists _, _. split; [reflexivity|]. split; [reflexivity|].
  rewrite RollBackCreate_ok; cbn.
  - split; [reflexivity|]. rewrite delete_insert_id by exact Hn.
    split; [reflexivity|]. split; [reflexivity|]. rewrite delete_insert_eq. reflexivity.
  - rewrite lookup_insert_eq. discriminate.
  - exact Hd.
Qed.

(** A held mutex refuses the finalization, and nothing changes. *)
Lemma FinalizeStorageResponsibility_locked p sr :
  ph_locked p !! sr_id sr = Some true ->
  FinalizeStorageResponsibility_host sr p = (Err errObligationLocked, p).
Proof. intros Hl. unfold FinalizeStorageResponsibility_host, bindP. rewrite (tryLock_held _ _ Hl). reflexivity. Qed.

(** The finalization when the insert fails. *)
Lemma Finalize_insert_fails p sr c :
  ph_locked p !! sr_id sr <> Some true -> insertFails (ph_host p) sr = Some c ->
  FinalizeStorageResponsibility_host sr p =
    (Err (ErrInsertResponsibility c), set_locked p (delete (sr_id sr) (ph_locked p))).
Proof.
  intros Hl Hi. unfold FinalizeStorageResponsibility_host, bindP. rewrite (tryLock_free _ _ Hl).
  unfold deferP, onErrP, insertStorageResponsibility. cbn. rewrite Hi.
  unfold checkAndUnlockStorageResponsibility. cbn. rewrite delete_insert_eq, lookup_delete_eq.
  reflexivity.
Qed.

(** C33: when the database refuses the insert, [FinalizeStorageResponsibility]
    returns the database's error, persists nothing (the host, its
    database and sectors are unchanged) and drops the contract's mutex
    from the table, so the deferred unlock finds none; the rest of the
    mutex table and the client map are untouched. *)
Theorem FinalizeStorageResponsibility_insert_fails p sr c :
  ph_locked p !! sr_id sr <> Some true -> insertFails (ph_host p) sr = Some c ->
  FinalizeStorageResponsibility_host sr p =
    (Err (ErrInsertResponsibility c), set_locked p (delete (sr_id sr) (ph_locked p))).
Proof. apply Finalize_insert_fails. Qed.

(** [RollBackConnectionType] removes the contract [InsertContract]
    recorded for the peer's node. *)
Lemma RollBackConnectionType_InsertContract p sp n id :
  p_node sp = Some n -> ph_clientToContract p !! enodeString n = None ->
  exists p2,
    RollBackConnectionType_host sp (snd (InsertContract_host (enodeString n) id p)) = (Ok tt, p2) /\
    ph_clientToContract p2 = ph_clientToContract p.
Proof.
  intros Hs Hn. unfold RollBackConnectionType_host, bindP. cbn. rewrite Hs.
  eexists. split; [reflexivity|]. cbn. apply delete_insert_id, Hn.
Qed.

(** [ReadSector] never returns, whatever the number of calls allowed. *)
Lemma ReadSector_never_returns fuel p sectorRoot : ReadSector_host fuel p sectorRoot = None.
Proof. induction fuel; [reflexivity | exact IHfuel]. Qed.

(** The calls that change the host, and the states a sequence of them
    reaches. *)
Inductive proto_call :=
| CallFinalize (sr : SR)
| CallRollBackCreate (sr : SR)
| CallRollBackConnectionType (sp : Peer H)
| CallInsertContract (peerNode : string) (id : Z)
| CallSetStatic (node : Z)
| CallCheckAndUpdateConnection (node : option Z).

Definition run_call (c : proto_call) : PM unit :=
  match c with
  | CallFinalize sr => FinalizeStorageResponsibility_host sr
  | CallRollBackCreate sr => RollBackCreateStorageResponsibility_host sr
  | CallRollBackConnectionType sp => RollBackConnectionType_host sp
  | CallInsertContract n id => InsertContract_host n id
  | CallSetStatic node => SetStatic_host node
  | CallCheckAndUpdateConnection node => CheckAndUpdateConnection_host node
  end.

Inductive reachable (p0 : ProtoHost) : ProtoHost -> Prop :=
| reachable_init : reachable p0 p0
| reachable_call p c : reachable p0 p -> reachable p0 (snd (run_call c p)).

Lemma keeps_free_run_call c : keeps_free (run_call c).
Proof.
  destruct c; cbn; auto using keeps_free_Finalize, keeps_free_RollBackCreate,
    keeps_free_RollBackConnectionType, keeps_free_InsertContract, keeps_free_SetStatic,
    keeps_free_CheckAndUpdateConnection.
Qed.

(** C23: from a host with no mutex held, every state a sequence of
    [FinalizeStorageResponsibility], [RollBackCreateStorageResponsibility],
    [RollBackConnectionType], [InsertContract], [SetStatic] and
    [CheckAndUpdateConnection] calls reaches, whatever they return, has no
    mutex held, so a finalization from it is never refused with
    [errObligationLocked]: every method releases or drops the mutex it
    takes, on every path. *)
Theorem reachable_no_held p0 p :
  no_held p0 -> reachable p0 p ->
  no_held p /\ forall sr, fst (FinalizeStorageResponsibility_host sr p) <> Err errObligationLocked.
Proof.
  intros Hi R. assert (Hp : no_held p).
  { induction R as [|p c R IH]; [exact Hi | apply keeps_free_run_call, IH]. }
  split; [exact Hp|]. intros sr.
  destruct (insertFails (ph_host p) sr) as [c|] eqn:E.
  - rewrite (Finalize_insert_fails _ _ _ (no_held_not_true _ _ Hp) E). discriminate.
  - rewrite (Finalize_ok _ _ (no_held_not_true _ _ Hp) E). discriminate.
Qed.

End Create.

(** ** A finalization rolled back

    The host of Scenario D ([ex_host], which stores contract 7) with no
    mutex and no client, finalizes a responsibility for contract 8 and
    rolls it back, with a database that accepts both writes. *)
Definition ex_proto : ProtoHost (H := Z) :=
  {| ph_host := ex_host; ph_locked := ∅; ph_clientToContract := ∅; ph_financialMetrics := 0 |}.

Definition ex_new_sr : StorageResponsibility (H := Z) :=
  {| sr_id := 8; SectorRoots := []; StorageContractRevisions := [ex_rev0];
     PotentialStorageRevenue := 0; RiskedStorageDeposit := 0; PotentialUploadRevenue := 0 |}.

Lemma FinalizeStorageResponsibility_rollback_witness :
  exists p1 p2,
    FinalizeStorageResponsibility_host (fun _ _ => None) ex_new_sr ex_proto = (Ok tt, p1) /\
    h_db (ph_host p1) = <[8 := ex_new_sr]> (h_db (ph_host ex_proto)) /\
    RollBackCreateStorageResponsibility_host (fun _ _ => None) ex_new_sr p1 = (Ok tt, p2) /\
    h_db (ph_host p2) = h_db (ph_host ex_proto) /\
    h_sectors (ph_host p2) = h_sectors (ph_host ex_proto) /\
    ph_locked p2 = delete 8 (ph_locked ex_proto).
Proof.
  apply (FinalizeStorageResponsibility_rollback (fun _ _ => None) (fun _ _ => None) ex_proto ex_new_sr);
    [vm_compute; discriminate | vm_compute; reflexivity | reflexivity | reflexivity].
Defined.

(** The host of Scenario D after finalizing contract 8, with a database
    that accepts every write. *)
Lemma reachable_no_held_witness :
  no_held ex_proto /\
  reachable (fun _ _ => None) (fun _ _ => None) (fun s _ => s) (fun _ => ""%string) ex_proto
    (snd (run_call (fun _ _ => None) (fun _ _ => None) (fun s _ => s) (fun _ => ""%string)
            (CallFinalize ex_new_sr) ex_proto)) /\
  let p := snd (run_call (fun _ _ => None) (fun _ _ => None) (fun s _ => s) (fun _ => ""%string)
                  (CallFinalize ex_new_sr) ex_proto) in
  no_held p /\ forall sr, fst (FinalizeStorageResponsibility_host (fun _ _ => None) sr p) <> Err errObligationLocked.
Proof.
  assert (H0 : no_held ex_proto) by apply map_Forall_empty.
  assert (R : reachable (fun _ _ => None) (fun _ _ => None) (fun s _ => s) (fun _ => ""%string) ex_proto
                (snd (run_call (fun _ _ => None) (fun _ _ => None) (fun s _ => s) (fun _ => ""%string)
                        (CallFinalize ex_new_sr) ex_proto)))
    by (apply reachable_call, reachable_init).
  split; [exact H0|]. split; [exact R|].
  exact (reachable_no_held (fun _ _ => None) (fun _ _ => None) (fun s _ => s) (fun _ => ""%string)
           ex_proto _ H0 R).
Defined.

(** The same finalization with a database that refuses the insert with
    code 5. *)
Lemma FinalizeStorageResponsibility_insert_fails_witness :
  ph_locked ex_proto !! sr_id ex_new_sr <> Some true /\
  (fun (_ : StorageHost (H := Z)) (_ : StorageResponsibility (H := Z)) => Some 5) (ph_host ex_proto) ex_new_sr = Some 5 /\
  FinalizeStorageResponsibility_host (fun _ _ => Some 5) ex_new_sr ex_proto =
    (Err (ErrInsertResponsibility 5), set_locked ex_proto (delete (sr_id ex_new_sr) (ph_locked ex_proto))).
Proof.
  assert (Hl : ph_locked ex_proto !! sr_id ex_new_sr <> Some true) by (vm_compute; discriminate).
  split; [exact Hl|]. split; [reflexivity|].
  exact (FinalizeStorageResponsibility_insert_fails (fun _ _ => Some 5) ex_proto ex_new_sr 5 Hl eq_refl).
Defined.
