(* ===== verification/HostDebug.v ===== *)
(** * The storage host's debug API

    Model of [src/storage/storagehost/debug.go] and of the [HostDeBugAPI]
    methods of [src/storage/storagehost/api_storagehost.go] that forward
    to it. The host's fields these functions read and write are a
    [StorageHost] record; its [sync.RWMutex] is the count of readers and
    the writer flag; [spew.Dump] appends to the dumped values; a failed
    [syncConfig] is logged. [syncConfig], [extractPersistence],
    [internalConfig], [financialStats], [defaultConfig] and [setIntConfig]
    are not under [src/]: they are section variables, and the host
    configuration and financial metrics are opaque values.

    A call that would wait for the lock returns [None]: in a sequential
    model a held lock is never released by anyone else. From an unlocked
    host, every method returns and leaves the lock free
    ([debug_api_unlocked], C27). [setDefault] takes no lock: while another
    goroutine holds the write lock, it still rewrites the configuration,
    where [setBroadCast] waits ([setDefault_ignores_lock]).
    [setRevisionNumber] stores [uint64(num)], so a negative number wraps
    ([setRevisionNumber_wraps]). *)

From Stdlib Require Import ZArith List String Lia.
From S2P Require Import Prelude.
Import ListNotations.

Open Scope Z_scope.

(** The fields of [StorageHost] the debug functions use. *)
Record StorageHost := {
  persistDir : string;
  config : Z;
  broadcast : bool;
  revisionNumber : Z;
  financialMetrics : Z;
  rw_readers : nat;
  rw_writer : bool;
  dumped : list Z;
  warnings : list string;
}.

(** The host monad: [None] when the call waits forever on the lock. *)
Definition HM (A : Type) : Type := StorageHost -> option (A * StorageHost).

Definition retH {A} (a : A) : HM A := fun h => Some (a, h).
Definition bindH {A B} (m : HM A) (k : A -> HM B) : HM B :=
  fun h => match m h with Some (a, h') => k a h' | None => None end.

Declare Scope host_scope.
Notation "'do' x <- m ; k" := (bindH m (fun x => k))
  (at level 60, x name, m at next level, right associativity) : host_scope.
Open Scope host_scope.

Definition set_rw (readers : nat) (writer : bool) (h : StorageHost) : StorageHost :=
  {| persistDir := persistDir h; config := config h; broadcast := broadcast h;
     revisionNumber := revisionNumber h; financialMetrics := financialMetrics h;
     rw_readers := readers; rw_writer := writer; dumped := dumped h; warnings := warnings h |}.

(** [h.lock.RLock()] ... [defer h.lock.RUnlock()] *)
Definition withRLock {A} (m : HM A) : HM A := fun h =>
  if rw_writer h then None
  else match m (set_rw (S (rw_readers h)) false h) with
       | Some (a, h') => Some (a, set_rw (pred (rw_readers h')) (rw_writer h') h')
       | None => None
       end.

(** [h.lock.Lock()] ... [defer h.lock.Unlock()] *)
Definition withLock {A} (m : HM A) : HM A := fun h =>
  if (rw_writer h || negb (Nat.eqb (rw_readers h) 0))%bool then None
  else match m (set_rw (rw_readers h) true h) with
       | Some (a, h') => Some (a, set_rw (rw_readers h') false h')
       | None => None
       end.

(** [spew.Dump(v)] *)
Definition dump (v : Z) : HM unit := fun h =>
  Some (tt, {| persistDir := persistDir h; config := config h; broadcast := broadcast h;
               revisionNumber := revisionNumber h; financialMetrics := financialMetrics h;
               rw_readers := rw_readers h; rw_writer := rw_writer h; dumped := dumped h ++ [v];
               warnings := warnings h |}).

Definition update (f : StorageHost -> StorageHost) : HM unit := fun h => Some (tt, f h).

Definition with_config (c : Z) (h : StorageHost) : StorageHost :=
  {| persistDir := persistDir h; config := c; broadcast := broadcast h;
     revisionNumber := revisionNumber h; financialMetrics := financialMetrics h;
     rw_readers := rw_readers h; rw_writer := rw_writer h; dumped := dumped h; warnings := warnings h |}.
Definition with_broadcast (b : bool) (h : StorageHost) : StorageHost :=
  {| persistDir := persistDir h; config := config h; broadcast := b;
     revisionNumber := revisionNumber h; financialMetrics := financialMetrics h;
     rw_readers := rw_readers h; rw_writer := rw_writer h; dumped := dumped h; warnings := warnings h |}.
Definition with_revisionNumber (n : Z) (h : StorageHost) : StorageHost :=
  {| persistDir := persistDir h; config := config h; broadcast := broadcast h;
     revisionNumber := n; financialMetrics := financialMetrics h;
     rw_readers := rw_readers h; rw_writer := rw_writer h; dumped := dumped h; warnings := warnings h |}.
Definition with_financialMetrics (m : Z) (h : StorageHost) : StorageHost :=
  {| persistDir := persistDir h; config := config h; broadcast := broadcast h;
     revisionNumber := revisionNumber h; financialMetrics := m;
     rw_readers := rw_readers h; rw_writer := rw_writer h; dumped := dumped h; warnings := warnings h |}.
Definition with_warning (w : string) (h : StorageHost) : StorageHost :=
  {| persistDir := persistDir h; config := config h; broadcast := broadcast h;
     revisionNumber := revisionNumber h; financialMetrics := financialMetrics h;
     rw_readers := rw_readers h; rw_writer := rw_writer h; dumped := dumped h;
     warnings := warnings h ++ [w] |}.

Section Debug.

(** [h.syncConfig()] (its error message), [h.extractPersistence()],
    [h.internalConfig()], [h.financialStats()], [defaultConfig()] and
    [h.setIntConfig(c)]. *)
Variable syncConfig : StorageHost -> option string.
Variable extractPersistence : StorageHost -> Z.
Variable internalConfig : StorageHost -> Z.
Variable financialStats : StorageHost -> Z.
Variable defaultConfig : Z.
Variable setIntConfig : Z -> HM unit.

(** [if err := h.syncConfig(); err != nil { h.log.Warn(err.Error()) }] *)
Definition syncOrWarn : HM unit := fun h =>
  match syncConfig h with
  | None => Some (tt, h)
  | Some msg => Some (tt, with_warning msg h)
  end.

Definition getPersistDir : HM string := withRLock (fun h => Some (persistDir h, h)).

Definition getHostPersist : HM unit := withRLock (fun h => dump (extractPersistence h) h).

Definition getIntConfig : HM unit := fun h => dump (internalConfig h) h.

Definition getFinancialMetrics : HM unit := fun h => dump (financialStats h) h.

Definition setDefault : HM unit :=
  do _ <- update (with_config defaultConfig);
  syncOrWarn.

Definition setBroadCast (b : bool) : HM unit :=
  withLock (do _ <- update (with_broadcast b); syncOrWarn).

Definition setRevisionNumber (num : Z) : HM unit :=
  withLock (do _ <- update (with_revisionNumber (u64 num)); syncOrWarn).

Definition setFinancialMetrics (metric : Z) : HM unit :=
  withLock (do _ <- update (with_financialMetrics metric); syncOrWarn).

(** The methods of [HostDeBugAPI]. *)
Definition HelloWorld : string := "confirmed! host api is working".
Definition Version : string := "mock host version".
Definition Persistdir : HM string := getPersistDir.
Definition PrintHostPersist : HM unit := getHostPersist.
Definition PrintIntConfig : HM unit := getIntConfig.
Definition PrintFinancialMetrics : HM unit := getFinancialMetrics.
Definition SetDefault : HM unit := setDefault.
Definition SetBroadCast (b : bool) : HM unit := setBroadCast b.
Definition SetRevisionNumber (num : Z) : HM unit := setRevisionNumber num.
Definition LoadIntConfig (c : Z) : HM unit := setIntConfig c.
Definition LoadFinancialMetrics (metric : Z) : HM unit := setFinancialMetrics metric.
End Debug.

(** ** Lemmas *)

(** The lock is free. *)
Definition unlocked (h : StorageHost) : Prop := rw_readers h = 0%nat /\ rw_writer h = false.

(** The call returns, and leaves the lock free. *)
Definition returns_unlocked {A} (m : HM A) (h : StorageHost) : Prop :=
  exists a h', m h = Some (a, h') /\ unlocked h'.

(** A step that returns and leaves the lock as it found it. *)
Definition keeps_rw {A} (m : HM A) : Prop :=
  forall h, exists a h', m h = Some (a, h') /\ rw_readers h' = rw_readers h /\ rw_writer h' = rw_writer h.

Lemma keeps_rw_ret {A} (a : A) : keeps_rw (retH a).
Proof. intros h. eauto. Qed.

Lemma keeps_rw_bind {A B} (m : HM A) (k : A -> HM B) :
  keeps_rw m -> (forall a, keeps_rw (k a)) -> keeps_rw (bindH m k).
Proof.
  intros Hm Hk h. destruct (Hm h) as (a & h1 & E1 & R1 & W1).
  destruct (Hk a h1) as (b & h2 & E2 & R2 & W2).
  exists b, h2. unfold bindH. rewrite E1. split; [exact E2 | split; congruence].
Qed.

Lemma keeps_rw_dump v : keeps_rw (dump v).
Proof. intros h. eexists _, _. split; [reflexivity | split; reflexivity]. Qed.

Lemma keeps_rw_syncOrWarn syncConfig : keeps_rw (syncOrWarn syncConfig).
Proof. intros h. unfold syncOrWarn. destruct (syncConfig h); eexists _, _; split; reflexivity || auto. Qed.

Lemma keeps_rw_update f :
  (forall h, rw_readers (f h) = rw_readers h /\ rw_writer (f h) = rw_writer h) -> keeps_rw (update f).
Proof. intros Hf h. exists tt, (f h). split; [reflexivity | apply Hf]. Qed.

Lemma keeps_rw_with_config c : keeps_rw (update (with_config c)).
Proof. apply keeps_rw_update. split; reflexivity. Qed.
Lemma keeps_rw_with_broadcast b : keeps_rw (update (with_broadcast b)).
Proof. apply keeps_rw_update. split; reflexivity. Qed.
Lemma keeps_rw_with_revisionNumber n : keeps_rw (update (with_revisionNumber n)).
Proof. apply keeps_rw_update. split; reflexivity. Qed.
Lemma keeps_rw_with_financialMetrics m : keeps_rw (update (with_financialMetrics m)).
Proof. apply keeps_rw_update. split; reflexivity. Qed.

#[export] Hint Resolve keeps_rw_ret keeps_rw_bind keeps_rw_dump keeps_rw_syncOrWarn
  keeps_rw_with_config keeps_rw_with_broadcast keeps_rw_with_revisionNumber
  keeps_rw_with_financialMetrics : godx.

Lemma withLock_free {A} (m : HM A) h : keeps_rw m -> unlocked h -> returns_unlocked (withLock m) h.
Proof.
  intros Hm [Hr Hw]. unfold returns_unlocked, withLock. rewrite Hr, Hw. cbn.
  destruct (Hm (set_rw 0 true h)) as (a & h' & E & R & W). rewrite E.
  exists a, (set_rw (rw_readers h') false h'). split; [reflexivity|]. split; cbn; auto.
Qed.

Lemma withRLock_free {A} (m : HM A) h : keeps_rw m -> unlocked h -> returns_unlocked (withRLock m) h.
Proof.
  intros Hm [Hr Hw]. unfold returns_unlocked, withRLock. rewrite Hw, Hr.
  destruct (Hm (set_rw 1 false h)) as (a & h' & E & R & W). rewrite E.
  exists a, (set_rw (pred (rw_readers h')) (rw_writer h') h'). split; [reflexivity|].
  cbn in *. rewrite R, W. split; reflexivity.
Qed.

Lemma keeps_rw_unlocked {A} (m : HM A) h : keeps_rw m -> unlocked h -> returns_unlocked m h.
Proof. intros Hm [Hr Hw]. destruct (Hm h) as (a & h' & E & R & W). exists a, h'. split; [exact E|]. split; congruence. Qed.

Section DebugProofs.
Variable syncConfig : StorageHost -> option string.
Variable extractPersistence : StorageHost -> Z.
Variable internalConfig : StorageHost -> Z.
Variable financialStats : StorageHost -> Z.
Variable defaultConfig : Z.

(** C27: from a host whose read-write lock is free, every method of the
    debug API that reads or changes the host returns (none blocks) and
    leaves the lock free: each [RLock] and [Lock] is matched by its
    deferred [RUnlock] or [Unlock]. *)
Theorem debug_api_unlocked h b num metric :
  unlocked h ->
  returns_unlocked Persistdir h /\
  returns_unlocked (PrintHostPersist extractPersistence) h /\
  returns_unlocked (PrintIntConfig internalConfig) h /\
  returns_unlocked (PrintFinancialMetrics financialStats) h /\
  returns_unlocked (SetDefault syncConfig defaultConfig) h /\
  returns_unlocked (SetBroadCast syncConfig b) h /\
  returns_unlocked (SetRevisionNumber syncConfig num) h /\
  returns_unlocked (LoadFinancialMetrics syncConfig metric) h.
Proof.
  intros Hu. repeat split.
  - apply withRLock_free; [intros h'; eexists _, _; split; [reflexivity | auto] | exact Hu].
  - apply withRLock_free; [intros h'; apply keeps_rw_dump | exact Hu].
  - apply keeps_rw_unlocked; [intros h'; apply keeps_rw_dump | exact Hu].
  - apply keeps_rw_unlocked; [intros h'; apply keeps_rw_dump | exact Hu].
  - apply keeps_rw_unlocked; [unfold SetDefault, setDefault; eauto with godx | exact Hu].
  - apply withLock_free; [eauto with godx | exact Hu].
  - apply withLock_free; [eauto with godx | exact Hu].
  - apply withLock_free; [eauto with godx | exact Hu].
Qed.

(** [setDefault] rewrites the configuration while another goroutine
    holds the write lock, where [setBroadCast] waits for it. *)
Lemma setDefault_ignores_lock h b :
  rw_writer h = true ->
  (exists h', setDefault syncConfig defaultConfig h = Some (tt, h') /\ config h' = defaultConfig) /\
  setBroadCast syncConfig b h = None.
Proof.
  intros Hw. split.
  - unfold setDefault, bindH, update, syncOrWarn. cbn.
    destruct (syncConfig _); eexists; split; reflexivity.
  - unfold setBroadCast, withLock. rewrite Hw. reflexivity.
Qed.

(** A negative revision number is stored modulo [2^64]. *)
Lemma setRevisionNumber_wraps h num :
  unlocked h -> - 2 ^ 64 <= num < 0 ->
  exists h', setRevisionNumber syncConfig num h = Some (tt, h') /\ revisionNumber h' = num + 2 ^ 64.
Proof.
  intros [Hr Hw] Hn. unfold setRevisionNumber, withLock, bindH, update, syncOrWarn.
  rewrite Hr, Hw. cbn.
  assert (E : u64 num = num + 2 ^ 64).
  { unfold u64, two64. symmetry. apply (Z.mod_unique num (2 ^ 64) (-1)); lia. }
  destruct (syncConfig _); eexists; (split; [reflexivity|]); cbn; exact E.
Qed.
End DebugProofs.

(** A host with a free lock, a configuration that syncs, and the
    constants of the example. *)
Definition ex_host_debug : StorageHost :=
  {| persistDir := "/dx/host"; config := 1; broadcast := false; revisionNumber := 0;
     financialMetrics := 0; rw_readers := 0; rw_writer := false; dumped := []; warnings := [] |}.

Lemma debug_api_unlocked_witness :
  unlocked ex_host_debug /\
  returns_unlocked Persistdir ex_host_debug /\
  returns_unlocked (PrintHostPersist (fun _ => 0)) ex_host_debug /\
  returns_unlocked (PrintIntConfig (fun h => config h)) ex_host_debug /\
  returns_unlocked (PrintFinancialMetrics (fun h => financialMetrics h)) ex_host_debug /\
  returns_unlocked (SetDefault (fun _ => None) 7) ex_host_debug /\
  returns_unlocked (SetBroadCast (fun _ => None) true) ex_host_debug /\
  returns_unlocked (SetRevisionNumber (fun _ => None) (-1)) ex_host_debug /\
  returns_unlocked (LoadFinancialMetrics (fun _ => None) 9) ex_host_debug.
Proof.
  assert (Hu : unlocked ex_host_debug) by (split; reflexivity).
  split; [exact Hu|].
  exact (debug_api_unlocked (fun _ => None) (fun _ => 0) (fun h => config h) (fun h => financialMetrics h) 7
           ex_host_debug true (-1) 9 Hu).
Defined.
