(* ===== verification/HostTree.v ===== *)
(** * The storage host tree: weighted selection of hosts

    Model of [src/storage/storageclient/storagehosttree/node.go]: the
    binary tree whose nodes carry a host entry and the sum of the
    evaluations below them ([eval]), with [newNode], [nodeInsert],
    [nodeRemove] and [nodeWithEval].

    The Go tree links each node to its parent, children and entry by
    pointers. Here a tree is an inductive value, and a node is named by
    its path from the root ([dir] list), which is what the Go pointer
    [nodeInserted] designates. [nodeRemove] walks from the node up its
    parents. Here it walks down the path and updates the nodes above the
    target. A nil entry dereference or a call on a nil receiver is
    [ErrPanic]. [common.BigInt] evaluations are [Z].

    The invariant [wf] (and its boolean check [wfb]) states that each
    node's [eval] is its own (occupied) entry's evaluation plus its
    children's, with non-negative entry evaluations. [nodeInsert]
    preserves it, adds the entry's evaluation at the root, counts the
    added nodes and leaves the entry at the returned path (C11). Under it,
    [nodeWithEval] returns an occupied node for every value in
    [0, eval) (C12), and the values selecting a node are an interval as
    long as its evaluation, so hosts are drawn in proportion to their
    evaluation (C13). [nodeRemove] breaks it: the removed node keeps its
    own evaluation while its ancestors lose it (C14), and once a leaf
    child of the root is removed, the values below its evaluation select
    the removed node and fail (C15).

    Against references: [nodeWithEval] is the weighted choice [pick] by
    prefix sums over the nodes listed left subtree first, then right
    subtree, then the node itself ([flatten]) ([nodeWithEval_pick]). Seen through
    [entries], the hosts of the occupied nodes, insertion and removal are
    a multiset's insertion and removal (C28). *)

From Stdlib Require Import ZArith List Lia.
From stdpp Require Import base list.
From S2P Require Import Prelude.
Import ListNotations.

Open Scope Z_scope.

(** [nodeEntry]: the host ([storage.HostInfo], by its id) and its
    evaluation. *)
Record nodeEntry := { host : Z; ne_eval : Z }.

(** [node]: [count], [occupied], [eval], [entry], [left], [right]; [Nil]
    is the nil pointer. *)
Inductive node :=
| Nil
| Node (count : Z) (occupied : bool) (eval : Z) (entry : option nodeEntry) (left right : node).

Inductive dir := L | R.

Inductive tree_err := ErrEvaluationTooLarge | ErrNodeNotOccupied | ErrPanic.

Definition eval_of (n : node) : Z := match n with Nil => 0 | Node _ _ e _ _ _ => e end.
Definition count_of (n : node) : Z := match n with Nil => 0 | Node c _ _ _ _ _ => c end.
Definition is_nil (n : node) : bool := match n with Nil => true | _ => false end.

(** [newNode(parent, entry)] *)
Definition newNode (e : nodeEntry) : node := Node 1 true (ne_eval e) (Some e) Nil Nil.

(** [n.nodeInsert(entry)]: [isRoot] is [n.parent == nil]. Returns
    [nodesAdded], the path of [nodeInserted] and the new subtree. The Go
    method is never called on nil (the tree's root is allocated and the
    children are tested before the recursive calls); the [Nil] case
    returns the tree unchanged. *)
Fixpoint nodeInsert (n : node) (isRoot : bool) (e : nodeEntry) : Z * list dir * node :=
  match n with
  | Nil => (0, [], Nil)
  | Node c occ ev en l r =>
      if isRoot && negb occ && is_nil l && is_nil r then
        (0, [], Node c true (ne_eval e) (Some e) l r)
      else
        let ev' := ev + ne_eval e in
        if negb occ then (0, [], Node c true ev' (Some e) l r)
        else
          match l, r with
          | Nil, _ => (1, [L], Node (c + 1) occ ev' en (newNode e) r)
          | _, Nil => (1, [R], Node (c + 1) occ ev' en l (newNode e))
          | _, _ =>
              if count_of l <=? count_of r then
                let '(a, p, l') := nodeInsert l false e in (a, L :: p, Node (c + a) occ ev' en l' r)
              else
                let '(a, p, r') := nodeInsert r false e in (a, R :: p, Node (c + a) occ ev' en l r')
          end
  end.

(** The node at a path. *)
Fixpoint node_at (n : node) (p : list dir) : node :=
  match p, n with
  | [], _ => n
  | _, Nil => Nil
  | L :: p', Node _ _ _ _ l _ => node_at l p'
  | R :: p', Node _ _ _ _ _ r => node_at r p'
  end.

(** The walk of [nodeRemove]: the target is marked unoccupied, each of
    its ancestors loses [d]. *)
Fixpoint removeAt (n : node) (p : list dir) (d : Z) : node :=
  match p, n with
  | _, Nil => Nil
  | [], Node c _ ev en l r => Node c false ev en l r
  | L :: p', Node c occ ev en l r => Node c occ (ev - d) en (removeAt l p' d) r
  | R :: p', Node c occ ev en l r => Node c occ (ev - d) en l (removeAt r p' d)
  end.

(** [n.nodeRemove()] for the node at path [p]: the loop reads
    [n.entry.eval] once per parent, so a nil entry panics unless the node
    is the root. *)
Definition nodeRemove (root : node) (p : list dir) : result tree_err node :=
  match node_at root p with
  | Nil => Err ErrPanic
  | Node _ _ _ en _ _ =>
      match p, en with
      | [], _ => Ok (removeAt root [] 0)
      | _, Some e => Ok (removeAt root p (ne_eval e))
      | _, None => Err ErrPanic
      end
  end.

(** [n.nodeWithEval(eval)]: the path of the selected node. *)
Fixpoint nodeWithEval (n : node) (x : Z) : result tree_err (list dir) :=
  match n with
  | Nil => Err ErrPanic
  | Node _ occ ev _ l r =>
      if ev <? x then Err ErrEvaluationTooLarge
      else
        let here x1 :=
          match r with
          | Node _ _ evr _ _ _ =>
              if x1 <? evr then (p <- nodeWithEval r x1 ;; Ok (R :: p))
              else if negb occ then Err ErrNodeNotOccupied else Ok []
          | Nil => if negb occ then Err ErrNodeNotOccupied else Ok []
          end in
        match l with
        | Node _ _ evl _ _ _ =>
            if x <? evl then (p <- nodeWithEval l x ;; Ok (L :: p)) else here (x - evl)
        | Nil => here x
        end
  end.

(** ** The invariant *)

Definition own_eval (occ : bool) (en : option nodeEntry) : Z :=
  if occ then match en with Some e => ne_eval e | None => 0 end else 0.

(** Every node's [eval] is its own (occupied) entry's evaluation plus its
    children's; entry evaluations are non-negative; an occupied node has
    an entry. *)
Fixpoint wf (n : node) : Prop :=
  match n with
  | Nil => True
  | Node _ occ ev en l r =>
      ev = own_eval occ en + eval_of l + eval_of r /\
      (forall e, en = Some e -> 0 <= ne_eval e) /\
      (occ = true -> en <> None) /\ wf l /\ wf r
  end.

(** [wf] as a boolean check. *)
Fixpoint wfb (n : node) : bool :=
  match n with
  | Nil => true
  | Node _ occ ev en l r =>
      (ev =? own_eval occ en + eval_of l + eval_of r) &&
      match en with Some e => 0 <=? ne_eval e | None => true end &&
      (negb occ || match en with Some _ => true | None => false end) && wfb l && wfb r
  end.

Definition is_occupied (n : node) : bool := match n with Node _ true _ _ _ _ => true | _ => false end.

(** Where the values selecting the node at [p] start: [nodeWithEval]
    tries the left subtree, then the right subtree, then the node itself. *)
Fixpoint offset (n : node) (p : list dir) : Z :=
  match p, n with
  | _, Nil => 0
  | [], Node _ _ _ _ l r => eval_of l + eval_of r
  | L :: p', Node _ _ _ _ l _ => offset l p'
  | R :: p', Node _ _ _ _ l r => eval_of l + offset r p'
  end.

(** ** Reference selection and abstraction *)

(** The nodes in the order [nodeWithEval] tries them (left subtree, right
    subtree, the node itself), with the path to each and its own
    evaluation. *)
Fixpoint flatten (n : node) : list (list dir * Z) :=
  match n with
  | Nil => []
  | Node _ occ _ en l r =>
      map (fun '(p, w) => (L :: p, w)) (flatten l) ++ map (fun '(p, w) => (R :: p, w)) (flatten r) ++
      [([], own_eval occ en)]
  end.

(** Weighted choice by prefix sums: the first item whose interval
    [sum of the weights before it, + its weight) contains [x]. *)
Fixpoint pick {A} (l : list (A * Z)) (x : Z) : option A :=
  match l with
  | [] => None
  | (a, w) :: rest => if x <? w then Some a else pick rest (x - w)
  end.

Definition weight_sum {A} (l : list (A * Z)) : Z := fold_right (fun aw s => snd aw + s) 0 l.

(** The hosts the tree holds: the entries of its occupied nodes. *)
Fixpoint entries (n : node) : list nodeEntry :=
  match n with
  | Nil => []
  | Node _ occ _ en l r =>
      entries l ++ entries r ++ (if occ then match en with Some e => [e] | None => [] end else [])
  end.

(** ** A tree built by the code: an unoccupied root, then the hosts 1
    (evaluation 3) and 2 (evaluation 4) inserted at the root. *)
Definition ex_root : node := Node 1 false 0 None Nil Nil.
Definition ex_a : nodeEntry := {| host := 1; ne_eval := 3 |}.
Definition ex_b : nodeEntry := {| host := 2; ne_eval := 4 |}.
Definition ex_tree : node := snd (nodeInsert (snd (nodeInsert ex_root true ex_a)) true ex_b).

(** ** Lemmas *)

Lemma wfb_wf n : wfb n = true <-> wf n.
Proof.
  induction n as [|c occ ev en l IHl r IHr]; cbn; [tauto|].
  rewrite !andb_true_iff, Z.eqb_eq, IHl, IHr.
  destruct en as [e|], occ; cbn; rewrite ?Z.leb_le; intuition (try congruence; try lia).
  all: match goal with H : forall _, Some _ = Some _ -> _ |- _ => exact (H _ eq_refl) end.
Qed.

Lemma wf_eval_nonneg n : wf n -> 0 <= eval_of n.
Proof.
  induction n as [|c occ ev en l IHl r IHr]; cbn; [lia|].
  intros (-> & Hen & _ & Hl & Hr). specialize (IHl Hl). specialize (IHr Hr).
  unfold own_eval. destruct occ, en as [e|]; try lia. specialize (Hen e eq_refl). lia.
Qed.

Lemma wf_newNode e : 0 <= ne_eval e -> wf (newNode e).
Proof. intros He. cbn. repeat split; try lia; try congruence; intros e' [= <-]; exact He. Qed.

Lemma wf_node_at n p : wf n -> wf (node_at n p).
Proof.
  revert n. induction p as [|[] p IH]; intros [|c occ ev en l r] Hw; cbn in *; auto;
    apply IH; tauto.
Qed.

Lemma node_at_removeAt n p d :
  node_at (removeAt n p d) p =
    match node_at n p with Node c _ ev en l r => Node c false ev en l r | Nil => Nil end.
Proof.
  revert n. induction p as [|[] p IH]; intros [|c occ ev en l r]; cbn; auto.
Qed.

Ltac wf_solve :=
  cbn in *; unfold own_eval in *;
  repeat match goal with H : _ /\ _ |- _ => destruct H | H : exists _, _ |- _ => destruct H end;
  repeat match goal with
         | |- _ /\ _ => split
         | |- exists _, _ => eexists
         | |- forall e, Some _ = Some e -> _ => intros ? [= <-]
         end;
  try first [reflexivity | lia | congruence | eauto using wf_newNode].

(** C11: on a well-formed non-nil tree, [nodeInsert] keeps the tree well
    formed, adds the entry's evaluation to the root's, grows the count by
    the returned [nodesAdded] (0 or 1) and places the entry, occupied, at
    the returned path. *)
Theorem nodeInsert_wf n isRoot e :
  wf n -> n <> Nil -> 0 <= ne_eval e ->
  let '(a, p, n') := nodeInsert n isRoot e in
  wf n' /\ eval_of n' = eval_of n + ne_eval e /\
  count_of n' = count_of n + a /\ 0 <= a <= 1 /\
  exists c ev l r, node_at n' p = Node c true ev (Some e) l r.
Proof.
  revert isRoot. induction n as [|c occ ev en l IHl r IHr]; intros isRoot Hw Hn He; [congruence|].
  cbn in Hw. destruct Hw as (Hev & Hen & Hocc & Hl & Hr). cbn.
  destruct (isRoot && negb occ && is_nil l && is_nil r) eqn:Eroot.
  { repeat (apply andb_prop in Eroot as [Eroot ?]). destruct occ; [discriminate|].
    destruct l, r; try discriminate. wf_solve. }
  destruct occ; [|wf_solve].
  destruct l as [|cl ol el enl ll lr]; [wf_solve|].
  destruct r as [|cr orr er enr rl rr]; [wf_solve|].
  specialize (IHl false Hl ltac:(discriminate) He). specialize (IHr false Hr ltac:(discriminate) He).
  destruct (nodeInsert (Node cl ol el enl ll lr) false e) as [[a p] l'].
  destruct (nodeInsert (Node cr orr er enr rl rr) false e) as [[b q] r'].
  destruct IHl as (Hw1 & Hev1 & Hc1 & Ha1 & Hat1), IHr as (Hw2 & Hev2 & Hc2 & Ha2 & Hat2).
  cbn. destruct (cl <=? cr); wf_solve.
Qed.

Lemma nodeWithEval_Node c occ ev en l r x :
  0 <= x <= ev -> 0 <= eval_of r ->
  nodeWithEval (Node c occ ev en l r) x =
    if x <? eval_of l then (p <- nodeWithEval l x ;; Ok (L :: p))
    else if x - eval_of l <? eval_of r then (p <- nodeWithEval r (x - eval_of l) ;; Ok (R :: p))
    else if occ then Ok [] else Err ErrNodeNotOccupied.
Proof.
  intros Hx Hr. cbn. destruct (Z.ltb_spec ev x); [lia|].
  destruct l, r; cbn [eval_of] in *; rewrite ?Z.sub_0_r;
    repeat match goal with |- context [?a <? ?b] => destruct (Z.ltb_spec a b) end;
    try lia; destruct occ; reflexivity.
Qed.

Lemma offset_bounds n p c ev en l r :
  wf n -> node_at n p = Node c true ev (Some en) l r ->
  0 <= offset n p /\ offset n p + ne_eval en <= eval_of n.
Proof.
  revert n. induction p as [|[] p IH]; intros [|c' occ ev' en' l' r'] Hw Hat; cbn in *; try discriminate.
  - injection Hat as -> -> -> -> -> ->. destruct Hw as (-> & Hen & _ & Hl & Hr).
    pose proof (wf_eval_nonneg l Hl). pose proof (wf_eval_nonneg r Hr). cbn. lia.
  - destruct Hw as (-> & Hen & Hocc & Hl & Hr). specialize (IH l' Hl Hat).
    pose proof (wf_eval_nonneg r' Hr). unfold own_eval.
    destruct occ, en' as [e'|]; try specialize (Hen e' eq_refl); lia.
  - destruct Hw as (-> & Hen & Hocc & Hl & Hr). specialize (IH r' Hr Hat).
    pose proof (wf_eval_nonneg l' Hl). unfold own_eval.
    destruct occ, en' as [e'|]; try specialize (Hen e' eq_refl); lia.
Qed.

Lemma wf_Node_inv c occ ev en l r :
  wf (Node c occ ev en l r) ->
  ev = own_eval occ en + eval_of l + eval_of r /\ 0 <= own_eval occ en /\
  0 <= eval_of l /\ 0 <= eval_of r /\ wf l /\ wf r /\
  (occ = true -> exists e, en = Some e /\ own_eval occ en = ne_eval e).
Proof.
  cbn. intros (Hev & Hen & Hocc & Hl & Hr).
  pose proof (wf_eval_nonneg l Hl). pose proof (wf_eval_nonneg r Hr).
  unfold own_eval. repeat split; auto.
  - destruct occ, en as [e|]; try lia. exact (Hen e eq_refl).
  - intros ->. destruct en as [e|]; [eauto|]. exfalso; exact (Hocc eq_refl eq_refl).
Qed.

(** C12: on a well-formed tree, every value in [0, eval) selects an
    occupied node whose entry has a positive evaluation. *)
Theorem nodeWithEval_occupied n x :
  wf n -> 0 <= x < eval_of n ->
  exists p c ev en l r,
    nodeWithEval n x = Ok p /\ node_at n p = Node c true ev (Some en) l r /\ 0 < ne_eval en.
Proof.
  revert x. induction n as [|c occ ev en l IHl r IHr]; intros x Hw Hx; cbn in Hx; [lia|].
  pose proof (wf_Node_inv _ _ _ _ _ _ Hw) as (Hev & Hown & Hl0 & Hr0 & Hl & Hr & Hocc).
  rewrite nodeWithEval_Node by lia.
  destruct (Z.ltb_spec x (eval_of l)).
  { destruct (IHl x Hl ltac:(lia)) as (p & c' & ev' & en' & l' & r' & -> & Hat & Hpos).
    exists (L :: p). eauto 10. }
  destruct (Z.ltb_spec (x - eval_of l) (eval_of r)).
  { destruct (IHr (x - eval_of l) Hr ltac:(lia)) as (p & c' & ev' & en' & l' & r' & -> & Hat & Hpos).
    exists (R :: p). eauto 10. }
  destruct occ; [|cbn in Hown, Hev; lia].
  destruct (Hocc eq_refl) as (e & -> & He). exists [], c, ev, e, l, r.
  repeat split; lia.
Qed.

(** A selection that ends elsewhere than the path asked for. *)
Ltac sel_other :=
  split; [intros Hsel; exfalso; rewrite ?bind_result_map_ok in Hsel;
          first [destruct Hsel as (? & _ & ?); discriminate | discriminate] | lia].

(** C13: selection is weighted by evaluation. On a well-formed tree, the
    values in [0, eval) that select an occupied node are exactly the
    interval [offset, offset + eval of its entry): each host is chosen for
    as many values as its evaluation. *)
Theorem nodeWithEval_weighted n p c ev en l r x :
  wf n -> node_at n p = Node c true ev (Some en) l r -> 0 <= x < eval_of n ->
  nodeWithEval n x = Ok p <-> offset n p <= x < offset n p + ne_eval en.
Proof.
  revert n x. induction p as [|d p IH]; intros [|c' occ ev' en' l' r'] x Hw Hat Hx;
    cbn in Hx, Hat; try discriminate; [|lia|].
  all: pose proof (wf_Node_inv _ _ _ _ _ _ Hw) as (Hev & Hown & Hl0 & Hr0 & Hl & Hr & _).
  all: rewrite nodeWithEval_Node by lia.
  - injection Hat as -> -> -> -> -> ->. cbn [offset own_eval] in *.
    destruct (Z.ltb_spec x (eval_of l)); [sel_other|].
    destruct (Z.ltb_spec (x - eval_of l) (eval_of r)); [sel_other|].
    split; [intros _; lia | reflexivity].
  - destruct d; cbn [offset] in *.
    + pose proof (offset_bounds _ _ _ _ _ _ _ Hl Hat).
      destruct (Z.ltb_spec x (eval_of l')).
      * rewrite bind_result_map_ok, <- (IH l' x Hl Hat ltac:(lia)).
        split; [intros (? & ? & [= <-]); assumption | eauto].
      * destruct (Z.ltb_spec (x - eval_of l') (eval_of r')); [sel_other|]. destruct occ; sel_other.
    + pose proof (offset_bounds _ _ _ _ _ _ _ Hr Hat).
      destruct (Z.ltb_spec x (eval_of l')); [sel_other|].
      destruct (Z.ltb_spec (x - eval_of l') (eval_of r')).
      * transitivity (offset r' p <= x - eval_of l' < offset r' p + ne_eval en); [|lia].
        rewrite bind_result_map_ok, <- (IH r' (x - eval_of l') Hr Hat ltac:(lia)).
        split; [intros (? & ? & [= <-]); assumption | eauto].
      * destruct occ; sel_other.
Qed.

Lemma eval_removeAt n d p dd :
  n <> Nil -> eval_of (removeAt n (d :: p) dd) = eval_of n - dd.
Proof. destruct n, d; cbn; congruence. Qed.

(** C14: [nodeRemove] marks the node unoccupied and subtracts its
    evaluation from every ancestor, but not from the node itself (nor, for
    the root, from anything): the tree is no longer well formed when the
    removed entry had a positive evaluation. *)
Theorem nodeRemove_stale_eval n p c ev en l r :
  wf n -> node_at n p = Node c true ev (Some en) l r ->
  exists n', nodeRemove n p = Ok n' /\
    eval_of n' = match p with [] => eval_of n | _ => eval_of n - ne_eval en end /\
    node_at n' p = Node c false ev (Some en) l r /\
    (0 < ne_eval en -> ~ wf n').
Proof.
  intros Hw Hat. unfold nodeRemove. rewrite Hat.
  assert (Hn : n <> Nil) by (intros ->; destruct p as [|[] ?]; discriminate Hat).
  pose proof (wf_node_at n p Hw) as Hw'. rewrite Hat in Hw'.
  destruct (wf_Node_inv _ _ _ _ _ _ Hw') as (Hev & _ & _ & _ & _ & _ & _). cbn in Hev.
  assert (Hat' : node_at (removeAt n p (ne_eval en)) p = Node c false ev (Some en) l r)
    by (rewrite node_at_removeAt, Hat; reflexivity).
  destruct p as [|d p].
  - destruct n as [|c' occ ev' en' l' r']; [congruence|]. cbn in Hat |- *.
    injection Hat as -> -> -> -> -> ->. eexists; split; [reflexivity|].
    split; [reflexivity|]. split; [reflexivity|].
    intros Hpos Hw2. cbn in Hw2. destruct Hw2 as (Hev2 & _). cbn in Hev2. lia.
  - eexists; split; [reflexivity|]. rewrite eval_removeAt by exact Hn.
    split; [reflexivity|]. split; [exact Hat'|].
    intros Hpos Hw2. pose proof (wf_node_at _ (d :: p) Hw2) as Hw3. rewrite Hat' in Hw3.
    destruct Hw3 as (Hev3 & _). cbn in Hev3. lia.
Qed.

(** C15: removing a host that is a leaf left child of the root makes
    selection fail. The root loses the host's evaluation [e], but the
    removed node keeps it, so every value below both [e] and the root's
    new evaluation is routed to the removed node and [nodeWithEval]
    fails with [ErrNodeNotOccupied]: no remaining host is chosen for
    those values. *)
Theorem nodeRemove_blocks_selection n c ev en :
  wf n -> node_at n [L] = Node c true ev (Some en) Nil Nil ->
  exists n', nodeRemove n [L] = Ok n' /\ eval_of n' = eval_of n - ne_eval en /\
    forall x, 0 <= x < Z.min (eval_of n') (ne_eval en) -> nodeWithEval n' x = Err ErrNodeNotOccupied.
Proof.
  intros Hw Hat.
  destruct n as [|c0 occ0 ev0 en0 l0 r0]; [discriminate|].
  destruct l0 as [|cl ol evl enl ll rl]; [discriminate|]. simpl in Hat.
  injection Hat as -> -> -> -> -> ->.
  destruct Hw as (_ & _ & _ & (Hev & _) & _). cbn in Hev.
  eexists. split; [reflexivity|]. split; [reflexivity|].
  intros x Hx. cbn [eval_of removeAt] in Hx |- *. cbn [nodeWithEval].
  rewrite (proj2 (Z.ltb_ge _ _)) by lia. rewrite (proj2 (Z.ltb_lt x ev)) by lia.
  rewrite (proj2 (Z.ltb_ge ev x)) by lia. reflexivity.
Qed.

(** ** Witnesses *)

(** [ex_tree] holds host 1 at the root and host 2 as its left leaf. *)
Lemma nodeRemove_blocks_selection_witness :
  wf ex_tree /\ node_at ex_tree [L] = Node 1 true 4 (Some ex_b) Nil Nil /\
  exists n', nodeRemove ex_tree [L] = Ok n' /\ eval_of n' = eval_of ex_tree - ne_eval ex_b /\
    forall x, 0 <= x < Z.min (eval_of n') (ne_eval ex_b) -> nodeWithEval n' x = Err ErrNodeNotOccupied.
Proof.
  assert (Hw : wf ex_tree) by (apply wfb_wf; reflexivity).
  assert (Hat : node_at ex_tree [L] = Node 1 true 4 (Some ex_b) Nil Nil) by reflexivity.
  split; [exact Hw|]. split; [exact Hat|]. exact (nodeRemove_blocks_selection ex_tree 1 4 ex_b Hw Hat).
Defined.

Lemma nodeInsert_wf_witness :
  let t1 := snd (nodeInsert ex_root true ex_a) in
  wf t1 /\ t1 <> Nil /\ 0 <= ne_eval ex_b /\
  let '(a, p, n') := nodeInsert t1 true ex_b in
  wf n' /\ eval_of n' = eval_of t1 + ne_eval ex_b /\
  count_of n' = count_of t1 + a /\ 0 <= a <= 1 /\
  exists c ev l r, node_at n' p = Node c true ev (Some ex_b) l r.
Proof.
  intros t1. assert (Hw : wf t1) by (apply wfb_wf; reflexivity).
  split; [exact Hw|]. split; [discriminate|]. split; [cbn; lia|].
  apply (nodeInsert_wf t1 true ex_b Hw); [discriminate | cbn; lia].
Defined.

Lemma nodeWithEval_occupied_witness :
  wf ex_tree /\ 0 <= 5 < eval_of ex_tree /\
  exists p c ev en l r,
    nodeWithEval ex_tree 5 = Ok p /\ node_at ex_tree p = Node c true ev (Some en) l r /\ 0 < ne_eval en.
Proof.
  assert (Hw : wf ex_tree) by (apply wfb_wf; reflexivity).
  split; [exact Hw|]. split; [cbn; lia|].
  apply (nodeWithEval_occupied ex_tree 5 Hw); cbn; lia.
Defined.

Lemma nodeWithEval_weighted_witness :
  wf ex_tree /\ node_at ex_tree [L] = Node 1 true 4 (Some ex_b) Nil Nil /\ 0 <= 1 < eval_of ex_tree /\
  (nodeWithEval ex_tree 1 = Ok [L] <-> offset ex_tree [L] <= 1 < offset ex_tree [L] + ne_eval ex_b).
Proof.
  assert (Hw : wf ex_tree) by (apply wfb_wf; reflexivity).
  split; [exact Hw|]. split; [reflexivity|]. split; [cbn; lia|].
  apply (nodeWithEval_weighted ex_tree [L] 1 4 ex_b Nil Nil 1 Hw); [reflexivity | cbn; lia].
Defined.

Lemma nodeRemove_stale_eval_witness :
  wf ex_tree /\ node_at ex_tree [L] = Node 1 true 4 (Some ex_b) Nil Nil /\
  exists n', nodeRemove ex_tree [L] = Ok n' /\ eval_of n' = eval_of ex_tree - ne_eval ex_b /\
    node_at n' [L] = Node 1 false 4 (Some ex_b) Nil Nil /\ (0 < ne_eval ex_b -> ~ wf n').
Proof.
  assert (Hw : wf ex_tree) by (apply wfb_wf; reflexivity).
  split; [exact Hw|]. split; [reflexivity|].
  apply (nodeRemove_stale_eval ex_tree [L] 1 4 ex_b Nil Nil Hw); reflexivity.
Defined.

(** ** Selection against the reference *)

Lemma weight_sum_app {A} (l1 l2 : list (A * Z)) : weight_sum (l1 ++ l2) = weight_sum l1 + weight_sum l2.
Proof. induction l1 as [|[a w] l1 IH]; cbn; [reflexivity|]. unfold weight_sum in *. cbn in *. lia. Qed.

Lemma weight_sum_nonneg {A} (l : list (A * Z)) : Forall (fun aw => 0 <= snd aw) l -> 0 <= weight_sum l.
Proof. induction 1 as [|[a w] l Hw _ IH]; cbn in *; unfold weight_sum in *; cbn; lia. Qed.

(** Choosing in a concatenation: in the first list while [x] is below its
    total weight, else in the second. *)
Lemma pick_app {A} (l1 l2 : list (A * Z)) x :
  Forall (fun aw => 0 <= snd aw) l1 -> 0 <= x ->
  pick (l1 ++ l2) x = if x <? weight_sum l1 then pick l1 x else pick l2 (x - weight_sum l1).
Proof.
  intros Hl. revert x. induction Hl as [|[a w] l1 Hw Hl IH]; intros x Hx; cbn in *.
  - rewrite Z.sub_0_r. case_bool; [lia | reflexivity].
  - pose proof (weight_sum_nonneg l1 Hl). unfold weight_sum in *. cbn.
    destruct (Z.ltb_spec x w); [case_bool; [reflexivity | lia]|].
    rewrite IH by lia. replace (x - w - fold_right (fun aw s => snd aw + s) 0 l1)
      with (x - (w + fold_right (fun aw s => snd aw + s) 0 l1)) by lia.
    repeat case_bool; try lia; reflexivity.
Qed.

Lemma pick_prefix (d : dir) (l : list (list dir * Z)) x :
  pick (map (fun '(p, w) => (d :: p, w)) l) x = option_map (cons d) (pick l x).
Proof. revert x. induction l as [|[p w] l IH]; intros x; cbn; [reflexivity|]. case_bool; auto. Qed.

Lemma weight_sum_prefix (d : dir) (l : list (list dir * Z)) :
  weight_sum (map (fun '(p, w) => (d :: p, w)) l) = weight_sum l.
Proof. induction l as [|[p w] l IH]; cbn; [reflexivity|]. unfold weight_sum in *. cbn in *. lia. Qed.

Lemma Forall_prefix (d : dir) (l : list (list dir * Z)) :
  Forall (fun aw => 0 <= snd aw) l -> Forall (fun aw => 0 <= snd aw) (map (fun '(p, w) => (d :: p, w)) l).
Proof. induction 1 as [|[p w] l Hw _ IH]; constructor; auto. Qed.

Lemma flatten_wf n :
  wf n -> Forall (fun aw => 0 <= snd aw) (flatten n) /\ weight_sum (flatten n) = eval_of n.
Proof.
  induction n as [|c occ ev en l IHl r IHr]; intros Hw; [split; [constructor | reflexivity]|].
  pose proof (wf_Node_inv _ _ _ _ _ _ Hw) as (Hev & Hown & _ & _ & Hl & Hr & _).
  destruct (IHl Hl) as [Fl Sl], (IHr Hr) as [Fr Sr]. cbn [flatten eval_of].
  split.
  - apply Forall_app; split; [apply Forall_prefix; exact Fl|].
    apply Forall_app; split; [apply Forall_prefix; exact Fr | constructor; [exact Hown | constructor]].
  - rewrite !weight_sum_app, !weight_sum_prefix, Sl, Sr. unfold weight_sum. cbn. lia.
Qed.

(** A selection step on one side, on both models. *)
Lemma select_prefix_iff d (r : result tree_err (list dir)) (o : option (list dir)) p :
  (forall q, r = Ok q <-> o = Some q) ->
  ((q <- r ;; Ok (d :: q)) = Ok p <-> option_map (cons d) o = Some p).
Proof.
  intros Hro. rewrite bind_result_map_ok. split.
  - intros (q & Hq & <-). apply Hro in Hq. rewrite Hq. reflexivity.
  - destruct o as [q|]; [|discriminate]. intros [= <-]. exists q. split; [apply Hro|]; reflexivity.
Qed.

(** On a well-formed tree, [nodeWithEval] is the reference weighted
    choice: for every value in [0, eval) it returns exactly the path
    [pick] chooses by prefix sums over the nodes in [flatten] order. *)
Theorem nodeWithEval_pick n x p :
  wf n -> 0 <= x < eval_of n -> (nodeWithEval n x = Ok p <-> pick (flatten n) x = Some p).
Proof.
  revert x p. induction n as [|c occ ev en l IHl r IHr]; intros x p Hw Hx; cbn in Hx; [lia|].
  pose proof (wf_Node_inv _ _ _ _ _ _ Hw) as (Hev & Hown & Hl0 & Hr0 & Hl & Hr & _).
  destruct (flatten_wf l Hl) as [Fl Sl], (flatten_wf r Hr) as [Fr Sr].
  rewrite nodeWithEval_Node by lia. cbn [flatten].
  rewrite pick_app, weight_sum_prefix, Sl by (try apply Forall_prefix; auto; lia).
  destruct (Z.ltb_spec x (eval_of l)).
  { rewrite pick_prefix. apply select_prefix_iff. intros q. apply IHl; auto; lia. }
  rewrite pick_app, weight_sum_prefix, Sr by (try apply Forall_prefix; auto; lia).
  destruct (Z.ltb_spec (x - eval_of l) (eval_of r)).
  { rewrite pick_prefix. apply select_prefix_iff. intros q. apply IHr; auto; lia. }
  cbn [pick]. case_bool; [|lia].
  destruct occ; [split; intros [= <-]; reflexivity | cbn in *; lia].
Qed.

(** ** The tree as a multiset of hosts *)

Lemma entries_removeAt n p d c ev en l r :
  node_at n p = Node c true ev (Some en) l r -> en :: entries (removeAt n p d) ≡ₚ entries n.
Proof.
  revert n. induction p as [|[] p IH]; intros [|c' occ ev' en' l' r'] Hat; cbn in Hat |- *; try discriminate.
  - injection Hat as -> -> -> -> -> ->. rewrite app_nil_r, app_assoc. apply Permutation_cons_append.
  - rewrite app_comm_cons. apply Permutation_app_tail. exact (IH l' Hat).
  - etransitivity; [apply Permutation_middle|]. apply Permutation_app_head.
    rewrite app_comm_cons. apply Permutation_app_tail. exact (IH r' Hat).
Qed.

Lemma entries_nodeInsert n isRoot e :
  n <> Nil -> let '(_, _, n') := nodeInsert n isRoot e in entries n' ≡ₚ e :: entries n.
Proof.
  revert isRoot. induction n as [|c occ ev en l IHl r IHr]; intros isRoot Hn; [congruence|]. cbn.
  destruct (isRoot && negb occ && is_nil l && is_nil r) eqn:Eroot.
  { repeat (apply andb_prop in Eroot as [Eroot ?]). destruct occ; [discriminate|].
    destruct l, r; try discriminate. reflexivity. }
  destruct occ; cbn.
  2: { rewrite !app_nil_r, app_assoc. symmetry. apply Permutation_cons_append. }
  destruct l as [|cl ol el enl ll lr]; [reflexivity|].
  destruct r as [|cr orr er enr rl rr].
  { cbn. symmetry. apply Permutation_middle. }
  specialize (IHl false ltac:(discriminate)). specialize (IHr false ltac:(discriminate)).
  destruct (nodeInsert (Node cl ol el enl ll lr) false e) as [[a p] l'].
  destruct (nodeInsert (Node cr orr er enr rl rr) false e) as [[b q] r'].
  cbn. destruct (cl <=? cr); cbn.
  - rewrite IHl. reflexivity.
  - rewrite IHr. symmetry. apply Permutation_middle.
Qed.

(** C28: the tree refines a multiset of hosts. [nodeInsert] adds the
    entry to the hosts of a non-nil tree, and removing an occupied node
    succeeds and takes exactly its entry out; the evaluations play no
    part in this, so C14's stale evaluation is invisible here. *)
Theorem host_tree_refines_multiset n isRoot e p c ev en l r :
  (n <> Nil -> let '(_, _, n') := nodeInsert n isRoot e in entries n' ≡ₚ e :: entries n) /\
  (node_at n p = Node c true ev (Some en) l r ->
   exists n', nodeRemove n p = Ok n' /\ en :: entries n' ≡ₚ entries n).
Proof.
  split; [apply entries_nodeInsert|]. intros Hat.
  unfold nodeRemove. rewrite Hat. destruct p as [|d p].
  - eexists; split; [reflexivity|]. exact (entries_removeAt n [] 0 c ev en l r Hat).
  - eexists; split; [reflexivity|]. exact (entries_removeAt n (d :: p) _ c ev en l r Hat).
Qed.

Lemma nodeWithEval_pick_witness :
  wf ex_tree /\ 0 <= 5 < eval_of ex_tree /\
  (nodeWithEval ex_tree 5 = Ok [] <-> pick (flatten ex_tree) 5 = Some []).
Proof.
  assert (Hw : wf ex_tree) by (apply wfb_wf; reflexivity).
  split; [exact Hw|]. split; [cbn; lia|]. apply (nodeWithEval_pick ex_tree 5 [] Hw). cbn; lia.
Defined.

Lemma host_tree_refines_multiset_witness :
  node_at ex_tree [L] = Node 1 true 4 (Some ex_b) Nil Nil /\
  exists n', nodeRemove ex_tree [L] = Ok n' /\ ex_b :: entries n' ≡ₚ entries ex_tree.
Proof.
  split; [reflexivity|].
  destruct (host_tree_refines_multiset ex_tree true ex_a [L] 1 4 ex_b Nil Nil) as [_ H2].
  exact (H2 eq_refl).
Defined.
