(* ===== verification/StorageConst.v ===== *)
(** * Constants of the storage protocol

    Model of the constants of [src/unnamed/part_003] (package [storage]):
    the message codes of the negotiation protocol, the block-time
    constants ([uint64]) and [DefaultRentPayment]; and of
    [src/storage/storagehost/hostnegotiation/contractcreatenegotiation/const.go].

    A message is named by the constructor of [msg_name] and sent with the
    code [msgCode]. A receiver that dispatches on the code is modelled by
    [decodeCode], which takes the first name of [all_msgs] (the order of
    the [const] block) with that code. Two pairs of names share a code
    ([msgCode_collisions]): [StorageContractDownloadRequestMsg] and [NegotiationErrorMsg]
    ([0x33]), and [StorageContractDownloadDataMsg] and
    [NegotiationStopMsg] ([0x34]). So the code does not determine the
    message, and the error and stop messages read back as download
    messages ([decodeCode_msgCode]). *)

From Stdlib Require Import ZArith List Lia Floats.
From stdpp Require Import base list.
From S2P Require Import Prelude.
Import ListNotations.

Open Scope Z_scope.

Definition IDLE : Z := 0.
Definition BUSY : Z := 1.

(** The named message codes of the [const] block, in its order. *)
Inductive msg_name :=
| StorageContractCreationMsg
| StorageContractCreationHostSignMsg
| StorageContractCreationClientRevisionSignMsg
| StorageContractCreationHostRevisionSignMsg
| StorageContractUploadRequestMsg
| StorageContractUploadMerkleRootProofMsg
| StorageContractUploadClientRevisionMsg
| StorageContractUploadHostRevisionMsg
| StorageContractDownloadRequestMsg
| StorageContractDownloadDataMsg
| StorageContractDownloadHostRevisionMsg
| NegotiationErrorMsg
| NegotiationStopMsg
| HostConfigRespMsg
| UploadMerkleProofMsg
| HostConfigReqMsg
| ContractCreateReqMsg
| UploadReqMsg.

#[export] Instance msg_name_eq_dec : EqDecision msg_name.
Proof. solve_decision. Defined.

Definition msgCode (m : msg_name) : Z :=
  match m with
  | StorageContractCreationMsg => 0x22
  | StorageContractCreationHostSignMsg => 0x23
  | StorageContractCreationClientRevisionSignMsg => 0x24
  | StorageContractCreationHostRevisionSignMsg => 0x25
  | StorageContractUploadRequestMsg => 0x26
  | StorageContractUploadMerkleRootProofMsg => 0x27
  | StorageContractUploadClientRevisionMsg => 0x28
  | StorageContractUploadHostRevisionMsg => 0x29
  | StorageContractDownloadRequestMsg => 0x33
  | StorageContractDownloadDataMsg => 0x34
  | StorageContractDownloadHostRevisionMsg => 0x35
  | NegotiationErrorMsg => 0x33
  | NegotiationStopMsg => 0x34
  | HostConfigRespMsg => 0x20
  | UploadMerkleProofMsg => 0x21
  | HostConfigReqMsg => 0x30
  | ContractCreateReqMsg => 0x31
  | UploadReqMsg => 0x32
  end.

Definition all_msgs : list msg_name :=
  [StorageContractCreationMsg; StorageContractCreationHostSignMsg;
   StorageContractCreationClientRevisionSignMsg; StorageContractCreationHostRevisionSignMsg;
   StorageContractUploadRequestMsg; StorageContractUploadMerkleRootProofMsg;
   StorageContractUploadClientRevisionMsg; StorageContractUploadHostRevisionMsg;
   StorageContractDownloadRequestMsg; StorageContractDownloadDataMsg;
   StorageContractDownloadHostRevisionMsg; NegotiationErrorMsg; NegotiationStopMsg;
   HostConfigRespMsg; UploadMerkleProofMsg; HostConfigReqMsg; ContractCreateReqMsg; UploadReqMsg].

(** [switch msg.Code { case ...: }] over the names in order: the first
    name with the code. *)
Definition decodeCode (c : Z) : option msg_name :=
  find (fun m => msgCode m =? c) all_msgs.

(** Block-time constants ([uint64]). *)
Definition BlockPerMin : Z := 4.
Definition BlockPerHour : Z := 240.
Definition BlocksPerDay : Z := 24 * BlockPerHour.
Definition BlocksPerWeek : Z := 7 * BlocksPerDay.
Definition BlocksPerMonth : Z := 30 * BlocksPerDay.
Definition BlocksPerYear : Z := 365 * BlocksPerDay.

(** [ResponsibilityLockTimeout], in nanoseconds ([time.Duration]). *)
Definition ResponsibilityLockTimeout : Z := 60 * 1000000000.

(** [storage.RentPayment]: [ExpectedRedundancy] is a [float64]. *)
Record RentPayment := {
  Fund : Z;
  StorageHosts : Z;
  Period : Z;
  RenewWindow : Z;
  ExpectedStorage : Z;
  ExpectedUpload : Z;
  ExpectedDownload : Z;
  ExpectedRedundancy : float;
}.

(** [DefaultRentPayment]: the upload and download volumes are [uint64]
    quotients. *)
Definition DefaultRentPayment : RentPayment :=
  {| Fund := 10 ^ 18; StorageHosts := 3; Period := 3 * BlocksPerDay;
     RenewWindow := 12 * BlockPerHour; ExpectedStorage := 10 ^ 12;
     ExpectedUpload := 200 * 10 ^ 9 / BlocksPerMonth;
     ExpectedDownload := 100 * 10 ^ 9 / BlocksPerMonth;
     ExpectedRedundancy := 2%float |}.

(** The constants of [contractcreatenegotiation/const.go]. *)
Definition expectedValidProofPaybackCounts : Z := 2.
Definition expectedMissedProofPaybackCounts : Z := 2.
Definition validProofPaybackHostAddressIndex : Z := 1.
Definition missedProofPaybackHostAddressIndex : Z := 1.
Definition contractRequiredSignatures : Z := 2.
Definition hostSignIndex : Z := 1.

(** ** Theorems *)

(** Two messages share a code exactly when they are the same message
    or one of the pairs [StorageContractDownloadRequestMsg] /
    [NegotiationErrorMsg] and [StorageContractDownloadDataMsg] /
    [NegotiationStopMsg]. *)
Theorem msgCode_collisions m1 m2 :
  msgCode m1 = msgCode m2 <->
  m1 = m2 \/
  In (m1, m2) [(StorageContractDownloadRequestMsg, NegotiationErrorMsg);
               (NegotiationErrorMsg, StorageContractDownloadRequestMsg);
               (StorageContractDownloadDataMsg, NegotiationStopMsg);
               (NegotiationStopMsg, StorageContractDownloadDataMsg)].
Proof. destruct m1, m2; cbn; intuition (try congruence; try lia). Qed.

(** Reading a message back from its code gives the message, except
    that [NegotiationErrorMsg] and [NegotiationStopMsg] read back as the
    download request and the download data. *)
Theorem decodeCode_msgCode m :
  decodeCode (msgCode m) =
    Some (match m with
          | NegotiationErrorMsg => StorageContractDownloadRequestMsg
          | NegotiationStopMsg => StorageContractDownloadDataMsg
          | _ => m
          end).
Proof. destruct m; reflexivity. Qed.
