(* ===== verification/HostEval.v ===== *)
(** * Evaluation of storage hosts

    Model of the evaluation functions of the storage host manager
    ([src/unnamed/part_000], lines 1881-2104, package
    [storagehostmanager]) and of
    [src/storage/storageclient/storagehosttree/evaluation.go]: the
    adjustment factors of a host (age, deposit, interactions, remaining
    storage, uptime), the criteria record they fill, its [Evaluation],
    [EvaluationDetail] and [conversionRate].

    Go's [float64] is Rocq's primitive binary64 [float], so rounding is
    the code's rounding. Literals such as [0.98] denote the same nearest
    double in both languages. [uint64] and [int64] are [Z] with their
    wrap-around. [time.Time] is a [Z] of nanoseconds, and [Sub] saturates
    at the [int64] range as Go's does. [common.BigInt] is a [Z] with
    Euclidean division, and division by zero panics ([ErrDivZero]).
    The constants of the manager ([minStorage], [depositFloor], the
    exponents), [math.Pow], [math.Min], and the conversions between
    integers and floats are section variables: they are not under [src/].

    Theorems: the age factor only grows as a host gets older, and a host
    first seen after the current height gets the full factor 1 (C25).
    The remaining-storage factor is [1/2^k] for the [k] thresholds the
    host is under, so it grows with the storage left (C26). *)

From Stdlib Require Import ZArith List Lia Bool Floats.
From stdpp Require Import base list.
From S2P Require Import Prelude StorageConst.
Import ListNotations.

Set Warnings "-inexact-float".
Open Scope Z_scope.

(** [storage.HostPoolScan] *)
Record HostPoolScan := { Timestamp : Z; Success : bool }.

(** [storage.HostInfo]: the fields the evaluation reads. *)
Record HostInfo := {
  FirstSeen : Z;
  Deposit : Z;
  MaxDeposit : Z;
  HistoricSuccessfulInteractions : float;
  HistoricFailedInteractions : float;
  RemainingStorage : Z;
  ScanRecords : list HostPoolScan;
  HistoricDowntime : Z;
  HistoricUptime : Z;
}.

(** [StorageHostManager]: the current block height. *)
Record StorageHostManager := { blockHeight : Z }.

(** [storagehosttree.EvaluationCriteria] *)
Record EvaluationCriteria := {
  AgeAdjustment : float;
  BurnAdjustment : float;
  DepositAdjustment : float;
  InteractionAdjustment : float;
  PriceAdjustment : float;
  StorageRemainingAdjustment : float;
  UptimeAdjustment : float;
}.

(** [storagehosttree.EvaluationDetail] *)
Record EvaluationDetail := {
  ed_Evaluation : Z;
  ConversionRate : float;
  ed_AgeAdjustment : float;
  ed_BurnAdjustment : float;
  ed_DepositAdjustment : float;
  ed_InteractionAdjustment : float;
  ed_PriceAdjustment : float;
  ed_StorageRemainingAdjustment : float;
  ed_UptimeAdjustment : float;
}.

Inductive eval_err := ErrDivZero.

(** [big.Int] division: Euclidean, panicking on zero. *)
Definition bigDiv (x y : Z) : result eval_err Z :=
  if y =? 0 then Err ErrDivZero else Ok (x / y).

(** [t.Sub(u)] on [time.Time]: the difference saturates at the [int64]
    range. *)
Definition timeSub (t u : Z) : Z :=
  let d := t - u in
  if 2 ^ 63 - 1 <? d then 2 ^ 63 - 1 else if d <? - 2 ^ 63 then - 2 ^ 63 else d.

(** [hm.ageAdjustment(info)] *)
Definition ageAdjustment (hm : StorageHostManager) (info : HostInfo) : float :=
  let base := 1%float in
  if FirstSeen info <=? blockHeight hm then
    let age := blockHeight hm - FirstSeen info in
    let base := if age <? 12000 then (base * 2 / 3)%float else base in
    let base := if age <? 6000 then (base / 2)%float else base in
    let base := if age <? 4000 then (base / 2)%float else base in
    let base := if age <? 2000 then (base / 2)%float else base in
    let base := if age <? 1000 then (base / 3)%float else base in
    let base := if age <? 576 then (base / 3)%float else base in
    let base := if age <? 288 then (base / 3)%float else base in
    let base := if age <? 144 then (base / 3)%float else base in
    base
  else base.

Section Eval.
(** [minStorage] ([uint64]). *)
Variable minStorage : Z.

(** [hm.storageRemainingAdjustment(info)]: the thresholds are [uint64]
    products. *)
Definition storageRemainingAdjustment (info : HostInfo) : float :=
  let r := RemainingStorage info in
  let base := 1%float in
  let base := if r <? u64 (100 * minStorage) then (base / 2)%float else base in
  let base := if r <? u64 (80 * minStorage) then (base / 2)%float else base in
  let base := if r <? u64 (40 * minStorage) then (base / 2)%float else base in
  let base := if r <? u64 (20 * minStorage) then (base / 2)%float else base in
  let base := if r <? u64 (15 * minStorage) then (base / 2)%float else base in
  let base := if r <? u64 (10 * minStorage) then (base / 2)%float else base in
  let base := if r <? u64 (5 * minStorage) then (base / 2)%float else base in
  let base := if r <? u64 (3 * minStorage) then (base / 2)%float else base in
  let base := if r <? u64 (2 * minStorage) then (base / 2)%float else base in
  let base := if r <? u64 minStorage then (base / 2)%float else base in
  base.

(** [math.Pow], [math.Min] and [float64(x)] of an integer. *)
Variable Pow : float -> float -> float.
Variable Min : float -> float -> float.
Variable float64_of_int : Z -> float.
(** [depositFloor], [depositExponentialSmall], [depositExponentialLarge],
    [interactionExponentiation]. *)
Variables depositFloor depositExponentialSmall depositExponentialLarge interactionExponentiation : float.
(** [common.BigInt]: [Float64], [MultFloat64] and [NewBigIntFloat64]. *)
Variable bigFloat64 : Z -> float.
Variable bigMultFloat64 : Z -> float -> Z.
Variable NewBigIntFloat64 : float -> Z.

(** [hm.interactionAdjustment(info)] *)
Definition interactionAdjustment (info : HostInfo) : float :=
  let hs := (HistoricSuccessfulInteractions info + 30)%float in
  let hf := (HistoricFailedInteractions info + 1)%float in
  let ratio := (hs / (hs + hf))%float in
  Pow ratio interactionExponentiation.

(** The loop of [uptimeEvaluation] over [info.ScanRecords[1:]]: the
    uptime, the downtime, the time and result of the latest scan. A
    record older than the latest scan is skipped ([continue]). *)
Fixpoint uptimeLoop (records : list HostPoolScan) (uptime downtime recentTime : Z)
  (recentSuccess : bool) : Z * Z :=
  match records with
  | [] => (uptime, downtime)
  | r :: rest =>
      if Timestamp r <? recentTime then uptimeLoop rest uptime downtime recentTime recentSuccess
      else
        let d := timeSub (Timestamp r) recentTime in
        if recentSuccess then uptimeLoop rest (s64 (uptime + d)) downtime (Timestamp r) (Success r)
        else uptimeLoop rest uptime (s64 (downtime + d)) (Timestamp r) (Success r)
  end.

(** [hm.uptimeEvaluation(info)], with [info.ScanRecords = r0 :: rest]. *)
Definition uptimeEvaluation (info : HostInfo) (r0 : HostPoolScan) (rest : list HostPoolScan) : float :=
  let '(uptime, downtime) :=
    uptimeLoop rest (HistoricUptime info) (HistoricDowntime info) (Timestamp r0) (Success r0) in
  if (uptime =? 0) && (downtime =? 0) then 0.001%float
  else
    let uptimeRatio := (float64_of_int uptime / float64_of_int (s64 (uptime + downtime)))%float in
    let uptimeRatio := if (0.98 <? uptimeRatio)%float then 0.98%float else uptimeRatio in
    let uptimeRatio := (uptimeRatio + 0.02)%float in
    let maxDowntime := (0.03 * float64_of_int (Z.of_nat (length (ScanRecords info))))%float in
    let uptimeRatio := if (uptimeRatio <? 1 - maxDowntime)%float then (1 - maxDowntime)%float
                       else uptimeRatio in
    let exp := (200 * Min (1 - uptimeRatio) 0.30)%float in
    Pow uptimeRatio exp.

(** [hm.uptimeAdjustment(info)] *)
Definition uptimeAdjustment (info : HostInfo) : float :=
  match ScanRecords info with
  | [] => 0.25%float
  | [r0] => if Success r0 then 0.75%float else 0.25%float
  | [r0; r1] =>
      if Success r0 && Success r1 then 0.85%float
      else if Success r0 || Success r1 then 0.50%float
      else 0.05%float
  | r0 :: rest => uptimeEvaluation info r0 rest
  end.

(** [hm.depositAdjustment(info, rent)]: [rent] is a copy whose zero
    fields become 1; [rent.Payment] is the rent's [Fund]. *)
Definition depositAdjustment (info : HostInfo) (rent : RentPayment) : result eval_err float :=
  let nz x := if x =? 0 then 1 else x in
  let storageHosts := nz (StorageHosts rent) in
  let period := nz (Period rent) in
  let expectedStorage := nz (ExpectedStorage rent) in
  let expectedRedundancy :=
    if (ExpectedRedundancy rent =? 0)%float then 1%float else ExpectedRedundancy rent in
  contractExpectedPayment <- bigDiv (Fund rent) storageHosts ;;
  let contractExpectedStorage :=
    (float64_of_int expectedStorage * expectedRedundancy / float64_of_int storageHosts)%float in
  let contractExpectedStorageTime := NewBigIntFloat64 contractExpectedStorage * period in
  let hostDeposit := Deposit info * contractExpectedStorageTime in
  possibleDeposit <- bigDiv (MaxDeposit info) contractExpectedStorageTime ;;
  let hostDeposit := if possibleDeposit <? hostDeposit then possibleDeposit else hostDeposit in
  let cutoff := bigMultFloat64 contractExpectedPayment depositFloor in
  let cutoff := if hostDeposit <? cutoff then hostDeposit else cutoff in
  let hostDeposit := if hostDeposit <? 1 then 1 else hostDeposit in
  let cutoff := if cutoff <? 1 then 1 else cutoff in
  ratio <- bigDiv hostDeposit cutoff ;;
  let smallWeight := Pow (bigFloat64 cutoff) depositExponentialSmall in
  let largeWeight := Pow (bigFloat64 ratio) depositExponentialLarge in
  Ok (smallWeight * largeWeight)%float.

(** [hm.calculateEvaluationFunc(rent)] applied to a host. *)
Definition calculateEvaluationFunc (hm : StorageHostManager) (rent : RentPayment) (info : HostInfo)
  : result eval_err EvaluationCriteria :=
  let age := ageAdjustment hm info in
  d <- depositAdjustment info rent ;;
  Ok {| AgeAdjustment := age; BurnAdjustment := 1%float; DepositAdjustment := d;
        InteractionAdjustment := interactionAdjustment info; PriceAdjustment := 1%float;
        StorageRemainingAdjustment := storageRemainingAdjustment info;
        UptimeAdjustment := uptimeAdjustment info |}.

(** [ec.Evaluation()]: the product of the factors, times the integer 1. *)
Definition Evaluation (ec : EvaluationCriteria) : Z :=
  let total := (AgeAdjustment ec * BurnAdjustment ec * DepositAdjustment ec * InteractionAdjustment ec *
                PriceAdjustment ec * StorageRemainingAdjustment ec * UptimeAdjustment ec)%float in
  bigMultFloat64 1 total.

(** [conversionRate(eval, evalAll)]: integer division of [50 * eval] by
    the total, a non-positive total counting as 1. *)
Definition conversionRate (eval evalAll : Z) : float :=
  let evalAll := if evalAll <=? 0 then 1 else evalAll in
  bigFloat64 ((eval * 50) / evalAll).

(** [ec.EvaluationDetail(evalAll, ignoreAge, ignoreUptime)] *)
Definition EvaluationDetail_of (ec : EvaluationCriteria) (evalAll : Z) (ignoreAge ignoreUptime : bool)
  : EvaluationDetail :=
  let ec := {| AgeAdjustment := if ignoreAge then 1%float else AgeAdjustment ec;
               BurnAdjustment := BurnAdjustment ec; DepositAdjustment := DepositAdjustment ec;
               InteractionAdjustment := InteractionAdjustment ec; PriceAdjustment := PriceAdjustment ec;
               StorageRemainingAdjustment := StorageRemainingAdjustment ec;
               UptimeAdjustment := if ignoreUptime then 1%float else UptimeAdjustment ec |} in
  let eval := Evaluation ec in
  {| ed_Evaluation := eval; ConversionRate := conversionRate eval evalAll;
     ed_AgeAdjustment := AgeAdjustment ec; ed_BurnAdjustment := BurnAdjustment ec;
     ed_DepositAdjustment := DepositAdjustment ec; ed_InteractionAdjustment := InteractionAdjustment ec;
     ed_PriceAdjustment := PriceAdjustment ec; ed_StorageRemainingAdjustment := StorageRemainingAdjustment ec;
     ed_UptimeAdjustment := UptimeAdjustment ec |}.
End Eval.

(** A host first seen at height [fs] with [r] bytes left and no history. *)
Definition ex_info (fs r : Z) : HostInfo :=
  {| FirstSeen := fs; Deposit := 0; MaxDeposit := 0; HistoricSuccessfulInteractions := 0%float;
     HistoricFailedInteractions := 0%float; RemainingStorage := r; ScanRecords := [];
     HistoricDowntime := 0; HistoricUptime := 0 |}.

(** ** Tables of the threshold ladders *)

(** The number of thresholds a value is under. *)
Definition count_below (a : Z) (ts : list Z) : nat := length (List.filter (fun t => a <? t) ts).

Definition ageThresholds : list Z := [12000; 6000; 4000; 2000; 1000; 576; 288; 144].

(** The age factor after the first [k] tests of [ageAdjustment] fired. *)
Definition ageTable : list float :=
  let c1 := (1 * 2 / 3)%float in
  let c2 := (c1 / 2)%float in let c3 := (c2 / 2)%float in let c4 := (c3 / 2)%float in
  let c5 := (c4 / 3)%float in let c6 := (c5 / 3)%float in let c7 := (c6 / 3)%float in
  let c8 := (c7 / 3)%float in
  [1%float; c1; c2; c3; c4; c5; c6; c7; c8].

(** A table whose entries do not grow with the index and lie in (0, 1]. *)
Definition table_antitone (tab : list float) : bool :=
  forallb (fun i =>
    (0 <? nth i tab 1)%float && (nth i tab 1 <=? 1)%float &&
    forallb (fun j => implb (i <=? j)%nat (nth j tab 1 <=? nth i tab 1)%float) (seq 0 (length tab)))
    (seq 0 (length tab)).

Definition storageThresholds (m : Z) : list Z :=
  [100 * m; 80 * m; 40 * m; 20 * m; 15 * m; 10 * m; 5 * m; 3 * m; 2 * m; m].

(** [1 / 2^k] for [k] from 0 to 10. *)
Definition halfTable : list float :=
  map (fun k => (1 / PrimFloat.of_uint63 (Uint63.of_Z (2 ^ Z.of_nat k)))%float) (seq 0 11).

(** ** Lemmas *)

Lemma count_below_antitone a b ts : a <= b -> (count_below b ts <= count_below a ts)%nat.
Proof.
  intros Hab. unfold count_below. induction ts as [|t ts IH]; cbn [List.filter length]; [lia|].
  repeat case_bool; cbn [length]; lia.
Qed.

Lemma count_below_le a ts : (count_below a ts <= length ts)%nat.
Proof. unfold count_below. induction ts as [|t ts IH]; cbn [List.filter length]; [lia|]. case_bool; cbn [length]; lia. Qed.

Lemma table_antitone_spec tab i j :
  table_antitone tab = true -> (i <= j < length tab)%nat ->
  (nth j tab 1 <=? nth i tab 1)%float = true /\ (nth j tab 1 <=? 1)%float = true.
Proof.
  unfold table_antitone. rewrite forallb_forall. intros Hall Hij.
  pose proof (Hall i ltac:(apply in_seq; lia)) as Hi. pose proof (Hall j ltac:(apply in_seq; lia)) as Hj.
  apply andb_prop in Hi as [_ Hi]. apply andb_prop in Hj as [Hj _]. apply andb_prop in Hj as [_ Hj].
  rewrite forallb_forall in Hi. specialize (Hi j ltac:(apply in_seq; lia)).
  assert (Hle : (i <=? j)%nat = true) by (apply Nat.leb_le; lia). rewrite Hle in Hi. cbn in Hi. auto.
Qed.

Lemma ageTable_antitone : table_antitone ageTable = true.
Proof. vm_compute. reflexivity. Qed.

(** The age factor is the table entry for the number of age thresholds
    the host is under. *)
Lemma ageAdjustment_table hm info :
  FirstSeen info <= blockHeight hm ->
  ageAdjustment hm info = nth (count_below (blockHeight hm - FirstSeen info) ageThresholds) ageTable 1%float.
Proof.
  intros Hf. unfold ageAdjustment. destruct (Z.leb_spec (FirstSeen info) (blockHeight hm)); [|lia].
  set (age := blockHeight hm - FirstSeen info). clearbody age.
  unfold count_below, ageThresholds. cbn [List.filter].
  repeat case_bool; try lia; reflexivity.
Qed.

(** C25: among hosts first seen at or before the current height, an older
    host never gets a smaller age factor, and no factor exceeds 1; a host
    whose [FirstSeen] lies after the current height gets the full factor
    1, as if it were the oldest. *)
Theorem ageAdjustment_monotone hm info1 info2 :
  FirstSeen info2 <= FirstSeen info1 <= blockHeight hm ->
  (ageAdjustment hm info1 <=? ageAdjustment hm info2)%float = true /\
  (ageAdjustment hm info2 <=? 1)%float = true /\
  (forall info, blockHeight hm < FirstSeen info -> ageAdjustment hm info = 1%float).
Proof.
  intros Hf. rewrite !ageAdjustment_table by lia.
  set (k1 := count_below (blockHeight hm - FirstSeen info1) ageThresholds).
  set (k2 := count_below (blockHeight hm - FirstSeen info2) ageThresholds).
  assert (Hk : (k2 <= k1)%nat) by (apply count_below_antitone; lia).
  assert (Hk1 : (k1 < length ageTable)%nat) by (pose proof (count_below_le (blockHeight hm - FirstSeen info1) ageThresholds); cbn in *; lia).
  split; [apply (table_antitone_spec _ k2 k1 ageTable_antitone); lia|].
  split; [apply (table_antitone_spec _ k2 k2 ageTable_antitone); lia|].
  intros info Hi. unfold ageAdjustment. destruct (Z.leb_spec (FirstSeen info) (blockHeight hm)); [lia | reflexivity].
Qed.

Lemma halfTable_antitone : table_antitone halfTable = true.
Proof. vm_compute. reflexivity. Qed.

(** With thresholds that do not wrap, the remaining-storage factor is
    [1/2^k] for the number [k] of thresholds the host is under. *)
Lemma storageRemainingAdjustment_table m info :
  0 <= m -> 100 * m < two64 ->
  storageRemainingAdjustment m info =
    nth (count_below (RemainingStorage info) (storageThresholds m)) halfTable 1%float.
Proof.
  intros Hm Hw. unfold storageRemainingAdjustment.
  rewrite !u64_small by lia.
  set (r := RemainingStorage info). clearbody r.
  unfold count_below, storageThresholds. cbn [List.filter].
  repeat case_bool; reflexivity.
Qed.

(** C26: when [100 * minStorage] fits a [uint64], the remaining-storage
    factor is [1/2^k] for the number [k] of thresholds [minStorage * c]
    ([c] in 100, 80, 40, 20, 15, 10, 5, 3, 2, 1) the host's remaining
    storage is under, and it never decreases as the remaining storage
    grows. *)
Theorem storageRemainingAdjustment_monotone minStorage info1 info2 :
  0 <= minStorage -> 100 * minStorage < two64 -> RemainingStorage info1 <= RemainingStorage info2 ->
  (storageRemainingAdjustment minStorage info1 <=? storageRemainingAdjustment minStorage info2)%float = true /\
  storageRemainingAdjustment minStorage info2 =
    nth (count_below (RemainingStorage info2) (storageThresholds minStorage)) halfTable 1%float.
Proof.
  intros Hm Hw Hr. rewrite !storageRemainingAdjustment_table by lia.
  split; [|reflexivity].
  set (k1 := count_below (RemainingStorage info1) (storageThresholds minStorage)).
  set (k2 := count_below (RemainingStorage info2) (storageThresholds minStorage)).
  assert (Hk : (k2 <= k1)%nat) by (apply count_below_antitone; lia).
  assert (Hk1 : (k1 < length halfTable)%nat)
    by (pose proof (count_below_le (RemainingStorage info1) (storageThresholds minStorage)); cbn in *; lia).
  apply (table_antitone_spec _ k2 k1 halfTable_antitone); lia.
Qed.

(** ** Witnesses *)

Lemma ageAdjustment_monotone_witness :
  let hm := {| blockHeight := 10000 |} in
  0 <= 9000 <= 10000 /\
  (ageAdjustment hm (ex_info 9000 0) <=? ageAdjustment hm (ex_info 0 0))%float = true /\
  (ageAdjustment hm (ex_info 0 0) <=? 1)%float = true /\
  (forall info, blockHeight hm < FirstSeen info -> ageAdjustment hm info = 1%float).
Proof.
  intros hm. split; [lia|].
  apply (ageAdjustment_monotone hm (ex_info 9000 0) (ex_info 0 0)); cbn; lia.
Defined.

Lemma storageRemainingAdjustment_monotone_witness :
  0 <= 1000 /\ 100 * 1000 < two64 /\
  (storageRemainingAdjustment 1000 (ex_info 0 500) <=? storageRemainingAdjustment 1000 (ex_info 0 50000))%float = true /\
  storageRemainingAdjustment 1000 (ex_info 0 50000) =
    nth (count_below 50000 (storageThresholds 1000)) halfTable 1%float.
Proof.
  split; [lia|]. split; [unfold two64; lia|].
  apply (storageRemainingAdjustment_monotone 1000 (ex_info 0 500) (ex_info 0 50000)); unfold two64; cbn; lia.
Defined.
