(* ===== verification/DposTx.v ===== *)
(** * Precompiled-contract transactions of the RPC API

    Model of [src/unnamed/part_005] (package [ethapi]): the arguments of a
    precompiled-contract transaction ([NewPrecompiledContractTxArgs]), the
    transaction built from them ([NewPrecompiledContractTx]), the
    validity check of DPoS operations ([CheckDposOperationTx]), the
    sending path ([sendPrecompiledContractTx]) and the eight RPC methods
    that use them. Precompiled contracts are addressed by one byte: 9 to
    12 for the storage contract transactions, 13 to 16 for the DPoS ones.

    Pointers of [PrecompiledContractTxArgs] are [option] values (a nil
    pointer is [None]); dereferencing a nil one is [ErrNilDeref]. The
    backend ([Backend], [AccountManager], the wallet) is the class
    [DposBackend], whose state changes only by [SendTx]. A [big.Int] is a
    [Z]; its [Int64] is the two's-complement reduction [s64], and the
    [int64] subtraction of the balance check wraps. The address lock
    [nonceLock] serialises nonce allocation per address; a single call
    here runs alone, so the lock is not modelled.

    Theorems: in range, the deposit check accepts exactly the deposits the
    comments describe (C16); a deposit of [2^64] plus the minimum
    deposit passes it whatever the balance (C17); the empty-input check of
    vote transactions never fires (C18); and the DPoS RPC methods send a
    transaction whose amount is zero whatever the deposit (C19). *)

From Stdlib Require Import ZArith List Lia Bool String.
From Stdlib Require Strings.Byte.
From stdpp Require Import base list.
From S2P Require Import Prelude.
Import ListNotations.

Open Scope Z_scope.

(** A 20-byte address as a big-endian integer; [common.Address{}] is 0. *)
Definition Address := Z.

(** [to.SetBytes([]byte{b})] and [common.BytesToAddress([]byte{b})] *)
Definition BytesToAddress1 (b : Z) : Address := b.

(** [minDeposit] and [candidateThreshold] *)
Definition minDeposit : Z := 10 ^ 18.
Definition candidateThreshold : Z := 10 ^ 18.

Definition StorageContractTxGas : Z := 90000.
Definition DposTxGas : Z := 1000000.

(** [PrecompiledContractTxArgs] *)
Record PrecompiledContractTxArgs := {
  From : Address;
  To : Address;
  Gas : option Z;
  Value : option Z;
  GasPrice : option Z;
  Nonce : option Z;
  Input : option (list Byte.byte);
}.

(** [NewPrecompiledContractTxArgs(from, to, input, value, gas)]: a nil
    input becomes a pointer to an empty slice, a nil value a pointer to
    zero. *)
Definition NewPrecompiledContractTxArgs (from to : Address) (input : option (list Byte.byte))
  (value : option Z) (gas : Z) : PrecompiledContractTxArgs :=
  {| From := from; To := to;
     Input := Some (match input with Some b => b | None => [] end);
     Gas := Some gas;
     Value := Some (match value with Some v => v | None => 0 end);
     GasPrice := None; Nonce := None |}.

(** The keys of the DPoS storage read by the check. *)
Inductive dpos_key := KeyVoteDeposit | KeyCandidateDeposit.

(** The state read by the check: balances and the 32-byte storage slots
    ([common.Hash] as an integer; the empty hash is 0). *)
Record stateDB := {
  GetBalance : Address -> Z;
  GetState : Address -> dpos_key -> Z;
}.

Inductive tx_err :=
| ErrBalanceNotEnoughCandidateThreshold
| ErrDepositValueNotSuitable
| ErrCandidateDepositTooLow
| ErrNotCandidate
| ErrEmptyInput
| ErrHasNotVote
| ErrUnknownPrecompileContractAddress
| ErrPrecompileWithoutTo
| ErrNilDeref
| ErrBackend (code : Z).

(** [new(big.Int).SetBytes(h.Bytes()).Int64()] after the test
    [h != emptyHash]. *)
Definition depositOf (h : Z) : Z := if h =? 0 then 0 else s64 h.

(** [args.Value.ToInt().Sign() <= 0 ||
     args.Value.ToInt().Int64() > balance.Int64()-deposit] *)
Definition depositNotSuitable (v balance deposit : Z) : bool :=
  (v <=? 0) || (s64 (s64 balance - deposit) <? s64 v).

(** [CheckDposOperationTx(stateDB, args)] *)
Definition CheckDposOperationTx (st : stateDB) (args : PrecompiledContractTxArgs) : result tx_err unit :=
  let balance := GetBalance st (From args) in
  if To args =? BytesToAddress1 13 then
    if balance <? candidateThreshold then Err ErrBalanceNotEnoughCandidateThreshold
    else
      let voteDeposit := depositOf (GetState st (From args) KeyVoteDeposit) in
      match Value args with
      | None => Err ErrNilDeref
      | Some v =>
          if depositNotSuitable v balance voteDeposit then Err ErrDepositValueNotSuitable
          else if v <? minDeposit then Err ErrCandidateDepositTooLow
          else Ok tt
      end
  else if To args =? BytesToAddress1 14 then
    if GetState st (From args) KeyCandidateDeposit =? 0 then Err ErrNotCandidate else Ok tt
  else if To args =? BytesToAddress1 15 then
    match Input args with
    | None => Err ErrEmptyInput
    | Some _ =>
        let deposit := depositOf (GetState st (From args) KeyCandidateDeposit) in
        match Value args with
        | None => Err ErrNilDeref
        | Some v => if depositNotSuitable v balance deposit then Err ErrDepositValueNotSuitable else Ok tt
        end
    end
  else if To args =? BytesToAddress1 16 then
    if GetState st (From args) KeyVoteDeposit =? 0 then Err ErrHasNotVote else Ok tt
  else Err ErrUnknownPrecompileContractAddress.

(** ** Transactions and the sending path *)

(** [types.Transaction]: the fields [NewTransaction] sets. *)
Record Transaction := {
  tx_nonce : Z;
  tx_to : Address;
  tx_amount : Z;
  tx_gas : Z;
  tx_gasPrice : Z;
  tx_data : list Byte.byte;
}.

(** [types.NewTransaction(nonce, to, amount, gasLimit, gasPrice, data)]:
    a nil amount leaves the value at zero. *)
Definition NewTransaction (nonce : Z) (to : Address) (amount : option Z) (gas price : Z)
  (data : list Byte.byte) : Transaction :=
  {| tx_nonce := nonce; tx_to := to; tx_amount := match amount with Some a => a | None => 0 end;
     tx_gas := gas; tx_gasPrice := price; tx_data := data |}.

(** A signed transaction: the transaction and its signature. *)
Definition signedTx : Type := Transaction * Z.

(** [Backend] as the RPC methods use it. [IsEIP155] stands for
    [b.ChainConfig().IsEIP155(b.CurrentBlock().Number())], [FindWallet]
    for [b.AccountManager().Find], [SignTx] for [wallet.SignTx] (it returns
    the signature), [TxHash] for [signed.Hash()]. *)
Class DposBackend (B : Type) := {
  StateAndHeaderByNumber : B -> result tx_err stateDB;
  FindWallet : B -> Address -> result tx_err Z;
  SuggestPrice : B -> result tx_err Z;
  GetPoolNonce : B -> Address -> result tx_err Z;
  IsEIP155 : B -> bool;
  ChainID : B -> Z;
  SignTx : B -> Z -> Address -> Transaction -> option Z -> result tx_err Z;
  SendTx : B -> signedTx -> result tx_err B;
  TxHash : signedTx -> Z;
  GetHostEnodeURL : B -> string;
  SignByNode : B -> Z -> result tx_err (list Byte.byte);
}.

Section Send.
Context {B : Type} `{DposBackend B}.

(** [rlp] encoding of a [types.HostAnnouncement] and its [RLPHash]. *)
Variable hostAnnouncementHash : string -> Z.
Variable encodeHostAnnouncement : string -> list Byte.byte -> result tx_err (list Byte.byte).

(** [args.NewPrecompiledContractTx(ctx, b)] *)
Definition NewPrecompiledContractTx (args : PrecompiledContractTxArgs) (b : B) : result tx_err Transaction :=
  price <- SuggestPrice b ;;
  nonce <- GetPoolNonce b (From args) ;;
  if To args =? 0 then Err ErrPrecompileWithoutTo
  else match Gas args, Input args with
       | Some g, Some d => Ok (NewTransaction nonce (To args) None g price d)
       | _, _ => Err ErrNilDeref
       end.

(** [sendPrecompiledContractTx(ctx, b, nonceLock, args)] *)
Definition sendPrecompiledContractTx (b : B) (args : PrecompiledContractTxArgs) : result tx_err (Z * B) :=
  wallet <- FindWallet b (From args) ;;
  tx <- NewPrecompiledContractTx args b ;;
  let chainID := if IsEIP155 b then Some (ChainID b) else None in
  sig <- SignTx b wallet (From args) tx chainID ;;
  b' <- SendTx b (tx, sig) ;;
  Ok (TxHash (tx, sig), b').

(** The common body of the four DPoS methods of [PublicDposTxAPI]. *)
Definition sendDposTx (to : Z) (b : B) (from : Address) (data : option (list Byte.byte))
  (value : option Z) : result tx_err (Z * B) :=
  let args := NewPrecompiledContractTxArgs from (BytesToAddress1 to) data value DposTxGas in
  st <- StateAndHeaderByNumber b ;;
  _ <- CheckDposOperationTx st args ;;
  sendPrecompiledContractTx b args.

Definition SendApplyCandidateTx (b : B) (from : Address) (data : option (list Byte.byte)) (value : option Z) :=
  sendDposTx 13 b from data value.
Definition SendCancelCandidateTx (b : B) (from : Address) := sendDposTx 14 b from None None.
Definition SendVoteTx (b : B) (from : Address) (data : option (list Byte.byte)) (value : option Z) :=
  sendDposTx 15 b from data value.
Definition SendCancelVoteTx (b : B) (from : Address) := sendDposTx 16 b from None None.

(** The common body of the storage contract methods of
    [PrivateStorageContractTxAPI]. *)
Definition sendStorageTx (to : Z) (b : B) (from : Address) (input : option (list Byte.byte)) :=
  sendPrecompiledContractTx b
    (NewPrecompiledContractTxArgs from (BytesToAddress1 to) input None StorageContractTxGas).

Definition SendContractCreateTX (b : B) (from : Address) (input : option (list Byte.byte)) :=
  sendStorageTx 10 b from input.
Definition SendContractRevisionTX (b : B) (from : Address) (input : option (list Byte.byte)) :=
  sendStorageTx 11 b from input.
Definition SendStorageProofTX (b : B) (from : Address) (input : option (list Byte.byte)) :=
  sendStorageTx 12 b from input.

(** [SendHostAnnounceTX(from)] *)
Definition SendHostAnnounceTX (b : B) (from : Address) : result tx_err (Z * B) :=
  let url := GetHostEnodeURL b in
  sign <- SignByNode b (hostAnnouncementHash url) ;;
  payload <- encodeHostAnnouncement url sign ;;
  sendStorageTx 9 b from (Some payload).
End Send.

(** ** A concrete backend

    A transaction pool and a fixed state: every account holds five
    minimum deposits and has no DPoS storage. The wallet of an account is
    the account, prices are 1, the pool's length is the next nonce. *)
Record exBackend := { pool : list signedTx; exState : stateDB }.

Definition ex_stateDB : stateDB :=
  {| GetBalance _ := 5 * 10 ^ 18; GetState _ _ := 0 |}.

#[local] Instance exBackend_DposBackend : DposBackend exBackend := {
  StateAndHeaderByNumber b := Ok (exState b);
  FindWallet _ a := Ok a;
  SuggestPrice _ := Ok 1;
  GetPoolNonce b _ := Ok (Z.of_nat (length (pool b)));
  IsEIP155 _ := true;
  ChainID _ := 5;
  SignTx _ w _ _ _ := Ok w;
  SendTx b stx := Ok {| pool := stx :: pool b; exState := exState b |};
  TxHash stx := tx_nonce (fst stx);
  GetHostEnodeURL _ := EmptyString;
  SignByNode _ _ := Ok [];
}.

Definition ex_backend : exBackend := {| pool := []; exState := ex_stateDB |}.

(** ** Lemmas *)

Lemma depositOf_in_range h : 0 <= h < 2 ^ 63 -> depositOf h = h.
Proof. intros. unfold depositOf. case_bool; [lia | apply s64_id; lia]. Qed.

Lemma depositNotSuitable_in_range v bal d :
  - 2 ^ 63 <= v < 2 ^ 63 -> 0 <= bal < 2 ^ 63 -> 0 <= d < 2 ^ 63 ->
  depositNotSuitable v bal d = negb ((0 <? v) && (v <=? bal - d)).
Proof.
  intros. unfold depositNotSuitable. rewrite (s64_id bal), (s64_id (bal - d)), (s64_id v) by lia.
  repeat case_bool; cbn; try reflexivity; lia.
Qed.

(** C16: in the [int64] range, the check accepts an apply-candidate
    transaction exactly when the balance reaches [candidateThreshold] and
    the deposit is positive, at most the balance minus the vote deposit,
    and at least [minDeposit]; and a vote exactly when the deposit is
    positive and at most the balance minus the candidate deposit. *)
Theorem CheckDposOperationTx_deposit_in_range st from data v gas :
  0 <= GetBalance st from < 2 ^ 63 -> 0 <= GetState st from KeyVoteDeposit < 2 ^ 63 ->
  0 <= GetState st from KeyCandidateDeposit < 2 ^ 63 -> - 2 ^ 63 <= v < 2 ^ 63 ->
  (CheckDposOperationTx st (NewPrecompiledContractTxArgs from 13 data (Some v) gas) = Ok tt <->
     candidateThreshold <= GetBalance st from /\
     0 < v <= GetBalance st from - GetState st from KeyVoteDeposit /\ minDeposit <= v) /\
  (CheckDposOperationTx st (NewPrecompiledContractTxArgs from 15 data (Some v) gas) = Ok tt <->
     0 < v <= GetBalance st from - GetState st from KeyCandidateDeposit).
Proof.
  intros Hb Hv Hc Hr. unfold CheckDposOperationTx. cbn [From To Value Input NewPrecompiledContractTxArgs].
  rewrite !depositOf_in_range, !depositNotSuitable_in_range by lia. cbn.
  split; repeat case_bool; cbn; split; intros; try discriminate; try reflexivity; lia.
Qed.

(** A successful send signs and pools the transaction built from the
    arguments. *)
Lemma sendPrecompiledContractTx_ok `{DposBackend B} b args h b' :
  sendPrecompiledContractTx b args = Ok (h, b') ->
  exists tx sig, NewPrecompiledContractTx args b = Ok tx /\ SendTx b (tx, sig) = Ok b' /\
    h = TxHash (tx, sig).
Proof.
  unfold sendPrecompiledContractTx. intros Hs.
  apply bind_result_ok in Hs as (w & _ & Hs). apply bind_result_ok in Hs as (tx & Htx & Hs).
  apply bind_result_ok in Hs as (sig & _ & Hs). apply bind_result_ok in Hs as (b1 & Hb & [= <- <-]).
  eauto.
Qed.

(** The transaction built from arguments goes to their [To] with their gas
    and input, and carries no amount. *)
Lemma NewPrecompiledContractTx_ok `{DposBackend B} args b tx :
  NewPrecompiledContractTx args b = Ok tx ->
  tx_to tx = To args /\ tx_amount tx = 0 /\ Gas args = Some (tx_gas tx) /\ Input args = Some (tx_data tx).
Proof.
  unfold NewPrecompiledContractTx. intros Hs.
  apply bind_result_ok in Hs as (p & _ & Hs). apply bind_result_ok in Hs as (n & _ & Hs).
  destruct (To args =? 0); [discriminate|].
  destruct (Gas args), (Input args); try discriminate. injection Hs as <-. auto.
Qed.

(** A deposit the check accepts is positive. *)
Lemma CheckDposOperationTx_value_pos st args v :
  (To args = 13 \/ To args = 15) -> Value args = Some v ->
  CheckDposOperationTx st args = Ok tt -> 0 < v.
Proof.
  intros Hto Hv. unfold CheckDposOperationTx, depositNotSuitable. rewrite Hv.
  destruct Hto as [-> | ->]; cbn -[s64 depositOf];
    repeat case_bool; cbn; try discriminate; destruct (Input args); try discriminate; lia.
Qed.

(** C17: an apply-candidate deposit of [minDeposit + k * 2^64] passes the
    check on an account that holds at least [candidateThreshold] (below
    [2^63]) and has no vote deposit, although it exceeds the balance:
    [Int64()] keeps only the low 64 bits of the deposit. *)
Theorem CheckDposOperationTx_overflowing_deposit st from data gas k :
  1 <= k -> candidateThreshold <= GetBalance st from < 2 ^ 63 -> GetState st from KeyVoteDeposit = 0 ->
  CheckDposOperationTx st (NewPrecompiledContractTxArgs from 13 data (Some (minDeposit + k * two64)) gas) = Ok tt /\
  GetBalance st from < minDeposit + k * two64.
Proof.
  intros Hk Hb Hv. unfold CheckDposOperationTx, depositNotSuitable, depositOf. cbn [From To Value Input NewPrecompiledContractTxArgs].
  rewrite Hv, s64_add_mul. cbn [Z.eqb].
  rewrite Z.sub_0_r, !(s64_id (GetBalance st from)), (s64_id minDeposit)
    by (unfold candidateThreshold, minDeposit in *; lia).
  unfold candidateThreshold, minDeposit, two64 in *. repeat case_bool; cbn; try lia.
  all: split; [reflexivity | lia].
Qed.

(** C18: arguments built by [NewPrecompiledContractTxArgs] always carry an
    input, so the check never returns [ErrEmptyInput]: the vote
    transaction's empty-input test is dead code. *)
Theorem CheckDposOperationTx_no_empty_input st from to data value gas :
  CheckDposOperationTx st (NewPrecompiledContractTxArgs from to data value gas) <> Err ErrEmptyInput.
Proof.
  unfold CheckDposOperationTx. cbn -[depositNotSuitable depositOf].
  repeat match goal with |- context [if ?b then _ else _] => destruct b end; discriminate.
Qed.

(** C19: when [SendApplyCandidateTx] succeeds, the check accepted a
    positive deposit, yet the pooled transaction to the apply-candidate
    contract carries amount zero: [NewPrecompiledContractTx] passes [nil]
    as the amount, so the deposit never leaves the account. *)
Theorem SendApplyCandidateTx_zero_amount `{DposBackend B} b from data v h b' :
  SendApplyCandidateTx b from data (Some v) = Ok (h, b') ->
  exists st tx sig, StateAndHeaderByNumber b = Ok st /\
    CheckDposOperationTx st (NewPrecompiledContractTxArgs from 13 data (Some v) DposTxGas) = Ok tt /\
    SendTx b (tx, sig) = Ok b' /\ h = TxHash (tx, sig) /\
    tx_to tx = 13 /\ tx_gas tx = DposTxGas /\ tx_amount tx = 0 /\ 0 < v.
Proof.
  unfold SendApplyCandidateTx, sendDposTx. intros Hs.
  apply bind_result_ok in Hs as (st & Hst & Hs). apply bind_result_ok in Hs as ([] & Hc & Hs).
  destruct (sendPrecompiledContractTx_ok _ _ _ _ Hs) as (tx & sig & Htx & Hsend & ->).
  destruct (NewPrecompiledContractTx_ok _ _ _ Htx) as (Hto & Ham & Hg & _). cbn in Hto, Hg.
  exists st, tx, sig. repeat split; auto; [congruence|].
  exact (CheckDposOperationTx_value_pos _ _ v (or_introl (eq_refl : To (NewPrecompiledContractTxArgs from 13 data (Some v) DposTxGas) = 13)) eq_refl Hc).
Qed.

(** ** Witnesses *)

Lemma CheckDposOperationTx_deposit_in_range_witness :
  let v := 2 * 10 ^ 18 in
  0 <= GetBalance ex_stateDB 1 < 2 ^ 63 /\
  ((CheckDposOperationTx ex_stateDB (NewPrecompiledContractTxArgs 1 13 None (Some v) DposTxGas) = Ok tt <->
     candidateThreshold <= GetBalance ex_stateDB 1 /\
     0 < v <= GetBalance ex_stateDB 1 - GetState ex_stateDB 1 KeyVoteDeposit /\ minDeposit <= v) /\
   (CheckDposOperationTx ex_stateDB (NewPrecompiledContractTxArgs 1 15 None (Some v) DposTxGas) = Ok tt <->
     0 < v <= GetBalance ex_stateDB 1 - GetState ex_stateDB 1 KeyCandidateDeposit)).
Proof.
  intros v. split; [cbn; lia|].
  apply CheckDposOperationTx_deposit_in_range; cbn; lia.
Defined.

Lemma CheckDposOperationTx_overflowing_deposit_witness :
  CheckDposOperationTx ex_stateDB (NewPrecompiledContractTxArgs 1 13 None (Some (minDeposit + 1 * two64)) DposTxGas) = Ok tt /\
  GetBalance ex_stateDB 1 < minDeposit + 1 * two64.
Proof. apply CheckDposOperationTx_overflowing_deposit; cbn; unfold candidateThreshold; lia. Defined.

Lemma SendApplyCandidateTx_zero_amount_witness :
  exists h b', SendApplyCandidateTx ex_backend 1 None (Some (2 * 10 ^ 18)) = Ok (h, b') /\
  exists st tx sig, StateAndHeaderByNumber ex_backend = Ok st /\
    CheckDposOperationTx st (NewPrecompiledContractTxArgs 1 13 None (Some (2 * 10 ^ 18)) DposTxGas) = Ok tt /\
    SendTx ex_backend (tx, sig) = Ok b' /\ h = TxHash (tx, sig) /\
    tx_to tx = 13 /\ tx_gas tx = DposTxGas /\ tx_amount tx = 0 /\ 0 < 2 * 10 ^ 18.
Proof.
  destruct (SendApplyCandidateTx ex_backend 1 None (Some (2 * 10 ^ 18))) as [[h b']|e] eqn:E;
    [|vm_compute in E; discriminate].
  exists h, b'. split; [reflexivity|]. exact (SendApplyCandidateTx_zero_amount _ _ _ _ _ _ E).
Defined.
