(* ===== verification/StorageClient.v ===== *)
(** * The storage client: contract creation, upload and download

    Model of the [StorageClient] methods of [src/unnamed/part_000]
    (package [storageclient]) that negotiate with a host:
    [setBandwidthLimits], [ContractCreate], [Write] ([Append] is
    [Write] with one append action), [Read] and [Downlaod]/[Download].
    The file holds three versions of the client. The first (lines 1-750)
    and the second (lines 751-1750) have the same [Write] and
    [setBandwidthLimits], two different [ContractCreate]s, modelled as
    [ContractCreate_v1] and [ContractCreate_v2], and two [Read]s, modelled
    as [Read_v1] and [Read_v2] (the second adds a deferred count of the
    interaction with the host). The third version repeats [setBandwidthLimits].

    The client runs in a state and error monad [CM] over [ClientEnv]: the
    host's replies still to be read, the messages sent (with a budget of
    successful sends), the storage-contract transactions submitted, the
    disconnections, the bytes written to the writer of [Read] and the
    interactions counted with hosts. [ReadMsg] returns the read error as a value, because
    [ContractCreate] branches on it. A [*big.Int] is an [option Z] (nil is
    [None]) and [big.Int.Add] or [Cmp] on nil is [ErrNilDeref]. Indexing a
    slice out of range is [ErrIndex]. Dividing by zero is [ErrDivZero].
    Library code that is not under [src/] is a section variable: the
    payout formula [RenterPayoutsPreTax], keys and hashes, the wallet, the
    RLP encoding, [NewRevision], and the diff-proof helpers of package
    [storage].

    Theorems: [Write] panics on its nil [bandwidthPrice] before it sends
    anything (C20). [ContractCreate_v1] returns success as soon as the
    host's first reply reads without error, having sent only the creation
    request: the test of the read error is inverted (C21), and neither
    version submits the contract (C22). [Read] never gets past its price
    test on the empty [lastRevision] (C30); its sanity check (C31) and its
    response loop (C32) are specified; [Downlaod] and [Download] return an
    empty buffer and the error the section determines ([Download_outcome]). *)

From Stdlib Require Import ZArith List Lia Bool String.
From Stdlib Require Strings.Byte.
From stdpp Require Import base list.
From S2P Require Import Prelude Bits64 MerkleTree MerkleProof Upload.
Import ListNotations.

Open Scope Z_scope.

Inductive client_err :=
| ErrNilDeref
| ErrIndex
| ErrDivZero
| ErrRead
| ErrSend
| ErrNegativeSpeedLimit
| ErrInsufficientFunds
| ErrInsufficientCollateral
| ErrInvalidOldRoot
| ErrInvalidNewRoot
| ErrIllegalOffset
| ErrSegmentAlign
| ErrInsufficientDownloadFunds
| ErrNotEnoughData
| ErrBadSectorData
| ErrExtended (msg : string) (inner : client_err)
| ErrLibrary (code : Z).

(** [storagehost.ExtendErr(msg, err)] *)
Definition ExtendErr {A} (msg : string) (r : result client_err A) : result client_err A :=
  match r with Ok a => Ok a | Err e => Err (ErrExtended msg e) end.

(** [storage.HostInfo]: the fields the client reads. *)
Record HostInfo := {
  NetAddress : Z;
  PublicKey : Z;
  WindowSize : Z;
  hi_UploadBandwidthPrice : Z;
  hi_StoragePrice : Z;
  hi_Deposit : Z;
  hi_DownloadBandwidthPrice : Z;
  hi_BaseRPCPrice : Z;
  hi_SectorAccessPrice : Z;
}.

(** [storage.Allowance] and [ContractParams] *)
Record Allowance := { al_ExpectedStorage : Z; al_Hosts : Z }.
Record ContractParams := {
  cp_Allowance : Allowance;
  cp_Funding : Z;
  cp_ClientPublicKey : Z;
  cp_StartHeight : Z;
  cp_EndHeight : Z;
  cp_Host : HostInfo;
}.

(** [types.StorageContract]: its [Signatures] is a slice, empty in the
    literal [ContractCreate] builds. *)
Record StorageContract := {
  sc_FileSize : Z;
  sc_FileMerkleRoot : Z;
  sc_WindowStart : Z;
  sc_WindowEnd : Z;
  sc_RenterCollateral : Z;
  sc_HostCollateral : Z;
  sc_UnlockHash : Z;
  sc_RevisionNumber : Z;
  sc_ValidProofOutputs : list DxcoinCharge;
  sc_MissedProofOutputs : list DxcoinCharge;
  sc_Signatures : list bytes;
}.

Notation Revision := (StorageContractRevision (H := Z)).

(** [storage.DownloadRequestSection]: [Offset] and [Length] are [uint32]. *)
Record DownloadRequestSection := {
  sec_MerkleRoot : Z;
  sec_Offset : Z;
  sec_Length : Z;
}.

(** [storage.DownloadRequest] *)
Record DownloadRequest := {
  dr_Sections : list DownloadRequestSection;
  dr_MerkleProof : bool;
  dr_NewRevisionNumber : Z;
  dr_NewValidProofValues : list Z;
  dr_NewMissedProofValues : list Z;
  dr_Signature : bytes;
}.

(** [storage.DownloadResponse] *)
Record DownloadResponse := {
  resp_Data : bytes;
  resp_MerkleProof : list Z;
  resp_Signature : bytes;
}.

(** The messages the client sends. *)
Inductive client_out :=
| SendStorageContractCreation_v1 (c : StorageContract) (sign : bytes)
| SendStorageContractCreation_v2 (c : StorageContract) (clientPK : Z)
| SendCreationClientRevisionSign_v1 (sign : bytes)
| SendCreationClientRevisionSign_v2 (contractSign revisionSign : bytes)
| SendStorageContractUploadRequest (req : UploadRequest)
| SendStorageContractUploadClientRevisionSign (sign : bytes)
| SendStorageContractDownloadRequest (req : DownloadRequest).

(** The client's view of the world during one call. *)
Record ClientEnv := {
  ce_in : list (result client_err bytes);
  ce_out : list client_out;
  ce_sends : nat;
  ce_txs : list (Z * Z * bytes);
  ce_disconnects : list Z;
  ce_written : bytes;
  ce_interactions : list (Z * bool);
}.

(** ** The client monad *)

Definition CM (A : Type) : Type := ClientEnv -> result client_err A * ClientEnv.

Definition retC {A} (a : A) : CM A := fun s => (Ok a, s).
Definition failC {A} (e : client_err) : CM A := fun s => (Err e, s).
Definition bindC {A B} (m : CM A) (k : A -> CM B) : CM B :=
  fun s => match m s with (Ok a, s') => k a s' | (Err e, s') => (Err e, s') end.
Definition liftC {A} (r : result client_err A) : CM A := fun s => (r, s).

Declare Scope client_scope.
Notation "'let!' x ':=' m 'in' k" := (bindC m (fun x => k))
  (at level 200, x name, m at level 100, k at level 200) : client_scope.
Open Scope client_scope.

Definition with_out (s : ClientEnv) (o : client_out) (n : nat) : ClientEnv :=
  {| ce_in := ce_in s; ce_out := ce_out s ++ [o]; ce_sends := n; ce_txs := ce_txs s;
     ce_disconnects := ce_disconnects s; ce_written := ce_written s;
     ce_interactions := ce_interactions s |}.

(** [session.Send...]: fails once the budget of sends is spent. *)
Definition sendC (o : client_out) : CM unit := fun s =>
  match ce_sends s with
  | O => (Err ErrSend, s)
  | S n => (Ok tt, with_out s o n)
  end.

(** [session.ReadMsg()]: the next reply, or [ErrRead] when none is left;
    the error is returned as a value. *)
Definition readC : CM (result client_err bytes) := fun s =>
  match ce_in s with
  | [] => (Ok (Err ErrRead), s)
  | r :: rest => (Ok r, {| ce_in := rest; ce_out := ce_out s; ce_sends := ce_sends s;
                           ce_txs := ce_txs s; ce_disconnects := ce_disconnects s;
                           ce_written := ce_written s; ce_interactions := ce_interactions s |})
  end.

(** [defer sc.ethBackend.Disconnect(addr)] around the rest of the call. *)
Definition deferDisconnect {A} (addr : Z) (m : CM A) : CM A := fun s =>
  let '(r, s') := m s in
  (r, {| ce_in := ce_in s'; ce_out := ce_out s'; ce_sends := ce_sends s'; ce_txs := ce_txs s';
         ce_disconnects := addr :: ce_disconnects s'; ce_written := ce_written s';
         ce_interactions := ce_interactions s' |}).

(** [ExtendErr] on the error of a step. *)
Definition extendC {A} (msg : string) (m : CM A) : CM A := fun s =>
  let '(r, s') := m s in (ExtendErr msg r, s').

(** A successful [sendAPI.SendFormContractTX(ctx, args)] adds the
    transaction to precompiled contract 10. *)
Definition recordFormContractTxC (from : Z) (input : bytes) : CM unit := fun s =>
  (Ok tt, {| ce_in := ce_in s; ce_out := ce_out s; ce_sends := ce_sends s;
             ce_txs := ce_txs s ++ [(from, 10, input)]; ce_disconnects := ce_disconnects s;
             ce_written := ce_written s; ce_interactions := ce_interactions s |}).

(** ** Big integers behind pointers *)

(** [z.Add(x, y)] with nil pointers. *)
Definition bigAdd (z x y : option Z) : result client_err Z :=
  match z, x, y with
  | Some _, Some a, Some b => Ok (a + b)
  | _, _, _ => Err ErrNilDeref
  end.

(** [z.Sub(x, y)] with nil pointers. *)
Definition bigSub (z x y : option Z) : result client_err Z :=
  match z, x, y with
  | Some _, Some a, Some b => Ok (a - b)
  | _, _, _ => Err ErrNilDeref
  end.

(** [a.Cmp(b) < 0] with nil pointers. *)
Definition bigLt (a b : option Z) : result client_err bool :=
  match a, b with
  | Some x, Some y => Ok (x <? y)
  | _, _ => Err ErrNilDeref
  end.

(** [s[i] = v] on a slice. *)
Definition setIndex {A} (l : list A) (i : nat) (v : A) : result client_err (list A) :=
  if (i <? length l)%nat then Ok (<[i := v]> l) else Err ErrIndex.

(** [s[i]] on a slice. *)
Definition getIndex {A} (l : list A) (i : nat) : result client_err A :=
  match l !! i with Some a => Ok a | None => Err ErrIndex end.

(** [sc.setBandwidthLimits(up, down)]: both branches of the second test
    are empty. *)
Definition setBandwidthLimits (uploadSpeedLimit downloadSpeedLimit : Z) : result client_err unit :=
  if (uploadSpeedLimit <? 0) || (downloadSpeedLimit <? 0) then Err ErrNegativeSpeedLimit
  else Ok tt.

(** [part_000] holds three versions of the [storageclient] package. The
    [setBandwidthLimits] of the second and third versions have the same
    code as the first. *)
Definition setBandwidthLimits_v2 := setBandwidthLimits.
Definition setBandwidthLimits_v3 := setBandwidthLimits.

(** The revision [Write] starts from: [&types.StorageContractRevision{}]. *)
Definition emptyRevision : Revision :=
  {| ParentID := 0; NewRevisionNumber := 0; NewFileSize := 0; NewFileMerkleRoot := 0;
     NewWindowStart := 0; NewWindowEnd := 0; NewValidProofOutputs := []; NewMissedProofOutputs := [];
     Signatures := [] |}.

Definition set_missed_size (r : Revision) (missed : list DxcoinCharge) (size : Z) : Revision :=
  {| ParentID := ParentID r; NewRevisionNumber := NewRevisionNumber r; NewFileSize := size;
     NewFileMerkleRoot := NewFileMerkleRoot r; NewWindowStart := NewWindowStart r;
     NewWindowEnd := NewWindowEnd r; NewValidProofOutputs := NewValidProofOutputs r;
     NewMissedProofOutputs := missed; Signatures := Signatures r |}.

Section Client.

(** [storage.SectorSize] and [storage.HashSize]. *)
Variable SectorSize HashSize : Z.
(** [sc.ethBackend.GetCurrentBlockHeight()] and [session.HostInfo()]. *)
Variable GetCurrentBlockHeight : Z.
Variable sessionHostInfo : HostInfo.
(** The diff-proof helpers of package [storage] and [NewRevision]. *)
Variable Range : Type.
Variable CalculateProofRanges : list UploadAction -> Z -> list Range.
Variable VerifyDiffProof : list Range -> Z -> list Z -> list Z -> Z -> bool.
Variable ModifyLeaves : list Z -> list UploadAction -> Z -> list Z.
Variable ModifyProofRanges : list Range -> list UploadAction -> Z -> list Range.
Variable NewRevision : Revision -> Z -> Revision.
(** [msg.Decode] into an [UploadMerkleProof] and into a [[]byte]. *)
Variable decodeProof : bytes -> result client_err (UploadMerkleProof (H := Z)).
Variable decodeBytes : bytes -> result client_err bytes.

(** The loop over the actions: each append adds a sector's bandwidth
    price to [bandwidthPrice] and a sector to [newFileSize] ([uint64]). *)
Fixpoint appendPrices (actions : list UploadAction) (sectorBandwidthPrice : Z) (bw : option Z)
  (size : Z) : result client_err (option Z * Z) :=
  match actions with
  | [] => Ok (bw, size)
  | a :: rest =>
      if String.eqb (ActionType a) UploadActionAppend then
        b <- bigAdd bw bw (Some sectorBandwidthPrice) ;;
        appendPrices rest sectorBandwidthPrice (Some b) (u64 (size + SectorSize))
      else appendPrices rest sectorBandwidthPrice bw size
  end.

(** [sc.Write(session, actions)] *)
Definition Write (actions : list UploadAction) : CM unit :=
  let contractRevision := emptyRevision in
  let hostInfo := sessionHostInfo in
  let blockBytes := u64 (SectorSize * u64 (NewWindowEnd contractRevision - GetCurrentBlockHeight)) in
  let sectorBandwidthPrice := hi_UploadBandwidthPrice hostInfo * SectorSize in
  let sectorStoragePrice := hi_StoragePrice hostInfo * blockBytes in
  let sectorDeposit := hi_Deposit hostInfo * blockBytes in
  let! bs := liftC (appendPrices actions sectorBandwidthPrice None (NewFileSize contractRevision)) in
  let '(bandwidthPrice, newFileSize) := bs in
  let '(storagePrice, deposit) :=
    if NewFileSize contractRevision <? newFileSize then
      let addedSectors := (newFileSize - NewFileSize contractRevision) / SectorSize in
      (Some (sectorStoragePrice * addedSectors), Some (sectorDeposit * addedSectors))
    else (None, None) in
  let proofSize := HashSize * (128 + Z.of_nat (length actions)) in
  let! bw := liftC (bigAdd bandwidthPrice bandwidthPrice
                      (Some (hi_DownloadBandwidthPrice hostInfo * u64 proofSize))) in
  let! t := liftC (bigAdd (Some bw) (Some bw) storagePrice) in
  let! cost := liftC (bigAdd (Some 0) (Some t) (Some (hi_BaseRPCPrice hostInfo))) in
  let! o0 := liftC (getIndex (NewValidProofOutputs contractRevision) 0) in
  let! lt0 := liftC (bigLt (Some (Value o0)) (Some cost)) in
  if lt0 then failC ErrInsufficientFunds else
  let! o1 := liftC (getIndex (NewMissedProofOutputs contractRevision) 1) in
  let! lt1 := liftC (bigLt (Some (Value o1)) deposit) in
  if lt1 then failC ErrInsufficientCollateral else
  let rev := NewRevision contractRevision cost in
  let! m1 := liftC (getIndex (NewMissedProofOutputs rev) 1) in
  let! d := liftC (bigSub (Some (Value m1)) (Some (Value m1)) deposit) in
  let! missed := liftC (setIndex (NewMissedProofOutputs rev) 1 {| Value := d; Address := Address m1 |}) in
  let rev := set_missed_size rev missed newFileSize in
  let req := {| StorageContractID := ParentID contractRevision; Actions := actions;
                ReqNewRevisionNumber := NewRevisionNumber rev;
                NewValidProofValues := map Value (NewValidProofOutputs rev);
                NewMissedProofValues := map Value (NewMissedProofOutputs rev) |} in
  let! _ := sendC (SendStorageContractUploadRequest req) in
  let! r := readC in
  let! msg := liftC r in
  let! merkleResp := liftC (decodeProof msg) in
  let numSectors := NewFileSize contractRevision / SectorSize in
  let proofRanges := CalculateProofRanges actions numSectors in
  if negb (VerifyDiffProof proofRanges numSectors (OldSubtreeHashes merkleResp)
             (OldLeafHashes merkleResp) (NewFileMerkleRoot contractRevision))
  then failC ErrInvalidOldRoot else
  let leafHashes := ModifyLeaves (OldLeafHashes merkleResp) actions numSectors in
  let proofRanges := ModifyProofRanges proofRanges actions numSectors in
  if negb (VerifyDiffProof proofRanges numSectors (OldSubtreeHashes merkleResp) leafHashes
             (NewMerkleRoot merkleResp))
  then failC ErrInvalidNewRoot else
  let clientRevisionSign : bytes := [] in
  let! _ := sendC (SendStorageContractUploadClientRevisionSign clientRevisionSign) in
  let! sigs := liftC (setIndex (Signatures rev) 0 clientRevisionSign) in
  let! r := readC in
  let! msg := liftC r in
  let! hostRevisionSig := liftC (decodeBytes msg) in
  let! _ := liftC (setIndex sigs 1 clientRevisionSign) in
  retC tt.

(** [sc.Append(session, data)] *)
Definition Append (data : bytes) : CM unit :=
  Write [{| ActionType := UploadActionAppend; Data := data |}].

(** [Append] and [Write] of the second version have the same code as the
    first. *)
Definition Write_v2 := Write.
Definition Append_v2 := Append.
End Client.

Section ContractCreation.

(** [RenterPayoutsPreTax(host, funding, 0, 0, period, expectedStorage)]:
    the renter's and the host's payouts. *)
Variable RenterPayoutsPreTax : HostInfo -> Z -> Z -> Z -> Z -> Z -> result client_err (Z * Z).
(** [crypto.PubkeyToAddress], [uc.UnlockHash()] and the [RLPHash] of a
    contract and of a revision. *)
Variable PubkeyToAddress : Z -> Z.
Variable UnlockHash : list Z -> Z -> Z.
Variable contractHash : StorageContract -> Z.
Variable revisionHash : Revision -> Z.
(** [AccountManager().Find], [wallet.SignHash], [SetupConnection] and
    [rlp.EncodeToBytes] of a contract. *)
Variable FindWallet : Z -> result client_err Z.
Variable SignHash : Z -> Z -> Z -> result client_err bytes.
Variable SetupConnection : Z -> result client_err unit.
Variable EncodeContract : StorageContract -> result client_err bytes.
(** [sendAPI.SendFormContractTX]: the transaction hash or an error. *)
Variable SendFormContractTX : Z -> bytes -> result client_err Z.
(** [msg.Decode(&b)] on the message [ReadMsg] returned with an error. *)
Variable decodeOnError : client_err -> result client_err bytes.

(** The contract literal of [ContractCreate]. *)
Definition newStorageContract (p : ContractParams) (renterPayout hostPayout : Z) : StorageContract :=
  let host := cp_Host p in
  let clientAddr := PubkeyToAddress (cp_ClientPublicKey p) in
  let hostAddr := PubkeyToAddress (PublicKey host) in
  {| sc_FileSize := 0; sc_FileMerkleRoot := 0; sc_WindowStart := cp_EndHeight p;
     sc_WindowEnd := u64 (cp_EndHeight p + WindowSize host);
     sc_RenterCollateral := renterPayout; sc_HostCollateral := hostPayout;
     sc_UnlockHash := UnlockHash [cp_ClientPublicKey p; PublicKey host] 2;
     sc_RevisionNumber := 0;
     sc_ValidProofOutputs := [{| Value := renterPayout; Address := clientAddr |};
                              {| Value := hostPayout; Address := hostAddr |}];
     sc_MissedProofOutputs := [{| Value := renterPayout; Address := clientAddr |};
                               {| Value := hostPayout; Address := hostAddr |}];
     sc_Signatures := [] |}.

Definition set_signatures (c : StorageContract) (sigs : list bytes) : StorageContract :=
  {| sc_FileSize := sc_FileSize c; sc_FileMerkleRoot := sc_FileMerkleRoot c;
     sc_WindowStart := sc_WindowStart c; sc_WindowEnd := sc_WindowEnd c;
     sc_RenterCollateral := sc_RenterCollateral c; sc_HostCollateral := sc_HostCollateral c;
     sc_UnlockHash := sc_UnlockHash c; sc_RevisionNumber := sc_RevisionNumber c;
     sc_ValidProofOutputs := sc_ValidProofOutputs c; sc_MissedProofOutputs := sc_MissedProofOutputs c;
     sc_Signatures := sigs |}.

(** The initial revision [ContractCreate] assembles (its unlock
    conditions are not a field of the model's revision). *)
Definition initRevision (c : StorageContract) (sigs : list bytes) : Revision :=
  {| ParentID := contractHash c; NewRevisionNumber := 1; NewFileSize := sc_FileSize c;
     NewFileMerkleRoot := sc_FileMerkleRoot c; NewWindowStart := sc_WindowStart c;
     NewWindowEnd := sc_WindowEnd c; NewValidProofOutputs := sc_ValidProofOutputs c;
     NewMissedProofOutputs := sc_MissedProofOutputs c; Signatures := sigs |}.

(** [period], [expectedStorage] and the payouts: the [uint64] division
    panics on [allowance.Hosts = 0]. *)
Definition contractPayouts (p : ContractParams) : result client_err (Z * Z) :=
  let period := u64 (cp_EndHeight p - cp_StartHeight p) in
  if al_Hosts (cp_Allowance p) =? 0 then Err ErrDivZero
  else
    let expectedStorage := al_ExpectedStorage (cp_Allowance p) / al_Hosts (cp_Allowance p) in
    RenterPayoutsPreTax (cp_Host p) (cp_Funding p) 0 0 period expectedStorage.

(** [if msg, err := session.ReadMsg(); err != nil { decode } else
    { return err }]: a successful read returns the nil error. *)
Definition readInverted {A} (k : bytes -> CM (option A)) : CM (option A) :=
  let! r := readC in
  match r with
  | Ok _ => retC None
  | Err e => let! b := liftC (decodeOnError e) in k b
  end.

(** The end of [ContractCreate]: encode the contract and submit it. *)
Definition submitContract (clientAddr : Z) (sc : StorageContract) : CM (option unit) :=
  let! scBytes := liftC (EncodeContract sc) in
  let! _ := extendC "Send storage contract transaction error"
              (let! _ := liftC (SendFormContractTX clientAddr scBytes) in
               recordFormContractTxC clientAddr scBytes) in
  retC (Some tt).

(** [ContractCreate] of the first version (lines 186-354); [None] is the
    early [return err] with a nil [err]. *)
Definition ContractCreate_v1 (p : ContractParams) : CM unit :=
  let host := cp_Host p in
  let! payouts := liftC (contractPayouts p) in
  let sc := newStorageContract p (fst payouts) (snd payouts) in
  let clientAddr := PubkeyToAddress (cp_ClientPublicKey p) in
  let! wallet := liftC (ExtendErr "find client account error" (FindWallet clientAddr)) in
  let! _ := liftC (ExtendErr "setup connection with host failed" (SetupConnection (NetAddress host))) in
  deferDisconnect (NetAddress host) (
    let! clientContractSign := liftC (ExtendErr "contract sign by client failed"
                                        (SignHash wallet clientAddr (contractHash sc))) in
    let! _ := sendC (SendStorageContractCreation_v1 sc clientContractSign) in
    let! done := readInverted (fun hostSign =>
      let! sigs := liftC (setIndex (sc_Signatures sc) 1 hostSign) in
      let sc := set_signatures sc sigs in
      let rev := initRevision sc [] in
      let! sigs := liftC (setIndex (sc_Signatures sc) 0 clientContractSign) in
      let sc := set_signatures sc sigs in
      let! clientRevisionSign := liftC (ExtendErr "client sign revision error"
                                          (SignHash wallet clientAddr (revisionHash rev))) in
      let! _ := extendC "send revision sign by client error"
                  (sendC (SendCreationClientRevisionSign_v1 clientRevisionSign)) in
      readInverted (fun hostRevisionSign => submitContract clientAddr sc)) in
    retC tt).

(** [ContractCreate] of the second version (lines 923-1088): the error of
    [SetupConnection] is not tested, so a failed connection leaves a nil
    session that the first send dereferences; the wallet is looked up and
    the contract signed after the host's signature. *)
Definition ContractCreate_v2 (p : ContractParams) : CM unit :=
  let host := cp_Host p in
  let! payouts := liftC (contractPayouts p) in
  let sc := newStorageContract p (fst payouts) (snd payouts) in
  let clientAddr := PubkeyToAddress (cp_ClientPublicKey p) in
  let conn := SetupConnection (NetAddress host) in
  deferDisconnect (NetAddress host) (
    let! _ := liftC (match conn with Ok _ => Ok tt | Err _ => Err ErrNilDeref end) in
    let! _ := sendC (SendStorageContractCreation_v2 sc (cp_ClientPublicKey p)) in
    let! done := readInverted (fun hostSign =>
      let! sigs := liftC (setIndex (sc_Signatures sc) 1 hostSign) in
      let sc := set_signatures sc sigs in
      let rev := initRevision sc [] in
      let! o0 := liftC (getIndex (sc_ValidProofOutputs sc) 0) in
      let account := Address o0 in
      let! wallet := liftC (ExtendErr "find client account error" (FindWallet account)) in
      let! clientContractSign := liftC (ExtendErr "client sign contract error"
                                          (SignHash wallet account (contractHash sc))) in
      let! sigs := liftC (setIndex (sc_Signatures sc) 0 clientContractSign) in
      let sc := set_signatures sc sigs in
      let! clientRevisionSign := liftC (ExtendErr "client sign revision error"
                                          (SignHash wallet account (revisionHash rev))) in
      let! _ := extendC "send revision sign by client error"
                  (sendC (SendCreationClientRevisionSign_v2 clientContractSign clientRevisionSign)) in
      readInverted (fun hostRevisionSign => submitContract clientAddr sc)) in
    retC tt).
End ContractCreation.

(** ** The download path *)

(** [int(x)] of a [uint32] sum. *)
Definition u32 (z : Z) : Z := z mod 2 ^ 32.

(** [w.Write(data)] on the writer [Read] is given: the [bytes.Buffer] of
    [Downlaod], whose [Write] does not fail. *)
Definition writeC (d : bytes) : CM unit := fun s =>
  (Ok tt, {| ce_in := ce_in s; ce_out := ce_out s; ce_sends := ce_sends s; ce_txs := ce_txs s;
             ce_disconnects := ce_disconnects s; ce_written := ce_written s ++ d;
             ce_interactions := ce_interactions s |}).

Definition set_written (s : ClientEnv) (w : bytes) : ClientEnv :=
  {| ce_in := ce_in s; ce_out := ce_out s; ce_sends := ce_sends s; ce_txs := ce_txs s;
     ce_disconnects := ce_disconnects s; ce_written := w; ce_interactions := ce_interactions s |}.

(** [var buf bytes.Buffer; err := Read(s, &buf, ...); return buf.Bytes(), err]:
    the call writes into a fresh buffer, returned with the error. *)
Definition withBuffer (m : CM unit) : ClientEnv -> (bytes * result client_err unit) * ClientEnv :=
  fun s => let '(r, s') := m (set_written s []) in ((ce_written s', r), set_written s' (ce_written s)).

Section Download.

(** [storage.SectorSize], [SegmentSize], [HashSize] and [RPCMinLen]. *)
Variable SectorSize SegmentSize HashSize RPCMinLen : Z.
Variable sessionHostInfo : HostInfo.
(** [storage.NewDownloadRevision], [price.MultFloat64(1 + 0.02)], the
    [RLPHash] of a revision, the wallet, [msg.Decode] into a
    [DownloadResponse] and [storage.VerifyRangeProof]. *)
Variable NewDownloadRevision : Revision -> Z -> Revision.
Variable fudgePrice : Z -> Z.
Variable revisionHash : Revision -> Z.
Variable FindWallet : Z -> result client_err Z.
Variable SignHash : Z -> Z -> Z -> result client_err bytes.
Variable decodeResponse : bytes -> result client_err DownloadResponse.
Variable VerifyRangeProof : bytes -> list Z -> Z -> Z -> Z -> bool.
(** [enode.HexID(PubkeyToHex(&hostPubkey))] *)
Variable hostIDOf : Z -> Z.

(** The sanity check of [Read]: the first section out of the sector, or
    misaligned when a Merkle proof is requested, ends the call. *)
Fixpoint sanityCheck (merkleProof : bool) (secs : list DownloadRequestSection) : result client_err unit :=
  match secs with
  | [] => Ok tt
  | sec :: rest =>
      if SectorSize <? sec_Offset sec + sec_Length sec then Err ErrIllegalOffset
      else if merkleProof && (negb (sec_Offset sec mod SegmentSize =? 0)
                              || negb (sec_Length sec mod SegmentSize =? 0))
      then Err ErrSegmentAlign
      else sanityCheck merkleProof rest
  end.

(** What the sanity check asks of one section, as a proposition. *)
Definition section_ok (merkleProof : bool) (sec : DownloadRequestSection) : Prop :=
  sec_Offset sec + sec_Length sec <= SectorSize /\
  (merkleProof = true -> sec_Offset sec mod SegmentSize = 0 /\ sec_Length sec mod SegmentSize = 0).

(** [totalLength += uint64(sec.Length)] *)
Definition totalLength (secs : list DownloadRequestSection) : Z :=
  fold_left (fun acc sec => u64 (acc + sec_Length sec)) secs 0.

(** [estBandwidth], at least [RPCMinLen]. *)
Definition estBandwidth (req : DownloadRequest) : Z :=
  let secs := dr_Sections req in
  let estProofHashes :=
    if dr_MerkleProof req
    then u64 (Z.of_nat (length secs) * (2 * Len64 (SectorSize / SegmentSize))) else 0 in
  let est := u64 (totalLength secs + u64 (estProofHashes * HashSize)) in
  if est <? RPCMinLen then RPCMinLen else est.

(** The price of the download, its test against the renter's funds, the
    new revision, the client's signature and the filled-in request. *)
Definition priceAndSign (lastRevision : Revision) (req : DownloadRequest)
  : result client_err (DownloadRequest * Revision) :=
  let secs := dr_Sections req in
  let hostInfo := sessionHostInfo in
  let bandwidthPrice := hi_DownloadBandwidthPrice hostInfo * estBandwidth req in
  let sectorAccessPrice :=
    hi_SectorAccessPrice hostInfo * Z.of_nat (length (remove_dups (map sec_MerkleRoot secs))) in
  let price := hi_BaseRPCPrice hostInfo + bandwidthPrice + sectorAccessPrice in
  o0 <- getIndex (NewValidProofOutputs lastRevision) 0 ;;
  if Value o0 <? price then Err ErrInsufficientDownloadFunds else
  let price := fudgePrice price in
  let newRevision := NewDownloadRevision lastRevision price in
  n0 <- getIndex (NewValidProofOutputs newRevision) 0 ;;
  let account := Address n0 in
  wallet <- FindWallet account ;;
  sig <- SignHash wallet account (revisionHash newRevision) ;;
  Ok ({| dr_Sections := secs; dr_MerkleProof := dr_MerkleProof req;
         dr_NewRevisionNumber := NewRevisionNumber newRevision;
         dr_NewValidProofValues := map Value (NewValidProofOutputs newRevision);
         dr_NewMissedProofValues := map Value (NewMissedProofOutputs newRevision);
         dr_Signature := sig |}, newRevision).

(** [s.ReadMsg()] then [msg.Decode(&resp)]. *)
Definition readResponse : CM DownloadResponse :=
  let! r := readC in
  let! msg := liftC r in
  liftC (decodeResponse msg).

(** The loop over the sections: validate and write the data the host
    sent; stop at the first signature. *)
Fixpoint readResponses (merkleProof : bool) (secs : list DownloadRequestSection) : CM (option bytes) :=
  match secs with
  | [] => retC None
  | sec :: rest =>
      let! resp := readResponse in
      let n := Z.of_nat (length (resp_Data resp)) in
      let! _ := (if 0 <? n then
                   if negb (n =? sec_Length sec) then failC ErrNotEnoughData
                   else if merkleProof &&
                           negb (VerifyRangeProof (resp_Data resp) (resp_MerkleProof resp)
                                   (sec_Offset sec / SegmentSize)
                                   (u32 (sec_Offset sec + sec_Length sec) / SegmentSize)
                                   (sec_MerkleRoot sec))
                   then failC ErrBadSectorData
                   else writeC (resp_Data resp)
                 else retC tt) in
      if 0 <? Z.of_nat (length (resp_Signature resp)) then retC (Some (resp_Signature resp))
      else readResponses merkleProof rest
  end.

(** [if hostSig == nil]: one more response carrying the signature. *)
Definition readHostSig (found : option bytes) : CM bytes :=
  match found with
  | Some sg => retC sg
  | None => let! resp := readResponse in retC (resp_Signature resp)
  end.

(** From sending the request to [newRevision.Signatures[1] = hostSig]. *)
Definition exchangeDownload (req : DownloadRequest) (newRevision : Revision) : CM unit :=
  let! _ := sendC (SendStorageContractDownloadRequest req) in
  let! found := readResponses (dr_MerkleProof req) (dr_Sections req) in
  let! hostSig := readHostSig found in
  let! _ := liftC (setIndex (Signatures newRevision) 1 hostSig) in
  retC tt.

(** [client.Read] of the first version (lines 490-687). *)
Definition Read_v1 (req : DownloadRequest) : CM unit :=
  let! _ := liftC (sanityCheck (dr_MerkleProof req) (dr_Sections req)) in
  let lastRevision := emptyRevision in
  let! rr := liftC (priceAndSign lastRevision req) in
  exchangeDownload (fst rr) (snd rr).

(** The deferred function of the second version: it reads index 1 of the
    host keys of [lastRevision.UnlockConditions] and counts a failed or a
    successful interaction with the host. *)
Definition deferInteraction (publicKeys : list Z) (m : CM unit) : CM unit := fun s =>
  let '(r, s') := m s in
  match publicKeys !! 1%nat with
  | None => (Err ErrIndex, s')
  | Some pk =>
      (r, {| ce_in := ce_in s'; ce_out := ce_out s'; ce_sends := ce_sends s'; ce_txs := ce_txs s';
             ce_disconnects := ce_disconnects s'; ce_written := ce_written s';
             ce_interactions := ce_interactions s' ++
                                  [(hostIDOf pk, match r with Ok _ => true | Err _ => false end)] |})
  end.

(** [client.Read] of the second version (lines 1224-1421): the unlock
    conditions of the empty [lastRevision] have no public keys. *)
Definition Read_v2 (req : DownloadRequest) : CM unit :=
  let! _ := liftC (sanityCheck (dr_MerkleProof req) (dr_Sections req)) in
  let lastRevision := emptyRevision in
  let lastRevisionPublicKeys : list Z := [] in
  let! rr := liftC (priceAndSign lastRevision req) in
  deferInteraction lastRevisionPublicKeys (exchangeDownload (fst rr) (snd rr)).

(** The one-section request of [Downlaod] and [Download]. *)
Definition singleSectionRequest (root offset length : Z) : DownloadRequest :=
  {| dr_Sections := [{| sec_MerkleRoot := root; sec_Offset := offset; sec_Length := length |}];
     dr_MerkleProof := true; dr_NewRevisionNumber := 0; dr_NewValidProofValues := [];
     dr_NewMissedProofValues := []; dr_Signature := [] |}.

(** [client.Downlaod] (first version) and [client.Download] (second). *)
Definition Downlaod (root offset length : Z) :=
  withBuffer (Read_v1 (singleSectionRequest root offset length)).
Definition Download (root offset length : Z) :=
  withBuffer (Read_v2 (singleSectionRequest root offset length)).
End Download.

(** ** A client negotiating with host 9

    The payouts are 10 and 20, every library call succeeds, and the host
    answers the creation request once. *)
Definition ex_host : HostInfo :=
  {| NetAddress := 9; PublicKey := 4; WindowSize := 10; hi_UploadBandwidthPrice := 1;
     hi_StoragePrice := 1; hi_Deposit := 1; hi_DownloadBandwidthPrice := 1; hi_BaseRPCPrice := 1;
     hi_SectorAccessPrice := 1 |}.
Definition ex_params : ContractParams :=
  {| cp_Allowance := {| al_ExpectedStorage := 100; al_Hosts := 2 |}; cp_Funding := 50;
     cp_ClientPublicKey := 3; cp_StartHeight := 0; cp_EndHeight := 100; cp_Host := ex_host |}.
Definition ex_env : ClientEnv :=
  {| ce_in := [Ok [Byte.x02]]; ce_out := []; ce_sends := 1; ce_txs := []; ce_disconnects := [];
     ce_written := []; ce_interactions := [] |}.
Definition ex_RP (h : HostInfo) (f a b c d : Z) : result client_err (Z * Z) := Ok (10, 20).
Definition ex_addr (k : Z) : Z := k + 1.
Definition ex_sign (w a h : Z) : result client_err bytes := Ok [Byte.x01].

(** ** Lemmas *)

Lemma appendPrices_nil SectorSize actions p size :
  appendPrices SectorSize actions p None size = Err ErrNilDeref \/
  appendPrices SectorSize actions p None size = Ok (None, size).
Proof.
  induction actions as [|a rest IH]; cbn; [right; reflexivity|].
  destruct (String.eqb (ActionType a) UploadActionAppend); [left; reflexivity | exact IH].
Qed.

(** C20: [Write] never gets past its price computation: [bandwidthPrice]
    is a nil [*big.Int] and [bandwidthPrice.Add] dereferences it, in the
    action loop or in the proof-size estimate, whatever the actions, the
    host and the session. Nothing is sent. *)
Theorem Write_nil_bandwidthPrice SectorSize HashSize height hostInfo Range calc verify modLeaves
  modRanges newRevision decodeProof decodeBytes actions s :
  Write SectorSize HashSize height hostInfo Range calc verify modLeaves modRanges newRevision
    decodeProof decodeBytes actions s = (Err ErrNilDeref, s).
Proof.
  unfold Write, bindC, liftC.
  destruct (appendPrices_nil SectorSize actions (hi_UploadBandwidthPrice hostInfo * SectorSize)
              (NewFileSize emptyRevision)) as [E|E]; rewrite E; reflexivity.
Qed.

Lemma bindC_ok {A B} (m : CM A) (k : A -> CM B) s a s' :
  m s = (Ok a, s') -> bindC m k s = k a s'.
Proof. intros H. unfold bindC. rewrite H. reflexivity. Qed.

(** A step that leaves the submitted transactions alone. *)
Definition keeps_txs {A} (m : CM A) : Prop := forall s, ce_txs (snd (m s)) = ce_txs s.

Lemma keeps_bind {A B} (m : CM A) (k : A -> CM B) :
  keeps_txs m -> (forall a, keeps_txs (k a)) -> keeps_txs (bindC m k).
Proof.
  intros Hm Hk s. unfold bindC. specialize (Hm s).
  destruct (m s) as [[a|e] s']; cbn in *; [rewrite Hk|]; exact Hm.
Qed.

Lemma keeps_ret {A} (a : A) : keeps_txs (retC a).
Proof. intros s; reflexivity. Qed.
Lemma keeps_lift {A} (r : result client_err A) : keeps_txs (liftC r).
Proof. intros s; reflexivity. Qed.
Lemma keeps_send o : keeps_txs (sendC o).
Proof. intros s. unfold sendC. destruct (ce_sends s); reflexivity. Qed.
Lemma keeps_read : keeps_txs readC.
Proof. intros s. unfold readC. destruct (ce_in s); reflexivity. Qed.
Lemma keeps_defer {A} addr (m : CM A) : keeps_txs m -> keeps_txs (deferDisconnect addr m).
Proof. intros Hm s. unfold deferDisconnect. specialize (Hm s). destruct (m s); exact Hm. Qed.
Lemma keeps_extend {A} msg (m : CM A) : keeps_txs m -> keeps_txs (extendC msg m).
Proof. intros Hm s. unfold extendC. specialize (Hm s). destruct (m s); exact Hm. Qed.

(** A continuation that starts by writing index 1 of an empty slice. *)
Lemma keeps_setIndex_nil {A B} (v : A) (k : list A -> CM B) :
  keeps_txs (bindC (liftC (setIndex [] 1 v)) k).
Proof. intros s; reflexivity. Qed.

Lemma keeps_readInverted {A} decodeOnError (k : bytes -> CM (option A)) :
  (forall b, keeps_txs (k b)) -> keeps_txs (readInverted decodeOnError k).
Proof.
  intros Hk. unfold readInverted. apply keeps_bind; [apply keeps_read|].
  intros [b|e]; [apply keeps_ret|]. apply keeps_bind; [apply keeps_lift | exact Hk].
Qed.

#[export] Hint Resolve keeps_bind keeps_ret keeps_lift keeps_send keeps_read keeps_defer
  keeps_extend keeps_setIndex_nil keeps_readInverted : godx.

Section CreationProofs.
Variable RP : HostInfo -> Z -> Z -> Z -> Z -> Z -> result client_err (Z * Z).
Variable PubkeyToAddress : Z -> Z.
Variable UnlockHash : list Z -> Z -> Z.
Variable contractHash : StorageContract -> Z.
Variable revisionHash : Revision -> Z.
Variable FindWallet : Z -> result client_err Z.
Variable SignHash : Z -> Z -> Z -> result client_err bytes.
Variable SetupConnection : Z -> result client_err unit.
Variable EncodeContract : StorageContract -> result client_err bytes.
Variable SendFormContractTX : Z -> bytes -> result client_err Z.
Variable decodeOnError : client_err -> result client_err bytes.

Local Notation CC1 := (ContractCreate_v1 RP PubkeyToAddress UnlockHash contractHash revisionHash
  FindWallet SignHash SetupConnection EncodeContract SendFormContractTX decodeOnError).
Local Notation CC2 := (ContractCreate_v2 RP PubkeyToAddress UnlockHash contractHash revisionHash
  FindWallet SignHash SetupConnection EncodeContract SendFormContractTX decodeOnError).

(** C21: when the payouts, the wallet, the connection and the client's
    signature succeed, the creation request can be sent and the host's
    first reply reads without error, [ContractCreate_v1] returns success
    having sent only the creation request: no host signature is decoded,
    no revision is signed, no transaction is submitted. *)
Theorem ContractCreate_v1_early_success p s pay w sg m rest :
  contractPayouts RP p = Ok pay ->
  FindWallet (PubkeyToAddress (cp_ClientPublicKey p)) = Ok w ->
  SetupConnection (NetAddress (cp_Host p)) = Ok tt ->
  SignHash w (PubkeyToAddress (cp_ClientPublicKey p))
    (contractHash (newStorageContract PubkeyToAddress UnlockHash p (fst pay) (snd pay))) = Ok sg ->
  (0 < ce_sends s)%nat -> ce_in s = Ok m :: rest ->
  CC1 p s =
    (Ok tt, {| ce_in := rest;
               ce_out := ce_out s ++ [SendStorageContractCreation_v1
                                        (newStorageContract PubkeyToAddress UnlockHash p (fst pay) (snd pay)) sg];
               ce_sends := pred (ce_sends s); ce_txs := ce_txs s;
               ce_disconnects := NetAddress (cp_Host p) :: ce_disconnects s;
               ce_written := ce_written s; ce_interactions := ce_interactions s |}).
Proof.
  intros Hpay Hw Hc Hs Hsend Hin. unfold ContractCreate_v1, bindC, liftC.
  rewrite Hpay, Hw, Hc. cbn [ExtendErr]. unfold deferDisconnect. rewrite Hs. cbn [ExtendErr].
  unfold sendC. destruct (ce_sends s) as [|n] eqn:En; [lia|].
  unfold readInverted, bindC, readC. cbn. rewrite Hin. reflexivity.
Qed.

(** C22: neither version of [ContractCreate] ever submits the storage
    contract transaction, whatever the host replies: on the path that
    reaches it, the host's signature is written at index 1 of the
    contract's [Signatures], a nil slice, which panics. *)
Theorem ContractCreate_never_submits p s :
  ce_txs (snd (ContractCreate_v1 RP PubkeyToAddress UnlockHash contractHash revisionHash FindWallet
                SignHash SetupConnection EncodeContract SendFormContractTX decodeOnError p s)) = ce_txs s /\
  ce_txs (snd (ContractCreate_v2 RP PubkeyToAddress UnlockHash contractHash revisionHash FindWallet
                SignHash SetupConnection EncodeContract SendFormContractTX decodeOnError p s)) = ce_txs s.
Proof.
  split; revert s; [change (keeps_txs (CC1 p)) | change (keeps_txs (CC2 p))];
    unfold ContractCreate_v1, ContractCreate_v2; eauto 20 with godx.
Qed.
End CreationProofs.

Lemma set_written_id s w : set_written (set_written s w) (ce_written s) = s.
Proof. destruct s; reflexivity. Qed.

Section DownloadProofs.
Variable SectorSize SegmentSize HashSize RPCMinLen : Z.
Variable sessionHostInfo : HostInfo.
Variable NewDownloadRevision : Revision -> Z -> Revision.
Variable fudgePrice : Z -> Z.
Variable revisionHash : Revision -> Z.
Variable FindWallet : Z -> result client_err Z.
Variable SignHash : Z -> Z -> Z -> result client_err bytes.
Variable decodeResponse : bytes -> result client_err DownloadResponse.
Variable VerifyRangeProof : bytes -> list Z -> Z -> Z -> Z -> bool.
Variable hostIDOf : Z -> Z.

Local Notation R1 := (Read_v1 SectorSize SegmentSize HashSize RPCMinLen sessionHostInfo
  NewDownloadRevision fudgePrice revisionHash FindWallet SignHash decodeResponse VerifyRangeProof).
Local Notation R2 := (Read_v2 SectorSize SegmentSize HashSize RPCMinLen sessionHostInfo
  NewDownloadRevision fudgePrice revisionHash FindWallet SignHash decodeResponse VerifyRangeProof
  hostIDOf).
Local Notation checked req :=
  (match sanityCheck SectorSize SegmentSize (dr_MerkleProof req) (dr_Sections req) with
   | Ok _ => Err ErrIndex | Err e => Err e end).

(** The price test reads [NewValidProofOutputs[0]] of the empty revision. *)
Lemma priceAndSign_empty req :
  priceAndSign SectorSize SegmentSize HashSize RPCMinLen sessionHostInfo NewDownloadRevision
    fudgePrice revisionHash FindWallet SignHash emptyRevision req = Err ErrIndex.
Proof. reflexivity. Qed.

Lemma Read_v1_outcome req s : R1 req s = (checked req, s).
Proof.
  unfold Read_v1, bindC, liftC.
  destruct (sanityCheck _ _ _ _) as [[]|e]; [rewrite priceAndSign_empty|]; reflexivity.
Qed.

Lemma Read_v2_outcome req s : R2 req s = (checked req, s).
Proof.
  unfold Read_v2, bindC, liftC.
  destruct (sanityCheck _ _ _ _) as [[]|e]; [rewrite priceAndSign_empty|]; reflexivity.
Qed.

Lemma sanityCheck_cons mp sec rest :
  sanityCheck SectorSize SegmentSize mp (sec :: rest) = Ok tt <->
  section_ok SectorSize SegmentSize mp sec /\ sanityCheck SectorSize SegmentSize mp rest = Ok tt.
Proof.
  unfold section_ok; cbn.
  destruct (SectorSize <? _) eqn:E1; [apply Z.ltb_lt in E1; split; [discriminate | lia]|].
  apply Z.ltb_ge in E1.
  destruct mp; cbn; [|intuition congruence].
  destruct (sec_Offset sec mod SegmentSize =? 0) eqn:E2, (sec_Length sec mod SegmentSize =? 0) eqn:E3;
    cbn; rewrite ?Z.eqb_eq, ?Z.eqb_neq in *; intuition (try congruence).
Qed.

Lemma Downlaod_outcome_aux (read : DownloadRequest -> CM unit) root offset length s :
  (forall req s, read req s = (checked req, s)) ->
  withBuffer (read (singleSectionRequest root offset length)) s =
    (([], if SectorSize <? offset + length then Err ErrIllegalOffset
          else if negb (offset mod SegmentSize =? 0) || negb (length mod SegmentSize =? 0)
          then Err ErrSegmentAlign else Err ErrIndex), s).
Proof.
  intros Hr. unfold withBuffer. rewrite Hr. cbn [ce_written set_written]. rewrite set_written_id.
  cbn. destruct (SectorSize <? offset + length); [reflexivity|].
  destruct (negb _ || negb _); reflexivity.
Qed.

(** C30: [Read] of both versions returns the error of its sanity check,
    or else panics on [lastRevision.NewValidProofOutputs[0]] of the empty
    revision it prices against; in either case nothing is sent, read,
    written or recorded. *)
Theorem Read_never_downloads req s :
  Read_v1 SectorSize SegmentSize HashSize RPCMinLen sessionHostInfo NewDownloadRevision fudgePrice
    revisionHash FindWallet SignHash decodeResponse VerifyRangeProof req s =
    (match sanityCheck SectorSize SegmentSize (dr_MerkleProof req) (dr_Sections req) with
     | Ok _ => Err ErrIndex | Err e => Err e end, s) /\
  Read_v2 SectorSize SegmentSize HashSize RPCMinLen sessionHostInfo NewDownloadRevision fudgePrice
    revisionHash FindWallet SignHash decodeResponse VerifyRangeProof hostIDOf req s =
    (match sanityCheck SectorSize SegmentSize (dr_MerkleProof req) (dr_Sections req) with
     | Ok _ => Err ErrIndex | Err e => Err e end, s).
Proof. split; [apply Read_v1_outcome | apply Read_v2_outcome]. Qed.

(** C31: the sanity check of [Read] accepts a request exactly when every
    section ends within the sector and, when a Merkle proof is requested,
    starts and ends on a segment boundary. *)
Theorem sanityCheck_spec mp secs :
  sanityCheck SectorSize SegmentSize mp secs = Ok tt <-> Forall (section_ok SectorSize SegmentSize mp) secs.
Proof.
  induction secs as [|sec rest IH]; [split; auto|].
  rewrite sanityCheck_cons, IH, Forall_cons. reflexivity.
Qed.

(** One reply read and decoded. *)
Lemma readResponse_next (s : ClientEnv) m tail r :
  ce_in s = Ok m :: tail -> decodeResponse m = Ok r ->
  readResponse decodeResponse s =
    (Ok r, {| ce_in := tail; ce_out := ce_out s; ce_sends := ce_sends s; ce_txs := ce_txs s;
              ce_disconnects := ce_disconnects s; ce_written := ce_written s;
              ce_interactions := ce_interactions s |}).
Proof. intros Hin Hm. unfold readResponse, bindC, readC, liftC. rewrite Hin. cbn. rewrite Hm. reflexivity. Qed.

(** One section whose reply carries its whole, verified data and no
    signature: the data is written and the loop goes on. *)
Lemma readResponses_step_aux {B} mp sec r (rest' : CM B) (s : ClientEnv) :
  Z.of_nat (length (resp_Data r)) = sec_Length sec ->
  (mp = true -> VerifyRangeProof (resp_Data r) (resp_MerkleProof r) (sec_Offset sec / SegmentSize)
                  (u32 (sec_Offset sec + sec_Length sec) / SegmentSize) (sec_MerkleRoot sec) = true) ->
  bindC (if 0 <? Z.of_nat (length (resp_Data r)) then
           if negb (Z.of_nat (length (resp_Data r)) =? sec_Length sec) then failC ErrNotEnoughData
           else if mp && negb (VerifyRangeProof (resp_Data r) (resp_MerkleProof r)
                                 (sec_Offset sec / SegmentSize)
                                 (u32 (sec_Offset sec + sec_Length sec) / SegmentSize)
                                 (sec_MerkleRoot sec))
           then failC ErrBadSectorData else writeC (resp_Data r)
         else retC tt) (fun _ => rest') s =
  rest' (set_written s (ce_written s ++ resp_Data r)).
Proof.
  intros Hlen Hver. rewrite Hlen, Z.eqb_refl. cbn [negb].
  assert (Hb : mp && negb (VerifyRangeProof (resp_Data r) (resp_MerkleProof r)
                (sec_Offset sec / SegmentSize) (u32 (sec_Offset sec + sec_Length sec) / SegmentSize)
                (sec_MerkleRoot sec)) = false)
    by (destruct mp; [rewrite Hver by reflexivity|]; reflexivity).
  rewrite Hb. destruct (0 <? sec_Length sec) eqn:E; [reflexivity|].
  destruct (resp_Data r) as [|b d]; [|cbn in Hlen; lia].
  cbn. rewrite app_nil_r. destruct s; reflexivity.
Qed.

(** C32: when the host answers each section with its whole data, a proof
    that verifies and no signature, the loop of [Read] writes the data of
    the sections in order, consumes one reply per section and finds no
    signature. *)
Theorem readResponses_writes mp secs rs msgs rest s :
  Forall2 (fun m r => decodeResponse m = Ok r) msgs rs ->
  Forall2 (fun sec r =>
             Z.of_nat (length (resp_Data r)) = sec_Length sec /\ resp_Signature r = [] /\
             (mp = true -> VerifyRangeProof (resp_Data r) (resp_MerkleProof r)
                             (sec_Offset sec / SegmentSize)
                             (u32 (sec_Offset sec + sec_Length sec) / SegmentSize)
                             (sec_MerkleRoot sec) = true)) secs rs ->
  ce_in s = map Ok msgs ++ rest ->
  readResponses SegmentSize decodeResponse VerifyRangeProof mp secs s =
    (Ok None, {| ce_in := rest; ce_out := ce_out s; ce_sends := ce_sends s; ce_txs := ce_txs s;
                 ce_disconnects := ce_disconnects s;
                 ce_written := ce_written s ++ concat (map resp_Data rs);
                 ce_interactions := ce_interactions s |}).
Proof.
  intros Hdec Hrs. revert msgs s Hdec.
  induction Hrs as [|sec r secs' rs' [Hlen [Hsig Hver]] Hrs IH]; intros msgs s Hdec Hin;
    inversion Hdec as [|m r' msgs' rs'' Hm Hdec']; subst.
  - cbn in Hin |- *. rewrite app_nil_r, <- Hin. destruct s; reflexivity.
  - cbn [readResponses map app] in Hin |- *.
    rewrite (bindC_ok _ _ _ _ _ (readResponse_next _ _ _ _ Hin Hm)).
    rewrite (readResponses_step_aux _ _ _ _ _ Hlen Hver), Hsig. cbn [length Z.of_nat Z.ltb Z.compare].
    rewrite (IH msgs'); [|exact Hdec'|reflexivity]. cbn. rewrite app_assoc. reflexivity.
Qed.

(** [Downlaod] and [Download] return an empty buffer with the error
    "illegal offset and/or length" when the section leaves the sector, the
    alignment error when it is not on segment boundaries, and otherwise
    the index panic of [Read], leaving the session as it was. *)
Theorem Download_outcome root offset length s :
  Downlaod SectorSize SegmentSize HashSize RPCMinLen sessionHostInfo NewDownloadRevision fudgePrice
    revisionHash FindWallet SignHash decodeResponse VerifyRangeProof root offset length s =
    (([], if SectorSize <? offset + length then Err ErrIllegalOffset
          else if negb (offset mod SegmentSize =? 0) || negb (length mod SegmentSize =? 0)
          then Err ErrSegmentAlign else Err ErrIndex), s) /\
  Download SectorSize SegmentSize HashSize RPCMinLen sessionHostInfo NewDownloadRevision fudgePrice
    revisionHash FindWallet SignHash decodeResponse VerifyRangeProof hostIDOf root offset length s =
    (([], if SectorSize <? offset + length then Err ErrIllegalOffset
          else if negb (offset mod SegmentSize =? 0) || negb (length mod SegmentSize =? 0)
          then Err ErrSegmentAlign else Err ErrIndex), s).
Proof.
  split; apply Downlaod_outcome_aux; [apply Read_v1_outcome | apply Read_v2_outcome].
Qed.
End DownloadProofs.

(** ** Witnesses *)

Lemma ContractCreate_v1_early_success_witness :
  let sc := newStorageContract ex_addr (fun _ _ => 0) ex_params 10 20 in
  ContractCreate_v1 ex_RP ex_addr (fun _ _ => 0) (fun _ => 7) (fun _ => 8) (fun a => Ok a) ex_sign
    (fun _ => Ok tt) (fun _ => Ok []) (fun _ _ => Ok 0) (fun _ => Ok []) ex_params ex_env =
  (Ok tt, {| ce_in := []; ce_out := [SendStorageContractCreation_v1 sc [Byte.x01]]; ce_sends := 0;
             ce_txs := []; ce_disconnects := [9]; ce_written := []; ce_interactions := [] |}).
Proof.
  intros sc.
  apply (ContractCreate_v1_early_success ex_RP ex_addr (fun _ _ => 0) (fun _ => 7) (fun _ => 8)
           (fun a => Ok a) ex_sign (fun _ => Ok tt) (fun _ => Ok []) (fun _ _ => Ok 0) (fun _ => Ok [])
           ex_params ex_env (10, 20) 4 [Byte.x01] [Byte.x02] []); first [reflexivity | cbn; lia].
Defined.

(** A host that answers two download sections with their data. *)
Definition ex_decode (d : bytes) : result client_err DownloadResponse :=
  Ok {| resp_Data := d; resp_MerkleProof := []; resp_Signature := [] |}.
Definition ex_sections : list DownloadRequestSection :=
  [{| sec_MerkleRoot := 5; sec_Offset := 0; sec_Length := 2 |};
   {| sec_MerkleRoot := 5; sec_Offset := 2; sec_Length := 1 |}].

Lemma readResponses_writes_witness :
  readResponses 1 ex_decode (fun _ _ _ _ _ => true) true ex_sections
    {| ce_in := [Ok [Byte.x01; Byte.x02]; Ok [Byte.x03]; Ok [Byte.x04]]; ce_out := []; ce_sends := 0;
       ce_txs := []; ce_disconnects := []; ce_written := [Byte.x00]; ce_interactions := [] |} =
  (Ok None, {| ce_in := [Ok [Byte.x04]]; ce_out := []; ce_sends := 0; ce_txs := []; ce_disconnects := [];
               ce_written := [Byte.x00; Byte.x01; Byte.x02; Byte.x03]; ce_interactions := [] |}).
Proof.
  apply (readResponses_writes 1 ex_decode (fun _ _ _ _ _ => true) true ex_sections
           [{| resp_Data := [Byte.x01; Byte.x02]; resp_MerkleProof := []; resp_Signature := [] |};
            {| resp_Data := [Byte.x03]; resp_MerkleProof := []; resp_Signature := [] |}]
           [[Byte.x01; Byte.x02]; [Byte.x03]] [Ok [Byte.x04]]);
    repeat first [apply Forall2_cons | apply Forall2_nil | split | intros; reflexivity].
Defined.
