(* ===== verification/ClientLifecycle.v ===== *)
(** * The storage client's lifecycle and file download entry points

    Model of [New], [Start], [Close], [DownloadSync] and [DownloadAsync]
    of [src/unnamed/part_000]. The three client versions share [Close];
    [New] and [Start] of the first and third versions are the same, and
    the second version's [New] also makes the download heap and the
    [newDownloads] channel, and its [Start] also activates the worker
    pool, starts the download loop and registers the killing of the
    workers with the thread manager.

    The client's state is [ClientState]. The thread manager
    ([common/threadmanager], not under [src/]) counts the threads that
    called [Add] and not yet [Done], refuses [Add] once stopped, and
    fails [Stop] when it is already stopped. [common.ErrCompose] is the
    first non-nil error of its arguments, or both. The calls of [Start]
    on the backend, the host manager and the persist file are section
    variables. [DownloadSync] blocks until the download completes or the
    thread manager stops; which of the two happens first is the
    [DownloadEvent] it is given.

    Theorems: on a running client, [DownloadSync] and [DownloadAsync]
    return what [managedDownload] decides, queue its segments exactly when
    it succeeds, and leave the thread manager as they found it (C38); once the
    client is closed, both refuse every download before opening the file
    and queue nothing (C39); [Start] of the second version starts the
    download loop exactly when every step succeeds, and sets the backend
    before it tests the server (C40). *)

From Stdlib Require Import ZArith List Lia Bool String.
From stdpp Require Import base list gmap.
From S2P Require Import Prelude FileDownload.
Import ListNotations.

Open Scope Z_scope.

(** The errors of the lifecycle calls. *)
Inductive lc_err :=
| ErrNoP2PServer
| ErrThreadStopped
| ErrFilterAPIs (code : Z)
| ErrHostManagerStart (code : Z)
| ErrLoadPersist (code : Z)
| ErrHostManagerClose (code : Z)
| ErrComposed (a b : lc_err)
| ErrDownloadPath (e : dl_err)
| ErrDownloadFailed (code : Z)
| ErrInterruptedByShutdown.

(** [threadmanager.ThreadManager]: stopped or not, the threads running,
    the functions registered with [OnStop] (by name). *)
Record ThreadManager := {
  tm_stopped : bool;
  tm_active : nat;
  tm_onStop : list string;
}.

(** [tm.Add()] *)
Definition tmAdd (tm : ThreadManager) : result lc_err ThreadManager :=
  if tm_stopped tm then Err ErrThreadStopped
  else Ok {| tm_stopped := false; tm_active := S (tm_active tm); tm_onStop := tm_onStop tm |}.

(** [tm.Done()] *)
Definition tmDone (tm : ThreadManager) : ThreadManager :=
  {| tm_stopped := tm_stopped tm; tm_active := pred (tm_active tm); tm_onStop := tm_onStop tm |}.

(** [tm.Stop()] *)
Definition tmStop (tm : ThreadManager) : option lc_err * ThreadManager :=
  if tm_stopped tm then (Some ErrThreadStopped, tm)
  else (None, {| tm_stopped := true; tm_active := tm_active tm; tm_onStop := tm_onStop tm |}).

(** [tm.OnStop(fn)] *)
Definition tmOnStop (tm : ThreadManager) (fn : string) : ThreadManager :=
  {| tm_stopped := tm_stopped tm; tm_active := tm_active tm; tm_onStop := tm_onStop tm ++ [fn] |}.

(** [common.ErrCompose(errs...)] on two errors. *)
Definition ErrCompose (a b : option lc_err) : option lc_err :=
  match a, b with
  | None, None => None
  | Some x, None => Some x
  | None, Some y => Some y
  | Some x, Some y => Some (ErrComposed x y)
  end.

(** The fields of [StorageClient] the lifecycle sets. *)
Record ClientState := {
  cs_persistDir : string;
  cs_staticFilesDir : string;
  cs_ethBackend : option Z;
  cs_p2pServer : option Z;
  cs_info : option Z;
  cs_hostManagerStarted : bool;
  cs_persistLoaded : bool;
  cs_workerPoolActive : bool;
  cs_downloadLoopRunning : bool;
  cs_tm : ThreadManager;
  cs_downloadHeap : option (list unfinishedDownloadSegment);
  cs_newDownloads : option bool;
}.

(** The client monad: state and error. *)
Definition LM (A : Type) : Type := ClientState -> result lc_err A * ClientState.

Definition retL {A} (a : A) : LM A := fun s => (Ok a, s).
Definition failL {A} (e : lc_err) : LM A := fun s => (Err e, s).
Definition bindL {A B} (m : LM A) (k : A -> LM B) : LM B :=
  fun s => match m s with (Ok a, s') => k a s' | (Err e, s') => (Err e, s') end.
Definition liftL {A} (r : result lc_err A) : LM A := fun s => (r, s).
Definition modifyL (f : ClientState -> ClientState) : LM unit := fun s => (Ok tt, f s).

Declare Scope lifecycle_scope.
Notation "'do' x <- m ; k" := (bindL m (fun x => k))
  (at level 60, x name, m at next level, right associativity) : lifecycle_scope.
Open Scope lifecycle_scope.

Definition set_ethBackend (b : Z) (s : ClientState) : ClientState :=
  {| cs_persistDir := cs_persistDir s; cs_staticFilesDir := cs_staticFilesDir s;
     cs_ethBackend := Some b; cs_p2pServer := cs_p2pServer s; cs_info := cs_info s;
     cs_hostManagerStarted := cs_hostManagerStarted s; cs_persistLoaded := cs_persistLoaded s;
     cs_workerPoolActive := cs_workerPoolActive s;
     cs_downloadLoopRunning := cs_downloadLoopRunning s; cs_tm := cs_tm s;
     cs_downloadHeap := cs_downloadHeap s; cs_newDownloads := cs_newDownloads s |}.

Definition set_p2pServer (server : Z) (s : ClientState) : ClientState :=
  {| cs_persistDir := cs_persistDir s; cs_staticFilesDir := cs_staticFilesDir s;
     cs_ethBackend := cs_ethBackend s; cs_p2pServer := Some server; cs_info := cs_info s;
     cs_hostManagerStarted := cs_hostManagerStarted s; cs_persistLoaded := cs_persistLoaded s;
     cs_workerPoolActive := cs_workerPoolActive s;
     cs_downloadLoopRunning := cs_downloadLoopRunning s; cs_tm := cs_tm s;
     cs_downloadHeap := cs_downloadHeap s; cs_newDownloads := cs_newDownloads s |}.

Definition set_info (info : Z) (s : ClientState) : ClientState :=
  {| cs_persistDir := cs_persistDir s; cs_staticFilesDir := cs_staticFilesDir s;
     cs_ethBackend := cs_ethBackend s; cs_p2pServer := cs_p2pServer s; cs_info := Some info;
     cs_hostManagerStarted := cs_hostManagerStarted s; cs_persistLoaded := cs_persistLoaded s;
     cs_workerPoolActive := cs_workerPoolActive s;
     cs_downloadLoopRunning := cs_downloadLoopRunning s; cs_tm := cs_tm s;
     cs_downloadHeap := cs_downloadHeap s; cs_newDownloads := cs_newDownloads s |}.

Definition set_hostManagerStarted (s : ClientState) : ClientState :=
  {| cs_persistDir := cs_persistDir s; cs_staticFilesDir := cs_staticFilesDir s;
     cs_ethBackend := cs_ethBackend s; cs_p2pServer := cs_p2pServer s; cs_info := cs_info s;
     cs_hostManagerStarted := true; cs_persistLoaded := cs_persistLoaded s;
     cs_workerPoolActive := cs_workerPoolActive s;
     cs_downloadLoopRunning := cs_downloadLoopRunning s; cs_tm := cs_tm s;
     cs_downloadHeap := cs_downloadHeap s; cs_newDownloads := cs_newDownloads s |}.

Definition set_persistLoaded (s : ClientState) : ClientState :=
  {| cs_persistDir := cs_persistDir s; cs_staticFilesDir := cs_staticFilesDir s;
     cs_ethBackend := cs_ethBackend s; cs_p2pServer := cs_p2pServer s; cs_info := cs_info s;
     cs_hostManagerStarted := cs_hostManagerStarted s; cs_persistLoaded := true;
     cs_workerPoolActive := cs_workerPoolActive s;
     cs_downloadLoopRunning := cs_downloadLoopRunning s; cs_tm := cs_tm s;
     cs_downloadHeap := cs_downloadHeap s; cs_newDownloads := cs_newDownloads s |}.

Definition set_workerPoolActive (s : ClientState) : ClientState :=
  {| cs_persistDir := cs_persistDir s; cs_staticFilesDir := cs_staticFilesDir s;
     cs_ethBackend := cs_ethBackend s; cs_p2pServer := cs_p2pServer s; cs_info := cs_info s;
     cs_hostManagerStarted := cs_hostManagerStarted s; cs_persistLoaded := cs_persistLoaded s;
     cs_workerPoolActive := true; cs_downloadLoopRunning := cs_downloadLoopRunning s;
     cs_tm := cs_tm s; cs_downloadHeap := cs_downloadHeap s;
     cs_newDownloads := cs_newDownloads s |}.

Definition set_downloadLoopRunning (s : ClientState) : ClientState :=
  {| cs_persistDir := cs_persistDir s; cs_staticFilesDir := cs_staticFilesDir s;
     cs_ethBackend := cs_ethBackend s; cs_p2pServer := cs_p2pServer s; cs_info := cs_info s;
     cs_hostManagerStarted := cs_hostManagerStarted s; cs_persistLoaded := cs_persistLoaded s;
     cs_workerPoolActive := cs_workerPoolActive s; cs_downloadLoopRunning := true;
     cs_tm := cs_tm s; cs_downloadHeap := cs_downloadHeap s;
     cs_newDownloads := cs_newDownloads s |}.

Definition set_tm (tm : ThreadManager) (s : ClientState) : ClientState :=
  {| cs_persistDir := cs_persistDir s; cs_staticFilesDir := cs_staticFilesDir s;
     cs_ethBackend := cs_ethBackend s; cs_p2pServer := cs_p2pServer s; cs_info := cs_info s;
     cs_hostManagerStarted := cs_hostManagerStarted s; cs_persistLoaded := cs_persistLoaded s;
     cs_workerPoolActive := cs_workerPoolActive s;
     cs_downloadLoopRunning := cs_downloadLoopRunning s; cs_tm := tm;
     cs_downloadHeap := cs_downloadHeap s; cs_newDownloads := cs_newDownloads s |}.

(** [client.addSegmentToDownloadHeap(uds)] for each queued segment,
    then the non-blocking send on the [newDownloads] channel (capacity 1). *)
Definition pushSegments (us : list unfinishedDownloadSegment) (s : ClientState) : ClientState :=
  {| cs_persistDir := cs_persistDir s; cs_staticFilesDir := cs_staticFilesDir s;
     cs_ethBackend := cs_ethBackend s; cs_p2pServer := cs_p2pServer s; cs_info := cs_info s;
     cs_hostManagerStarted := cs_hostManagerStarted s; cs_persistLoaded := cs_persistLoaded s;
     cs_workerPoolActive := cs_workerPoolActive s;
     cs_downloadLoopRunning := cs_downloadLoopRunning s; cs_tm := cs_tm s;
     cs_downloadHeap := (match cs_downloadHeap s with Some h => Some (h ++ us) | None => None end);
     cs_newDownloads := (match cs_newDownloads s with Some _ => Some true | None => None end) |}.

(** What ends the wait of [DownloadSync]: the download completes, with
    the error [d.Err()] returns, or the thread manager stops first. *)
Inductive DownloadEvent :=
| DownloadCompleted (err : option Z)
| ThreadManagerStopped.

Section Lifecycle.

(** [filepath.Join] and [DxPathRoot]. *)
Variable Join : string -> string -> string.
Variable DxPathRoot : string.
(** [b.APIs()], [sc.filterAPIs] (the parsed API it stores in [sc.info]),
    [storageHostManager.Start(server, sc)], [sc.loadPersist()] and
    [storageHostManager.Close()]. *)
Variable APIs : Z -> Z.
Variable filterAPIs : Z -> result lc_err Z.
Variable hostManagerStart : Z -> result lc_err unit.
Variable loadPersist : result lc_err unit.
Variable hostManagerClose : option lc_err.
(** The library calls of [managedDownload]. *)
Variable FileSetOpen : Z -> result dl_err DxFileSnapshot.
Variable IsAbs : string -> bool.
Variable OpenFile : string -> result dl_err Z.
Variable newDownloadDestinationWriter : Z -> Z.
Variable httpWriterIsCloser : bool.
Variable closeDestination : Z -> option Z.

Definition newThreadManager : ThreadManager :=
  {| tm_stopped := false; tm_active := 0; tm_onStop := [] |}.

(** [New(persistDir)] of the first version. *)
Definition New_v1 (persistDir : string) : result lc_err ClientState :=
  Ok {| cs_persistDir := persistDir; cs_staticFilesDir := Join persistDir DxPathRoot;
        cs_ethBackend := None; cs_p2pServer := None; cs_info := None;
        cs_hostManagerStarted := false; cs_persistLoaded := false; cs_workerPoolActive := false;
        cs_downloadLoopRunning := false; cs_tm := newThreadManager; cs_downloadHeap := None;
        cs_newDownloads := None |}.

(** [New(persistDir)] of the second version: with the download heap and
    the [newDownloads] channel. *)
Definition New_v2 (persistDir : string) : result lc_err ClientState :=
  Ok {| cs_persistDir := persistDir; cs_staticFilesDir := Join persistDir DxPathRoot;
        cs_ethBackend := None; cs_p2pServer := None; cs_info := None;
        cs_hostManagerStarted := false; cs_persistLoaded := false; cs_workerPoolActive := false;
        cs_downloadLoopRunning := false; cs_tm := newThreadManager; cs_downloadHeap := Some [];
        cs_newDownloads := Some false |}.

(** The steps of [Start] the three versions share; [server] is [None]
    when nil. *)
Definition startCommon (b : Z) (server : option Z) : LM unit :=
  do _ <- modifyL (set_ethBackend b);
  match server with
  | None => failL ErrNoP2PServer
  | Some srv =>
      do _ <- modifyL (set_p2pServer srv);
      do info <- liftL (filterAPIs (APIs b));
      do _ <- modifyL (set_info info);
      do _ <- liftL (hostManagerStart srv);
      do _ <- modifyL set_hostManagerStarted;
      do _ <- liftL loadPersist;
      modifyL set_persistLoaded
  end.

(** [sc.Start(b, server)] of the first and third versions. *)
Definition Start_v1 (b : Z) (server : option Z) : LM unit := startCommon b server.

(** [sc.Start(b, server)] of the second version. *)
Definition Start_v2 (b : Z) (server : option Z) : LM unit :=
  do _ <- startCommon b server;
  do _ <- modifyL set_workerPoolActive;
  do _ <- modifyL set_downloadLoopRunning;
  modifyL (fun s => set_tm (tmOnStop (cs_tm s) "killWorkers") s).

(** [sc.Close()]: the host manager is closed and the thread manager
    stopped whatever the other returns. *)
Definition Close : LM unit := fun s =>
  let err := hostManagerClose in
  let '(errSC, tm) := tmStop (cs_tm s) in
  (match ErrCompose err errSC with None => Ok tt | Some e => Err e end, set_tm tm s).

(** [New] of the third version has the code of the first; [Close] of
    the second and third versions has the code of the first. *)
Definition New_v3 := New_v1.
Definition Close_v2 := Close.
Definition Close_v3 := Close.

(** [if err := client.tm.Add(); err != nil { return err }; defer
    client.tm.Done()] around the rest of the call. *)
Definition withThread {A} (m : LM A) : LM A := fun s =>
  match tmAdd (cs_tm s) with
  | Err e => (Err e, s)
  | Ok tm => let '(r, s') := m (set_tm tm s) in (r, set_tm (tmDone (cs_tm s')) s')
  end.

(** [client.managedDownload(p)], with the segments it queues pushed onto
    the client's download heap. *)
Definition managedDownloadL (p : ClientDownloadParameters) : LM download := fun s =>
  match managedDownload FileSetOpen IsAbs OpenFile newDownloadDestinationWriter httpWriterIsCloser
          closeDestination p with
  | Ok (d, us) => (Ok d, pushSegments us s)
  | Err e => (Err (ErrDownloadPath e), s)
  end.

(** [client.DownloadSync(p)] *)
Definition DownloadSync (p : ClientDownloadParameters) (ev : DownloadEvent) : LM unit :=
  withThread (
    do d <- managedDownloadL p;
    match ev with
    | DownloadCompleted None => retL tt
    | DownloadCompleted (Some code) => failL (ErrDownloadFailed code)
    | ThreadManagerStopped => failL ErrInterruptedByShutdown
    end).

(** [client.DownloadAsync(p)] *)
Definition DownloadAsync (p : ClientDownloadParameters) : LM unit :=
  withThread (do _ <- managedDownloadL p; retL tt).
End Lifecycle.

(** ** Lemmas *)

(** A step that leaves the thread manager alone. *)
Definition keeps_tm {A} (m : LM A) : Prop := forall s, cs_tm (snd (m s)) = cs_tm s.

Lemma keeps_tm_bind {A B} (m : LM A) (k : A -> LM B) :
  keeps_tm m -> (forall a, keeps_tm (k a)) -> keeps_tm (bindL m k).
Proof.
  intros Hm Hk s. unfold bindL. specialize (Hm s).
  destruct (m s) as [[a|e] s']; cbn in *; [rewrite Hk|]; exact Hm.
Qed.

Lemma keeps_tm_ret {A} (a : A) : keeps_tm (retL a).
Proof. intros s; reflexivity. Qed.
Lemma keeps_tm_fail {A} e : keeps_tm (A := A) (failL e).
Proof. intros s; reflexivity. Qed.
Lemma keeps_tm_managedDownloadL FileSetOpen IsAbs OpenFile dw isCloser close p :
  keeps_tm (managedDownloadL FileSetOpen IsAbs OpenFile dw isCloser close p).
Proof. intros s. unfold managedDownloadL. destruct (managedDownload _ _ _ _ _ _ _) as [[d us]|e]; reflexivity. Qed.

#[export] Hint Resolve keeps_tm_bind keeps_tm_ret keeps_tm_fail keeps_tm_managedDownloadL : godx.

Lemma set_tm_tm tm s : cs_tm (set_tm tm s) = tm.
Proof. reflexivity. Qed.

(** [Add] and the deferred [Done] leave the running count as it was. *)
Lemma withThread_balanced {A} (m : LM A) s :
  keeps_tm m -> tm_active (cs_tm (snd (withThread m s))) = tm_active (cs_tm s).
Proof.
  intros Hm. unfold withThread, tmAdd.
  destruct (tm_stopped (cs_tm s)); [reflexivity|].
  specialize (Hm (set_tm {| tm_stopped := false; tm_active := S (tm_active (cs_tm s));
                            tm_onStop := tm_onStop (cs_tm s) |} s)).
  destruct (m _) as [r s']. cbn in *. rewrite Hm. reflexivity.
Qed.

(** A stopped thread manager refuses the call and nothing runs. *)
Lemma withThread_stopped {A} (m : LM A) s :
  tm_stopped (cs_tm s) = true -> withThread m s = (Err ErrThreadStopped, s).
Proof. intros H. unfold withThread, tmAdd. rewrite H. reflexivity. Qed.

Lemma Close_stopped hostManagerClose s :
  tm_stopped (cs_tm (snd (Close hostManagerClose s))) = true.
Proof. unfold Close, tmStop. destruct (tm_stopped (cs_tm s)) eqn:E; exact E || reflexivity. Qed.

Section LifecycleProofs.
Variable APIs : Z -> Z.
Variable filterAPIs : Z -> result lc_err Z.
Variable hostManagerStart : Z -> result lc_err unit.
Variable loadPersist : result lc_err unit.
Variable hostManagerClose : option lc_err.
Variable FileSetOpen : Z -> result dl_err DxFileSnapshot.
Variable IsAbs : string -> bool.
Variable OpenFile : string -> result dl_err Z.
Variable newDownloadDestinationWriter : Z -> Z.
Variable httpWriterIsCloser : bool.
Variable closeDestination : Z -> option Z.

(** C38: on a client whose thread manager runs, [DownloadSync] and
    [DownloadAsync] do what [managedDownload] decides and nothing else.
    When it builds the download, its segments are queued and the result
    is [nil] for [DownloadAsync] and, for [DownloadSync], the error the
    completed download reports or the shutdown error; when it fails, the
    call returns that error and leaves the client as it was. In every
    case the thread manager is as before the call: the [Add] is matched
    by the deferred [Done]. *)
Theorem Download_threads_balanced p ev s :
  tm_stopped (cs_tm s) = false ->
  match managedDownload FileSetOpen IsAbs OpenFile newDownloadDestinationWriter httpWriterIsCloser
          closeDestination p with
  | Ok (d, us) =>
      DownloadSync FileSetOpen IsAbs OpenFile newDownloadDestinationWriter httpWriterIsCloser
        closeDestination p ev s =
        (match ev with
         | DownloadCompleted None => Ok tt
         | DownloadCompleted (Some code) => Err (ErrDownloadFailed code)
         | ThreadManagerStopped => Err ErrInterruptedByShutdown
         end, pushSegments us s) /\
      DownloadAsync FileSetOpen IsAbs OpenFile newDownloadDestinationWriter httpWriterIsCloser
        closeDestination p s = (Ok tt, pushSegments us s)
  | Err e =>
      DownloadSync FileSetOpen IsAbs OpenFile newDownloadDestinationWriter httpWriterIsCloser
        closeDestination p ev s = (Err (ErrDownloadPath e), s) /\
      DownloadAsync FileSetOpen IsAbs OpenFile newDownloadDestinationWriter httpWriterIsCloser
        closeDestination p s = (Err (ErrDownloadPath e), s)
  end.
Proof.
  intros Hs. unfold DownloadSync, DownloadAsync, withThread, tmAdd. rewrite Hs.
  unfold bindL, managedDownloadL.
  destruct (managedDownload _ _ _ _ _ _ _) as [[d us]|e];
    [destruct ev as [[code|]|]|]; cbn;
    destruct s as [? ? ? ? ? ? ? ? ? [st act on] ? ?]; cbn in Hs; subst st;
    split; reflexivity.
Qed.

(** C39: once [Close] has run, whatever the host manager's [Close]
    returned, [DownloadSync] and [DownloadAsync] fail with the thread
    manager's error and leave the client as it is: no file is opened and
    no segment is queued. *)
Theorem closed_client_refuses_downloads s p ev :
  let s' := snd (Close hostManagerClose s) in
  DownloadSync FileSetOpen IsAbs OpenFile newDownloadDestinationWriter httpWriterIsCloser
    closeDestination p ev s' = (Err ErrThreadStopped, s') /\
  DownloadAsync FileSetOpen IsAbs OpenFile newDownloadDestinationWriter httpWriterIsCloser
    closeDestination p s' = (Err ErrThreadStopped, s').
Proof. intros s'. split; apply withThread_stopped, Close_stopped. Qed.
(** C40: [Start] of the second version sets the backend in every case,
    before it tests the server; it succeeds exactly when the server is
    not nil and the API filter, the host manager's start and the loading
    of the persist file succeed, and only then activates the worker pool,
    starts the download loop and registers the killing of the workers;
    a failed [Start] leaves the download loop and the thread manager as
    they were. *)
Theorem Start_v2_outcome b server s :
  let '(r, s') := Start_v2 APIs filterAPIs hostManagerStart loadPersist b server s in
  cs_ethBackend s' = Some b /\
  (r = Ok tt <-> exists srv info, server = Some srv /\ filterAPIs (APIs b) = Ok info /\
                  hostManagerStart srv = Ok tt /\ loadPersist = Ok tt) /\
  (r = Ok tt -> cs_downloadLoopRunning s' = true /\ cs_workerPoolActive s' = true /\
                tm_onStop (cs_tm s') = tm_onStop (cs_tm s) ++ ["killWorkers"%string]) /\
  (r <> Ok tt -> cs_downloadLoopRunning s' = cs_downloadLoopRunning s /\ cs_tm s' = cs_tm s).
Proof.
  unfold Start_v2, startCommon, bindL, modifyL, liftL, failL.
  destruct server as [srv|]; cbn.
  - destruct (filterAPIs (APIs b)) as [info|e] eqn:Hf; cbn;
      [destruct (hostManagerStart srv) as [[]|e] eqn:Hh; cbn; [destruct loadPersist as [[]|e] eqn:Hl|]|];
      cbn; repeat split; try congruence;
      try (intros _; exists srv, info; auto);
      intros (? & ? & [= <-] & ? & ? & ?); congruence.
  - repeat split; try congruence. intros (? & ? & [=] & _).
Qed.
End LifecycleProofs.

(** ** A download on a running client

    The request for bytes [4, 10) of the ten-byte file [ex_file] on a
    client of the second version with two threads running. *)
Definition ex_client : ClientState :=
  {| cs_persistDir := "/dx"; cs_staticFilesDir := "/dx/files"; cs_ethBackend := Some 1;
     cs_p2pServer := Some 2; cs_info := Some 3; cs_hostManagerStarted := true;
     cs_persistLoaded := true; cs_workerPoolActive := true; cs_downloadLoopRunning := true;
     cs_tm := {| tm_stopped := false; tm_active := 2; tm_onStop := ["killWorkers"%string] |};
     cs_downloadHeap := Some []; cs_newDownloads := Some false |}.

Lemma Download_threads_balanced_witness :
  tm_stopped (cs_tm ex_client) = false /\
  match managedDownload (fun _ => Ok ex_file) (fun _ => true) (fun _ => Ok 0) (fun w => w) true
          (fun _ => None) (ex_request 4 0) with
  | Ok (d, us) =>
      DownloadSync (fun _ => Ok ex_file) (fun _ => true) (fun _ => Ok 0) (fun w => w) true
        (fun _ => None) (ex_request 4 0) (DownloadCompleted None) ex_client =
        (Ok tt, pushSegments us ex_client) /\
      DownloadAsync (fun _ => Ok ex_file) (fun _ => true) (fun _ => Ok 0) (fun w => w) true
        (fun _ => None) (ex_request 4 0) ex_client = (Ok tt, pushSegments us ex_client)
  | Err e =>
      DownloadSync (fun _ => Ok ex_file) (fun _ => true) (fun _ => Ok 0) (fun w => w) true
        (fun _ => None) (ex_request 4 0) (DownloadCompleted None) ex_client =
        (Err (ErrDownloadPath e), ex_client) /\
      DownloadAsync (fun _ => Ok ex_file) (fun _ => true) (fun _ => Ok 0) (fun w => w) true
        (fun _ => None) (ex_request 4 0) ex_client = (Err (ErrDownloadPath e), ex_client)
  end.
Proof.
  split; [reflexivity|].
  exact (Download_threads_balanced (fun _ => Ok ex_file) (fun _ => true) (fun _ => Ok 0) (fun w => w) true
           (fun _ => None) (ex_request 4 0) (DownloadCompleted None) ex_client eq_refl).
Defined.
